(** * Offline-first sync engine of the finance tracker: a shallow embedding

    The development follows the TypeScript sources:
    - [generateSyncId], [SyncService] (pull / resolve / push and the older
      one-pass [syncAll]) from the sync service,
    - [DatabaseService] (the local SQLite write path),
    - [SyncProvider.syncAll] (the three-phase cycle driven by the UI).

    Conventions of the embedding.
    - Timestamps.  The code carries ISO-8601 strings and compares them with
      [new Date(a) > new Date(b)]; a timestamp is modelled by its time value,
      an integer number of milliseconds ([Z]).  A nullable column is an
      [option].
    - Amounts are carried unchanged by the engine, only their truthiness is
      ever inspected; they are integers in the caller's unit.
    - [Math.random()] returns a double in the unit interval; multiplying it by
      4 or by 16 is exact in binary floating point, so a draw is modelled by a
      rational number and the range condition is a hypothesis where needed.
    - Effects (local store, remote store, clock, random source, request log)
      are threaded through a state-and-exception monad in which the effects
      performed before a [throw] persist, as they do in JavaScript. *)

From Stdlib Require Import ZArith QArith Qround List String Ascii Bool Lia.
Import ListNotations.

#[local] Open Scope list_scope.
#[local] Open Scope string_scope.
#[local] Open Scope Z_scope.

(* ================================================================== *)
(** ** JavaScript helpers *)
(* ================================================================== *)

Module Js.

(** [s || d] on a possibly undefined string: the empty string is falsy. *)
Definition or_str (s : option string) (d : string) : string :=
  match s with
  | Some x => if String.eqb x "" then d else x
  | None => d
  end.

(** [n || d] on a possibly undefined number: zero is falsy. *)
Definition or_num (n : option Z) (d : Z) : Z :=
  match n with
  | Some x => if x =? 0 then d else x
  | None => d
  end.

(** Truthiness of a possibly null string ([if (book.sync_id)]). *)
Definition truthy (s : option string) : bool :=
  match s with
  | Some x => negb (String.eqb x "")
  | None => false
  end.

(** [ToInt32] on a rational: truncate towards zero, then wrap to 32 bits
    (two's complement).  This is what the operand of [|] goes through. *)
Definition Qtrunc (q : Q) : Z :=
  if Qle_bool 0 q then Qfloor q else Qceiling q.

Definition wrap32 (z : Z) : Z :=
  let m := z mod 2 ^ 32 in
  if m <? 2 ^ 31 then m else m - 2 ^ 32.

Definition ToInt32 (q : Q) : Z := wrap32 (Qtrunc q).

(** [s[i]] appended to a string: indexing out of range yields [undefined],
    which [+=] renders as the text "undefined". *)
Definition char_at (s : string) (i : Z) : string :=
  match (if i <? 0 then None else String.get (Z.to_nat i) s) with
  | Some c => String c EmptyString
  | None => "undefined"
  end.

(** [haystack.includes(needle)] *)
Fixpoint includes (needle haystack : string) : bool :=
  if String.prefix needle haystack then true
  else match haystack with
       | EmptyString => false
       | String _ rest => includes needle rest
       end.

Definition lower_ascii (c : ascii) : ascii :=
  let n := nat_of_ascii c in
  if (Nat.leb 65 n && Nat.leb n 90)%bool then ascii_of_nat (n + 32) else c.

Fixpoint toLowerCase (s : string) : string :=
  match s with
  | EmptyString => EmptyString
  | String c rest => String (lower_ascii c) (toLowerCase rest)
  end.

End Js.

(* ================================================================== *)
(** ** Identity mapper: [generateSyncId] *)
(* ================================================================== *)

Module Uuid.

Definition hex : string := "0123456789abcdef".

(** The random source: the [k]-th call of [Math.random()]. *)
Definition RandomSource := nat -> Q.

(** [hex[Math.floor(Math.random() * 16)]] and
    [hex[(Math.random() * 4) | 8]] for a draw [r]. *)
Definition hex_digit (r : Q) : string :=
  Js.char_at hex (Qfloor (r * 16)%Q).

Definition variant_digit (r : Q) : string :=
  Js.char_at hex (Z.lor (Js.ToInt32 (r * 4)%Q) 8).

(** The body of [for (let i = 0; i < 36; i++)], with the loop counter [i],
    the number [k] of draws made so far and the string built so far.  The
    loop runs exactly 36 times, which is the fuel. *)
Fixpoint gen_loop (rnd : RandomSource) (fuel : nat) (i : Z) (k : nat)
  (uuid : string) : string * nat :=
  match fuel with
  | O => (uuid, k)
  | S fuel' =>
      if (i =? 8) || (i =? 13) || (i =? 18) || (i =? 23) then
        gen_loop rnd fuel' (i + 1) k (uuid ++ "-")
      else if i =? 14 then
        gen_loop rnd fuel' (i + 1) k (uuid ++ "4")
      else if i =? 19 then
        gen_loop rnd fuel' (i + 1) (S k) (uuid ++ variant_digit (rnd k))
      else
        gen_loop rnd fuel' (i + 1) (S k) (uuid ++ hex_digit (rnd k))
  end.

(** [generateSyncId(localId)]: the argument is not used by the body.  The
    result is the identifier together with the number of draws consumed. *)
Definition generateSyncId (rnd : RandomSource) (localId : Z) (k : nat)
  : string * nat :=
  gen_loop rnd 36 0 k "".

Definition is_lower_hex (c : ascii) : bool :=
  let n := nat_of_ascii c in
  ((Nat.leb 48 n && Nat.leb n 57) || (Nat.leb 97 n && Nat.leb n 102))%bool.

Definition is_variant (c : ascii) : bool :=
  (Ascii.eqb c "8" || Ascii.eqb c "9" || Ascii.eqb c "a" || Ascii.eqb c "b")%bool.

Definition hyphen_pos (i : nat) : bool :=
  (Nat.eqb i 8 || Nat.eqb i 13 || Nat.eqb i 18 || Nat.eqb i 23)%bool.

(** The shape the identifier is meant to have, position by position. *)
Definition shape_at (i : nat) (c : ascii) : bool :=
  if hyphen_pos i then Ascii.eqb c "-"
  else if Nat.eqb i 14 then Ascii.eqb c "4"
  else if Nat.eqb i 19 then is_variant c
  else is_lower_hex c.

End Uuid.

(* ================================================================== *)
(** ** Local record store: the SQLite tables and the statements run on them *)
(* ================================================================== *)

Module LocalStore.

(** A cell of the [transactions.book_id] column.  The column is declared
    INTEGER and normally holds the rowid of a local book; the pull path binds
    the remote book's text identifier to it, which SQLite stores as text
    (identifiers are UUID-shaped, never numerals). *)
Inductive BookRef :=
| LocalRef (id : Z)
| RemoteRef (sync_id : string).

Record BookRow := mkBook {
  b_id : Z;
  b_name : string;
  b_created_at : Z;
  b_updated_at : option Z;
  b_synced : Z;
  b_sync_id : option string;
  b_is_dirty : Z;
  b_deleted : Z }.

Record TxRow := mkTx {
  t_id : Z;
  t_book_id : BookRef;
  t_type : string;
  t_amount : Z;
  t_note : option string;
  t_category : option string;
  t_created_at : Z;
  t_updated_at : option Z;
  t_synced : Z;
  t_sync_id : option string;
  t_is_dirty : Z;
  t_deleted : Z }.

(** Column assignments ([SET col = v]). *)
Definition set_b_name v b :=
  mkBook (b_id b) v (b_created_at b) (b_updated_at b) (b_synced b)
    (b_sync_id b) (b_is_dirty b) (b_deleted b).
Definition set_b_updated_at v b :=
  mkBook (b_id b) (b_name b) (b_created_at b) v (b_synced b)
    (b_sync_id b) (b_is_dirty b) (b_deleted b).
Definition set_b_synced v b :=
  mkBook (b_id b) (b_name b) (b_created_at b) (b_updated_at b) v
    (b_sync_id b) (b_is_dirty b) (b_deleted b).
Definition set_b_sync_id v b :=
  mkBook (b_id b) (b_name b) (b_created_at b) (b_updated_at b) (b_synced b)
    v (b_is_dirty b) (b_deleted b).
Definition set_b_deleted v b :=
  mkBook (b_id b) (b_name b) (b_created_at b) (b_updated_at b) (b_synced b)
    (b_sync_id b) (b_is_dirty b) v.

Definition set_t_book_id v t :=
  mkTx (t_id t) v (t_type t) (t_amount t) (t_note t) (t_category t)
    (t_created_at t) (t_updated_at t) (t_synced t) (t_sync_id t)
    (t_is_dirty t) (t_deleted t).
Definition set_t_type v t :=
  mkTx (t_id t) (t_book_id t) v (t_amount t) (t_note t) (t_category t)
    (t_created_at t) (t_updated_at t) (t_synced t) (t_sync_id t)
    (t_is_dirty t) (t_deleted t).
Definition set_t_amount v t :=
  mkTx (t_id t) (t_book_id t) (t_type t) v (t_note t) (t_category t)
    (t_created_at t) (t_updated_at t) (t_synced t) (t_sync_id t)
    (t_is_dirty t) (t_deleted t).
Definition set_t_note v t :=
  mkTx (t_id t) (t_book_id t) (t_type t) (t_amount t) v (t_category t)
    (t_created_at t) (t_updated_at t) (t_synced t) (t_sync_id t)
    (t_is_dirty t) (t_deleted t).
Definition set_t_category v t :=
  mkTx (t_id t) (t_book_id t) (t_type t) (t_amount t) (t_note t) v
    (t_created_at t) (t_updated_at t) (t_synced t) (t_sync_id t)
    (t_is_dirty t) (t_deleted t).
Definition set_t_updated_at v t :=
  mkTx (t_id t) (t_book_id t) (t_type t) (t_amount t) (t_note t)
    (t_category t) (t_created_at t) v (t_synced t) (t_sync_id t)
    (t_is_dirty t) (t_deleted t).
Definition set_t_synced v t :=
  mkTx (t_id t) (t_book_id t) (t_type t) (t_amount t) (t_note t)
    (t_category t) (t_created_at t) (t_updated_at t) v (t_sync_id t)
    (t_is_dirty t) (t_deleted t).
Definition set_t_sync_id v t :=
  mkTx (t_id t) (t_book_id t) (t_type t) (t_amount t) (t_note t)
    (t_category t) (t_created_at t) (t_updated_at t) (t_synced t) v
    (t_is_dirty t) (t_deleted t).
Definition set_t_deleted v t :=
  mkTx (t_id t) (t_book_id t) (t_type t) (t_amount t) (t_note t)
    (t_category t) (t_created_at t) (t_updated_at t) (t_synced t)
    (t_sync_id t) (t_is_dirty t) v.

(** What the two tables have in common: an INTEGER PRIMARY KEY AUTOINCREMENT
    [id], and a [sync_id TEXT UNIQUE]. *)
Class RowLike (R : Type) := {
  row_id : R -> Z;
  row_sync : R -> option string }.

#[export] Instance BookRowLike : RowLike BookRow :=
  {| row_id := b_id; row_sync := b_sync_id |}.
#[export] Instance TxRowLike : RowLike TxRow :=
  {| row_id := t_id; row_sync := t_sync_id |}.

(** A table: its rows in rowid order and the AUTOINCREMENT high-water mark
    kept in [sqlite_sequence]. *)
Record Table (R : Type) := mkTable {
  rows : list R;
  seq : Z }.
Arguments mkTable {R} _ _.
Arguments rows {R} _.
Arguments seq {R} _.

Section Statements.

Context {R : Type} `{RowLike R}.

Definition has_id (i : Z) (r : R) : bool := row_id r =? i.

Definition has_sync (s : string) (r : R) : bool :=
  match row_sync r with
  | Some x => String.eqb x s
  | None => false
  end.

(** [SELECT * FROM t WHERE id = ?] and [... WHERE sync_id = ?] through
    [getFirstAsync]. *)
Definition first_by_id (i : Z) (t : Table R) : option R :=
  find (has_id i) (rows t).

Definition first_by_sync (s : string) (t : Table R) : option R :=
  find (has_sync s) (rows t).

(** [UPDATE t SET ... WHERE <p>] for assignments that touch neither [id] nor
    a constrained column. *)
Definition update_where (p : R -> bool) (f : R -> R) (t : Table R) : Table R :=
  mkTable (map (fun r => if p r then f r else r) (rows t)) (seq t).

(** The rowid AUTOINCREMENT hands out next: one more than the largest rowid
    ever used. *)
Definition next_rowid (t : Table R) : Z :=
  fold_right Z.max (seq t) (map row_id (rows t)) + 1.

(** [INSERT INTO t (...) VALUES (...)] of a row built from its fresh rowid. *)
Definition insert (mk : Z -> R) (t : Table R) : Table R :=
  let i := next_rowid t in
  mkTable (rows t ++ [mk i])%list i.

(** [INSERT OR REPLACE INTO t (..., sync_id) VALUES (..., s)]: the rows that
    would violate UNIQUE(sync_id) are deleted first. *)
Definition insert_or_replace (s : string) (mk : Z -> R) (t : Table R)
  : Table R :=
  let i := next_rowid t in
  mkTable (filter (fun r => negb (has_sync s r)) (rows t) ++ [mk i])%list i.

(** UNIQUE(sync_id) for [UPDATE t SET sync_id = s WHERE id = i]: the
    statement fails when it changes a row and another row holds [s]. *)
Definition sync_conflict (s : string) (i : Z) (t : Table R) : bool :=
  existsb (has_id i) (rows t)
  && existsb (fun r => negb (has_id i r) && has_sync s r) (rows t).

End Statements.

(** The user's database.  [foreign_keys] records whether the driver accepted
    [PRAGMA foreign_keys = ON] when the database was opened. *)
Record DB := mkDB {
  books : Table BookRow;
  transactions : Table TxRow;
  user_preferences : list (string * Z);
  foreign_keys : bool }.

Definition set_books v d :=
  mkDB v (transactions d) (user_preferences d) (foreign_keys d).
Definition set_transactions v d :=
  mkDB (books d) v (user_preferences d) (foreign_keys d).
Definition set_user_preferences v d :=
  mkDB (books d) (transactions d) v (foreign_keys d).

(** FOREIGN KEY (book_id) REFERENCES books(id), checked when a statement
    writes [book_id]. *)
Definition fk_ok (d : DB) (ref : BookRef) : bool :=
  negb (foreign_keys d)
  || match ref with
     | LocalRef i => existsb (has_id i) (rows (books d))
     | RemoteRef _ => false
     end.

(** [SELECT value FROM user_preferences WHERE key = ?] *)
Fixpoint pref_get (key : string) (ps : list (string * Z)) : option Z :=
  match ps with
  | [] => None
  | (k, v) :: rest => if String.eqb k key then Some v else pref_get key rest
  end.

(** The update-or-insert of [setUserPreference]. *)
Fixpoint pref_update (key : string) (v : Z) (ps : list (string * Z))
  : list (string * Z) :=
  match ps with
  | [] => []
  | (k, x) :: rest =>
      (k, if String.eqb k key then v else x) :: pref_update key v rest
  end.

Definition pref_set (key : string) (v : Z) (ps : list (string * Z))
  : list (string * Z) :=
  match pref_get key ps with
  | Some _ => pref_update key v ps
  | None => (ps ++ [(key, v)])%list
  end.

(** The dirty set: [WHERE synced = 0 OR sync_id IS NULL]. *)
Definition book_unsynced (b : BookRow) : bool :=
  (b_synced b =? 0)
  || match b_sync_id b with None => true | Some _ => false end.

Definition tx_unsynced (t : TxRow) : bool :=
  (t_synced t =? 0)
  || match t_sync_id t with None => true | Some _ => false end.

(** [LEFT JOIN books b ON t.book_id = b.id], projected on [b.sync_id]. *)
Definition book_sync_id_of (d : DB) (t : TxRow) : option string :=
  match t_book_id t with
  | LocalRef i =>
      match first_by_id i (books d) with
      | Some b => b_sync_id b
      | None => None
      end
  | RemoteRef _ => None
  end.

(** The timestamp the engine reads off a row:
    [row.updated_at || row.created_at]. *)
Definition book_updated (b : BookRow) : Z :=
  match b_updated_at b with Some u => u | None => b_created_at b end.

Definition tx_updated (t : TxRow) : Z :=
  match t_updated_at t with Some u => u | None => t_created_at t end.

End LocalStore.

(* ================================================================== *)
(** ** Remote gateway: the requests the engine sends through the client *)
(* ================================================================== *)

Module Remote.

(** Rows of the remote schema ([Database.public.Tables.*.Row]). *)
Record RBook := mkRBook {
  rb_id : string;
  rb_user_id : string;
  rb_name : string;
  rb_created_at : Z;
  rb_updated_at : Z;
  rb_deleted : bool }.

Record RTx := mkRTx {
  rt_id : string;
  rt_user_id : string;
  rt_book_id : string;
  rt_type : string;
  rt_amount : Z;
  rt_note : option string;
  rt_category : option string;
  rt_created_at : Z;
  rt_updated_at : Z;
  rt_deleted : bool }.

(** The objects passed to [insert] and [upsert].  [deleted] is optional: the
    one-pass sync does not send it. *)
Record BookPayload := mkBookPayload {
  bp_id : string;
  bp_user_id : string;
  bp_name : string;
  bp_created_at : Z;
  bp_updated_at : Z;
  bp_deleted : option bool }.

Record TxPayload := mkTxPayload {
  tp_id : string;
  tp_user_id : string;
  tp_book_id : string;
  tp_type : string;
  tp_amount : Z;
  tp_note : option string;
  tp_category : option string;
  tp_created_at : Z;
  tp_updated_at : Z;
  tp_deleted : option bool }.

Record PgError := mkPgError { message : string }.

(** The [{ data, error }] pair every request resolves to. *)
Record Response (A : Type) := mkResponse {
  data : option A;
  error : option PgError }.
Arguments mkResponse {A} _ _.
Arguments data {A} _.
Arguments error {A} _.

(** The client, as far as the engine uses it.  [G] is the state of whatever
    is behind it (the remote tables, the network); each request may change
    it and answers with a response.  Nothing is assumed about the answers.
    - [books_select u c]:
      [from("books").select("*").eq("user_id", u).gt("updated_at", c)]
    - [books_find u n]:
      [from("books").select("id").eq("user_id", u).eq("name", n).maybeSingle()],
      the data being the [id] of the row found
    - [books_insert p], [books_upsert p]: [from("books").insert(p).select()]
      and [from("books").upsert(p).select()]
    - likewise for transactions. *)
Record Gateway (G : Type) := mkGateway {
  books_select : string -> Z -> G -> Response (list RBook) * G;
  books_find : string -> string -> G -> Response string * G;
  books_insert : BookPayload -> G -> Response (list RBook) * G;
  books_upsert : BookPayload -> G -> Response (list RBook) * G;
  transactions_select : string -> Z -> G -> Response (list RTx) * G;
  transactions_insert : TxPayload -> G -> Response (list RTx) * G;
  transactions_upsert : TxPayload -> G -> Response (list RTx) * G }.
Arguments books_select {G} _ _ _ _.
Arguments books_find {G} _ _ _ _.
Arguments books_insert {G} _ _ _.
Arguments books_upsert {G} _ _ _.
Arguments transactions_select {G} _ _ _ _.
Arguments transactions_insert {G} _ _ _.
Arguments transactions_upsert {G} _ _ _.

(** [.single()] applied to a response carrying rows: exactly one row is
    required. *)
Definition single {A : Type} (r : Response (list A)) : Response A :=
  match error r, data r with
  | Some e, _ => mkResponse None (Some e)
  | None, Some [x] => mkResponse (Some x) None
  | None, _ =>
      mkResponse None
        (Some (mkPgError "JSON object requested, multiple (or no) rows returned"))
  end.

(** *** A reference gateway: the tables of [supabase_schema.sql] held in
    memory, always reachable.  [id] is the primary key of both tables,
    [transactions.book_id] references [books(id)], and [deleted] defaults to
    false. *)
Record PgState := mkPg {
  pg_books : list RBook;
  pg_transactions : list RTx }.

Definition ok {A : Type} (x : A) : Response A := mkResponse (Some x) None.
Definition failed {A : Type} (msg : string) : Response A :=
  mkResponse None (Some (mkPgError msg)).

Definition book_of_payload (p : BookPayload) (old : option RBook) : RBook :=
  mkRBook (bp_id p) (bp_user_id p) (bp_name p) (bp_created_at p)
    (bp_updated_at p)
    (match bp_deleted p, old with
     | Some d, _ => d
     | None, Some o => rb_deleted o
     | None, None => false
     end).

Definition tx_of_payload (p : TxPayload) (old : option RTx) : RTx :=
  mkRTx (tp_id p) (tp_user_id p) (tp_book_id p) (tp_type p) (tp_amount p)
    (tp_note p) (tp_category p) (tp_created_at p) (tp_updated_at p)
    (match tp_deleted p, old with
     | Some d, _ => d
     | None, Some o => rt_deleted o
     | None, None => false
     end).

Definition pg_books_select (u : string) (c : Z) (g : PgState) :=
  (ok (filter (fun r => String.eqb (rb_user_id r) u && (c <? rb_updated_at r))
         (pg_books g)), g).

Definition pg_books_find (u n : string) (g : PgState)
  : Response string * PgState :=
  match filter (fun r => String.eqb (rb_user_id r) u
                         && String.eqb (rb_name r) n) (pg_books g) with
  | [] => (mkResponse None None, g)
  | [r] => (ok (rb_id r), g)
  | _ => (failed "JSON object requested, multiple (or no) rows returned", g)
  end.

Definition pg_books_insert (p : BookPayload) (g : PgState) :=
  if existsb (fun r => String.eqb (rb_id r) (bp_id p)) (pg_books g) then
    (failed "duplicate key value violates unique constraint", g)
  else
    let r := book_of_payload p None in
    (ok [r], mkPg (pg_books g ++ [r])%list (pg_transactions g)).

Definition pg_books_upsert (p : BookPayload) (g : PgState) :=
  match find (fun r => String.eqb (rb_id r) (bp_id p)) (pg_books g) with
  | Some old =>
      let r := book_of_payload p (Some old) in
      (ok [r],
       mkPg (map (fun x => if String.eqb (rb_id x) (bp_id p) then r else x)
               (pg_books g)) (pg_transactions g))
  | None =>
      let r := book_of_payload p None in
      (ok [r], mkPg (pg_books g ++ [r])%list (pg_transactions g))
  end.

Definition pg_transactions_select (u : string) (c : Z) (g : PgState) :=
  (ok (filter (fun r => String.eqb (rt_user_id r) u && (c <? rt_updated_at r))
         (pg_transactions g)), g).

Definition pg_book_exists (id : string) (g : PgState) : bool :=
  existsb (fun r => String.eqb (rb_id r) id) (pg_books g).

Definition pg_transactions_insert (p : TxPayload) (g : PgState) :=
  if existsb (fun r => String.eqb (rt_id r) (tp_id p)) (pg_transactions g) then
    (failed "duplicate key value violates unique constraint", g)
  else if negb (pg_book_exists (tp_book_id p) g) then
    (failed "insert or update violates foreign key constraint", g)
  else
    let r := tx_of_payload p None in
    (ok [r], mkPg (pg_books g) (pg_transactions g ++ [r])%list).

Definition pg_transactions_upsert (p : TxPayload) (g : PgState) :=
  if negb (pg_book_exists (tp_book_id p) g) then
    (failed "insert or update violates foreign key constraint", g)
  else
    match find (fun r => String.eqb (rt_id r) (tp_id p)) (pg_transactions g) with
    | Some old =>
        let r := tx_of_payload p (Some old) in
        (ok [r],
         mkPg (pg_books g)
           (map (fun x => if String.eqb (rt_id x) (tp_id p) then r else x)
              (pg_transactions g)))
    | None =>
        let r := tx_of_payload p None in
        (ok [r], mkPg (pg_books g) (pg_transactions g ++ [r])%list)
    end.

Definition pg : Gateway PgState :=
  mkGateway PgState pg_books_select pg_books_find pg_books_insert
    pg_books_upsert pg_transactions_select pg_transactions_insert
    pg_transactions_upsert.

End Remote.

(* ================================================================== *)
(** ** Effects: the world the services run in *)
(* ================================================================== *)

Module Eff.

Import LocalStore Remote.

(** What can be thrown: an [Error] built by the code, an error object handed
    back by the client and re-thrown, a statement rejected by SQLite. *)
Inductive Exn :=
| JsError (msg : string)
| PgThrown (e : PgError)
| SqliteError (msg : string).

(** [String(e?.message || e)] *)
Definition exn_message (e : Exn) : string :=
  match e with
  | JsError m => Js.or_str (Some m) "Error"
  | PgThrown p => Js.or_str (Some (message p)) "[object Object]"
  | SqliteError m => Js.or_str (Some m) "Error"
  end.

(** What leaves the engine.  A write request is recorded with the rowid of
    the local row it was built from. *)
Inductive Event :=
| ReqSelectBooks (user : string) (after : Z)
| ReqSelectTransactions (user : string) (after : Z)
| ReqFindBook (user name : string)
| ReqInsertBook (local_id : Z) (p : BookPayload)
| ReqUpsertBook (local_id : Z) (p : BookPayload)
| ReqInsertTransaction (local_id : Z) (p : TxPayload)
| ReqUpsertTransaction (local_id : Z) (p : TxPayload)
| LocalWrite (table : string)
| Emit (name : string).

(** The world: the local database, the state behind the gateway, the device
    clock ([clock k] is what the [k]-th [new Date()] reads), the random
    source, and the events so far (most recent last). *)
Record World (G : Type) := mkWorld {
  db : DB;
  remote : G;
  clock : nat -> Z;
  ticks : nat;
  random : Uuid.RandomSource;
  draws : nat;
  log : list Event }.
Arguments mkWorld {G} _ _ _ _ _ _ _.
Arguments db {G} _.
Arguments remote {G} _.
Arguments clock {G} _.
Arguments ticks {G} _.
Arguments random {G} _.
Arguments draws {G} _.
Arguments log {G} _.

Section Monad.

Context {G : Type}.

Definition set_db (d : DB) (w : World G) : World G :=
  mkWorld d (remote w) (clock w) (ticks w) (random w) (draws w) (log w).
Definition set_remote (g : G) (w : World G) : World G :=
  mkWorld (db w) g (clock w) (ticks w) (random w) (draws w) (log w).
Definition set_ticks (n : nat) (w : World G) : World G :=
  mkWorld (db w) (remote w) (clock w) n (random w) (draws w) (log w).
Definition set_draws (n : nat) (w : World G) : World G :=
  mkWorld (db w) (remote w) (clock w) (ticks w) (random w) n (log w).
Definition record (e : Event) (w : World G) : World G :=
  mkWorld (db w) (remote w) (clock w) (ticks w) (random w) (draws w)
    (log w ++ [e])%list.

(** An [async] computation: it ends with a value or a thrown exception, and
    in both cases with the world as it left it. *)
Definition M (A : Type) : Type := World G -> (A + Exn) * World G.

Definition ret {A : Type} (a : A) : M A := fun w => (inl a, w).

Definition bind {A B : Type} (m : M A) (k : A -> M B) : M B :=
  fun w =>
    match m w with
    | (inl a, w') => k a w'
    | (inr e, w') => (inr e, w')
    end.

Definition throw {A : Type} (e : Exn) : M A := fun w => (inr e, w).

(** [try { m } catch (e) { h e }] *)
Definition try_catch {A : Type} (m : M A) (h : Exn -> M A) : M A :=
  fun w =>
    match m w with
    | (inl a, w') => (inl a, w')
    | (inr e, w') => h e w'
    end.

(** [for (const x of xs) { body x }] *)
Fixpoint forM_ {A : Type} (xs : list A) (body : A -> M unit) : M unit :=
  match xs with
  | [] => ret tt
  | x :: rest => bind (body x) (fun _ => forM_ rest body)
  end.

(** The same loop when the body also updates a local variable. *)
Fixpoint foldM {A B : Type} (body : B -> A -> M B) (xs : list A) (acc : B)
  : M B :=
  match xs with
  | [] => ret acc
  | x :: rest => bind (body acc x) (fun acc' => foldM body rest acc')
  end.

(** [new Date().toISOString()] *)
Definition now : M Z :=
  fun w => (inl (clock w (ticks w)), set_ticks (S (ticks w)) w).

(** [generateSyncId(localId)], drawing from the world's random source. *)
Definition generateSyncId (localId : Z) : M string :=
  fun w =>
    let '(s, k) := Uuid.generateSyncId (random w) localId (draws w) in
    (inl s, set_draws k w).

Definition emit (e : Event) : M unit := fun w => (inl tt, record e w).

(** A request through the client: it is recorded, then answered. *)
Definition request {A : Type} (e : Event) (op : G -> Response A * G)
  : M (Response A) :=
  fun w =>
    let '(r, g) := op (remote w) in
    (inl r, set_remote g (record e w)).

(** [db.getFirstAsync] / [db.getAllAsync] *)
Definition query {A : Type} (q : DB -> A) : M A := fun w => (inl (q (db w)), w).

(** [db.runAsync] of a writing statement on [table]: the statement either
    rejects or yields the new database and [lastInsertRowId]. *)
Definition runAsync (table : string) (stmt : DB -> DB * Z + Exn) : M Z :=
  fun w =>
    match stmt (db w) with
    | inl (d, rowid) => (inl rowid, set_db d (record (LocalWrite table) w))
    | inr e => (inr e, record (LocalWrite table) w)
    end.

End Monad.

Module Notations.
Notation "x <- m ;; k" := (bind m (fun x => k))
  (at level 61, m at next level, right associativity).
Notation "m ;;; k" := (bind m (fun _ => k))
  (at level 61, right associativity).
End Notations.

(** *** The statements, as functions on the database *)

Definition on_books (f : Table BookRow -> Table BookRow) (d : DB)
  : DB * Z + Exn :=
  inl (set_books (f (books d)) d, 0).

Definition on_transactions (f : Table TxRow -> Table TxRow) (d : DB)
  : DB * Z + Exn :=
  inl (set_transactions (f (transactions d)) d, 0).

(** [UPDATE books SET ..., sync_id = ? WHERE id = ?], the other assignments
    being [f]. *)
Definition books_write_sync (s : string) (i : Z) (f : BookRow -> BookRow)
  (d : DB) : DB * Z + Exn :=
  if sync_conflict s i (books d) then
    inr (SqliteError "UNIQUE constraint failed: books.sync_id")
  else
    on_books (update_where (has_id i) (fun b => set_b_sync_id (Some s) (f b))) d.

(** [UPDATE transactions SET ..., sync_id = ? WHERE id = ?] *)
Definition transactions_write_sync (s : string) (i : Z) (f : TxRow -> TxRow)
  (d : DB) : DB * Z + Exn :=
  if sync_conflict s i (transactions d) then
    inr (SqliteError "UNIQUE constraint failed: transactions.sync_id")
  else
    on_transactions
      (update_where (has_id i) (fun t => set_t_sync_id (Some s) (f t))) d.

(** A statement on [transactions] that writes [book_id = ref] in the rows
    selected by [p]. *)
Definition transactions_write_ref (ref : BookRef) (p : TxRow -> bool)
  (f : Table TxRow -> Table TxRow) (d : DB) : DB * Z + Exn :=
  if existsb p (rows (transactions d)) && negb (fk_ok d ref) then
    inr (SqliteError "FOREIGN KEY constraint failed")
  else on_transactions f d.

(** An INSERT into [transactions] of a row referring to [ref]. *)
Definition transactions_insert_ref (ref : BookRef)
  (f : Table TxRow -> Table TxRow) (d : DB) : DB * Z + Exn :=
  if negb (fk_ok d ref) then
    inr (SqliteError "FOREIGN KEY constraint failed")
  else
    inl (set_transactions (f (transactions d)) d,
         seq (f (transactions d))).

Definition books_insert_row (f : Table BookRow -> Table BookRow) (d : DB)
  : DB * Z + Exn :=
  inl (set_books (f (books d)) d, seq (f (books d))).

Definition prefs_set (key : string) (v : Z) (d : DB) : DB * Z + Exn :=
  inl (set_user_preferences (pref_set key v (user_preferences d)) d, 0).

End Eff.

(* ================================================================== *)
(** ** [DatabaseService]: the write path of the local record store *)
(* ================================================================== *)

Module DatabaseService.

Import LocalStore Remote Eff Eff.Notations.

(** The objects the CRUD methods resolve to ([Book], [Transaction]). *)
Record Book := mkBookView {
  id : Z;
  name : string;
  created_at : Z;
  is_dirty : bool }.

Record Transaction := mkTxView {
  tx_id : Z;
  tx_book_id : Z;
  tx_type : string;
  tx_amount : Z;
  tx_note : string;
  tx_category : string;
  tx_created_at : Z;
  tx_is_dirty : bool }.

Section WithRemote.

Context {G : Type}.

(** [openUserDB]: the user's database is open and migrated to the current
    schema version; [closeDatabase] is followed by a reopen of the same
    file.  Neither changes the tables. *)
Definition openUserDB (userId : string) : M (G := G) unit := ret tt.
Definition closeDatabase : M (G := G) unit := ret tt.

(** The test guarding the reopen-and-retry of the CRUD methods. *)
Definition retryable (e : Exn) : bool :=
  let msg := exn_message e in
  Js.includes "prepareAsync" msg
  || Js.includes "execAsync" msg
  || Js.includes "nullpointer" (Js.toLowerCase msg).

(** [try { return await attempt() } catch (e) { if (...) { close; return
    await attempt() } throw e }] *)
Definition retry_once {A : Type} (attempt : M (G := G) A) : M A :=
  try_catch attempt (fun e =>
    if retryable e then
      try_catch closeDatabase (fun _ => ret tt) ;;;
      attempt
    else throw e).

(** The variant with a second, later retry. *)
Definition retry_twice {A : Type} (attempt : M (G := G) A) : M A :=
  try_catch attempt (fun e =>
    if retryable e then
      try_catch closeDatabase (fun _ => ret tt) ;;;
      try_catch attempt (fun _ =>
        try_catch closeDatabase (fun _ => ret tt) ;;;
        attempt)
    else throw e).

(** [INSERT INTO books (name, created_at, is_dirty) VALUES (?, ?, 1)]: the
    other columns take their defaults ([updated_at] NULL, [synced] 0,
    [sync_id] NULL, [deleted] 0). *)
Definition createBook (userId : string) (name : string) : M (G := G) Book :=
  created_at <- now ;;
  retry_once (
    openUserDB userId ;;;
    rowid <- runAsync "books"
      (books_insert_row
         (insert (fun i => mkBook i name created_at None 0 None 1 0))) ;;
    ret (mkBookView rowid name created_at true)).

(** [UPDATE books SET name = ?, updated_at = ?, synced = 0 WHERE id = ?] *)
Definition updateBook (userId : string) (bookId : Z) (name : string)
  : M (G := G) Book :=
  retry_once (
    openUserDB userId ;;;
    t <- now ;;
    runAsync "books"
      (on_books (update_where (has_id bookId)
         (fun b => set_b_synced 0 (set_b_updated_at (Some t)
                     (set_b_name name b))))) ;;;
    ret (mkBookView bookId name t true)).

(** Soft delete of a book and of its transactions:
    [UPDATE books SET deleted = 1, synced = 0, updated_at = ? WHERE id = ?]
    then
    [UPDATE transactions SET deleted = 1, synced = 0, updated_at = ?
     WHERE book_id = ?]. *)
Definition of_book (bookId : Z) (t : TxRow) : bool :=
  match t_book_id t with
  | LocalRef i => i =? bookId
  | RemoteRef _ => false
  end.

Definition deleteBook (userId : string) (bookId : Z) : M (G := G) unit :=
  retry_twice (
    openUserDB userId ;;;
    t <- now ;;
    runAsync "books"
      (on_books (update_where (has_id bookId)
         (fun b => set_b_updated_at (Some t) (set_b_synced 0
                     (set_b_deleted 1 b))))) ;;;
    runAsync "transactions"
      (on_transactions (update_where (of_book bookId)
         (fun x => set_t_updated_at (Some t) (set_t_synced 0
                     (set_t_deleted 1 x))))) ;;;
    ret tt).

(** [INSERT INTO transactions (book_id, type, amount, note, category,
    created_at, is_dirty) VALUES (?, ?, ?, ?, ?, ?, 1)]; [note] and
    [category] may be undefined and are then stored as empty strings. *)
Definition addTransaction (userId : string) (bookId : Z) (type : string)
  (amount : Z) (note category : option string) : M (G := G) Transaction :=
  created_at <- now ;;
  let safeNote := match note with Some n => n | None => "" end in
  let safeCategory := match category with Some c => c | None => "" end in
  retry_twice (
    openUserDB userId ;;;
    lastId <- runAsync "transactions"
      (transactions_insert_ref (LocalRef bookId)
         (insert (fun i =>
            mkTx i (LocalRef bookId) type amount (Some safeNote)
              (Some safeCategory) created_at None 0 None 1 0))) ;;
    ret (mkTxView lastId bookId type amount safeNote safeCategory
           created_at true)).

(** [UPDATE transactions SET type = ?, amount = ?, note = ?, category = ?,
    updated_at = ?, synced = 0 WHERE id = ?], then the row is read back. *)
Definition updateTransaction (userId : string) (transactionId : Z)
  (type : string) (amount : Z) (note category : option string)
  : M (G := G) (option TxRow) :=
  updated_at <- now ;;
  let safeNote := match note with Some n => n | None => "" end in
  let safeCategory := match category with Some c => c | None => "" end in
  retry_twice (
    openUserDB userId ;;;
    runAsync "transactions"
      (on_transactions (update_where (has_id transactionId)
         (fun x => set_t_synced 0 (set_t_updated_at (Some updated_at)
                     (set_t_category (Some safeCategory)
                        (set_t_note (Some safeNote)
                           (set_t_amount amount (set_t_type type x)))))))) ;;;
    query (fun d => first_by_id transactionId (transactions d))).

(** [UPDATE transactions SET deleted = 1, synced = 0, updated_at = ?
    WHERE id = ?] *)
Definition deleteTransaction (userId : string) (transactionId : Z)
  : M (G := G) unit :=
  openUserDB userId ;;;
  t <- now ;;
  runAsync "transactions"
    (on_transactions (update_where (has_id transactionId)
       (fun x => set_t_updated_at (Some t) (set_t_synced 0
                   (set_t_deleted 1 x))))) ;;;
  ret tt.

(** [setUserPreference]: update the row of [key] or insert it.  The method
    reads the clock once for the row's own timestamps. *)
Definition setUserPreference (userId : string) (key : string) (value : Z)
  : M (G := G) unit :=
  now ;;;
  openUserDB userId ;;;
  runAsync "user_preferences" (prefs_set key value) ;;;
  ret tt.

Definition getUserPreference (userId : string) (key : string)
  : M (G := G) (option Z) :=
  openUserDB userId ;;;
  query (fun d => pref_get key (user_preferences d)).

End WithRemote.

End DatabaseService.

(* ================================================================== *)
(** ** [SyncService] *)
(* ================================================================== *)

Module SyncService.

Import LocalStore Remote Eff Eff.Notations.

(** A conflict found by a pull.  [type] is ['book'] or ['transaction']
    according to the data carried. *)
Inductive ConflictData :=
| BookData (localData : BookRow) (remoteData : RBook)
| TxData (localData : TxRow) (remoteData : RTx).

Record Conflict := mkConflict {
  localId : Z;
  remoteId : string;
  cdata : ConflictData;
  localUpdated : Z;
  remoteUpdated : Z }.

Record PullResult := mkPullResult {
  hasNewData : bool;
  booksCount : Z;
  transactionsCount : Z;
  conflicts : list Conflict }.

(** The [fields] argument of [updateTransaction]: every property may be
    left out. *)
Record TxFields := mkTxFields {
  f_type : option string;
  f_amount : option Z;
  f_note : option string;
  f_category : option string }.

(** SQL [COALESCE(?, col)] on a bound parameter. *)
Definition COALESCE {A : Type} (param : option A) (col : A) : A :=
  match param with
  | Some v => v
  | None => col
  end.

(** The same for a nullable column. *)
Definition COALESCE_null {A : Type} (param : option A) (col : option A)
  : option A :=
  match param with
  | Some v => Some v
  | None => col
  end.

Definition epoch : Z := 0.

Definition is_deleted (flag : Z) : bool := flag =? 1.

(** The assignments by which a remote row overwrites a local one:
    [SET name = ?, updated_at = ?, synced = 1] for a book,
    [SET type = ?, amount = ?, note = ?, category = ?, updated_at = ?,
    synced = 1] for a transaction, preceded by [book_id = ?] where the
    statement has it. *)
Definition overwrite_book (r : RBook) (b : BookRow) : BookRow :=
  set_b_synced 1
    (set_b_updated_at (Some (rb_updated_at r)) (set_b_name (rb_name r) b)).

Definition overwrite_tx_fields (r : RTx) (x : TxRow) : TxRow :=
  set_t_synced 1
    (set_t_updated_at (Some (rt_updated_at r))
       (set_t_category (rt_category r)
          (set_t_note (rt_note r)
             (set_t_amount (rt_amount r) (set_t_type (rt_type r) x))))).

Definition overwrite_tx (r : RTx) (x : TxRow) : TxRow :=
  overwrite_tx_fields r (set_t_book_id (RemoteRef (rt_book_id r)) x).

Section WithRemote.

Context {G : Type}.

Definition openUserDB := @DatabaseService.openUserDB G.
Definition getUserPreference := @DatabaseService.getUserPreference G.
Definition setUserPreference := @DatabaseService.setUserPreference G.

(** *** CRUD helpers *)

Definition addBook (userId : string) (name : string) : M (G := G) unit :=
  openUserDB userId ;;;
  t <- now ;;
  runAsync "books"
    (books_insert_row
       (insert (fun i => mkBook i name t (Some t) 0 None 1 0))) ;;;
  ret tt.

Definition updateBook (userId : string) (id : Z) (name : string) : M (G := G) unit :=
  openUserDB userId ;;;
  t <- now ;;
  runAsync "books"
    (on_books (update_where (has_id id)
       (fun b => set_b_synced 0 (set_b_updated_at (Some t)
                   (set_b_name name b))))) ;;;
  ret tt.

Definition addTransaction (userId : string) (bookId : Z) (type : string)
  (amount : Z) (note category : string) : M (G := G) unit :=
  openUserDB userId ;;;
  t <- now ;;
  runAsync "transactions"
    (transactions_insert_ref (LocalRef bookId)
       (insert (fun i =>
          mkTx i (LocalRef bookId) type amount (Some note) (Some category)
            t (Some t) 0 None 1 0))) ;;;
  ret tt.

(** [UPDATE transactions SET type = COALESCE(?, type), amount = COALESCE(?,
    amount), note = COALESCE(?, note), category = COALESCE(?, category),
    updated_at = ?, synced = 0 WHERE id = ?] with the parameters
    [[type || '', amount || 0, note || '', category || '', now, id]]. *)
Definition updateTransaction (userId : string) (id : Z) (fields : TxFields)
  : M (G := G) unit :=
  openUserDB userId ;;;
  t <- now ;;
  let p_type := Some (Js.or_str (f_type fields) "") in
  let p_amount := Some (Js.or_num (f_amount fields) 0) in
  let p_note := Some (Js.or_str (f_note fields) "") in
  let p_category := Some (Js.or_str (f_category fields) "") in
  runAsync "transactions"
    (on_transactions (update_where (has_id id)
       (fun x =>
          set_t_synced 0 (set_t_updated_at (Some t)
            (set_t_category (COALESCE_null p_category (t_category x))
               (set_t_note (COALESCE_null p_note (t_note x))
                  (set_t_amount (COALESCE p_amount (t_amount x))
                     (set_t_type (COALESCE p_type (t_type x)) x)))))))) ;;;
  ret tt.

(** *** Pull *)

(** One remote book of the batch, in [pullFromServer]. *)
Definition pull_book (conflicts : list Conflict) (remoteBook : RBook)
  : M (G := G) (list Conflict) :=
  localBook <- query (fun d => first_by_sync (rb_id remoteBook) (books d)) ;;
  match localBook with
  | Some localBook =>
      let localUpdated := book_updated localBook in
      let remoteUpdated := rb_updated_at remoteBook in
      if remoteUpdated <? localUpdated then
        ret (conflicts ++
             [mkConflict (b_id localBook) (rb_id remoteBook)
                (BookData localBook remoteBook) localUpdated remoteUpdated])%list
      else
        runAsync "books"
          (on_books (update_where (has_id (b_id localBook))
             (overwrite_book remoteBook))) ;;;
        ret conflicts
  | None =>
      runAsync "books"
        (books_insert_row
           (insert_or_replace (rb_id remoteBook)
              (fun i => mkBook i (rb_name remoteBook)
                          (rb_created_at remoteBook)
                          (Some (rb_updated_at remoteBook)) 1
                          (Some (rb_id remoteBook)) 1 0))) ;;;
      ret conflicts
  end.

(** One remote transaction of the batch, in [pullFromServer]. *)
Definition pull_transaction (conflicts : list Conflict) (remoteTx : RTx)
  : M (G := G) (list Conflict) :=
  localTx <- query (fun d => first_by_sync (rt_id remoteTx) (transactions d)) ;;
  match localTx with
  | Some localTx =>
      let localUpdated := tx_updated localTx in
      let remoteUpdated := rt_updated_at remoteTx in
      if remoteUpdated <? localUpdated then
        ret (conflicts ++
             [mkConflict (t_id localTx) (rt_id remoteTx)
                (TxData localTx remoteTx) localUpdated remoteUpdated])%list
      else
        runAsync "transactions"
          (transactions_write_ref (RemoteRef (rt_book_id remoteTx))
             (has_id (t_id localTx))
             (update_where (has_id (t_id localTx))
                (overwrite_tx remoteTx))) ;;;
        ret conflicts
  | None =>
      book <- query (fun d => first_by_sync (rt_book_id remoteTx) (books d)) ;;
      match book with
      | Some book =>
          runAsync "transactions"
            (transactions_insert_ref (LocalRef (b_id book))
               (insert_or_replace (rt_id remoteTx)
                  (fun i => mkTx i (LocalRef (b_id book)) (rt_type remoteTx)
                              (rt_amount remoteTx) (rt_note remoteTx)
                              (rt_category remoteTx) (rt_created_at remoteTx)
                              (Some (rt_updated_at remoteTx)) 1
                              (Some (rt_id remoteTx)) 1 0))) ;;;
          ret conflicts
      | None => ret conflicts
      end
  end.

Definition rows_or_empty {A : Type} (d : option (list A)) : list A :=
  match d with
  | Some l => l
  | None => []
  end.

Definition or_epoch (t : option Z) : Z :=
  match t with
  | Some v => v
  | None => epoch
  end.

Definition pullFromServer (userId : string) (supabase : Gateway G)
  : M (G := G) PullResult :=
  openUserDB userId ;;;
  try_catch (
    lb <- getUserPreference userId "last_sync_books" ;;
    let lastBookSync := or_epoch lb in
    lt <- getUserPreference userId "last_sync_transactions" ;;
    let lastTransactionSync := or_epoch lt in
    rb <- request (ReqSelectBooks userId lastBookSync)
            (books_select supabase userId lastBookSync) ;;
    match error rb with
    | Some booksError => throw (PgThrown booksError)
    | None =>
        let remoteBooks := rows_or_empty (data rb) in
        let booksCount := Z.of_nat (List.length remoteBooks) in
        conflicts <- foldM pull_book remoteBooks [] ;;
        rt <- request (ReqSelectTransactions userId lastTransactionSync)
                (transactions_select supabase userId lastTransactionSync) ;;
        match error rt with
        | Some transactionsError => throw (PgThrown transactionsError)
        | None =>
            let remoteTransactions := rows_or_empty (data rt) in
            let transactionsCount := Z.of_nat (List.length remoteTransactions) in
            conflicts <- foldM pull_transaction remoteTransactions conflicts ;;
            let hasNewData := (0 <? booksCount) || (0 <? transactionsCount) in
            (if hasNewData then
               emit (Emit "booksUpdated") ;;;
               emit (Emit "transactionsUpdated")
             else ret tt) ;;;
            ret (mkPullResult hasNewData booksCount transactionsCount
                   conflicts)
        end
    end)
    (fun e => throw e).

(** *** Resolve: server wins *)

Definition resolve_conflict (conflict : Conflict) : M (G := G) unit :=
  match cdata conflict with
  | BookData _ remoteData =>
      runAsync "books"
        (on_books (update_where (has_id (localId conflict))
           (overwrite_book remoteData))) ;;;
      ret tt
  | TxData _ remoteData =>
      runAsync "transactions"
        (on_transactions (update_where (has_id (localId conflict))
           (overwrite_tx_fields remoteData))) ;;;
      ret tt
  end.

Definition resolveConflicts (userId : string) (conflicts : list Conflict)
  : M (G := G) unit :=
  openUserDB userId ;;;
  forM_ conflicts resolve_conflict ;;;
  if (0 <? Z.of_nat (List.length conflicts)) then
    emit (Emit "booksUpdated") ;;;
    emit (Emit "transactionsUpdated")
  else ret tt.

(** *** Push *)

Definition sync_str (s : option string) : string :=
  match s with
  | Some x => x
  | None => ""
  end.

(** One dirty book, in [pushToServer].  [created_at] is NOT NULL, so
    [book.created_at || now] is [book.created_at]. *)
Definition push_book (userId : string) (supabase : Gateway G)
  (book : BookRow) : M (G := G) unit :=
  try_catch (
    t <- now ;;
    if Js.truthy (b_sync_id book) then
      let isDeleted := is_deleted (b_deleted book) in
      let p := mkBookPayload (sync_str (b_sync_id book)) userId (b_name book)
                 (b_created_at book) t (Some isDeleted) in
      r <- request (ReqUpsertBook (b_id book) p) (books_upsert supabase p) ;;
      match error r with
      | None =>
          runAsync "books"
            (on_books (update_where (has_id (b_id book))
               (fun b => set_b_updated_at (Some t) (set_b_synced 1 b)))) ;;;
          ret tt
      | Some _ => ret tt
      end
    else
      syncId <- generateSyncId (b_id book) ;;
      ex <- request (ReqFindBook userId (b_name book))
              (books_find supabase userId (b_name book)) ;;
      match data ex with
      | Some existing_id =>
          runAsync "books"
            (books_write_sync existing_id (b_id book) (set_b_synced 1)) ;;;
          ret tt
      | None =>
          let isDeleted := is_deleted (b_deleted book) in
          let p := mkBookPayload syncId userId (b_name book)
                     (b_created_at book) t (Some isDeleted) in
          r <- request (ReqInsertBook (b_id book) p)
                 (books_insert supabase p) ;;
          match error r with
          | None =>
              runAsync "books"
                (books_write_sync syncId (b_id book) (set_b_synced 1)) ;;;
              ret tt
          | Some _ => ret tt
          end
      end)
    (fun _ => ret tt).

(** One dirty transaction with the [sync_id] of its book as joined, in
    [pushToServer]. *)
Definition push_transaction (userId : string) (supabase : Gateway G)
  (row : TxRow * option string) : M (G := G) unit :=
  let (tx, book_sync_id) := row in
  if negb (Js.truthy book_sync_id) then ret tt
  else
    t <- now ;;
    if Js.truthy (t_sync_id tx) then
      let isDeleted := is_deleted (t_deleted tx) in
      let p := mkTxPayload (sync_str (t_sync_id tx)) userId
                 (sync_str book_sync_id) (t_type tx) (t_amount tx)
                 (t_note tx) (t_category tx) (t_created_at tx) t
                 (Some isDeleted) in
      r <- request (ReqUpsertTransaction (t_id tx) p)
             (transactions_upsert supabase p) ;;
      match error r with
      | None =>
          runAsync "transactions"
            (on_transactions (update_where (has_id (t_id tx))
               (fun x => set_t_updated_at (Some t) (set_t_synced 1 x)))) ;;;
          ret tt
      | Some _ => ret tt
      end
    else
      syncId <- generateSyncId (t_id tx) ;;
      let isDeleted := is_deleted (t_deleted tx) in
      let p := mkTxPayload syncId userId (sync_str book_sync_id) (t_type tx)
                 (t_amount tx) (t_note tx) (t_category tx) (t_created_at tx)
                 t (Some isDeleted) in
      r <- request (ReqInsertTransaction (t_id tx) p)
             (transactions_insert supabase p) ;;
      match error r with
      | None =>
          runAsync "transactions"
            (transactions_write_sync syncId (t_id tx) (set_t_synced 1)) ;;;
          ret tt
      | Some _ => ret tt
      end.

(** [SELECT t.*, b.sync_id as book_sync_id FROM transactions t LEFT JOIN
    books b ON t.book_id = b.id WHERE <p>] *)
Definition joined_transactions (p : TxRow -> bool) (d : DB)
  : list (TxRow * option string) :=
  map (fun t => (t, book_sync_id_of d t)) (filter p (rows (transactions d))).

Definition push_books (userId : string) (supabase : Gateway G)
  : M (G := G) unit :=
  unsyncedBooks <- query (fun d => filter book_unsynced (rows (books d))) ;;
  forM_ unsyncedBooks (push_book userId supabase).

Definition push_transactions (userId : string) (supabase : Gateway G)
  : M (G := G) unit :=
  unsyncedTransactions <- query (joined_transactions tx_unsynced) ;;
  forM_ unsyncedTransactions (push_transaction userId supabase).

(** The end of [pushToServer]: both cursors are set to the current time. *)
Definition push_cursors (userId : string) : M (G := G) unit :=
  t1 <- now ;;
  setUserPreference userId "last_sync_books" t1 ;;;
  t2 <- now ;;
  setUserPreference userId "last_sync_transactions" t2.

Definition pushToServer (userId : string) (supabase : Gateway G)
  : M (G := G) unit :=
  openUserDB userId ;;;
  push_books userId supabase ;;;
  push_transactions userId supabase ;;;
  push_cursors userId.

(** *** The one-pass sync: [syncAll], [syncBooks], [syncTransactions] *)

Definition ignore_errors (m : M (G := G) unit) : M unit :=
  try_catch m (fun _ => ret tt).

(** Remote rows carry no [local_id], so [r.local_id || -1] is [-1]. *)
Definition no_local_id : Z := -1.

Definition merge_book (r : RBook) : M (G := G) unit :=
  ignore_errors (
    existingBySyncId <- query (fun d => first_by_sync (rb_id r) (books d)) ;;
    match existingBySyncId with
    | Some _ =>
        ignore_errors (
          runAsync "books"
            (on_books (update_where (has_sync (rb_id r))
               (fun b => set_b_synced 1 (set_b_name (rb_name r) b)))) ;;;
          ret tt)
    | None =>
        local <- query (fun d => first_by_id no_local_id (books d)) ;;
        match local with
        | None =>
            ignore_errors (
              runAsync "books"
                (books_insert_row
                   (insert_or_replace (rb_id r)
                      (fun i => mkBook i (rb_name r) (rb_created_at r) None 1
                                  (Some (rb_id r)) 1 0))) ;;;
              ret tt)
        | Some local =>
            ignore_errors (
              runAsync "books"
                (books_write_sync (rb_id r) (b_id local)
                   (fun b => set_b_synced 1 (set_b_name (rb_name r) b))) ;;;
              ret tt)
        end
    end).

Definition sync_local_book (userId : string) (supabase : Gateway G)
  (b : BookRow) : M (G := G) unit :=
  ignore_errors (
    if Js.truthy (b_sync_id b) then
      ignore_errors (
        runAsync "books"
          (on_books (update_where (has_id (b_id b)) (set_b_synced 1))) ;;;
        ret tt)
    else
      syncId <- generateSyncId (b_id b) ;;
      t <- now ;;
      ex <- request (ReqFindBook userId (b_name b))
              (books_find supabase userId (b_name b)) ;;
      if Js.truthy (data ex) then
        ignore_errors (
          runAsync "books"
            (books_write_sync (sync_str (data ex)) (b_id b)
               (set_b_synced 1)) ;;;
          ret tt)
      else
        let p := mkBookPayload syncId userId (b_name b) (b_created_at b) t
                   None in
        r <- request (ReqInsertBook (b_id b) p) (books_insert supabase p) ;;
        match error (single r), data (single r) with
        | None, Some _ =>
            ignore_errors (
              runAsync "books"
                (books_write_sync syncId (b_id b) (set_b_synced 1)) ;;;
              ret tt)
        | _, _ => ret tt
        end).

Definition syncBooks (userId : string) (supabase : Gateway G)
  : M (G := G) unit :=
  try_catch (
    openUserDB userId ;;;
    lastSync <- getUserPreference userId "last_sync_books" ;;
    rb <- request (ReqSelectBooks userId (or_epoch lastSync))
            (books_select supabase userId (or_epoch lastSync)) ;;
    match error rb with
    | Some e =>
        throw (JsError ("Failed to fetch books: " ++ message e))
    | None =>
        forM_ (rows_or_empty (data rb)) merge_book ;;;
        unsynced <- query (fun d => filter book_unsynced (rows (books d))) ;;
        forM_ unsynced (sync_local_book userId supabase) ;;;
        t <- now ;;
        setUserPreference userId "last_sync_books" t
    end)
    (fun e => throw e).

Definition remote_tx_row (r : RTx) (i : Z) : TxRow :=
  mkTx i (RemoteRef (rt_book_id r)) (rt_type r) (rt_amount r) (rt_note r)
    (rt_category r) (rt_created_at r) (Some (rt_updated_at r)) 1
    (Some (rt_id r)) 1 0.

Definition merge_transaction (r : RTx) : M (G := G) unit :=
  existingBySyncId <- query (fun d => first_by_sync (rt_id r) (transactions d)) ;;
  match existingBySyncId with
  | Some existing =>
      if tx_updated existing <? rt_updated_at r then
        runAsync "transactions"
          (transactions_write_ref (RemoteRef (rt_book_id r))
             (has_sync (rt_id r))
             (update_where (has_sync (rt_id r)) (overwrite_tx r))) ;;;
        ret tt
      else ret tt
  | None =>
      local <- query (fun d => first_by_id no_local_id (transactions d)) ;;
      match local with
      | None =>
          runAsync "transactions"
            (transactions_insert_ref (RemoteRef (rt_book_id r))
               (insert_or_replace (rt_id r) (remote_tx_row r))) ;;;
          ret tt
      | Some local =>
          if tx_updated local <? rt_updated_at r then
            runAsync "transactions"
              (fun d =>
                 if negb (fk_ok d (RemoteRef (rt_book_id r))) then
                   inr (SqliteError "FOREIGN KEY constraint failed")
                 else
                   transactions_write_sync (rt_id r) (t_id local)
                     (overwrite_tx r) d) ;;;
            ret tt
          else ret tt
      end
  end.

Definition sync_local_transaction (userId : string) (supabase : Gateway G)
  (row : TxRow * option string) : M (G := G) unit :=
  let (t, book_sync_id) := row in
  ignore_errors (
    if negb (Js.truthy book_sync_id) then ret tt
    else
      syncId <- generateSyncId (t_id t) ;;
      n <- now ;;
      let p := mkTxPayload syncId userId (sync_str book_sync_id) (t_type t)
                 (t_amount t) (t_note t) (t_category t) (t_created_at t) n
                 None in
      r <- request (ReqUpsertTransaction (t_id t) p)
             (transactions_upsert supabase p) ;;
      match error (single r), data (single r) with
      | None, Some _ =>
          ignore_errors (
            runAsync "transactions"
              (transactions_write_sync syncId (t_id t) (set_t_synced 1)) ;;;
            ret tt)
      | _, _ => ret tt
      end).

Definition syncTransactions (userId : string) (supabase : Gateway G)
  : M (G := G) unit :=
  openUserDB userId ;;;
  lastSync <- getUserPreference userId "last_sync_transactions" ;;
  rt <- request (ReqSelectTransactions userId (or_epoch lastSync))
          (transactions_select supabase userId (or_epoch lastSync)) ;;
  match error rt with
  | Some e => throw (PgThrown e)
  | None =>
      forM_ (rows_or_empty (data rt)) merge_transaction ;;;
      unsynced <- query (joined_transactions (fun t => t_synced t =? 0)) ;;
      forM_ unsynced (sync_local_transaction userId supabase) ;;;
      t <- now ;;
      setUserPreference userId "last_sync_transactions" t
  end.

(** [syncAll(userId, supabase)].  Either argument may be missing at run
    time: an absent or empty user id and an absent client are falsy. *)
Definition syncAll (userId : option string) (supabase : option (Gateway G))
  : M (G := G) unit :=
  if negb (Js.truthy userId) then throw (JsError "User ID is required")
  else
    match supabase with
    | None => throw (JsError "Supabase client is required")
    | Some client =>
        try_catch (
          syncBooks (sync_str userId) client ;;;
          syncTransactions (sync_str userId) client)
          (fun e => throw e)
    end.

End WithRemote.

End SyncService.

(* ================================================================== *)
(** ** [SyncProvider]: the cycle the UI runs *)
(* ================================================================== *)

Module SyncProvider.

Import LocalStore Remote Eff Eff.Notations.

(** What the provider's [syncAll] closes over.  The React state setters
    (phase, error banner) and the display delays do not reach the stores
    and are left out; [refreshToken] is the injected token refresher, which
    may reject. *)
Record Provider (G : Type) := mkProvider {
  isSyncing : bool;
  isReady : bool;
  supabase : option (Gateway G);
  user_id : option string;
  refreshToken : option Exn }.
Arguments isSyncing {G} _.
Arguments isReady {G} _.
Arguments supabase {G} _.
Arguments user_id {G} _.
Arguments refreshToken {G} _.

Section WithRemote.

Context {G : Type}.

Definition prerequisites_error (p : Provider G) : Exn :=
  JsError ("Sync prerequisites not met: " ++
           (if negb (isReady p) then "not ready"
            else match supabase p with
                 | None => "no supabase client"
                 | Some _ => "no user ID"
                 end)).

Definition syncAll (p : Provider G) : M (G := G) unit :=
  if isSyncing p then ret tt
  else
    match isReady p, supabase p, Js.truthy (user_id p) with
    | true, Some client, true =>
        let uid := SyncService.sync_str (user_id p) in
        try_catch (
          match refreshToken p with
          | Some e => throw e
          | None => ret tt
          end ;;;
          pullResult <- SyncService.pullFromServer uid client ;;
          (if 0 <? Z.of_nat (List.length (SyncService.conflicts pullResult))
           then SyncService.resolveConflicts uid
                  (SyncService.conflicts pullResult)
           else ret tt) ;;;
          SyncService.pushToServer uid client ;;;
          emit (Emit "dirtyCountUpdate"))
          (fun e => throw e)
    | _, _, _ => throw (prerequisites_error p)
    end.

End WithRemote.

End SyncProvider.

(* ================================================================== *)
(** ** Vocabulary of the statements below *)
(* ================================================================== *)

Module Obs.

Import LocalStore Remote Eff.

Section Tables.

Context {R : Type} `{RowLike R}.

(** The constraints of a table: [id] is a primary key and a non-null
    [sync_id] is unique. *)
Definition WfTable (t : Table R) : Prop :=
  NoDup (map row_id (rows t))
  /\ forall x y s, In x (rows t) -> In y (rows t) ->
       row_sync x = Some s -> row_sync y = Some s -> x = y.

(** Row [x] is in the table and is the only row with its [id] and with the
    remote identifier [s]. *)
Definition Pinned (s : string) (x : R) (t : Table R) : Prop :=
  In x (rows t)
  /\ row_sync x = Some s
  /\ (forall y, In y (rows t) -> row_id y = row_id x -> y = x)
  /\ (forall y, In y (rows t) -> row_sync y = Some s -> y = x).

End Tables.

(** The pull cursors as the engine reads them. *)
Definition books_cursor (d : DB) : Z :=
  SyncService.or_epoch (pref_get "last_sync_books" (user_preferences d)).

Definition transactions_cursor (d : DB) : Z :=
  SyncService.or_epoch (pref_get "last_sync_transactions" (user_preferences d)).

Section WithRemote.

Context {G : Type}.

(** The batches a pull started in world [w] is answered with: the books
    request is the first one sent, the transactions request the second. *)
Definition books_answer (supabase : Gateway G) (userId : string)
  (w : World G) : Response (list RBook) * G :=
  books_select supabase userId (books_cursor (db w)) (remote w).

Definition fetched_books (supabase : Gateway G) (userId : string)
  (w : World G) : list RBook :=
  SyncService.rows_or_empty (data (fst (books_answer supabase userId w))).

Definition transactions_answer (supabase : Gateway G) (userId : string)
  (w : World G) : Response (list RTx) * G :=
  transactions_select supabase userId (transactions_cursor (db w))
    (snd (books_answer supabase userId w)).

Definition fetched_transactions (supabase : Gateway G) (userId : string)
  (w : World G) : list RTx :=
  SyncService.rows_or_empty
    (data (fst (transactions_answer supabase userId w))).

End WithRemote.

(** A step left a part of the database as it was. *)
Definition same_books {G : Type} (w w' : World G) : Prop :=
  books (db w') = books (db w).
Definition same_transactions {G : Type} (w w' : World G) : Prop :=
  transactions (db w') = transactions (db w).
Definition same_prefs {G : Type} (w w' : World G) : Prop :=
  user_preferences (db w') = user_preferences (db w).

(** The conflict a pull records for a local row and the remote row that
    matched it. *)
Definition book_conflict_of (l : BookRow) (r : RBook) : SyncService.Conflict :=
  SyncService.mkConflict (b_id l) (rb_id r) (SyncService.BookData l r)
    (book_updated l) (rb_updated_at r).

Definition tx_conflict_of (l : TxRow) (r : RTx) : SyncService.Conflict :=
  SyncService.mkConflict (t_id l) (rt_id r) (SyncService.TxData l r)
    (tx_updated l) (rt_updated_at r).

(** The remote values as they read on a local row once the row is
    overwritten and marked clean. *)
Definition book_matches_remote (r : RBook) (x : BookRow) : Prop :=
  b_name x = rb_name r
  /\ b_updated_at x = Some (rb_updated_at r)
  /\ b_synced x = 1.

Definition tx_matches_remote (r : RTx) (x : TxRow) : Prop :=
  t_type x = rt_type r
  /\ t_amount x = rt_amount r
  /\ t_note x = rt_note r
  /\ t_category x = rt_category r
  /\ t_updated_at x = Some (rt_updated_at r)
  /\ t_synced x = 1.

(** Every book conflict of the list that targets local rowid [i] carries
    the remote row [r]; likewise for transactions.  (Rowids of the two
    tables are unrelated, hence the distinction by kind.) *)
Definition BookConflictsCarry (i : Z) (r : RBook)
  (cs : list SyncService.Conflict) : Prop :=
  forall c l rd, In c cs -> SyncService.cdata c = SyncService.BookData l rd ->
    SyncService.localId c = i -> rd = r.

Definition TxConflictsCarry (i : Z) (r : RTx)
  (cs : list SyncService.Conflict) : Prop :=
  forall c l rd, In c cs -> SyncService.cdata c = SyncService.TxData l rd ->
    SyncService.localId c = i -> rd = r.

Definition targets_book (i : Z) (c : SyncService.Conflict) : bool :=
  match SyncService.cdata c with
  | SyncService.BookData _ _ => SyncService.localId c =? i
  | SyncService.TxData _ _ => false
  end.

Definition targets_tx (i : Z) (c : SyncService.Conflict) : bool :=
  match SyncService.cdata c with
  | SyncService.BookData _ _ => false
  | SyncService.TxData _ _ => SyncService.localId c =? i
  end.

(** Requests that carry a transaction built from local row [i]. *)
Definition tx_request_for (i : Z) (e : Event) : bool :=
  match e with
  | ReqInsertTransaction j _ => j =? i
  | ReqUpsertTransaction j _ => j =? i
  | _ => false
  end.

(** The step from [w] to [w'] added to the log only events accepted by
    [ok]. *)
Definition LogExt {G : Type} (ok : Event -> bool) (w w' : World G) : Prop :=
  exists new, log w' = (log w ++ new)%list /\ forallb ok new = true.

Definition no_tx_request_for (i : Z) (e : Event) : bool :=
  negb (tx_request_for i e).

(** The payload [pushToServer] builds in world [w] for a book [b] that has
    no remote identifier, and what it means that the remote acknowledges
    that book: the lookup by name answers with a non-empty identifier, or
    it finds nothing and the insert that follows is not rejected. *)
Definition book_insert_payload {G : Type} (userId : string) (b : BookRow)
  (w : World G) : BookPayload :=
  mkBookPayload (fst (Uuid.generateSyncId (random w) (b_id b) (draws w)))
    userId (b_name b) (b_created_at b) (clock w (ticks w))
    (Some (SyncService.is_deleted (b_deleted b))).

Definition book_push_acked {G : Type} (supabase : Gateway G)
  (userId : string) (b : BookRow) (w : World G) : Prop :=
  let found := books_find supabase userId (b_name b) (remote w) in
  match data (fst found) with
  | Some rid => rid <> ""
  | None =>
      error (fst (books_insert supabase (book_insert_payload userId b w)
                    (snd found))) = None
  end.

(** The two setup errors of [SyncService.syncAll]. *)
Definition is_setup_error (e : Exn) : bool :=
  match e with
  | JsError m =>
      String.eqb m "User ID is required"
      || String.eqb m "Supabase client is required"
  | _ => false
  end.

Definition not_setup_error (e : Exn) : bool := negb (is_setup_error e).

(** World [w'] is [w] some clock readings later: the same clock, read at
    least as often. *)
Definition later {G : Type} (w w' : World G) : Prop :=
  clock w' = clock w /\ (ticks w <= ticks w')%nat.

Definition keeps_clock {G A : Type} (m : M (G := G) A) : Prop :=
  forall w r w', m w = (r, w') -> later w w'.

(** What a run leaves in the cursors: after a normal return both hold
    readings of the clock taken during the run, the transactions cursor two
    readings after the books cursor; after an exception they are as
    before. *)
Definition cursors_after {G : Type} (w : World G) (res : unit + Exn) (w' : World G)
  : Prop :=
  match res with
  | inl _ =>
      exists k, (ticks w <= k)%nat
        /\ pref_get "last_sync_books" (user_preferences (db w'))
           = Some (clock w k)
        /\ pref_get "last_sync_transactions" (user_preferences (db w'))
           = Some (clock w (S (S k)))
  | inr _ => same_prefs w w'
  end.

(** A computation throws only exceptions accepted by [ok]. *)
Definition throws_only {G A : Type} (ok : Exn -> bool) (m : M (G := G) A)
  : Prop :=
  forall w e w', m w = (inr e, w') -> ok e = true.

(** Events that reach a store: a request to the remote or a local write. *)
Definition touches_store (e : Event) : bool :=
  match e with
  | Emit _ => false
  | _ => true
  end.

End Obs.

(* ================================================================== *)
(** ** Sample worlds *)
(* ================================================================== *)

Module Examples.

Import LocalStore Remote Eff.

Definition sample_random : Uuid.RandomSource :=
  fun k => (Z.of_nat (k mod 13) # 13)%Q.

Definition sample_clock : nat -> Z := fun k => 1000 + Z.of_nat k.

Definition user : string := "u1".

Definition provider : SyncProvider.Provider PgState :=
  SyncProvider.mkProvider PgState false true (Some pg) (Some user) None.

(** One book and one transaction of it, both pushed before under the remote
    identifiers "r1" and "t1" and edited locally at time [tl]; their remote
    counterparts were last written at time [tr]. *)
Definition local_book (tl : Z) : BookRow :=
  mkBook 1 "Local" 10 (Some tl) 0 (Some "r1") 1 0.

Definition local_tx (tl : Z) : TxRow :=
  mkTx 1 (LocalRef 1) "expense" 5 (Some "lunch") None 10 (Some tl) 0
    (Some "t1") 1 0.

Definition remote_book (tr : Z) (deleted : bool) : RBook :=
  mkRBook "r1" user "Remote" 10 tr deleted.

Definition remote_tx (tr : Z) : RTx :=
  mkRTx "t1" user "r1" "income" 7 None (Some "salary") 10 tr false.

Definition cursors_at (c : Z) : list (string * Z) :=
  [("last_sync_books", c); ("last_sync_transactions", c)].

Definition synced_world (fk : bool) (tl tr : Z) (deleted : bool)
  (prefs : list (string * Z)) : World PgState :=
  mkWorld
    (mkDB (mkTable [local_book tl] 1) (mkTable [local_tx tl] 1) prefs fk)
    (mkPg [remote_book tr deleted] [remote_tx tr])
    sample_clock 0 sample_random 0 [].

(** A store never synced: one book and one transaction of it, created
    locally, and an empty remote. *)
Definition fresh_book : BookRow := mkBook 1 "Personal" 10 None 0 None 1 0.

Definition fresh_tx : TxRow :=
  mkTx 1 (LocalRef 1) "expense" 50000 (Some "") (Some "food") 20 None 0 None
    1 0.

Definition fresh_world : World PgState :=
  mkWorld (mkDB (mkTable [fresh_book] 1) (mkTable [fresh_tx] 1) [] true)
    (mkPg [] []) sample_clock 0 sample_random 0 [].

(** A transaction created locally in a book that is already on the remote
    under "r1". *)
Definition unpushed_tx_world : World PgState :=
  mkWorld
    (mkDB (mkTable [mkBook 1 "Personal" 10 (Some 10) 1 (Some "r1") 1 0] 1)
       (mkTable [fresh_tx] 1) (cursors_at 15) true)
    (mkPg [mkRBook "r1" user "Personal" 10 12 false] [])
    sample_clock 0 sample_random 0 [].

(** A transaction whose book row is missing (foreign keys not enforced). *)
Definition orphan_world : World PgState :=
  mkWorld (mkDB (mkTable [] 1) (mkTable [fresh_tx] 1) [] false)
    (mkPg [] []) sample_clock 0 sample_random 0 [].

(** A store in step with the remote: one clean book, last written on both
    sides at time 50, and both cursors at [c]. *)
Definition idle_world (c : Z) : World PgState :=
  mkWorld
    (mkDB (mkTable [mkBook 1 "Personal" 10 (Some 50) 1 (Some "r1") 0 0] 1)
       (mkTable [] 0) (cursors_at c) true)
    (mkPg [mkRBook "r1" user "Personal" 10 50 false] [])
    sample_clock 0 sample_random 0 [].

Definition empty_world : World PgState :=
  mkWorld (mkDB (mkTable [] 0) (mkTable [] 0) [] true) (mkPg [] [])
    sample_clock 0 sample_random 0 [].

End Examples.


(* ================================================================== *)
(** ** More of the local store: reads, listings and hard deletes *)
(* ================================================================== *)

From Stdlib Require Import Sorted Permutation.

Module Sql.

Import LocalStore.

Section Rows.

Context {R : Type}.

(** [ORDER BY]: [le x y] says that [x] may come before [y].  Rows that
    compare equal stay in the order of the scan. *)
Fixpoint insert_sorted (le : R -> R -> bool) (x : R) (l : list R) : list R :=
  match l with
  | [] => [x]
  | y :: rest =>
      if le x y then x :: l else y :: insert_sorted le x rest
  end.

Fixpoint order_by (le : R -> R -> bool) (l : list R) : list R :=
  match l with
  | [] => []
  | x :: rest => insert_sorted le x (order_by le rest)
  end.

Definition ASC (key : R -> Z) (x y : R) : bool := key x <=? key y.
Definition DESC (key : R -> Z) (x y : R) : bool := key y <=? key x.

(** [DELETE FROM t WHERE <p>].  The AUTOINCREMENT high-water mark is kept:
    a deleted rowid is not handed out again. *)
Definition delete_where `{RowLike R} (p : R -> bool) (t : Table R)
  : Table R :=
  mkTable (filter (fun r => negb (p r)) (rows t)) (next_rowid t - 1).

End Rows.

Definition set_b_is_dirty (v : Z) (b : BookRow) : BookRow :=
  mkBook (b_id b) (b_name b) (b_created_at b) (b_updated_at b) (b_synced b)
    (b_sync_id b) v (b_deleted b).

(** [WHERE sync_id IS NULL OR sync_id = ""] *)
Definition no_sync_id (s : option string) : bool :=
  match s with
  | None => true
  | Some x => String.eqb x ""
  end.

(** The arithmetic of the [REAL] column [amount].  The source computes on
    IEEE doubles: [SUM] inside SQLite, [-] in JavaScript; both round.  The
    embedding carries an amount as an integer and leaves the two operations
    open: [real_sum] is what [SUM] makes of the addends of a scan that found
    rows, [real_minus] is the subtraction.  All that is used of them is
    that [0 - 0] is [0]. *)
Class RealArith := {
  real_sum : list Z -> Z;
  real_minus : Z -> Z -> Z;
  real_minus_0_0 : real_minus 0 0 = 0 }.

(** One instance: exact arithmetic, which is what the doubles compute as
    long as the amounts are whole and no sum leaves the range in which a
    double holds every integer. *)
Definition exact_arith : RealArith :=
  {| real_sum := fun l => fold_left Z.add l 0;
     real_minus := Z.sub;
     real_minus_0_0 := eq_refl |}.

(** [COALESCE(SUM(CASE WHEN type = ? THEN amount ELSE 0 END), 0)] over the
    rows of a scan: [SUM] over no rows is NULL, which [COALESCE] turns
    into 0. *)
Definition sum_of_type `{RealArith} (type : string) (l : list TxRow) : Z :=
  match l with
  | [] => 0
  | _ :: _ =>
      real_sum
        (map (fun t => if String.eqb (t_type t) type then t_amount t else 0) l)
  end.

End Sql.

(* ================================================================== *)
(** ** [DatabaseService]: listings, summaries and the dirty set *)
(* ================================================================== *)

Module DatabaseReads.

Import LocalStore Remote Eff Eff.Notations Sql.

Record TransactionSummary := mkSummary {
  balance : Z;
  income : Z;
  expense : Z }.

Section WithRemote.

Context {G : Type} {arith : RealArith}.

Definition openUserDB := @DatabaseService.openUserDB G.

(** [SELECT * FROM books WHERE deleted = 0 ORDER BY created_at ASC].  The
    retry that adds a missing [deleted] column is for databases older than
    the schema modelled here, where the column exists. *)
Definition listBooks (userId : string) : M (G := G) (list BookRow) :=
  openUserDB userId ;;;
  query (fun d =>
    order_by (ASC b_created_at)
      (filter (fun b => b_deleted b =? 0) (rows (books d)))).

(** [SELECT * FROM transactions WHERE book_id = ? AND deleted = 0
    ORDER BY created_at DESC] *)
Definition loadTransactions (userId : string) (bookId : Z)
  : M (G := G) (list TxRow) :=
  openUserDB userId ;;;
  query (fun d =>
    order_by (DESC t_created_at)
      (filter (fun t => DatabaseService.of_book bookId t && (t_deleted t =? 0))
         (rows (transactions d)))).

(** [getTransactionSummary]: income and expense of the rows of the book
    that are not deleted, and [result.income - result.expense]. *)
Definition getTransactionSummary (userId : string) (bookId : Z)
  : M (G := G) TransactionSummary :=
  openUserDB userId ;;;
  result <- query (fun d =>
    let live :=
      filter (fun t => DatabaseService.of_book bookId t && (t_deleted t =? 0))
        (rows (transactions d)) in
    (sum_of_type "income" live, sum_of_type "expense" live)) ;;
  let balance := real_minus (fst result) (snd result) in
  ret (mkSummary balance (fst result) (snd result)).

(** [SELECT COUNT( * ) as cnt FROM transactions WHERE book_id = ?] *)
Definition getTransactionCount (userId : string) (bookId : Z)
  : M (G := G) Z :=
  openUserDB userId ;;;
  query (fun d =>
    Z.of_nat (List.length
                (filter (DatabaseService.of_book bookId)
                   (rows (transactions d))))).

(** [UPDATE books SET is_dirty = 1 WHERE id = ?] *)
Definition markBookAsDirty (userId : string) (bookId : Z)
  : M (G := G) unit :=
  openUserDB userId ;;;
  runAsync "books"
    (on_books (update_where (has_id bookId) (set_b_is_dirty 1))) ;;;
  ret tt.

(** [UPDATE transactions SET updated_at = ?, synced = 0 WHERE id = ?] *)
Definition markTransactionAsDirty (userId : string) (transactionId : Z)
  : M (G := G) unit :=
  openUserDB userId ;;;
  t <- now ;;
  runAsync "transactions"
    (on_transactions (update_where (has_id transactionId)
       (fun x => set_t_synced 0 (set_t_updated_at (Some t) x)))) ;;;
  ret tt.

(** [SELECT * FROM books WHERE (synced = 0 OR sync_id IS NULL)
    ORDER BY created_at ASC], and the same on [transactions]. *)
Definition getDirtyBooks (userId : string) : M (G := G) (list BookRow) :=
  openUserDB userId ;;;
  query (fun d =>
    order_by (ASC b_created_at) (filter book_unsynced (rows (books d)))).

Definition getDirtyTransactions (userId : string)
  : M (G := G) (list TxRow) :=
  openUserDB userId ;;;
  query (fun d =>
    order_by (ASC t_created_at)
      (filter tx_unsynced (rows (transactions d)))).

(** [SELECT * FROM books WHERE sync_id IS NULL OR sync_id = ""
    ORDER BY created_at ASC], and the same on [transactions]. *)
Definition getUnsyncedBooks (userId : string) : M (G := G) (list BookRow) :=
  openUserDB userId ;;;
  query (fun d =>
    order_by (ASC b_created_at)
      (filter (fun b => no_sync_id (b_sync_id b)) (rows (books d)))).

Definition getUnsyncedTransactions (userId : string)
  : M (G := G) (list TxRow) :=
  openUserDB userId ;;;
  query (fun d =>
    order_by (ASC t_created_at)
      (filter (fun t => no_sync_id (t_sync_id t)) (rows (transactions d)))).

End WithRemote.

End DatabaseReads.

(* ================================================================== *)
(** ** [SyncService]: hard deletes and the sync-status resets *)
(* ================================================================== *)

Module SyncServiceCrud.

Import LocalStore Remote Eff Eff.Notations Sql.

Section WithRemote.

Context {G : Type}.

Definition openUserDB := @DatabaseService.openUserDB G.

(** [DELETE FROM books WHERE id = ?].  With foreign keys enforced, the
    transactions that refer to a deleted book go with it
    ([ON DELETE CASCADE]). *)
Definition delete_book_cascade (id : Z) (d : DB) : DB * Z + Exn :=
  let d1 := set_books (delete_where (has_id id) (books d)) d in
  if foreign_keys d && existsb (has_id id) (rows (books d)) then
    inl (set_transactions
           (delete_where (DatabaseService.of_book id) (transactions d1)) d1,
         0)
  else inl (d1, 0).

Definition deleteBook (userId : string) (id : Z) : M (G := G) unit :=
  openUserDB userId ;;;
  runAsync "books" (delete_book_cascade id) ;;;
  ret tt.

(** [DELETE FROM transactions WHERE id = ?] *)
Definition deleteTransaction (userId : string) (id : Z) : M (G := G) unit :=
  openUserDB userId ;;;
  runAsync "transactions" (on_transactions (delete_where (has_id id))) ;;;
  ret tt.

(** [UPDATE books SET synced = 0, sync_id = NULL] *)
Definition resetBookSyncStatus (userId : string) : M (G := G) unit :=
  openUserDB userId ;;;
  runAsync "books"
    (on_books (update_where (fun _ => true)
       (fun b => set_b_sync_id None (set_b_synced 0 b)))) ;;;
  ret tt.

(** [UPDATE transactions SET synced = 0, sync_id = NULL] *)
Definition resetTransactionSyncStatus (userId : string) : M (G := G) unit :=
  openUserDB userId ;;;
  runAsync "transactions"
    (on_transactions (update_where (fun _ => true)
       (fun x => set_t_sync_id None (set_t_synced 0 x)))) ;;;
  ret tt.

End WithRemote.

End SyncServiceCrud.

(* ================================================================== *)
(** ** [useDirtyCount]: the badge of pending changes *)
(* ================================================================== *)

Module DirtyCount.

Import LocalStore Remote Eff Eff.Notations.

Record DirtyCount := mkDirtyCount {
  books : Z;
  transactions : Z;
  total : Z }.

Section WithRemote.

Context {G : Type}.

(** [refreshDirtyCount]: the value the hook's state holds afterwards, given
    the value [prev] it held before.  Without a user, or while the user is
    still loading, the count is reset; when a read throws, the previous
    value is kept. *)
Definition refreshDirtyCount (user : option string) (userLoading : bool)
  (prev : DirtyCount) : M (G := G) DirtyCount :=
  match user with
  | Some uid =>
      if userLoading then ret (mkDirtyCount 0 0 0)
      else
        try_catch (
          DatabaseService.openUserDB uid ;;;
          dirtyBooks <- DatabaseReads.getDirtyBooks uid ;;
          dirtyTransactions <- DatabaseReads.getDirtyTransactions uid ;;
          let booksCount := Z.of_nat (List.length dirtyBooks) in
          let transactionsCount := Z.of_nat (List.length dirtyTransactions) in
          let total := booksCount + transactionsCount in
          ret (mkDirtyCount booksCount transactionsCount total))
          (fun _ => ret prev)
  | None => ret (mkDirtyCount 0 0 0)
  end.

End WithRemote.

End DirtyCount.

(* ================================================================== *)
(** ** Vocabulary: what a run sends *)
(* ================================================================== *)

Module Traffic.

Import LocalStore Remote Eff.

(** Events that go to the remote. *)
Definition is_request (e : Event) : bool :=
  match e with
  | LocalWrite _ | Emit _ => false
  | _ => true
  end.

Definition local_only (e : Event) : bool := negb (is_request e).

(** The dirty sets of a database, as [pushToServer] selects them. *)
Definition dirty_books (d : DB) : list BookRow :=
  filter book_unsynced (rows (books d)).

Definition dirty_transactions (d : DB) : list TxRow :=
  filter tx_unsynced (rows (transactions d)).

(** Event [e] is no read of the remote, and if it is a write request or a
    lookup by name, it was built from a row that is dirty in [d]. *)
Definition within_dirty (d : DB) (e : Event) : bool :=
  match e with
  | ReqSelectBooks _ _ | ReqSelectTransactions _ _ => false
  | ReqFindBook _ name =>
      existsb (fun b => String.eqb (b_name b) name) (dirty_books d)
  | ReqInsertBook j _ | ReqUpsertBook j _ =>
      existsb (has_id j) (dirty_books d)
  | ReqInsertTransaction j _ | ReqUpsertTransaction j _ =>
      existsb (has_id j) (dirty_transactions d)
  | LocalWrite _ | Emit _ => true
  end.

(** No write request built from the book with rowid [i]. *)
Definition no_book_request_for (i : Z) (e : Event) : bool :=
  match e with
  | ReqInsertBook j _ | ReqUpsertBook j _ => negb (j =? i)
  | _ => true
  end.

(** The log of [w'] continues the log of [w]. *)
Definition grows {G : Type} (w w' : World G) : Prop :=
  exists new, log w' = (log w ++ new)%list.

(** A write request built from the transaction with rowid [i], carrying
    the payload [p], is in the log. *)
Definition tx_request (i : Z) (p : TxPayload) (l : list Event) : Prop :=
  In (ReqUpsertTransaction i p) l \/ In (ReqInsertTransaction i p) l.

(** Exceptions raised by a statement of the local database. *)
Definition is_sqlite_error (e : Exn) : bool :=
  match e with
  | SqliteError _ => true
  | _ => false
  end.

(** A computation stays on the device: it leaves the remote as it is and
    records no request. *)
Definition stays_local {G A : Type} (m : M (G := G) A) : Prop :=
  forall w r w',
    m w = (r, w') ->
    remote w' = remote w
    /\ exists new, log w' = (log w ++ new)%list
                   /\ forallb local_only new = true.

(** A gateway that rejects every write and finds no book by name. *)
Definition rejects_writes {G : Type} (supabase : Gateway G) : Prop :=
  (forall u n g, data (fst (books_find supabase u n g)) = None)
  /\ (forall p g, error (fst (books_insert supabase p g)) <> None)
  /\ (forall p g, error (fst (books_upsert supabase p g)) <> None)
  /\ (forall p g, error (fst (transactions_insert supabase p g)) <> None)
  /\ (forall p g, error (fst (transactions_upsert supabase p g)) <> None).

(** The value a read resolved to, or [d] when it threw. *)
Definition value_or {A : Type} (d : A) (r : (A + Exn)) : A :=
  match r with
  | inl a => a
  | inr _ => d
  end.

End Traffic.

(* ================================================================== *)
(** ** More sample worlds *)
(* ================================================================== *)

Module Samples.

Import LocalStore Remote Eff Examples.

Definition fresh_tx_of (i : Z) : TxRow :=
  mkTx i (LocalRef 1) "expense" 50000 (Some "") (Some "food") 20 None 0 None
    1 0.

(** The reference gateway when the network is down: every request is
    answered with an error and the remote is not reached. *)
Definition offline : Gateway PgState :=
  mkGateway PgState
    (fun _ _ g => (failed "Failed to fetch", g))
    (fun _ _ g => (failed "Failed to fetch", g))
    (fun _ g => (failed "Failed to fetch", g))
    (fun _ g => (failed "Failed to fetch", g))
    (fun _ _ g => (failed "Failed to fetch", g))
    (fun _ g => (failed "Failed to fetch", g))
    (fun _ g => (failed "Failed to fetch", g)).

(** The reference gateway when only the read of [transactions] fails. *)
Definition no_transactions : Gateway PgState :=
  mkGateway PgState
    (books_select pg) (books_find pg) (books_insert pg) (books_upsert pg)
    (fun _ _ g => (failed "permission denied for table transactions", g))
    (transactions_insert pg) (transactions_upsert pg).

(** An empty local store facing a remote that holds one book, written at
    time [tr] and possibly deleted there, and one transaction; the
    transaction belongs to the book [book] of the remote. *)
Definition new_device (tr : Z) (deleted : bool) (book : string)
  : World PgState :=
  mkWorld (mkDB (mkTable [] 0) (mkTable [] 0) [] true)
    (mkPg [mkRBook "r1" user "Remote" 10 tr deleted]
       [mkRTx "t1" user book "income" 7 None (Some "salary") 10 tr false])
    sample_clock 0 sample_random 0 [].

(** A store in which the identifier the next push will draw is already
    taken: the clean transaction 1 carries it, and the transaction 2,
    created since, has none yet. *)
Definition collision_world : World PgState :=
  mkWorld
    (mkDB (mkTable [mkBook 1 "Personal" 10 (Some 10) 1 (Some "r1") 1 0] 1)
       (mkTable
          [mkTx 1 (LocalRef 1) "income" 7 None None 10 (Some 10) 1
             (Some "01234678-9bcd-4e01-8346-789bcde01234") 1 0;
           fresh_tx_of 2] 2)
       (cursors_at 15) true)
    (mkPg [mkRBook "r1" user "Personal" 10 12 false] [])
    sample_clock 0 sample_random 0 [].

(** Two books created locally, one transaction in the first and two in
    the second. *)
Definition two_books_world : World PgState :=
  mkWorld
    (mkDB (mkTable [fresh_book; mkBook 2 "Business" 12 None 0 None 1 0] 2)
       (mkTable
          [fresh_tx;
           mkTx 2 (LocalRef 2) "income" 700 (Some "") (Some "sales") 30 None 0
             None 1 0;
           mkTx 3 (LocalRef 2) "expense" 200 (Some "") (Some "rent") 40 None 0
             None 1 0] 3)
       [] true)
    (mkPg [] []) sample_clock 0 sample_random 0 [].

(** An empty local store whose cursors are at 100.  The remote holds a
    book stamped 80, which another device pushed after this one's cursor had
    passed that time, and a transaction of that book stamped 120. *)
Definition late_book_world : World PgState :=
  mkWorld (mkDB (mkTable [] 0) (mkTable [] 0) (cursors_at 100) true)
    (mkPg [mkRBook "r1" user "Remote" 10 80 false]
       [mkRTx "t1" user "r1" "income" 7 None (Some "salary") 110 120 false])
    sample_clock 0 sample_random 0 [].

End Samples.

(* ================================================================== *)
(** ** Vocabulary: rows by remote identifier *)
(* ================================================================== *)

Module Lookup.

Import LocalStore Remote.

(** No row of the table carries the remote identifier [s]. *)
Definition Absent {R : Type} `{RowLike R} (s : string) (t : Table R) : Prop :=
  forall y, In y (rows t) -> row_sync y <> Some s.

(** The rows a pull stores for a remote book and for a remote transaction
    that are new to the store; the transaction refers to the local book
    [book]. *)
Definition pulled_book (r : RBook) (i : Z) : BookRow :=
  mkBook i (rb_name r) (rb_created_at r) (Some (rb_updated_at r)) 1
    (Some (rb_id r)) 1 0.

Definition pulled_tx (r : RTx) (book : Z) (i : Z) : TxRow :=
  mkTx i (LocalRef book) (rt_type r) (rt_amount r) (rt_note r)
    (rt_category r) (rt_created_at r) (Some (rt_updated_at r)) 1
    (Some (rt_id r)) 1 0.

(** What a pull that returned [pr] has made of a fetched row, read off the
    database [d] it left.  Applied: exactly one local row carries the
    remote identifier, and either it holds the remote fields and
    [updated_at] and is marked clean, or it is strictly newer and the pair
    is in the conflicts of [pr].
    Skipped (transactions only): no local book carries the remote book
    identifier and no local transaction the remote identifier. *)
Definition book_applied (r : RBook) (pr : SyncService.PullResult) (d : DB)
  : Prop :=
  exists x, Obs.Pinned (rb_id r) x (books d)
    /\ (Obs.book_matches_remote r x
        \/ (rb_updated_at r < book_updated x
            /\ In (Obs.book_conflict_of x r) (SyncService.conflicts pr))).

Definition tx_applied (r : RTx) (pr : SyncService.PullResult) (d : DB)
  : Prop :=
  exists x, Obs.Pinned (rt_id r) x (transactions d)
    /\ (Obs.tx_matches_remote r x
        \/ (rt_updated_at r < tx_updated x
            /\ In (Obs.tx_conflict_of x r) (SyncService.conflicts pr))).

Definition tx_skipped (r : RTx) (d : DB) : Prop :=
  first_by_sync (rt_book_id r) (books d) = None
  /\ first_by_sync (rt_id r) (transactions d) = None.

End Lookup.
(* ================================================================== *)
(** ** Facts: tables *)
(* ================================================================== *)

Section TableFacts.

Import LocalStore Obs.

Context {R : Type} `{RowLike R}.

Lemma has_id_true (i : Z) (r : R) : has_id i r = true <-> row_id r = i.
Proof. unfold has_id. apply Z.eqb_eq. Qed.

Lemma has_sync_true (s : string) (r : R) :
  has_sync s r = true <-> row_sync r = Some s.
Proof.
  unfold has_sync. destruct (row_sync r) as [x|].
  - rewrite String.eqb_eq. split; congruence.
  - split; discriminate.
Qed.

Lemma first_by_sync_some (s : string) (t : Table R) (y : R) :
  first_by_sync s t = Some y -> In y (rows t) /\ row_sync y = Some s.
Proof.
  unfold first_by_sync. intros Hf. apply find_some in Hf.
  destruct Hf as [Hin Hs]. split; [exact Hin | now apply has_sync_true].
Qed.

Lemma first_by_id_some (i : Z) (t : Table R) (y : R) :
  first_by_id i t = Some y -> In y (rows t) /\ row_id y = i.
Proof.
  unfold first_by_id. intros Hf. apply find_some in Hf.
  destruct Hf as [Hin Hs]. split; [exact Hin | now apply has_id_true].
Qed.

Lemma find_unique {A : Type} (p : A -> bool) (l : list A) (x : A) :
  In x l -> p x = true -> (forall y, In y l -> p y = true -> y = x) ->
  find p l = Some x.
Proof.
  intros Hin Hp Hu. destruct (find p l) as [y|] eqn:Hf.
  - apply find_some in Hf. destruct Hf as [Hy Hpy]. f_equal. now apply Hu.
  - exfalso. pose proof (find_none p l Hf x Hin) as Hn. congruence.
Qed.

Lemma NoDup_map_inj {A B : Type} (f : A -> B) (l : list A) (x y : A) :
  NoDup (map f l) -> In x l -> In y l -> f x = f y -> x = y.
Proof.
  induction l as [|a l IH]; simpl; intros Hnd Hx Hy Hf; [contradiction |].
  inversion Hnd as [|? ? Hnotin Hnd']; subst.
  destruct Hx as [-> | Hx], Hy as [-> | Hy]; try reflexivity.
  - exfalso. apply Hnotin. rewrite Hf. now apply in_map.
  - exfalso. apply Hnotin. rewrite <- Hf. now apply in_map.
  - now apply IH.
Qed.

Lemma wf_pinned (t : Table R) (x : R) (s : string) :
  WfTable t -> In x (rows t) -> row_sync x = Some s -> Pinned s x t.
Proof.
  intros [Hnd Hu] Hin Hs. repeat split; try assumption.
  - intros y Hy Hid. now apply (NoDup_map_inj row_id (rows t)).
  - intros y Hy Hys. now apply (Hu y x s).
Qed.

Lemma pinned_first_by_sync (s : string) (x : R) (t : Table R) :
  Pinned s x t -> first_by_sync s t = Some x.
Proof.
  intros (Hin & Hs & _ & Hu). apply find_unique; try assumption.
  - now apply has_sync_true.
  - intros y Hy Hp. apply Hu; [exact Hy | now apply has_sync_true].
Qed.

Lemma pinned_first_by_id (s : string) (x : R) (t : Table R) :
  Pinned s x t -> first_by_id (row_id x) t = Some x.
Proof.
  intros (Hin & _ & Hu & _). apply find_unique; try assumption.
  - now apply has_id_true.
  - intros y Hy Hp. apply Hu; [exact Hy | now apply has_id_true].
Qed.

(** A row found under another remote identifier is another row, with
    another rowid. *)
Lemma pinned_other_sync (s s' : string) (x y : R) (t : Table R) :
  Pinned s x t -> In y (rows t) -> row_sync y = Some s' -> s' <> s ->
  row_id y <> row_id x.
Proof.
  intros (Hin & Hs & Hu & _) Hy Hys Hne Hid.
  apply Hu in Hid; [| exact Hy]. subst y. congruence.
Qed.

Lemma in_update_where (p : R -> bool) (f : R -> R) (t : Table R) (y : R) :
  In y (rows (update_where p f t)) <->
  exists z, In z (rows t) /\ y = (if p z then f z else z).
Proof.
  unfold update_where. simpl. rewrite in_map_iff.
  split; intros (z & H1 & H2); exists z; split; auto.
Qed.

(** An UPDATE that leaves the pinned row alone, keeps rowids, and gives no
    row the pinned remote identifier, keeps the row pinned. *)
Lemma pinned_update (s : string) (x : R) (p : R -> bool) (f : R -> R)
  (t : Table R) :
  Pinned s x t ->
  (forall y, In y (rows t) -> p y = true ->
     row_id y <> row_id x /\ row_id (f y) = row_id y
     /\ row_sync (f y) <> Some s) ->
  Pinned s x (update_where p f t).
Proof.
  intros (Hin & Hs & Hui & Hus) Hf. repeat split.
  - apply in_update_where. exists x. split; [exact Hin |].
    destruct (p x) eqn:Hp; [| reflexivity].
    destruct (Hf x Hin Hp) as [Hne _]. congruence.
  - exact Hs.
  - intros y Hy Hid. apply in_update_where in Hy.
    destruct Hy as (z & Hz & ->). destruct (p z) eqn:Hp.
    + destruct (Hf z Hz Hp) as (Hne & Hk & _). congruence.
    + now apply Hui.
  - intros y Hy Hys. apply in_update_where in Hy.
    destruct Hy as (z & Hz & ->). destruct (p z) eqn:Hp.
    + destruct (Hf z Hz Hp) as (_ & _ & Hns). congruence.
    + now apply Hus.
Qed.

(** An UPDATE of the pinned row by rowid that keeps its rowid and remote
    identifier pins the updated row. *)
Lemma pinned_update_self (s : string) (x : R) (f : R -> R) (t : Table R) :
  Pinned s x t ->
  row_id (f x) = row_id x -> row_sync (f x) = Some s ->
  Pinned s (f x) (update_where (has_id (row_id x)) f t).
Proof.
  intros (Hin & Hs & Hui & Hus) Hfi Hfs. repeat split.
  - apply in_update_where. exists x. split; [exact Hin |].
    unfold has_id. now rewrite Z.eqb_refl.
  - exact Hfs.
  - intros y Hy Hid. apply in_update_where in Hy.
    destruct Hy as (z & Hz & ->). destruct (has_id (row_id x) z) eqn:Hp.
    + apply has_id_true in Hp. apply Hui in Hp; [| exact Hz]. now subst z.
    + rewrite Hfi in Hid. apply Hui in Hid; [| exact Hz]. subst z.
      unfold has_id in Hp. now rewrite Z.eqb_refl in Hp.
  - intros y Hy Hys. apply in_update_where in Hy.
    destruct Hy as (z & Hz & ->). destruct (has_id (row_id x) z) eqn:Hp.
    + apply has_id_true in Hp. apply Hui in Hp; [| exact Hz]. now subst z.
    + apply Hus in Hys; [| exact Hz]. subst z.
      unfold has_id in Hp. now rewrite Z.eqb_refl in Hp.
Qed.

Lemma fold_max_ge (l : list Z) (a : Z) :
  a <= fold_right Z.max a l /\ forall z, In z l -> z <= fold_right Z.max a l.
Proof.
  induction l as [|b l [IH1 IH2]]; simpl.
  - split; [lia | contradiction].
  - split; [lia |]. intros z [-> | Hz]; [lia |].
    specialize (IH2 z Hz). lia.
Qed.

Lemma next_rowid_fresh (t : Table R) (y : R) :
  In y (rows t) -> row_id y < next_rowid t.
Proof.
  intros Hy. unfold next_rowid.
  destruct (fold_max_ge (map row_id (rows t)) (seq t)) as [_ Hm].
  specialize (Hm (row_id y) (in_map row_id _ _ Hy)). lia.
Qed.

(** INSERT OR REPLACE of a row carrying another remote identifier. *)
Lemma pinned_insert_or_replace (s s' : string) (x : R) (mk : Z -> R)
  (t : Table R) :
  Pinned s x t -> s' <> s ->
  (forall i, row_id (mk i) = i /\ row_sync (mk i) = Some s') ->
  Pinned s x (insert_or_replace s' mk t).
Proof.
  intros (Hin & Hs & Hui & Hus) Hne Hmk.
  unfold insert_or_replace. repeat split; simpl.
  - apply in_or_app. left. apply filter_In. split; [exact Hin |].
    unfold has_sync. rewrite Hs.
    destruct (String.eqb_spec s s'); [congruence | reflexivity].
  - exact Hs.
  - intros y Hy Hid. apply in_app_or in Hy. destruct Hy as [Hy | [<- | []]].
    + apply filter_In in Hy. now apply Hui.
    + destruct (Hmk (next_rowid t)) as [Hi _]. rewrite Hi in Hid.
      pose proof (next_rowid_fresh t x Hin). lia.
  - intros y Hy Hys. apply in_app_or in Hy. destruct Hy as [Hy | [<- | []]].
    + apply filter_In in Hy. now apply Hus.
    + destruct (Hmk (next_rowid t)) as [_ Hi]. congruence.
Qed.

(** A plain INSERT of a row that has no remote identifier yet. *)
Lemma pinned_insert (s : string) (x : R) (mk : Z -> R) (t : Table R) :
  Pinned s x t ->
  (forall i, row_id (mk i) = i /\ row_sync (mk i) = None) ->
  Pinned s x (insert mk t).
Proof.
  intros (Hin & Hs & Hui & Hus) Hmk.
  unfold insert. repeat split; simpl.
  - apply in_or_app. now left.
  - exact Hs.
  - intros y Hy Hid. apply in_app_or in Hy. destruct Hy as [Hy | [<- | []]].
    + now apply Hui.
    + destruct (Hmk (next_rowid t)) as [Hi _]. rewrite Hi in Hid.
      pose proof (next_rowid_fresh t x Hin). lia.
  - intros y Hy Hys. apply in_app_or in Hy. destruct Hy as [Hy | [<- | []]].
    + now apply Hus.
    + destruct (Hmk (next_rowid t)) as [_ Hi]. congruence.
Qed.

(** UNIQUE(sync_id): when the check lets [SET sync_id = s'] through for row
    [i], no other row holds [s']. *)
Lemma sync_conflict_false (s' : string) (i : Z) (t : Table R) (y z : R) :
  sync_conflict s' i t = false ->
  In y (rows t) -> row_id y = i ->
  In z (rows t) -> row_id z <> i -> row_sync z <> Some s'.
Proof.
  unfold sync_conflict. intros Hc Hy Hyi Hz Hzi Hzs.
  apply andb_false_iff in Hc. destruct Hc as [Hc | Hc].
  - assert (existsb (has_id i) (rows t) = true) as He.
    { apply existsb_exists. exists y. split; [exact Hy |].
      now apply has_id_true. }
    congruence.
  - assert (existsb (fun r => negb (has_id i r) && has_sync s' r) (rows t)
            = true) as He.
    { apply existsb_exists. exists z. split; [exact Hz |].
      apply andb_true_iff. split.
      - apply negb_true_iff. unfold has_id. now apply Z.eqb_neq.
      - now apply has_sync_true. }
    congruence.
Qed.

End TableFacts.
(* ================================================================== *)
(** ** Facts: computations *)
(* ================================================================== *)

Section MonadFacts.

Import Eff.

Context {G : Type}.

Lemma bind_inv {A B : Type} (m : M (G := G) A) (k : A -> M B) w r w' :
  bind m k w = (r, w') ->
  (exists a w1, m w = (inl a, w1) /\ k a w1 = (r, w'))
  \/ (exists e, m w = (inr e, w') /\ r = inr e).
Proof.
  unfold bind. destruct (m w) as [[a | e] w1]; intros Hr.
  - left. now exists a, w1.
  - right. exists e. now inversion Hr.
Qed.

Lemma bind_ok_inv {A B : Type} (m : M (G := G) A) (k : A -> M B) w b w' :
  bind m k w = (inl b, w') ->
  exists a w1, m w = (inl a, w1) /\ k a w1 = (inl b, w').
Proof.
  intros Hr. apply bind_inv in Hr.
  destruct Hr as [Hr | (e & _ & Hr)]; [exact Hr | discriminate].
Qed.

Lemma try_catch_inv {A : Type} (m : M (G := G) A) (h : Exn -> M A) w r w' :
  try_catch m h w = (r, w') ->
  (exists a, m w = (inl a, w') /\ r = inl a)
  \/ (exists e w1, m w = (inr e, w1) /\ h e w1 = (r, w')).
Proof.
  unfold try_catch. destruct (m w) as [[a | e] w1]; intros Hr.
  - left. exists a. now inversion Hr.
  - right. now exists e, w1.
Qed.

(** Catch-and-rethrow changes nothing. *)
Lemma try_rethrow {A : Type} (m : M (G := G) A) w :
  try_catch m (fun e => throw e) w = m w.
Proof. unfold try_catch, throw. now destruct (m w) as [[a | e] w1]. Qed.

(** An invariant of the body is an invariant of the loop, however the loop
    ends. *)
Lemma forM_inv {A : Type} (P : World G -> Prop) (xs : list A)
  (body : A -> M unit) :
  (forall x, In x xs -> forall w r w', P w -> body x w = (r, w') -> P w') ->
  forall w r w', P w -> forM_ xs body w = (r, w') -> P w'.
Proof.
  induction xs as [|x xs IH]; simpl; intros Hb w r w' HP Hr.
  - unfold ret in Hr. now inversion Hr; subst.
  - apply bind_inv in Hr. destruct Hr as [(a & w1 & H1 & H2) | (e & H1 & _)].
    + eapply IH; [| | exact H2].
      * intros y Hy. apply Hb. now right.
      * eapply Hb; [now left | exact HP | exact H1].
    + eapply Hb; [now left | exact HP | exact H1].
Qed.

(** The same for a loop with a local variable; [Q] is what is known when
    the loop is left by an exception. *)
Lemma foldM_inv {A B : Type} (P : B -> World G -> Prop) (Q : World G -> Prop)
  (xs : list A) (body : B -> A -> M B) :
  (forall x, In x xs -> forall acc w r w', P acc w -> body acc x w = (r, w') ->
     match r with inl acc' => P acc' w' | inr _ => Q w' end) ->
  forall acc w r w', P acc w -> foldM body xs acc w = (r, w') ->
    match r with inl acc' => P acc' w' | inr _ => Q w' end.
Proof.
  induction xs as [|x xs IH]; simpl; intros Hb acc w r w' HP Hr.
  - unfold ret in Hr. now inversion Hr; subst.
  - apply bind_inv in Hr.
    destruct Hr as [(a & w1 & H1 & H2) | (e & H1 & ->)].
    + eapply IH; [| | exact H2].
      * intros y Hy. apply Hb. now right.
      * apply (Hb x (or_introl eq_refl) acc w (inl a) w1 HP H1).
    + apply (Hb x (or_introl eq_refl) acc w (inr e) w' HP H1).
Qed.

Lemma forM_app {A : Type} (xs ys : list A) (body : A -> M (G := G) unit) w :
  forM_ (xs ++ ys)%list body w
  = bind (forM_ xs body) (fun _ => forM_ ys body) w.
Proof.
  revert w. induction xs as [|x xs IH]; intros w; simpl.
  - reflexivity.
  - unfold bind. destruct (body x w) as [[[] | e] w1].
    + rewrite IH. reflexivity.
    + reflexivity.
Qed.

Lemma foldM_app {A B : Type} (xs ys : list A) (body : B -> A -> M (G := G) B)
  acc w :
  foldM body (xs ++ ys)%list acc w
  = bind (foldM body xs acc) (fun acc' => foldM body ys acc') w.
Proof.
  revert acc w. induction xs as [|x xs IH]; intros acc w; simpl.
  - reflexivity.
  - unfold bind. destruct (body acc x w) as [[a | e] w1].
    + rewrite IH. reflexivity.
    + reflexivity.
Qed.

(** Every run is the pair of its result and its final world. *)
Lemma run_eq_any {A : Type} (r : (A + Exn) * World G) : r = (fst r, snd r).
Proof. now destruct r. Qed.

End MonadFacts.

(** Unfolding of the primitive computations and of the statements. *)
Ltac run :=
  cbv beta iota delta
    [Eff.bind Eff.ret Eff.throw Eff.try_catch Eff.query Eff.now Eff.emit
     Eff.request Eff.runAsync Eff.on_books Eff.on_transactions
     Eff.books_insert_row Eff.prefs_set
     DatabaseService.openUserDB DatabaseService.closeDatabase
     SyncService.openUserDB SyncService.ignore_errors] in *.

Ltac inv H := inversion H; subst; clear H.

(* ================================================================== *)
(** ** Facts: one step of each loop *)
(* ================================================================== *)

Ltac break_match :=
  match goal with
  | |- context [match ?e with _ => _ end] =>
      lazymatch e with
      | context [match _ with _ => _ end] => fail
      | _ => destruct e eqn:?
      end
  end; cbv beta.

Ltac stmts :=
  unfold Eff.transactions_write_ref, Eff.transactions_insert_ref,
    Eff.books_write_sync, Eff.transactions_write_sync in *; run.

Section StepFacts.

Import LocalStore Remote Eff Obs SyncService.

Context {G : Type}.

(** Rows sharing the rowid of a row found under another remote identifier
    are neither the pinned row nor carry its identifier. *)
Lemma pinned_id_class {R : Type} `{RowLike R} (s s' : string) (x y z : R)
  (t : Table R) :
  Pinned s x t -> In y (rows t) -> row_sync y = Some s' -> s' <> s ->
  In z (rows t) -> row_id z = row_id y ->
  row_id z <> row_id x /\ row_sync z <> Some s.
Proof.
  intros HP Hy Hys Hne Hz Hzy.
  pose proof (pinned_other_sync s s' x y t HP Hy Hys Hne) as Hid.
  destruct HP as (Hin & Hs & Hui & Hus). split.
  - congruence.
  - intros Hzs. apply Hus in Hzs; [| exact Hz]. subst z. congruence.
Qed.

(** An UPDATE by rowid of another row, with assignments that keep [id] and
    [sync_id]. *)
Lemma pinned_update_by_id {R : Type} `{RowLike R} (s : string) (x : R)
  (i : Z) (f : R -> R) (t : Table R) :
  Pinned s x t -> i <> row_id x ->
  (forall y, row_id (f y) = row_id y /\ row_sync (f y) = row_sync y) ->
  Pinned s x (update_where (has_id i) f t).
Proof.
  intros HP Hne Hf. apply pinned_update; [exact HP |].
  intros y Hy Hp. apply has_id_true in Hp. destruct (Hf y) as [Hfi Hfs].
  split; [congruence | split; [exact Hfi |]].
  rewrite Hfs. intros Hys. destruct HP as (_ & _ & _ & Hus).
  apply Hus in Hys; [| exact Hy]. congruence.
Qed.

(** The same when the assignments include [sync_id = s'] and UNIQUE held. *)
Lemma pinned_update_sync {R : Type} `{RowLike R} (s s' : string) (x : R)
  (i : Z) (f : R -> R) (t : Table R) :
  Pinned s x t -> i <> row_id x ->
  sync_conflict s' i t = false ->
  (forall y, row_id (f y) = row_id y /\ row_sync (f y) = Some s') ->
  Pinned s x (update_where (has_id i) f t).
Proof.
  intros HP Hne Hc Hf. apply pinned_update; [exact HP |].
  intros y Hy Hp. apply has_id_true in Hp. destruct (Hf y) as [Hfi Hfs].
  split; [congruence | split; [exact Hfi |]].
  rewrite Hfs. intros Hys. inversion Hys; subst s'.
  destruct HP as (Hin & Hs & _ & _).
  apply (sync_conflict_false s i t y x Hc Hy Hp Hin); [congruence | exact Hs].
Qed.

(** *** Pull *)

Lemma pull_book_frame acc (r : RBook) (w : World G) res w' :
  pull_book acc r w = (res, w') ->
  same_transactions w w' /\ same_prefs w w' /\ remote w' = remote w.
Proof.
  unfold pull_book, same_transactions, same_prefs. stmts.
  repeat break_match; intros Hr; inv Hr; simpl; auto.
Qed.

Lemma pull_transaction_frame acc (r : RTx) (w : World G) res w' :
  pull_transaction acc r w = (res, w') ->
  same_books w w' /\ same_prefs w w' /\ remote w' = remote w.
Proof.
  unfold pull_transaction, same_books, same_prefs. stmts.
  repeat break_match; intros Hr; inv Hr; simpl; auto.
Qed.

(** A step of the books loop does not throw, and adds at most the conflict
    of the row it matched. *)
Lemma pull_book_result acc (r : RBook) (w : World G) res w' :
  pull_book acc r w = (res, w') ->
  res = inl acc
  \/ exists l, first_by_sync (rb_id r) (books (db w)) = Some l
               /\ res = inl (acc ++ [book_conflict_of l r])%list.
Proof.
  unfold pull_book. stmts.
  repeat break_match; intros Hr; inv Hr; auto.
  right. eexists. split; reflexivity.
Qed.

Lemma pull_transaction_result acc (r : RTx) (w : World G) acc' w' :
  pull_transaction acc r w = (inl acc', w') ->
  acc' = acc
  \/ exists l, first_by_sync (rt_id r) (transactions (db w)) = Some l
               /\ acc' = (acc ++ [tx_conflict_of l r])%list.
Proof.
  unfold pull_transaction. stmts.
  repeat break_match; intros Hr; inv Hr; auto.
  right. eexists. split; reflexivity.
Qed.

Lemma pull_book_other (s : string) (x : BookRow) acc (r : RBook)
  (w : World G) res w' :
  rb_id r <> s ->
  Pinned s x (books (db w)) ->
  pull_book acc r w = (res, w') ->
  Pinned s x (books (db w')).
Proof.
  intros Hne HP. unfold pull_book. run.
  destruct (first_by_sync (rb_id r) (books (db w))) as [y|] eqn:Hf.
  - apply first_by_sync_some in Hf. destruct Hf as [Hy Hys].
    destruct (rb_updated_at r <? book_updated y); cbv beta; intros Hr; inv Hr.
    + exact HP.
    + simpl. apply pinned_update; [exact HP |].
      intros z Hz Hp. apply has_id_true in Hp.
      destruct (pinned_id_class s (rb_id r) x y z _ HP Hy Hys Hne Hz Hp).
      split; [assumption | split; [reflexivity | assumption]].
  - cbv beta. intros Hr; inv Hr. simpl.
    apply pinned_insert_or_replace; [exact HP | exact Hne |].
    intros i. split; reflexivity.
Qed.

Lemma pull_book_newer_remote (s : string) (x : BookRow) acc (r : RBook)
  (w : World G) res w' :
  rb_id r = s ->
  Pinned s x (books (db w)) ->
  (rb_updated_at r <? book_updated x) = false ->
  pull_book acc r w = (res, w') ->
  res = inl acc /\ Pinned s (overwrite_book r x) (books (db w')).
Proof.
  intros <- HP Hlt. unfold pull_book. run.
  rewrite (pinned_first_by_sync _ _ _ HP). rewrite Hlt. cbv beta.
  intros Hr; inv Hr. simpl. split; [reflexivity |].
  assert (row_sync x = Some (rb_id r)) as Hs
    by (now destruct HP as (_ & Hs & _)).
  exact (pinned_update_self (rb_id r) x (overwrite_book r) (books (db w))
           HP eq_refl Hs).
Qed.

Lemma pull_book_conflict (s : string) (x : BookRow) acc (r : RBook)
  (w : World G) res w' :
  rb_id r = s ->
  Pinned s x (books (db w)) ->
  (rb_updated_at r <? book_updated x) = true ->
  pull_book acc r w = (res, w') ->
  res = inl (acc ++ [book_conflict_of x r])%list /\ w' = w.
Proof.
  intros <- HP Hlt. unfold pull_book. run.
  rewrite (pinned_first_by_sync _ _ _ HP). rewrite Hlt. cbv beta.
  intros Hr; inv Hr. split; reflexivity.
Qed.

Lemma pull_transaction_other (s : string) (x : TxRow) acc (r : RTx)
  (w : World G) res w' :
  rt_id r <> s ->
  Pinned s x (transactions (db w)) ->
  pull_transaction acc r w = (res, w') ->
  Pinned s x (transactions (db w')).
Proof.
  intros Hne HP. unfold pull_transaction. stmts.
  destruct (first_by_sync (rt_id r) (transactions (db w))) as [y|] eqn:Hf.
  - apply first_by_sync_some in Hf. destruct Hf as [Hy Hys].
    destruct (rt_updated_at r <? tx_updated y); cbv beta.
    + intros Hr; inv Hr. exact HP.
    + break_match; intros Hr; inv Hr; simpl; [exact HP |].
      apply pinned_update; [exact HP |].
      intros z Hz Hp. apply has_id_true in Hp.
      destruct (pinned_id_class s (rt_id r) x y z _ HP Hy Hys Hne Hz Hp).
      split; [assumption | split; [reflexivity | assumption]].
  - cbv beta. repeat break_match; intros Hr; inv Hr; simpl; try exact HP.
    apply pinned_insert_or_replace; [exact HP | exact Hne |].
    intros i. split; reflexivity.
Qed.

(** The overwrite of a matched transaction: it happens unless SQLite
    rejects the statement (the foreign key on [book_id]), in which case the
    step throws and the table is as before. *)
Lemma pull_transaction_newer_remote (s : string) (x : TxRow) acc (r : RTx)
  (w : World G) res w' :
  rt_id r = s ->
  Pinned s x (transactions (db w)) ->
  (rt_updated_at r <? tx_updated x) = false ->
  pull_transaction acc r w = (res, w') ->
  (res = inl acc /\ Pinned s (overwrite_tx r x) (transactions (db w')))
  \/ ((exists e, res = inr e) /\ same_transactions w w').
Proof.
  intros <- HP Hlt. unfold pull_transaction, same_transactions. stmts.
  rewrite (pinned_first_by_sync _ _ _ HP). rewrite Hlt. cbv beta.
  break_match; intros Hr; inv Hr; simpl.
  - right. split; [eexists |]; reflexivity.
  - left. split; [reflexivity |].
    assert (row_sync x = Some (rt_id r)) as Hs
      by (now destruct HP as (_ & Hs & _)).
    exact (pinned_update_self (rt_id r) x (overwrite_tx r)
             (transactions (db w)) HP eq_refl Hs).
Qed.

Lemma pull_transaction_conflict (s : string) (x : TxRow) acc (r : RTx)
  (w : World G) res w' :
  rt_id r = s ->
  Pinned s x (transactions (db w)) ->
  (rt_updated_at r <? tx_updated x) = true ->
  pull_transaction acc r w = (res, w') ->
  res = inl (acc ++ [tx_conflict_of x r])%list /\ w' = w.
Proof.
  intros <- HP Hlt. unfold pull_transaction. run.
  rewrite (pinned_first_by_sync _ _ _ HP). rewrite Hlt. cbv beta.
  intros Hr; inv Hr. split; reflexivity.
Qed.

End StepFacts.
Section ResolvePushFacts.

Import LocalStore Remote Eff Obs SyncService.

Context {G : Type}.

(** *** Resolve *)

Lemma resolve_conflict_ok (c : Conflict) (w : World G) res w' :
  resolve_conflict c w = (res, w') ->
  res = inl tt /\ same_prefs w w'
  /\ match cdata c with
     | BookData _ _ => same_transactions w w'
     | TxData _ _ => same_books w w'
     end.
Proof.
  unfold resolve_conflict, same_prefs, same_transactions, same_books. stmts.
  destruct (cdata c); intros Hr; inv Hr; simpl; auto.
Qed.

Lemma resolve_book_other (s : string) (x : BookRow) (c : Conflict)
  (w : World G) res w' :
  Pinned s x (books (db w)) ->
  (forall l r, cdata c = BookData l r -> localId c <> b_id x) ->
  resolve_conflict c w = (res, w') ->
  Pinned s x (books (db w')).
Proof.
  intros HP Hc. unfold resolve_conflict. stmts.
  destruct (cdata c) as [l r | l r] eqn:Hd; intros Hr; inv Hr; simpl.
  - apply pinned_update_by_id; [exact HP | exact (Hc l r eq_refl) |].
    intros y. split; reflexivity.
  - exact HP.
Qed.

Lemma resolve_book_self (s : string) (x : BookRow) (c : Conflict) l r
  (w : World G) res w' :
  Pinned s x (books (db w)) ->
  cdata c = BookData l r -> localId c = b_id x ->
  resolve_conflict c w = (res, w') ->
  Pinned s (overwrite_book r x) (books (db w')).
Proof.
  intros HP Hd Hid. unfold resolve_conflict. stmts. rewrite Hd, Hid.
  intros Hr; inv Hr; simpl.
  assert (row_sync x = Some s) as Hs by (now destruct HP as (_ & Hs & _)).
  exact (pinned_update_self s x (overwrite_book r) (books (db w))
           HP eq_refl Hs).
Qed.

Lemma resolve_tx_other (s : string) (x : TxRow) (c : Conflict)
  (w : World G) res w' :
  Pinned s x (transactions (db w)) ->
  (forall l r, cdata c = TxData l r -> localId c <> t_id x) ->
  resolve_conflict c w = (res, w') ->
  Pinned s x (transactions (db w')).
Proof.
  intros HP Hc. unfold resolve_conflict. stmts.
  destruct (cdata c) as [l r | l r] eqn:Hd; intros Hr; inv Hr; simpl.
  - exact HP.
  - apply pinned_update_by_id; [exact HP | exact (Hc l r eq_refl) |].
    intros y. split; reflexivity.
Qed.

Lemma resolve_tx_self (s : string) (x : TxRow) (c : Conflict) l r
  (w : World G) res w' :
  Pinned s x (transactions (db w)) ->
  cdata c = TxData l r -> localId c = t_id x ->
  resolve_conflict c w = (res, w') ->
  Pinned s (overwrite_tx_fields r x) (transactions (db w')).
Proof.
  intros HP Hd Hid. unfold resolve_conflict. stmts. rewrite Hd, Hid.
  intros Hr; inv Hr; simpl.
  assert (row_sync x = Some s) as Hs by (now destruct HP as (_ & Hs & _)).
  exact (pinned_update_self s x (overwrite_tx_fields r) (transactions (db w))
           HP eq_refl Hs).
Qed.

(** *** Push *)

Lemma push_book_ok userId supabase (b : BookRow) (w : World G) res w' :
  push_book userId supabase b w = (res, w') ->
  res = inl tt /\ same_transactions w w' /\ same_prefs w w'.
Proof.
  unfold push_book, generateSyncId, same_transactions, same_prefs. stmts.
  repeat break_match; intros Hr; inv Hr; simpl; auto.
Qed.

Lemma push_book_other (s : string) (x : BookRow) userId supabase
  (b : BookRow) (w : World G) res w' :
  Pinned s x (books (db w)) ->
  b_id b <> b_id x ->
  push_book userId supabase b w = (res, w') ->
  Pinned s x (books (db w')).
Proof.
  intros HP Hne. unfold push_book, generateSyncId. stmts.
  repeat break_match; intros Hr; inv Hr; simpl; try exact HP.
  - apply pinned_update_by_id; [exact HP | exact Hne |].
    intros y. split; reflexivity.
  - eapply pinned_update_sync; [exact HP | exact Hne | eassumption |].
    intros y. split; reflexivity.
  - eapply pinned_update_sync; [exact HP | exact Hne | eassumption |].
    intros y. split; reflexivity.
Qed.

Lemma push_transaction_frame userId supabase (row : TxRow * option string)
  (w : World G) res w' :
  push_transaction userId supabase row w = (res, w') ->
  same_books w w' /\ same_prefs w w'.
Proof.
  unfold push_transaction, generateSyncId, same_books, same_prefs. stmts.
  destruct row as [tx bs].
  repeat break_match; intros Hr; inv Hr; simpl; auto.
Qed.

Lemma push_transaction_other (s : string) (x : TxRow) userId supabase
  (tx : TxRow) bs (w : World G) res w' :
  Pinned s x (transactions (db w)) ->
  t_id tx <> t_id x ->
  push_transaction userId supabase (tx, bs) w = (res, w') ->
  Pinned s x (transactions (db w')).
Proof.
  intros HP Hne. unfold push_transaction, generateSyncId. stmts.
  repeat break_match; intros Hr; inv Hr; simpl; try exact HP.
  - apply pinned_update_by_id; [exact HP | exact Hne |].
    intros y. split; reflexivity.
  - eapply pinned_update_sync; [exact HP | exact Hne | eassumption |].
    intros y. split; reflexivity.
Qed.

(** A transaction whose book has no remote identifier is passed over. *)
Lemma push_transaction_skip userId supabase (tx : TxRow) bs (w : World G) :
  Js.truthy bs = false ->
  push_transaction userId supabase (tx, bs) w = (inl tt, w).
Proof. intros Hb. unfold push_transaction. rewrite Hb. reflexivity. Qed.

Lemma setUserPreference_frame userId key v (w : World G) res w' :
  setUserPreference userId key v w = (res, w') ->
  res = inl tt /\ same_books w w' /\ same_transactions w w'
  /\ user_preferences (db w') = pref_set key v (user_preferences (db w)).
Proof.
  unfold setUserPreference, DatabaseService.setUserPreference, same_books,
    same_transactions. stmts.
  intros Hr; inv Hr; simpl; auto.
Qed.

End ResolvePushFacts.
(* ================================================================== *)
(** ** Facts: the pull phase *)
(* ================================================================== *)

Section PullFacts.

Import LocalStore Remote Eff Obs SyncService.

Context {G : Type}.

Lemma carry_nil_book (i : Z) (r : RBook) : BookConflictsCarry i r [].
Proof. intros c l rd []. Qed.

Lemma carry_nil_tx (i : Z) (r : RTx) : TxConflictsCarry i r [].
Proof. intros c l rd []. Qed.

Lemma carry_app_book (i : Z) (r : RBook) cs c :
  BookConflictsCarry i r cs ->
  (forall l rd, cdata c = BookData l rd -> localId c = i -> rd = r) ->
  BookConflictsCarry i r (cs ++ [c])%list.
Proof.
  intros Hcs Hc c' l rd Hin. apply in_app_or in Hin.
  destruct Hin as [Hin | [<- | []]]; [now apply (Hcs c') | apply Hc].
Qed.

Lemma carry_app_tx (i : Z) (r : RTx) cs c :
  TxConflictsCarry i r cs ->
  (forall l rd, cdata c = TxData l rd -> localId c = i -> rd = r) ->
  TxConflictsCarry i r (cs ++ [c])%list.
Proof.
  intros Hcs Hc c' l rd Hin. apply in_app_or in Hin.
  destruct Hin as [Hin | [<- | []]]; [now apply (Hcs c') | apply Hc].
Qed.

(** The books loop over remote rows none of which matches the pinned
    book. *)
Lemma pull_books_others (s : string) (x : BookRow) (r : RBook) (tr : RTx)
  (j : Z) (batch : list RBook) acc (w : World G) res w' :
  (forall r', In r' batch -> rb_id r' <> s) ->
  Pinned s x (books (db w)) ->
  BookConflictsCarry (b_id x) r acc ->
  TxConflictsCarry j tr acc ->
  foldM pull_book batch acc w = (res, w') ->
  exists acc', res = inl acc'
    /\ Pinned s x (books (db w'))
    /\ BookConflictsCarry (b_id x) r acc'
    /\ TxConflictsCarry j tr acc'
    /\ incl acc acc'
    /\ same_transactions w w' /\ same_prefs w w' /\ remote w' = remote w.
Proof.
  intros Hb HP Hc Ht Hr.
  pose (P := fun (a : list Conflict) (v : World G) =>
    Pinned s x (books (db v)) /\ BookConflictsCarry (b_id x) r a
    /\ TxConflictsCarry j tr a /\ incl acc a
    /\ same_transactions w v /\ same_prefs w v /\ remote v = remote w).
  assert (match res with inl a => P a w' | inr _ => False end) as HR.
  { apply (foldM_inv P (fun _ => False) batch pull_book) with (acc := acc)
      (w := w); [| | exact Hr].
    - intros r' Hr' a v res1 v1 (H1 & H2 & H3 & H4 & H5 & H6 & H7) Hstep.
      pose proof (pull_book_other s x a r' v res1 v1 (Hb r' Hr') H1 Hstep)
        as HP1.
      destruct (pull_book_frame a r' v res1 v1 Hstep) as (F1 & F2 & F3).
      assert (same_transactions w v1 /\ same_prefs w v1
              /\ remote v1 = remote w) as HF.
      { unfold same_transactions, same_prefs in *. repeat split; congruence. }
      destruct (pull_book_result a r' v res1 v1 Hstep)
        as [-> | (l & Hl & ->)].
      + unfold P. tauto.
      + apply first_by_sync_some in Hl. destruct Hl as [Hl Hls].
        pose proof (pinned_other_sync s (rb_id r') x l _ H1 Hl Hls
                      (Hb r' Hr')) as Hid.
        refine (conj HP1 (conj _ (conj _ (conj _ HF)))).
        * apply carry_app_book; [exact H2 |]. simpl. intros; contradiction.
        * apply carry_app_tx; [exact H3 |]. simpl. intros; discriminate.
        * intros c Hc'. apply in_or_app. left. now apply H4.
    - unfold P, same_transactions, same_prefs.
      refine (conj HP (conj Hc (conj Ht (conj _ _)))); [apply incl_refl |].
      repeat split; reflexivity. }
  destruct res as [a | e]; [| contradiction].
  exists a. unfold P in HR. tauto.
Qed.

(** The books loop when the batch holds exactly one row matching the pinned
    book: a local row that is strictly newer is reported and left alone,
    otherwise it is overwritten. *)
Lemma pull_books_pinned (s : string) (x : BookRow) (r : RBook) (tr : RTx)
  (j : Z) (batch : list RBook) (w : World G) res w' :
  NoDup (map rb_id batch) -> In r batch -> rb_id r = s ->
  Pinned s x (books (db w)) ->
  foldM pull_book batch [] w = (res, w') ->
  exists acc', res = inl acc'
    /\ BookConflictsCarry (b_id x) r acc'
    /\ TxConflictsCarry j tr acc'
    /\ same_transactions w w' /\ same_prefs w w' /\ remote w' = remote w
    /\ (if rb_updated_at r <? book_updated x
        then Pinned s x (books (db w')) /\ In (book_conflict_of x r) acc'
        else Pinned s (overwrite_book r x) (books (db w'))).
Proof.
  intros Hnd Hin <- HP Hr.
  destruct (in_split r batch Hin) as (l1 & l2 & ->).
  rewrite map_app in Hnd. simpl in Hnd.
  assert (forall r', In r' l1 -> rb_id r' <> rb_id r) as H1.
  { intros r' Hr' Heq. apply NoDup_remove_2 in Hnd. apply Hnd.
    apply in_or_app. left. rewrite <- Heq. now apply in_map. }
  assert (forall r', In r' l2 -> rb_id r' <> rb_id r) as H2.
  { intros r' Hr' Heq. apply NoDup_remove_2 in Hnd. apply Hnd.
    apply in_or_app. right. rewrite <- Heq. now apply in_map. }
  rewrite foldM_app in Hr. apply bind_inv in Hr.
  destruct Hr as [(a1 & w1 & Hl1 & Hr) | (e & Hl1 & ->)].
  2:{ destruct (pull_books_others (rb_id r) x r tr j l1 [] w (inr e) w' H1 HP
                  (carry_nil_book _ _) (carry_nil_tx _ _) Hl1)
        as (? & Hx & _).
      discriminate. }
  destruct (pull_books_others (rb_id r) x r tr j l1 [] w (inl a1) w1 H1 HP
              (carry_nil_book _ _) (carry_nil_tx _ _) Hl1)
    as (a1' & Ha1 & HP1 & HC1 & HT1 & _ & F1 & F2 & F3).
  inv Ha1. simpl in Hr. apply bind_inv in Hr.
  destruct (rb_updated_at r <? book_updated x) eqn:Hlt.
  - destruct Hr as [(a2 & w2 & Hstep & Hr) | (e & Hstep & ->)];
      destruct (pull_book_conflict (rb_id r) x a1' r w1 _ _ eq_refl HP1 Hlt Hstep)
        as [Ha2 Hw2]; [| discriminate].
    inv Ha2.
    destruct (pull_books_others (rb_id r) x r tr j l2
                (a1' ++ [book_conflict_of x r])%list w1 res w' H2 HP1)
      as (a3 & -> & HP3 & HC3 & HT3 & Hincl & F4 & F5 & F6); auto.
    + apply carry_app_book; [exact HC1 |]. simpl. intros l rd Hd _.
      now inv Hd.
    + apply carry_app_tx; [exact HT1 |]. simpl. intros; discriminate.
    + exists a3. unfold same_transactions, same_prefs in *.
      refine (conj eq_refl (conj HC3 (conj HT3 (conj _ (conj _ (conj _
                (conj HP3 _))))))); try congruence.
      apply Hincl. apply in_or_app. right. now left.
  - destruct Hr as [(a2 & w2 & Hstep & Hr) | (e & Hstep & ->)];
      destruct (pull_book_newer_remote (rb_id r) x a1' r w1 _ _ eq_refl HP1 Hlt Hstep)
        as [Ha2 HP2]; [| discriminate].
    inv Ha2.
    destruct (pull_book_frame _ _ _ _ _ Hstep) as (F4 & F5 & F6).
    destruct (pull_books_others (rb_id r) (overwrite_book r x) r tr j l2 a1' w2 res
                w'
                H2 HP2)
      as (a3 & -> & HP3 & HC3 & HT3 & Hincl & F7 & F8 & F9); auto.
    exists a3. unfold same_transactions, same_prefs in *.
    refine (conj eq_refl (conj HC3 (conj HT3 (conj _ (conj _ (conj _ HP3))))));
      congruence.
Qed.

End PullFacts.
Section PullFacts2.

Import LocalStore Remote Eff Obs SyncService.

Context {G : Type}.

(** The books loop never throws and leaves the transactions alone. *)
Lemma pull_books_frame (batch : list RBook) acc (w : World G) res w' :
  foldM pull_book batch acc w = (res, w') ->
  exists acc', res = inl acc'
    /\ (forall j tr, TxConflictsCarry j tr acc -> TxConflictsCarry j tr acc')
    /\ incl acc acc'
    /\ same_transactions w w' /\ same_prefs w w' /\ remote w' = remote w.
Proof.
  intros Hr.
  pose (P := fun (a : list Conflict) (v : World G) =>
    (forall j tr, TxConflictsCarry j tr acc -> TxConflictsCarry j tr a)
    /\ incl acc a
    /\ same_transactions w v /\ same_prefs w v /\ remote v = remote w).
  assert (match res with inl a => P a w' | inr _ => False end) as HR.
  { apply (foldM_inv P (fun _ => False) batch pull_book) with (acc := acc)
      (w := w); [| | exact Hr].
    - intros r' Hr' a v res1 v1 (H3 & H4 & H5 & H6 & H7) Hstep.
      destruct (pull_book_frame a r' v res1 v1 Hstep) as (F1 & F2 & F3).
      assert (same_transactions w v1 /\ same_prefs w v1
              /\ remote v1 = remote w) as HF.
      { unfold same_transactions, same_prefs in *. repeat split; congruence. }
      destruct (pull_book_result a r' v res1 v1 Hstep)
        as [-> | (l & Hl & ->)].
      + unfold P. tauto.
      + refine (conj _ (conj _ HF)).
        * intros j tr Hc. apply carry_app_tx; [now apply H3 |].
          simpl. intros; discriminate.
        * intros c Hc'. apply in_or_app. left. now apply H4.
    - unfold P, same_transactions, same_prefs.
      refine (conj (fun _ _ H => H) (conj _ _)); [apply incl_refl |].
      repeat split; reflexivity. }
  destruct res as [a | e]; [| contradiction].
  exists a. unfold P in HR. tauto.
Qed.

(** The transactions loop leaves the books alone, however it ends. *)
Lemma pull_transactions_frame (batch : list RTx) acc (w : World G) res w' :
  foldM pull_transaction batch acc w = (res, w') ->
  same_books w w' /\ same_prefs w w' /\ remote w' = remote w
  /\ match res with
     | inl acc' =>
         (forall i br, BookConflictsCarry i br acc ->
                       BookConflictsCarry i br acc')
         /\ incl acc acc'
     | inr _ => True
     end.
Proof.
  intros Hr.
  pose (F := fun (v : World G) =>
    same_books w v /\ same_prefs w v /\ remote v = remote w).
  pose (P := fun (a : list Conflict) (v : World G) =>
    F v
    /\ (forall i br, BookConflictsCarry i br acc -> BookConflictsCarry i br a)
    /\ incl acc a).
  assert (match res with inl a => P a w' | inr _ => F w' end) as HR.
  { apply (foldM_inv P F batch pull_transaction) with (acc := acc) (w := w);
      [| | exact Hr].
    - intros r' Hr' a v res1 v1 ((H5 & H6 & H7) & H3 & H4) Hstep.
      destruct (pull_transaction_frame a r' v res1 v1 Hstep) as (F1 & F2 & F3).
      assert (F v1) as HF.
      { unfold F, same_books, same_prefs in *. repeat split; congruence. }
      destruct res1 as [a1 | e]; [| exact HF].
      destruct (pull_transaction_result a r' v a1 v1 Hstep)
        as [-> | (l & Hl & ->)].
      + unfold P. tauto.
      + refine (conj HF (conj _ _)).
        * intros i br Hc. apply carry_app_book; [now apply H3 |].
          simpl. intros; discriminate.
        * intros c Hc'. apply in_or_app. left. now apply H4.
    - unfold P, F, same_books, same_prefs.
      refine (conj _ (conj (fun _ _ H => H) _)); [| apply incl_refl].
      repeat split; reflexivity. }
  destruct res as [a | e]; unfold P, F in HR; tauto.
Qed.

(** The transactions loop over remote rows none of which matches the
    pinned transaction. *)
Lemma pull_transactions_others (s : string) (x : TxRow) (r : RTx)
  (batch : list RTx) acc (w : World G) res w' :
  (forall r', In r' batch -> rt_id r' <> s) ->
  Pinned s x (transactions (db w)) ->
  TxConflictsCarry (t_id x) r acc ->
  foldM pull_transaction batch acc w = (res, w') ->
  Pinned s x (transactions (db w'))
  /\ match res with
     | inl acc' => TxConflictsCarry (t_id x) r acc' /\ incl acc acc'
     | inr _ => True
     end.
Proof.
  intros Hb HP Hc Hr.
  pose (P := fun (a : list Conflict) (v : World G) =>
    Pinned s x (transactions (db v)) /\ TxConflictsCarry (t_id x) r a
    /\ incl acc a).
  pose (Q := fun (v : World G) => Pinned s x (transactions (db v))).
  assert (match res with inl a => P a w' | inr _ => Q w' end) as HR.
  { apply (foldM_inv P Q batch pull_transaction) with (acc := acc) (w := w);
      [| | exact Hr].
    - intros r' Hr' a v res1 v1 (H1 & H2 & H4) Hstep.
      pose proof (pull_transaction_other s x a r' v res1 v1 (Hb r' Hr') H1
                    Hstep) as HP1.
      destruct res1 as [a1 | e]; [| exact HP1].
      destruct (pull_transaction_result a r' v a1 v1 Hstep)
        as [-> | (l & Hl & ->)].
      + unfold P. tauto.
      + apply first_by_sync_some in Hl. destruct Hl as [Hl Hls].
        pose proof (pinned_other_sync s (rt_id r') x l _ H1 Hl Hls
                      (Hb r' Hr')) as Hid.
        refine (conj HP1 (conj _ _)).
        * apply carry_app_tx; [exact H2 |]. simpl. intros; contradiction.
        * intros c Hc'. apply in_or_app. left. now apply H4.
    - unfold P. refine (conj HP (conj Hc _)). apply incl_refl. }
  destruct res as [a | e]; unfold P, Q in HR; tauto.
Qed.

(** The transactions loop, completed, when the batch holds exactly one row
    matching the pinned transaction. *)
Lemma pull_transactions_pinned (s : string) (x : TxRow) (r : RTx)
  (batch : list RTx) acc (w : World G) acc' w' :
  NoDup (map rt_id batch) -> In r batch -> rt_id r = s ->
  Pinned s x (transactions (db w)) ->
  TxConflictsCarry (t_id x) r acc ->
  foldM pull_transaction batch acc w = (inl acc', w') ->
  TxConflictsCarry (t_id x) r acc' /\ incl acc acc'
  /\ (if rt_updated_at r <? tx_updated x
      then Pinned s x (transactions (db w')) /\ In (tx_conflict_of x r) acc'
      else Pinned s (overwrite_tx r x) (transactions (db w'))).
Proof.
  intros Hnd Hin <- HP Hc Hr.
  destruct (in_split r batch Hin) as (l1 & l2 & ->).
  rewrite map_app in Hnd. simpl in Hnd.
  assert (forall r', In r' l1 -> rt_id r' <> rt_id r) as H1.
  { intros r' Hr' Heq. apply NoDup_remove_2 in Hnd. apply Hnd.
    apply in_or_app. left. rewrite <- Heq. now apply in_map. }
  assert (forall r', In r' l2 -> rt_id r' <> rt_id r) as H2.
  { intros r' Hr' Heq. apply NoDup_remove_2 in Hnd. apply Hnd.
    apply in_or_app. right. rewrite <- Heq. now apply in_map. }
  rewrite foldM_app in Hr. apply bind_ok_inv in Hr.
  destruct Hr as (a1 & w1 & Hl1 & Hr).
  destruct (pull_transactions_others (rt_id r) x r l1 acc w (inl a1) w1 H1 HP
              Hc Hl1) as (HP1 & HC1 & Hi1).
  simpl in Hr. apply bind_ok_inv in Hr. destruct Hr as (a2 & w2 & Hstep & Hr).
  destruct (rt_updated_at r <? tx_updated x) eqn:Hlt.
  - destruct (pull_transaction_conflict (rt_id r) x a1 r w1 _ _ eq_refl HP1
                Hlt Hstep) as [Ha2 Hw2].
    injection Ha2 as ->. subst w2.
    destruct (pull_transactions_others (rt_id r) x r l2
                (a1 ++ [tx_conflict_of x r])%list w1 (inl acc') w' H2 HP1)
      as (HP3 & HC3 & Hi3); auto.
    + apply carry_app_tx; [exact HC1 |]. simpl. intros l rd Hd _.
      now inv Hd.
    + refine (conj HC3 (conj _ (conj HP3 _))).
      * intros c Hc'. apply Hi3. apply in_or_app. left. now apply Hi1.
      * apply Hi3. apply in_or_app. right. now left.
  - destruct (pull_transaction_newer_remote (rt_id r) x a1 r w1 _ _ eq_refl
                HP1 Hlt Hstep) as [[Ha2 HP2] | [[e He] _]]; [| discriminate].
    injection Ha2 as ->.
    destruct (pull_transactions_others (rt_id r) (overwrite_tx r x) r l2 a1 w2
                (inl acc') w' H2 HP2)
      as (HP3 & HC3 & Hi3); auto.
    refine (conj HC3 (conj _ HP3)).
    intros c Hc'. apply Hi3. now apply Hi1.
Qed.

End PullFacts2.
Section PullFromServerFacts.

Import LocalStore Remote Eff Obs SyncService.

Context {G : Type}.

(** [pullFromServer], phase by phase. *)
Lemma pullFromServer_run userId supabase (w : World G) :
  pullFromServer userId supabase w =
  let ans := books_answer supabase userId w in
  let w0 :=
    set_remote (snd ans)
      (record (ReqSelectBooks userId (books_cursor (db w))) w) in
  match error (fst ans) with
  | Some e => (inr (PgThrown e), w0)
  | None =>
      let remoteBooks := fetched_books supabase userId w in
      match foldM pull_book remoteBooks [] w0 with
      | (inr e, w1) => (inr e, w1)
      | (inl acc1, w1) =>
          let ans2 :=
            transactions_select supabase userId (transactions_cursor (db w))
              (remote w1) in
          let w2 :=
            set_remote (snd ans2)
              (record
                 (ReqSelectTransactions userId (transactions_cursor (db w)))
                 w1) in
          match error (fst ans2) with
          | Some e => (inr (PgThrown e), w2)
          | None =>
              let remoteTransactions := rows_or_empty (data (fst ans2)) in
              match foldM pull_transaction remoteTransactions acc1 w2 with
              | (inr e, w3) => (inr e, w3)
              | (inl acc2, w3) =>
                  let hasNew :=
                    (0 <? Z.of_nat (List.length remoteBooks))
                    || (0 <? Z.of_nat (List.length remoteTransactions)) in
                  (inl (mkPullResult hasNew
                          (Z.of_nat (List.length remoteBooks))
                          (Z.of_nat (List.length remoteTransactions)) acc2),
                   if hasNew
                   then record (Emit "transactionsUpdated")
                          (record (Emit "booksUpdated") w3)
                   else w3)
              end
          end
      end
  end.
Proof.
  unfold pullFromServer, getUserPreference, DatabaseService.getUserPreference,
    fetched_books, books_answer, books_cursor, transactions_cursor.
  run. cbv zeta.
  repeat (break_match; simpl in *; subst; try discriminate);
    try reflexivity; try congruence.
Qed.

(** What a completed pull has done to a book matched by a fetched row. *)
Lemma pull_spec_book userId supabase (w : World G) pr w' (s : string)
  (x : BookRow) (r : RBook) :
  pullFromServer userId supabase w = (inl pr, w') ->
  Pinned s x (books (db w)) ->
  NoDup (map rb_id (fetched_books supabase userId w)) ->
  In r (fetched_books supabase userId w) -> rb_id r = s ->
  BookConflictsCarry (b_id x) r (conflicts pr)
  /\ (if rb_updated_at r <? book_updated x
      then Pinned s x (books (db w')) /\ In (book_conflict_of x r) (conflicts pr)
      else Pinned s (overwrite_book r x) (books (db w'))).
Proof.
  rewrite pullFromServer_run. cbv zeta. intros Hrun HP Hnd Hin Hs.
  destruct (error (fst (books_answer supabase userId w))); [discriminate |].
  set (w0 := set_remote _ _) in Hrun.
  assert (Pinned s x (books (db w0))) as HP0 by exact HP.
  destruct (foldM pull_book _ _ _) as [[acc1 | e] w1] eqn:Hl1;
    [| discriminate].
  destruct (pull_books_pinned s x r (mkRTx "" "" "" "" 0 None None 0 0 false)
              0 _ w0 _ _ Hnd Hin Hs HP0 Hl1)
    as (a & Ha & HC & _ & _ & _ & _ & Hcase).
  injection Ha as <-.
  destruct (error _); [discriminate |].
  destruct (foldM pull_transaction _ _ _) as [[acc2 | e] w3] eqn:Hl2;
    [| discriminate].
  destruct (pull_transactions_frame _ _ _ _ _ Hl2)
    as (Fb & _ & _ & HC2 & Hincl).
  specialize (HC2 _ _ HC).
  injection Hrun as <- <-. simpl.
  assert (books (db (if (0 <? Z.of_nat (List.length
                                           (fetched_books supabase userId w)))
                        || (0 <? Z.of_nat (List.length
                              (rows_or_empty (data (fst
                                 (transactions_select supabase userId
                                    (transactions_cursor (db w))
                                    (remote w1)))))))
                     then record (Emit "transactionsUpdated")
                            (record (Emit "booksUpdated") w3)
                     else w3))
          = books (db w1)) as Hb.
  { unfold same_books in Fb. simpl in Fb. now destruct (_ || _). }
  rewrite Hb. split; [exact HC2 |].
  destruct (rb_updated_at r <? book_updated x); [| exact Hcase].
  destruct Hcase as [H1 H2]. split; [exact H1 | now apply Hincl].
Qed.

(** The same for a transaction. *)
Lemma pull_spec_transaction userId supabase (w : World G) pr w' (s : string)
  (x : TxRow) (r : RTx) :
  pullFromServer userId supabase w = (inl pr, w') ->
  Pinned s x (transactions (db w)) ->
  NoDup (map rt_id (fetched_transactions supabase userId w)) ->
  In r (fetched_transactions supabase userId w) -> rt_id r = s ->
  TxConflictsCarry (t_id x) r (conflicts pr)
  /\ (if rt_updated_at r <? tx_updated x
      then Pinned s x (transactions (db w'))
           /\ In (tx_conflict_of x r) (conflicts pr)
      else Pinned s (overwrite_tx r x) (transactions (db w'))).
Proof.
  rewrite pullFromServer_run. cbv zeta.
  unfold fetched_transactions, transactions_answer.
  intros Hrun HP Hnd Hin Hs.
  destruct (error (fst (books_answer supabase userId w))); [discriminate |].
  destruct (foldM pull_book _ _ _) as [[acc1 | e] w1] eqn:Hl1;
    [| discriminate].
  destruct (pull_books_frame _ _ _ _ _ Hl1)
    as (a & Ha & HC & _ & Ft & _ & Frem).
  injection Ha as <-. specialize (HC (t_id x) r (carry_nil_tx _ _)). simpl in Frem. rewrite Frem in Hrun.
  destruct (error _); [discriminate |].
  set (w2 := set_remote _ _) in Hrun.
  assert (Pinned s x (transactions (db w2))) as HP1.
  { unfold same_transactions in Ft. simpl in Ft. simpl. now rewrite Ft. }
  destruct (foldM pull_transaction _ _ _) as [[acc2 | e] w3] eqn:Hl2;
    [| discriminate].
  destruct (pull_transactions_pinned s x r _ _ w2 _ _ Hnd Hin Hs HP1 HC Hl2)
    as (HC2 & _ & Hcase).
  injection Hrun as <- <-. simpl.
  split; [exact HC2 |].
  now destruct (_ || _).
Qed.

(** A pull never writes the cursors. *)
Lemma pull_keeps_prefs userId supabase (w : World G) res w' :
  pullFromServer userId supabase w = (res, w') -> same_prefs w w'.
Proof.
  rewrite pullFromServer_run. cbv zeta. unfold same_prefs. intros Hrun.
  destruct (error (fst (books_answer supabase userId w)));
    [now inv Hrun |].
  destruct (foldM pull_book _ _ _) as [[acc1 | e] w1] eqn:Hl1.
  2:{ destruct (pull_books_frame _ _ _ _ _ Hl1) as (? & ? & _).
      discriminate. }
  destruct (pull_books_frame _ _ _ _ _ Hl1) as (a & Ha & _ & _ & _ & Fp & _).
  unfold same_prefs in Fp. simpl in Fp.
  destruct (error _); [now inv Hrun |].
  destruct (foldM pull_transaction _ _ _) as [[acc2 | e] w3] eqn:Hl2.
  - destruct (pull_transactions_frame _ _ _ _ _ Hl2) as (_ & Fp2 & _).
    unfold same_prefs in Fp2. simpl in Fp2. inv Hrun.
    destruct (_ || _); simpl; congruence.
  - destruct (pull_transactions_frame _ _ _ _ _ Hl2) as (_ & Fp2 & _).
    unfold same_prefs in Fp2. simpl in Fp2. inv Hrun. congruence.
Qed.

End PullFromServerFacts.
(* ================================================================== *)
(** ** Facts: the resolve and push phases *)
(* ================================================================== *)

Ltac bind_cases H a w1 H1 :=
  apply bind_inv in H;
  destruct H as [(a & w1 & H1 & H) | (a & H1 & ->)].

Section PhaseFacts.

Import LocalStore Remote Eff Obs SyncService.

Context {G : Type}.

Lemma now_frame (w : World G) t w' :
  now w = (t, w') -> db w' = db w /\ remote w' = remote w /\ log w' = log w.
Proof. unfold now. intros Hr; inv Hr. auto. Qed.

(** Resolving a list of conflicts: the pinned book ends overwritten by the
    remote row the conflicts carry for it, if any of them targets it. *)
Lemma resolve_all_book (s : string) (r : RBook) (cs : list Conflict) :
  forall (y : BookRow) (w : World G) res w',
  Pinned s y (books (db w)) ->
  BookConflictsCarry (b_id y) r cs ->
  forM_ cs resolve_conflict w = (res, w') ->
  Pinned s (if existsb (targets_book (b_id y)) cs
            then overwrite_book r y else y) (books (db w')).
Proof.
  induction cs as [|c cs IH]; intros y w res w' HP HC Hr; simpl in *.
  - unfold ret in Hr. now inv Hr.
  - assert (BookConflictsCarry (b_id y) r cs) as HC'.
    { intros c' l rd Hin. apply (HC c' l rd). now right. }
    assert (exists w1, resolve_conflict c w = (inl tt, w1)
                       /\ forM_ cs resolve_conflict w1 = (res, w')) as Hs.
    { bind_cases Hr a w1 H1.
      - destruct a. now exists w1.
      - destruct (resolve_conflict_ok c w _ _ H1) as [Hx _]. discriminate. }
    destruct Hs as (w1 & H1 & H2).
    unfold targets_book at 1.
    destruct (cdata c) as [l rd | l rd] eqn:Hd.
    + destruct (Z.eqb_spec (localId c) (b_id y)) as [Hid | Hid]; simpl.
      * assert (rd = r) as ->
          by (apply (HC c l rd); [now left | exact Hd | exact Hid]).
        pose proof (resolve_book_self s y c l r w _ _ HP Hd Hid H1) as HP1.
        specialize (IH (overwrite_book r y) w1 res w' HP1 HC' H2).
        simpl in IH. now destruct (existsb _ cs).
      * apply (IH y w1 res w'); [| exact HC' | exact H2].
        refine (resolve_book_other s y c w (inl tt) w1 HP _ H1).
        intros l' r' Hd'. exact Hid.
    + simpl. apply (IH y w1 res w'); [| exact HC' | exact H2].
      refine (resolve_book_other s y c w (inl tt) w1 HP _ H1).
      intros l' r' Hd'. congruence.
Qed.

Lemma resolve_all_tx (s : string) (r : RTx) (cs : list Conflict) :
  forall (y : TxRow) (w : World G) res w',
  Pinned s y (transactions (db w)) ->
  TxConflictsCarry (t_id y) r cs ->
  forM_ cs resolve_conflict w = (res, w') ->
  Pinned s (if existsb (targets_tx (t_id y)) cs
            then overwrite_tx_fields r y else y) (transactions (db w')).
Proof.
  induction cs as [|c cs IH]; intros y w res w' HP HC Hr; simpl in *.
  - unfold ret in Hr. now inv Hr.
  - assert (TxConflictsCarry (t_id y) r cs) as HC'.
    { intros c' l rd Hin. apply (HC c' l rd). now right. }
    assert (exists w1, resolve_conflict c w = (inl tt, w1)
                       /\ forM_ cs resolve_conflict w1 = (res, w')) as Hs.
    { bind_cases Hr a w1 H1.
      - destruct a. now exists w1.
      - destruct (resolve_conflict_ok c w _ _ H1) as [Hx _]. discriminate. }
    destruct Hs as (w1 & H1 & H2).
    unfold targets_tx at 1.
    destruct (cdata c) as [l rd | l rd] eqn:Hd.
    + simpl. apply (IH y w1 res w'); [| exact HC' | exact H2].
      refine (resolve_tx_other s y c w (inl tt) w1 HP _ H1).
      intros l' r' Hd'. congruence.
    + destruct (Z.eqb_spec (localId c) (t_id y)) as [Hid | Hid]; simpl.
      * assert (rd = r) as ->
          by (apply (HC c l rd); [now left | exact Hd | exact Hid]).
        pose proof (resolve_tx_self s y c l r w _ _ HP Hd Hid H1) as HP1.
        specialize (IH (overwrite_tx_fields r y) w1 res w' HP1 HC' H2).
        simpl in IH. now destruct (existsb _ cs).
      * apply (IH y w1 res w'); [| exact HC' | exact H2].
        refine (resolve_tx_other s y c w (inl tt) w1 HP _ H1).
        intros l' r' Hd'. exact Hid.
Qed.

Lemma resolve_all_prefs (cs : list Conflict) (w : World G) res w' :
  forM_ cs resolve_conflict w = (res, w') -> res = inl tt /\ same_prefs w w'.
Proof.
  revert w. induction cs as [|c cs IH]; intros w Hr; simpl in *.
  - unfold ret in Hr. inv Hr. split; reflexivity.
  - bind_cases Hr a w1 H1.
    + destruct (resolve_conflict_ok c w _ _ H1) as (_ & Hp & _).
      destruct (IH w1 Hr) as [-> Hp']. unfold same_prefs in *.
      split; [reflexivity | congruence].
    + destruct (resolve_conflict_ok c w _ _ H1) as [Hx _]. discriminate.
Qed.

(** [resolveConflicts] is the loop followed by notifications. *)
Lemma resolveConflicts_run userId (cs : list Conflict) (w : World G) res w' :
  resolveConflicts userId cs w = (res, w') ->
  res = inl tt
  /\ exists w1, forM_ cs resolve_conflict w = (inl tt, w1)
                /\ db w' = db w1.
Proof.
  unfold resolveConflicts. run. intros Hr.
  destruct (forM_ cs resolve_conflict w) as [[[] | e] w1] eqn:Hl.
  - destruct (0 <? _); inv Hr; (split; [reflexivity |]);
      eexists; split; reflexivity.
  - destruct (resolve_all_prefs cs w _ _ Hl) as [Hx _]. discriminate.
Qed.

(** The books loop of a push leaves a clean pinned book as it is. *)
Lemma push_books_pinned (s : string) (y : BookRow) userId supabase
  (w : World G) res w' :
  Pinned s y (books (db w)) -> book_unsynced y = false ->
  push_books userId supabase w = (res, w') ->
  Pinned s y (books (db w'))
  /\ same_transactions w w' /\ same_prefs w w'.
Proof.
  intros HP Hclean. unfold push_books. run. intros Hr.
  pose (P := fun v : World G =>
    Pinned s y (books (db v)) /\ same_transactions w v /\ same_prefs w v).
  apply (forM_inv P _ _) with (w := w) (r := res) (w' := w') in Hr.
  - exact Hr.
  - intros b Hb v r v1 (H1 & H2 & H3) Hstep.
    apply filter_In in Hb. destruct Hb as [Hb Hdirty].
    assert (b_id b <> b_id y) as Hne.
    { intros Hid. destruct HP as (_ & _ & Hu & _).
      apply Hu in Hid; [| exact Hb]. congruence. }
    destruct (push_book_ok _ _ _ _ _ _ Hstep) as (_ & F1 & F2).
    unfold P, same_transactions, same_prefs in *.
    split; [| split; congruence].
    exact (push_book_other s y _ _ b v _ _ H1 Hne Hstep).
  - unfold P, same_transactions, same_prefs. auto.
Qed.

Lemma push_books_frame userId supabase (w : World G) res w' :
  push_books userId supabase w = (res, w') ->
  same_transactions w w' /\ same_prefs w w'.
Proof.
  unfold push_books. run. intros Hr.
  pose (P := fun v : World G => same_transactions w v /\ same_prefs w v).
  apply (forM_inv P _ _) with (w := w) (r := res) (w' := w') in Hr.
  - exact Hr.
  - intros b Hb v r v1 (H2 & H3) Hstep.
    destruct (push_book_ok _ _ _ _ _ _ Hstep) as (_ & F1 & F2).
    unfold P, same_transactions, same_prefs in *. split; congruence.
  - unfold P, same_transactions, same_prefs. auto.
Qed.

Lemma push_transactions_frame userId supabase (w : World G) res w' :
  push_transactions userId supabase w = (res, w') ->
  same_books w w' /\ same_prefs w w'.
Proof.
  unfold push_transactions. run. intros Hr.
  pose (P := fun v : World G => same_books w v /\ same_prefs w v).
  apply (forM_inv P _ _) with (w := w) (r := res) (w' := w') in Hr.
  - exact Hr.
  - intros b Hb v r v1 (H2 & H3) Hstep.
    destruct (push_transaction_frame _ _ _ _ _ _ Hstep) as (F1 & F2).
    unfold P, same_books, same_prefs in *. split; congruence.
  - unfold P, same_books, same_prefs. auto.
Qed.

(** The transactions loop of a push leaves a clean pinned transaction as it
    is. *)
Lemma push_transactions_pinned (s : string) (y : TxRow) userId supabase
  (w : World G) res w' :
  Pinned s y (transactions (db w)) -> tx_unsynced y = false ->
  push_transactions userId supabase w = (res, w') ->
  Pinned s y (transactions (db w')).
Proof.
  intros HP Hclean. unfold push_transactions. run. intros Hr.
  apply (forM_inv (fun v : World G => Pinned s y (transactions (db v))) _ _)
    with (w := w) (r := res) (w' := w') in Hr.
  - exact Hr.
  - intros [tx bs] Hb v r v1 H1 Hstep.
    unfold joined_transactions in Hb. apply in_map_iff in Hb.
    destruct Hb as (tx' & Heq & Hb). inv Heq.
    apply filter_In in Hb. destruct Hb as [Hb Hdirty].
    assert (t_id tx <> t_id y) as Hne.
    { intros Hid. destruct HP as (_ & _ & Hu & _).
      apply Hu in Hid; [| exact Hb]. congruence. }
    exact (push_transaction_other s y _ _ tx _ v _ _ H1 Hne Hstep).
  - exact HP.
Qed.

End PhaseFacts.
Section CycleFacts.

Import LocalStore Remote Eff Obs SyncService.

Context {G : Type}.

Lemma push_cursors_frame userId (w : World G) res w' :
  push_cursors userId w = (res, w') ->
  res = inl tt /\ same_books w w' /\ same_transactions w w'.
Proof.
  unfold push_cursors, setUserPreference, DatabaseService.setUserPreference,
    same_books, same_transactions.
  stmts. intros Hr; inv Hr; simpl; auto.
Qed.

Lemma pushToServer_keeps_book (s : string) (y : BookRow) userId supabase
  (w : World G) res w' :
  Pinned s y (books (db w)) -> book_unsynced y = false ->
  pushToServer userId supabase w = (res, w') ->
  Pinned s y (books (db w')).
Proof.
  intros HP Hclean. unfold pushToServer. unfold openUserDB at 1.
  unfold DatabaseService.openUserDB. intros Hr. unfold bind at 1 in Hr.
  unfold ret at 1 in Hr.
  bind_cases Hr a w1 H1;
    destruct (push_books_pinned s y _ _ _ _ _ HP Hclean H1) as (HP1 & _);
    [| exact HP1].
  bind_cases Hr b w2 H2;
    destruct (push_transactions_frame _ _ _ _ _ H2) as (F2 & _);
    unfold same_books in F2; [| now rewrite F2].
  destruct (push_cursors_frame _ _ _ _ Hr) as (_ & F3 & _).
  unfold same_books in F3. now rewrite F3, F2.
Qed.

Lemma pushToServer_keeps_tx (s : string) (y : TxRow) userId supabase
  (w : World G) res w' :
  Pinned s y (transactions (db w)) -> tx_unsynced y = false ->
  pushToServer userId supabase w = (res, w') ->
  Pinned s y (transactions (db w')).
Proof.
  intros HP Hclean. unfold pushToServer. unfold openUserDB at 1.
  unfold DatabaseService.openUserDB. intros Hr. unfold bind at 1 in Hr.
  unfold ret at 1 in Hr.
  bind_cases Hr a w1 H1;
    destruct (push_books_frame _ _ _ _ _ H1) as (F1 & _);
    unfold same_transactions in F1; [| now rewrite F1].
  assert (Pinned s y (transactions (db w1))) as HP1 by now rewrite F1.
  bind_cases Hr b w2 H2;
    pose proof (push_transactions_pinned s y _ _ _ _ _ HP1 Hclean H2) as HP2;
    [| exact HP2].
  destruct (push_cursors_frame _ _ _ _ Hr) as (_ & _ & F3).
  unfold same_transactions in F3. now rewrite F3.
Qed.

(** A completed cycle of the provider is a completed pull, the resolution
    of its conflicts if there are any, and a completed push. *)
Lemma syncAll_completed (p : SyncProvider.Provider G) client userId
  (w w' : World G) :
  SyncProvider.isSyncing p = false ->
  SyncProvider.supabase p = Some client ->
  SyncProvider.user_id p = Some userId ->
  SyncProvider.syncAll p w = (inl tt, w') ->
  exists pr w1 w2 w3,
    pullFromServer userId client w = (inl pr, w1)
    /\ (if 0 <? Z.of_nat (List.length (conflicts pr))
        then resolveConflicts userId (conflicts pr) w1 = (inl tt, w2)
        else w2 = w1)
    /\ pushToServer userId client w2 = (inl tt, w3)
    /\ db w' = db w3.
Proof.
  intros Hs Hc Hu. unfold SyncProvider.syncAll. rewrite Hs, Hc, Hu.
  destruct (SyncProvider.isReady p); [| discriminate].
  destruct (Js.truthy (Some userId)); [| discriminate].
  rewrite try_rethrow. simpl sync_str.
  destruct (SyncProvider.refreshToken p); [discriminate |].
  intros Hr. unfold bind at 1 in Hr. unfold ret at 1 in Hr.
  apply bind_ok_inv in Hr. destruct Hr as (pr & w1 & Hpull & Hr).
  apply bind_ok_inv in Hr. destruct Hr as ([] & w2 & Hres & Hr).
  apply bind_ok_inv in Hr. destruct Hr as ([] & w3 & Hpush & Hr).
  unfold emit in Hr. inv Hr.
  exists pr, w1, w2, w3. split; [exact Hpull |].
  split; [| split; [exact Hpush | reflexivity]].
  destruct (0 <? _); [exact Hres |]. unfold ret in Hres. now inv Hres.
Qed.

End CycleFacts.
(* ================================================================== *)
(** ** Conflict policy *)
(* ================================================================== *)

Section ConflictPolicy.

Import LocalStore Remote Eff Obs SyncService.

Context {G : Type}.

Lemma cycle_overwrites_book (p : SyncProvider.Provider G) client userId
  (w w' : World G) (x : BookRow) (r : RBook) :
  SyncProvider.isSyncing p = false ->
  SyncProvider.supabase p = Some client ->
  SyncProvider.user_id p = Some userId ->
  SyncProvider.syncAll p w = (inl tt, w') ->
  WfTable (books (db w)) -> In x (rows (books (db w))) ->
  b_sync_id x = Some (rb_id r) ->
  NoDup (map rb_id (fetched_books client userId w)) ->
  In r (fetched_books client userId w) ->
  book_updated x < rb_updated_at r ->
  first_by_id (b_id x) (books (db w')) = Some (overwrite_book r x).
Proof.
  intros Hs Hc Hu Hrun Hwf Hin Hsync Hnd Hr Hlt.
  destruct (syncAll_completed p client userId w w' Hs Hc Hu Hrun)
    as (pr & w1 & w2 & w3 & Hpull & Hres & Hpush & Hdb).
  pose proof (wf_pinned _ x (rb_id r) Hwf Hin Hsync) as HP.
  destruct (pull_spec_book _ _ _ _ _ _ x r Hpull HP Hnd Hr eq_refl)
    as (HC & Hcase).
  assert ((rb_updated_at r <? book_updated x) = false) as Hnot
    by (apply Z.ltb_ge; lia).
  rewrite Hnot in Hcase.
  assert (Pinned (rb_id r) (overwrite_book r x) (books (db w2))) as HP2.
  { destruct (0 <? _); [| now subst w2].
    destruct (resolveConflicts_run _ _ _ _ _ Hres) as (_ & v & Hloop & Hv).
    rewrite Hv.
    pose proof (resolve_all_book (rb_id r) r (conflicts pr)
                  (overwrite_book r x) w1 _ _ Hcase HC Hloop) as HR.
    simpl in HR. now destruct (existsb _ _). }
  assert (book_unsynced (overwrite_book r x) = false) as Hclean
    by (unfold book_unsynced; simpl; now rewrite Hsync).
  pose proof (pushToServer_keeps_book (rb_id r) (overwrite_book r x) _ _ _ _ _
                HP2 Hclean Hpush) as HP3.
  rewrite Hdb. exact (pinned_first_by_id _ _ _ HP3).
Qed.

(** What a completed pull and a following resolution do to a book that is
    strictly newer locally than the fetched row matching it. *)
Lemma pull_reports_book client userId (w w' : World G) pr (x : BookRow)
  (r : RBook) :
  pullFromServer userId client w = (inl pr, w') ->
  WfTable (books (db w)) -> In x (rows (books (db w))) ->
  b_sync_id x = Some (rb_id r) ->
  NoDup (map rb_id (fetched_books client userId w)) ->
  In r (fetched_books client userId w) ->
  rb_updated_at r < book_updated x ->
  In (book_conflict_of x r) (conflicts pr)
  /\ first_by_id (b_id x) (books (db w')) = Some x
  /\ forall res w2, resolveConflicts userId (conflicts pr) w' = (res, w2) ->
       res = inl tt
       /\ first_by_id (b_id x) (books (db w2)) = Some (overwrite_book r x).
Proof.
  intros Hpull Hwf Hin Hsync Hnd Hr Hlt.
  pose proof (wf_pinned _ x (rb_id r) Hwf Hin Hsync) as HP.
  destruct (pull_spec_book _ _ _ _ _ _ x r Hpull HP Hnd Hr eq_refl)
    as (HC & Hcase).
  assert ((rb_updated_at r <? book_updated x) = true) as Hyes
    by (apply Z.ltb_lt; lia).
  rewrite Hyes in Hcase. destruct Hcase as [HP1 Hc].
  split; [exact Hc | split; [exact (pinned_first_by_id _ _ _ HP1) |]].
  intros res w2 Hres.
  destruct (resolveConflicts_run _ _ _ _ _ Hres) as (-> & v & Hloop & Hv).
  split; [reflexivity |]. rewrite Hv.
  pose proof (resolve_all_book (rb_id r) r (conflicts pr) x w' _ _ HP1 HC
                Hloop) as HR.
  assert (existsb (targets_book (b_id x)) (conflicts pr) = true) as He.
  { apply existsb_exists. exists (book_conflict_of x r).
    split; [exact Hc |]. unfold targets_book. simpl. apply Z.eqb_refl. }
  rewrite He in HR. exact (pinned_first_by_id _ _ _ HR).
Qed.

Lemma pull_reports_transaction client userId (w w' : World G) pr (x : TxRow)
  (r : RTx) :
  pullFromServer userId client w = (inl pr, w') ->
  WfTable (transactions (db w)) -> In x (rows (transactions (db w))) ->
  t_sync_id x = Some (rt_id r) ->
  NoDup (map rt_id (fetched_transactions client userId w)) ->
  In r (fetched_transactions client userId w) ->
  rt_updated_at r < tx_updated x ->
  In (tx_conflict_of x r) (conflicts pr)
  /\ first_by_id (t_id x) (transactions (db w')) = Some x
  /\ forall res w2, resolveConflicts userId (conflicts pr) w' = (res, w2) ->
       res = inl tt
       /\ first_by_id (t_id x) (transactions (db w2))
          = Some (overwrite_tx_fields r x).
Proof.
  intros Hpull Hwf Hin Hsync Hnd Hr Hlt.
  pose proof (wf_pinned _ x (rt_id r) Hwf Hin Hsync) as HP.
  destruct (pull_spec_transaction _ _ _ _ _ _ x r Hpull HP Hnd Hr eq_refl)
    as (HC & Hcase).
  assert ((rt_updated_at r <? tx_updated x) = true) as Hyes
    by (apply Z.ltb_lt; lia).
  rewrite Hyes in Hcase. destruct Hcase as [HP1 Hc].
  split; [exact Hc | split; [exact (pinned_first_by_id _ _ _ HP1) |]].
  intros res w2 Hres.
  destruct (resolveConflicts_run _ _ _ _ _ Hres) as (-> & v & Hloop & Hv).
  split; [reflexivity |]. rewrite Hv.
  pose proof (resolve_all_tx (rt_id r) r (conflicts pr) x w' _ _ HP1 HC
                Hloop) as HR.
  assert (existsb (targets_tx (t_id x)) (conflicts pr) = true) as He.
  { apply existsb_exists. exists (tx_conflict_of x r).
    split; [exact Hc |]. unfold targets_tx. simpl. apply Z.eqb_refl. }
  rewrite He in HR. exact (pinned_first_by_id _ _ _ HR).
Qed.

End ConflictPolicy.
Section ConflictClaims.

Import LocalStore Remote Eff Obs SyncService Examples.

(** C1, as amended.  Take a local Book with a [sync_id] whose matching
    remote record is returned (once) by the pull's filtered read (remote
    [updated_at] after the stored books cursor) and is newer than the local
    record ([updated_at || created_at]).  If the cycle of
    [SyncProvider.syncAll] (pull, resolve, push) runs to completion, then
    afterwards the local Book's [name] and [updated_at] are the remote
    record's and [synced = 1]. *)
Theorem C1_remote_newer_book_wins_when_pulled :
  forall (G : Type) (p : SyncProvider.Provider G) (client : Gateway G)
         (userId : string) (w w' : World G),
    SyncProvider.isSyncing p = false ->
    SyncProvider.supabase p = Some client ->
    SyncProvider.user_id p = Some userId ->
    SyncProvider.syncAll p w = (inl tt, w') ->
    forall (x : BookRow) (r : RBook),
      WfTable (books (db w)) -> In x (rows (books (db w))) ->
      b_sync_id x = Some (rb_id r) ->
      NoDup (map rb_id (fetched_books client userId w)) ->
      In r (fetched_books client userId w) ->
      book_updated x < rb_updated_at r ->
      exists x', first_by_id (b_id x) (books (db w')) = Some x'
                 /\ book_matches_remote r x'.
Proof.
  intros G p client userId w w' Hs Hc Hu Hrun x r Hwf Hin Hsync Hnd Hr Hlt.
  exists (overwrite_book r x). split.
  - now apply (cycle_overwrites_book p client userId w w').
  - repeat split.
Qed.

Lemma sample_books_wf (b : BookRow) (n : Z) : WfTable (mkTable [b] n).
Proof.
  split; simpl.
  - constructor; [intros [] | constructor].
  - intros x y s [<- | []] [<- | []] _ _. reflexivity.
Qed.

Lemma sample_transactions_wf (t : TxRow) (n : Z) : WfTable (mkTable [t] n).
Proof.
  split; simpl.
  - constructor; [intros [] | constructor].
  - intros x y s [<- | []] [<- | []] _ _. reflexivity.
Qed.

Lemma run_eq {A : Type} (r : (A + Exn) * World PgState) (a : A) :
  fst r = inl a -> r = (inl a, snd r).
Proof. destruct r as [v w]. simpl. now intros ->. Qed.

(** The amended C1 at work, foreign keys enforced: the local book was
    edited at time 50, its remote record written at time 80, and no books
    cursor is stored.  (The transaction's remote record is not past the
    transactions cursor, 100, and stays out of the pull.) *)
Lemma C1_remote_newer_book_wins_witness :
  foreign_keys
    (db (synced_world true 50 80 false [("last_sync_transactions", 100)]))
  = true
  /\ fst (SyncProvider.syncAll provider
            (synced_world true 50 80 false [("last_sync_transactions", 100)]))
     = inl tt
  /\ exists x',
       first_by_id 1
         (books
            (db (snd (SyncProvider.syncAll provider
                        (synced_world true 50 80 false
                           [("last_sync_transactions", 100)])))))
       = Some x'
       /\ book_matches_remote (remote_book 80 false) x'.
Proof.
  assert (fst (SyncProvider.syncAll provider
                 (synced_world true 50 80 false
                    [("last_sync_transactions", 100)])) = inl tt) as Hfst
    by (vm_compute; exact eq_refl).
  split; [exact eq_refl |]. split; [exact Hfst |].
  pose proof (run_eq _ _ Hfst) as Hrun.
  apply (C1_remote_newer_book_wins_when_pulled PgState provider pg user _ _
           eq_refl eq_refl eq_refl Hrun (local_book 50)
           (remote_book 80 false)).
  - apply sample_books_wf.
  - left. exact eq_refl.
  - exact eq_refl.
  - vm_compute. constructor; [intros [] | constructor].
  - vm_compute. left. exact eq_refl.
  - vm_compute. exact eq_refl.
Defined.

(** C1 as stated fails when the newer remote record is not past the stored
    cursor: local edit at 50, remote record written at 80, cursor at 100.
    The cycle completes, the pull fetches nothing, and the push sends the
    local values; the local name is still "Local", the remote snapshot's
    was "Remote". *)
Lemma C1_counterexample :
  let w := synced_world true 50 80 false (cursors_at 100) in
  let x := local_book 50 in
  let r := remote_book 80 false in
  In x (rows (books (db w)))
  /\ b_sync_id x = Some (rb_id r)
  /\ In r (pg_books (remote w))
  /\ book_updated x < rb_updated_at r
  /\ fst (SyncProvider.syncAll provider w) = inl tt
  /\ exists x', first_by_id (b_id x)
                  (books (db (snd (SyncProvider.syncAll provider w))))
                = Some x'
                /\ b_name x' <> rb_name r.
Proof.
  cbv zeta.
  split; [left; exact eq_refl |].
  split; [exact eq_refl |].
  split; [left; exact eq_refl |].
  split; [vm_compute; exact eq_refl |].
  split; [vm_compute; exact eq_refl |].
  exists (mkBook 1 "Local" 10 (Some 1000) 1 (Some "r1") 1 0).
  split; [vm_compute; exact eq_refl | discriminate].
Qed.

(** C3, as amended.  Take a local Book or Transaction with a [sync_id]
    whose matching remote record is returned (once) by the pull's filtered
    read and is strictly older than the local record.  If [pullFromServer]
    returns, the pair is in the [conflicts] of its result and the local
    record is as it was; [resolveConflicts] called next on that list
    returns and leaves the local record overwritten by the remote record's
    values and marked clean. *)
Theorem C3_local_newer_reported_then_resolved :
  forall (G : Type) (client : Gateway G) (userId : string) (w w' : World G)
         (pr : PullResult),
    pullFromServer userId client w = (inl pr, w') ->
    (forall (x : BookRow) (r : RBook),
        WfTable (books (db w)) -> In x (rows (books (db w))) ->
        b_sync_id x = Some (rb_id r) ->
        NoDup (map rb_id (fetched_books client userId w)) ->
        In r (fetched_books client userId w) ->
        rb_updated_at r < book_updated x ->
        In (book_conflict_of x r) (conflicts pr)
        /\ first_by_id (b_id x) (books (db w')) = Some x
        /\ forall res w2,
             resolveConflicts userId (conflicts pr) w' = (res, w2) ->
             res = inl tt
             /\ exists x', first_by_id (b_id x) (books (db w2)) = Some x'
                           /\ book_matches_remote r x')
    /\ (forall (x : TxRow) (r : RTx),
        WfTable (transactions (db w)) -> In x (rows (transactions (db w))) ->
        t_sync_id x = Some (rt_id r) ->
        NoDup (map rt_id (fetched_transactions client userId w)) ->
        In r (fetched_transactions client userId w) ->
        rt_updated_at r < tx_updated x ->
        In (tx_conflict_of x r) (conflicts pr)
        /\ first_by_id (t_id x) (transactions (db w')) = Some x
        /\ forall res w2,
             resolveConflicts userId (conflicts pr) w' = (res, w2) ->
             res = inl tt
             /\ exists x', first_by_id (t_id x) (transactions (db w2))
                           = Some x'
                           /\ tx_matches_remote r x').
Proof.
  intros G client userId w w' pr Hpull. split.
  - intros x r Hwf Hin Hsync Hnd Hr Hlt.
    destruct (pull_reports_book client userId w w' pr x r Hpull Hwf Hin Hsync
                Hnd Hr Hlt) as (H1 & H2 & H3).
    split; [exact H1 | split; [exact H2 |]].
    intros res w2 Hres. destruct (H3 res w2 Hres) as [-> H4].
    split; [reflexivity |]. exists (overwrite_book r x).
    split; [exact H4 | repeat split].
  - intros x r Hwf Hin Hsync Hnd Hr Hlt.
    destruct (pull_reports_transaction client userId w w' pr x r Hpull Hwf
                Hin Hsync Hnd Hr Hlt) as (H1 & H2 & H3).
    split; [exact H1 | split; [exact H2 |]].
    intros res w2 Hres. destruct (H3 res w2 Hres) as [-> H4].
    split; [reflexivity |]. exists (overwrite_tx_fields r x).
    split; [exact H4 | repeat split].
Qed.

(** The amended C3 at work: local edits at time 200, remote records written
    at time 150, nothing pulled before. *)
Lemma C3_local_newer_witness :
  exists pr,
    fst (pullFromServer user pg (synced_world true 200 150 false [])) = inl pr
    /\ In (book_conflict_of (local_book 200) (remote_book 150 false))
         (conflicts pr)
    /\ first_by_id 1
         (books (db (snd (pullFromServer user pg
                            (synced_world true 200 150 false [])))))
       = Some (local_book 200)
    /\ In (tx_conflict_of (local_tx 200) (remote_tx 150)) (conflicts pr)
    /\ first_by_id 1
         (transactions (db (snd (pullFromServer user pg
                                   (synced_world true 200 150 false [])))))
       = Some (local_tx 200).
Proof.
  destruct (fst (pullFromServer user pg (synced_world true 200 150 false [])))
    as [pr | e] eqn:Hfst; [| vm_compute in Hfst; discriminate].
  pose proof (run_eq _ _ Hfst) as Hrun.
  destruct (C3_local_newer_reported_then_resolved PgState pg user _ _ pr Hrun)
    as [Hb Ht].
  exists pr. split; [reflexivity |].
  destruct (Hb (local_book 200) (remote_book 150 false)) as (H1 & H2 & _).
  - apply sample_books_wf.
  - left. exact eq_refl.
  - exact eq_refl.
  - vm_compute. constructor; [intros [] | constructor].
  - vm_compute. left. exact eq_refl.
  - vm_compute. exact eq_refl.
  - destruct (Ht (local_tx 200) (remote_tx 150)) as (H3 & H4 & _).
    + apply sample_transactions_wf.
    + left. exact eq_refl.
    + exact eq_refl.
    + vm_compute. constructor; [intros [] | constructor].
    + vm_compute. left. exact eq_refl.
    + vm_compute. exact eq_refl.
    + repeat split; assumption.
Defined.

(** C3 as stated fails when the older remote record is not past the stored
    cursor, which is the ordinary case of a local edit made after the last
    sync: local edit at 200, remote record written at 50, cursor at 100.
    The pull returns an empty conflict list. *)
Lemma C3_counterexample :
  let w := synced_world true 200 50 false (cursors_at 100) in
  let x := local_book 200 in
  let r := remote_book 50 false in
  In x (rows (books (db w)))
  /\ b_sync_id x = Some (rb_id r)
  /\ In r (pg_books (remote w))
  /\ rb_updated_at r < book_updated x
  /\ exists pr, fst (pullFromServer user pg w) = inl pr
                /\ conflicts pr = [].
Proof.
  cbv zeta.
  split; [left; exact eq_refl |].
  split; [exact eq_refl |].
  split; [left; exact eq_refl |].
  split; [vm_compute; exact eq_refl |].
  exists (mkPullResult false 0 0 []).
  split; vm_compute; exact eq_refl.
Qed.

End ConflictClaims.
(* ================================================================== *)
(** ** Identifiers *)
(* ================================================================== *)

Section UuidFacts.

Import Uuid.

Lemma Qfloor_unit_times (r : Q) (n : positive) :
  (0 <= r)%Q -> (r < 1)%Q ->
  0 <= Qfloor (r * (Zpos n # 1))%Q < Zpos n.
Proof.
  destruct r as [a d]. unfold Qle, Qlt, Qfloor, Qmult. simpl.
  intros H0 H1. rewrite Z.mul_1_r in H0, H1. rewrite Pos.mul_1_r.
  split.
  - apply Z.div_pos; lia.
  - apply Z.div_lt_upper_bound; [lia |].
    apply Z.mul_lt_mono_pos_r; lia.
Qed.

Lemma char_at_hex (z : Z) :
  0 <= z < 16 ->
  exists c, Js.char_at hex z = String c EmptyString /\ is_lower_hex c = true.
Proof.
  intros Hz.
  assert (z = 0 \/ z = 1 \/ z = 2 \/ z = 3 \/ z = 4 \/ z = 5 \/ z = 6 \/ z = 7
          \/ z = 8 \/ z = 9 \/ z = 10 \/ z = 11 \/ z = 12 \/ z = 13 \/ z = 14
          \/ z = 15) as H by lia.
  repeat (destruct H as [-> | H]; [eexists; split; reflexivity |]).
  subst z. eexists; split; reflexivity.
Qed.

Lemma hex_digit_shape (r : Q) :
  (0 <= r)%Q -> (r < 1)%Q ->
  exists c, hex_digit r = String c EmptyString /\ is_lower_hex c = true.
Proof.
  intros H0 H1. unfold hex_digit. apply char_at_hex.
  exact (Qfloor_unit_times r 16 H0 H1).
Qed.

Lemma variant_digit_shape (r : Q) :
  (0 <= r)%Q -> (r < 1)%Q ->
  exists c, variant_digit r = String c EmptyString /\ is_variant c = true.
Proof.
  intros H0 H1. unfold variant_digit, Js.ToInt32, Js.Qtrunc.
  assert (Qle_bool 0 (r * 4) = true) as Hnn.
  { apply Qle_bool_iff. apply Qmult_le_0_compat; [exact H0 | discriminate]. }
  rewrite Hnn.
  pose proof (Qfloor_unit_times r 4 H0 H1) as Hz.
  set (z := Qfloor (r * 4)) in *.
  assert (z = 0 \/ z = 1 \/ z = 2 \/ z = 3) as H by lia.
  destruct H as [-> | [-> | [-> | ->]]]; eexists; split; reflexivity.
Qed.

Ltac name_digits Hrnd :=
  repeat match goal with
    | |- context [hex_digit ?r] =>
        let c := fresh "c" in
        let Hc := fresh "Hc" in
        let He := fresh "He" in
        destruct (hex_digit_shape r (proj1 (Hrnd _)) (proj2 (Hrnd _)))
          as (c & He & Hc);
        rewrite He; clear He
    | |- context [variant_digit ?r] =>
        let c := fresh "c" in
        let Hc := fresh "Hc" in
        let He := fresh "He" in
        destruct (variant_digit_shape r (proj1 (Hrnd _)) (proj2 (Hrnd _)))
          as (c & He & Hc);
        rewrite He; clear He
    end.

(** C9.  For every local id and every outcome of the random source (every
    draw in the unit interval), [generateSyncId] returns a string of 36
    characters with hyphens exactly at positions 8, 13, 18 and 23, the
    character 4 at position 14, one of 8, 9, a, b at position 19, and
    lowercase hexadecimal digits everywhere else. *)
Theorem C9_generateSyncId_uuid_v4_shape :
  forall (rnd : RandomSource) (localId : Z) (k : nat),
    (forall j, (0 <= rnd j)%Q /\ (rnd j < 1)%Q) ->
    let uuid := fst (generateSyncId rnd localId k) in
    String.length uuid = 36%nat
    /\ (forall i c, String.get i uuid = Some c -> shape_at i c = true)
    /\ (forall i c, String.get i uuid = Some c ->
          (c = "-"%char <-> hyphen_pos i = true)).
Proof.
  intros rnd localId k Hrnd. unfold generateSyncId.
  cbn -[hex_digit variant_digit String.length String.get].
  name_digits Hrnd. cbn [append].
  match goal with
  | |- _ /\ (forall i c, String.get i ?s = Some c -> _) /\ _ =>
      assert (forall i ch, String.get i s = Some ch -> shape_at i ch = true)
        as Hshape
  end.
  { intros i ch.
    do 36 (destruct i as [|i];
           [cbn; intros Hget; injection Hget as <-;
            first [assumption | reflexivity] |]).
    cbn. discriminate. }
  split; [reflexivity | split; [exact Hshape |]].
  intros i ch Hget. specialize (Hshape i ch Hget).
  unfold shape_at in Hshape. destruct (hyphen_pos i).
  - split; [reflexivity |]. intros _. now apply Ascii.eqb_eq.
  - split; [| discriminate]. intros ->.
    destruct (Nat.eqb i 14); [discriminate |].
    destruct (Nat.eqb i 19); discriminate.
Qed.

(** C9 at a constant random source. *)
Lemma C9_generateSyncId_witness :
  String.length (fst (generateSyncId (fun _ => 0%Q) 1 0)) = 36%nat.
Proof.
  apply (C9_generateSyncId_uuid_v4_shape (fun _ => 0%Q) 1 0).
  intros j. split; [apply Qle_refl | reflexivity].
Defined.

(** Whatever the draws, the identifier is not the empty string. *)
Lemma char_at_nonempty (s : string) (z : Z) : Js.char_at s z <> "".
Proof.
  unfold Js.char_at.
  destruct (if z <? 0 then None else String.get (Z.to_nat z) s); discriminate.
Qed.

Lemma append_nonempty_l (a b : string) : a <> "" -> (a ++ b) <> "".
Proof. destruct a; [congruence | discriminate]. Qed.

Lemma gen_loop_nonempty (rnd : RandomSource) (fuel : nat) :
  forall i k acc, acc <> "" -> fst (gen_loop rnd fuel i k acc) <> "".
Proof.
  induction fuel as [|fuel IH]; intros i k acc Hacc; simpl; [exact Hacc |].
  destruct ((i =? 8) || (i =? 13) || (i =? 18) || (i =? 23));
    [apply IH; now apply append_nonempty_l |].
  destruct (i =? 14); [apply IH; now apply append_nonempty_l |].
  destruct (i =? 19); apply IH; now apply append_nonempty_l.
Qed.

Lemma generateSyncId_truthy (rnd : RandomSource) (localId : Z) (k : nat) :
  Js.truthy (Some (fst (generateSyncId rnd localId k))) = true.
Proof.
  unfold Js.truthy. apply negb_true_iff. apply String.eqb_neq.
  unfold generateSyncId. cbn -[hex_digit gen_loop].
  change (gen_loop rnd 36 0 k "")
    with (gen_loop rnd 35 1 (S k) ("" ++ hex_digit (rnd k))).
  apply gen_loop_nonempty. simpl. apply char_at_nonempty.
Qed.

End UuidFacts.
(* ================================================================== *)
(** ** The write path of the local store *)
(* ================================================================== *)

Section CrudFacts.

Import LocalStore Remote Eff Obs Examples.

Context {G : Type}.

Lemma find_update_where {R : Type} `{RowLike R} (i : Z) (f : R -> R)
  (t : Table R) :
  (forall y, row_id (f y) = row_id y) ->
  first_by_id i (update_where (has_id i) f t)
  = option_map f (first_by_id i t).
Proof.
  intros Hf. unfold first_by_id, update_where. simpl.
  induction (rows t) as [|y l IH]; simpl; [reflexivity |].
  destruct (has_id i y) eqn:Hy.
  - unfold has_id in *. rewrite Hf, Hy. reflexivity.
  - rewrite Hy. exact IH.
Qed.

Lemma find_insert {R : Type} `{RowLike R} (mk : Z -> R) (t : Table R) :
  (forall i, row_id (mk i) = i) ->
  first_by_id (next_rowid t) (insert mk t) = Some (mk (next_rowid t)).
Proof.
  intros Hmk. unfold first_by_id, insert. simpl.
  assert (forall l, (forall y, In y l -> row_id y < next_rowid t) ->
            find (has_id (next_rowid t)) (l ++ [mk (next_rowid t)])%list
            = Some (mk (next_rowid t))) as Hl.
  { induction l as [|y l IH]; simpl; intros Hlt.
    - unfold has_id. now rewrite Hmk, Z.eqb_refl.
    - assert (has_id (next_rowid t) y = false) as ->.
      { unfold has_id. apply Z.eqb_neq.
        specialize (Hlt y (or_introl eq_refl)). lia. }
      apply IH. intros z Hz. apply Hlt. now right. }
  apply Hl. intros y Hy. now apply next_rowid_fresh.
Qed.

(** C10.  [SyncService.updateTransaction] does not leave an omitted field
    as it was: whatever the row held, [type], [note] and [category] are
    written as the empty string when omitted or empty, and [amount] as 0
    when omitted or zero, because the parameters bound to COALESCE are
    never null. *)
Theorem C10_updateTransaction_overwrites_omitted_fields :
  forall (userId : string) (id : Z) (fields : SyncService.TxFields)
         (w : World G) (x : TxRow),
    first_by_id id (transactions (db w)) = Some x ->
    exists x',
      fst (SyncService.updateTransaction userId id fields w) = inl tt
      /\ first_by_id id
           (transactions
              (db (snd (SyncService.updateTransaction userId id fields w))))
         = Some x'
      /\ t_type x' = Js.or_str (SyncService.f_type fields) ""
      /\ t_amount x' = Js.or_num (SyncService.f_amount fields) 0
      /\ t_note x' = Some (Js.or_str (SyncService.f_note fields) "")
      /\ t_category x' = Some (Js.or_str (SyncService.f_category fields) "")
      /\ (SyncService.f_type fields = None -> t_type x' = "")
      /\ (SyncService.f_amount fields = None -> t_amount x' = 0)
      /\ (SyncService.f_note fields = None -> t_note x' = Some "")
      /\ (SyncService.f_category fields = None -> t_category x' = Some "").
Proof.
  intros userId id fields w x Hx.
  unfold SyncService.updateTransaction. run. cbn [fst snd db set_db].
  cbn [transactions set_transactions].
  rewrite find_update_where by (intros y; reflexivity).
  cbn [db set_ticks record]. rewrite Hx. cbn [option_map].
  eexists. split; [reflexivity | split; [reflexivity |]].
  cbn. repeat split; intros ->; reflexivity.
Qed.

(** C7 fails for [createBook].  The row it inserts is dirty
    ([synced = 0], no [sync_id]) and carries the time of the call in
    [created_at], but its [updated_at] is left NULL: the INSERT names only
    [name], [created_at] and [is_dirty].  ([SyncService.addBook] inserts
    the same row with [updated_at] set.) *)
Theorem C7_createBook_leaves_updated_at_null :
  forall (userId name : string) (w : World G),
    exists bk row,
      fst (DatabaseService.createBook userId name w) = inl bk
      /\ first_by_id (DatabaseService.id bk)
           (books (db (snd (DatabaseService.createBook userId name w))))
         = Some row
      /\ b_created_at row = clock w (ticks w)
      /\ book_unsynced row = true
      /\ b_updated_at row = None.
Proof.
  intros userId name w.
  unfold DatabaseService.createBook, DatabaseService.retry_once. run.
  cbn [fst snd db set_db books set_books seq insert].
  eexists. eexists. split; [reflexivity |].
  cbn [DatabaseService.id db set_ticks record].
  split; [| split; [| split]].
  - apply (find_insert
             (fun i => mkBook i name (clock w (ticks w)) None 0 None 1 0)).
    intros i. reflexivity.
  - reflexivity.
  - reflexivity.
  - reflexivity.
Qed.

End CrudFacts.

Section CrudExamples.

Import LocalStore Remote Eff Obs Examples.

(** C10 on the sample transaction, with only [amount] given: its type
    "expense" and note "lunch" are replaced by empty strings. *)
Lemma C10_updateTransaction_witness :
  exists x',
    first_by_id 1
      (transactions
         (db (snd (SyncService.updateTransaction user 1
                     (SyncService.mkTxFields None (Some 9) None None)
                     (synced_world true 50 80 false [])))))
    = Some x'
    /\ t_type x' = "" /\ t_amount x' = 9 /\ t_note x' = Some "".
Proof.
  destruct (C10_updateTransaction_overwrites_omitted_fields user 1
              (SyncService.mkTxFields None (Some 9) None None)
              (synced_world true 50 80 false []) (local_tx 50) eq_refl)
    as (x' & _ & Hx & Ht & Ha & Hn & _).
  exists x'. split; [exact Hx |]. split; [exact Ht |].
  split; [exact Ha | exact Hn].
Defined.

(** C5 fails on the pull side.  The remote book "r1" is a tombstone
    ([deleted = true]), newer than the local copy, and is fetched; the pull
    overwrites the local name and marks the row clean, but the local
    [deleted] flag is still 0. *)
Theorem C5_pull_does_not_apply_remote_tombstone :
  let w := synced_world false 50 80 true [] in
  In (remote_book 80 true) (fetched_books pg user w)
  /\ rb_deleted (remote_book 80 true) = true
  /\ exists pr,
       fst (SyncService.pullFromServer user pg w) = inl pr
       /\ first_by_id 1
            (books (db (snd (SyncService.pullFromServer user pg w))))
          = Some (mkBook 1 "Remote" 10 (Some 80) 1 (Some "r1") 1 0).
Proof.
  cbv zeta.
  split; [vm_compute; left; exact eq_refl |].
  split; [exact eq_refl |].
  eexists. split; vm_compute; exact eq_refl.
Qed.

(** The local side of C5 holds: [deleteBook] marks the book and every
    transaction of it deleted and dirty, at the time of the call. *)
Lemma deleteBook_cascades :
  let w' := snd (DatabaseService.deleteBook user 1
                   (synced_world true 50 80 false [])) in
  rows (books (db w')) = [mkBook 1 "Local" 10 (Some 1000) 0 (Some "r1") 1 1]
  /\ rows (transactions (db w'))
     = [mkTx 1 (LocalRef 1) "expense" 5 (Some "lunch") None 10 (Some 1000) 0
          (Some "t1") 1 1].
Proof. cbv zeta. split; vm_compute; exact eq_refl. Qed.

(** C4 fails for transactions.  A dirty transaction without [sync_id],
    whose book is already on the remote, is pushed; the remote stores it;
    the local store loses the write that would have recorded the new
    identifier (the database is as before the push).  The next push draws
    a new identifier and inserts the transaction again: the remote now
    holds two records of the one local transaction. *)
Theorem C4_retried_push_duplicates_transaction :
  let w := unpushed_tx_world in
  let w1 := snd (SyncService.pushToServer user pg w) in
  let w2 := snd (SyncService.pushToServer user pg (set_db (db w) w1)) in
  List.length (pg_transactions (remote w)) = 0%nat
  /\ List.length (pg_transactions (remote w1)) = 1%nat
  /\ map rt_id (pg_transactions (remote w2))
     = ["01234678-9bcd-4e01-8346-789bcde01234";
        "6789bcde-0123-4467-a9bc-de012346789b"]
  /\ map rt_amount (pg_transactions (remote w2)) = [50000; 50000].
Proof. cbv zeta. repeat split; vm_compute; exact eq_refl. Qed.

End CrudExamples.
(* ================================================================== *)
(** ** Setup errors of the one-pass [syncAll] *)
(* ================================================================== *)

Section ThrowFacts.

Import LocalStore Remote Eff Obs SyncService.

Context {G : Type}.

Variable ok : Exn -> bool.

Lemma to_ret {A : Type} (a : A) : throws_only (G := G) ok (ret a).
Proof. intros w e w' H. discriminate. Qed.

Lemma to_throw {A : Type} (e : Exn) :
  ok e = true -> throws_only (G := G) (A := A) ok (throw e).
Proof. intros He w e' w' H. inv H. exact He. Qed.

Lemma to_bind {A B : Type} (m : M (G := G) A) (k : A -> M B) :
  throws_only ok m -> (forall a, throws_only ok (k a)) ->
  throws_only ok (bind m k).
Proof.
  intros Hm Hk w e w' H. apply bind_inv in H.
  destruct H as [(a & w1 & H1 & H) | (e1 & H1 & He)].
  - exact (Hk a w1 e w' H).
  - injection He as ->. exact (Hm w e1 w' H1).
Qed.

Lemma to_try_catch {A : Type} (m : M (G := G) A) (h : Exn -> M A) :
  (forall e, throws_only ok (h e)) -> throws_only ok (try_catch m h).
Proof.
  intros Hh w e w' H. apply try_catch_inv in H.
  destruct H as [(a & _ & H) | (e1 & w1 & _ & H)]; [discriminate |].
  exact (Hh e1 w1 e w' H).
Qed.

Lemma to_rethrow {A : Type} (m : M (G := G) A) :
  throws_only ok m -> throws_only ok (try_catch m (fun e => throw e)).
Proof. intros Hm w e w' H. rewrite try_rethrow in H. exact (Hm w e w' H). Qed.

Lemma to_ignore (m : M (G := G) unit) : throws_only ok (ignore_errors m).
Proof. apply to_try_catch. intros e. apply to_ret. Qed.

Lemma to_forM {A : Type} (xs : list A) (body : A -> M (G := G) unit) :
  (forall x, throws_only ok (body x)) -> throws_only ok (forM_ xs body).
Proof.
  intros Hb. induction xs as [|x xs IH]; simpl.
  - apply to_ret.
  - apply to_bind; [apply Hb | intros _; exact IH].
Qed.

Lemma to_query {A : Type} (q : DB -> A) : throws_only (G := G) ok (query q).
Proof. intros w e w' H. discriminate. Qed.

Lemma to_now : throws_only (G := G) ok now.
Proof. intros w e w' H. discriminate. Qed.

Lemma to_emit (ev : Event) : throws_only (G := G) ok (emit ev).
Proof. intros w e w' H. discriminate. Qed.

Lemma to_request {A : Type} (ev : Event) (op : G -> Response A * G) :
  throws_only ok (request ev op).
Proof.
  intros w e w' H. unfold request in H. destruct (op (remote w)).
  discriminate.
Qed.

Lemma to_generateSyncId (i : Z) : throws_only (G := G) ok (generateSyncId i).
Proof.
  intros w e w' H. unfold generateSyncId in H.
  destruct (Uuid.generateSyncId _ _ _). discriminate.
Qed.

Lemma to_runAsync (table : string) (stmt : DB -> DB * Z + Exn) :
  (forall d e, stmt d = inr e -> ok e = true) ->
  throws_only (G := G) ok (runAsync table stmt).
Proof.
  intros Hs w e w' H. unfold runAsync in H.
  destruct (stmt (db w)) as [[d z] | e1] eqn:Hst; inv H.
  exact (Hs _ _ Hst).
Qed.

Lemma to_setUserPreference userId key v :
  throws_only (G := G) ok (setUserPreference userId key v).
Proof.
  intros w e w' H. destruct (setUserPreference_frame _ _ _ _ _ _ H) as [Hx _].
  discriminate.
Qed.

Lemma to_getUserPreference userId key :
  throws_only (G := G) ok (getUserPreference userId key).
Proof. intros w e w' H. discriminate. Qed.

End ThrowFacts.

Section SetupErrors.

Import LocalStore Remote Eff Obs SyncService.

Context {G : Type}.

Lemma sqlite_not_setup (msg : string) :
  not_setup_error (SqliteError msg) = true.
Proof. reflexivity. Qed.

Lemma merge_transaction_throws (r : RTx) :
  throws_only (G := G) not_setup_error (merge_transaction r).
Proof.
  intros w e w'. unfold merge_transaction. stmts.
  repeat break_match; intros H; inv H; reflexivity.
Qed.

Lemma syncBooks_throws userId (supabase : Gateway G) :
  throws_only not_setup_error (syncBooks userId supabase).
Proof.
  unfold syncBooks. apply to_rethrow.
  apply to_bind; [apply to_ret | intros _].
  apply to_bind; [apply to_getUserPreference | intros lastSync].
  apply to_bind; [apply to_request | intros rb].
  destruct (error rb) as [e |].
  - apply to_throw. reflexivity.
  - apply to_bind; [apply to_forM; intros r; apply to_ignore | intros _].
    apply to_bind; [apply to_query | intros unsynced].
    apply to_bind; [apply to_forM; intros b; apply to_ignore | intros _].
    apply to_bind; [apply to_now | intros t].
    apply to_setUserPreference.
Qed.

Lemma syncTransactions_throws userId (supabase : Gateway G) :
  throws_only not_setup_error (syncTransactions userId supabase).
Proof.
  unfold syncTransactions.
  apply to_bind; [apply to_ret | intros _].
  apply to_bind; [apply to_getUserPreference | intros lastSync].
  apply to_bind; [apply to_request | intros rt].
  destruct (error rt) as [e |].
  - apply to_throw. reflexivity.
  - apply to_bind;
      [apply to_forM; intros r; apply merge_transaction_throws | intros _].
    apply to_bind; [apply to_query | intros unsynced].
    apply to_bind;
      [apply to_forM; intros [t bs]; apply to_ignore | intros _].
    apply to_bind; [apply to_now | intros t].
    apply to_setUserPreference.
Qed.

(** C8.  [SyncService.syncAll] called without a user id (absent or empty)
    or without a client throws a setup error at once: the world it leaves
    is the world it was given, so no request was sent and no local write
    made.  Called with both, it never throws a setup error. *)
Theorem C8_syncAll_setup_errors :
  forall (userId : option string) (supabase : option (Gateway G))
         (w : World G),
    (Js.truthy userId = false \/ supabase = None ->
       exists e, syncAll userId supabase w = (inr e, w)
                 /\ is_setup_error e = true)
    /\ (Js.truthy userId = true -> supabase <> None ->
          forall res w', syncAll userId supabase w = (res, w') ->
          forall e, res = inr e -> is_setup_error e = false).
Proof.
  intros userId supabase w. unfold syncAll. split.
  - intros [Hu | Hs].
    + rewrite Hu. simpl. eexists. split; reflexivity.
    + subst supabase. destruct (Js.truthy userId); simpl;
        eexists; split; reflexivity.
  - intros Hu Hs res w' Hrun e ->. rewrite Hu in Hrun. simpl in Hrun.
    destruct supabase as [client |]; [| congruence].
    assert (throws_only (G := G) not_setup_error
              (try_catch
                 (bind (syncBooks (sync_str userId) client)
                    (fun _ => syncTransactions (sync_str userId) client))
                 (fun e => throw e))) as Ht.
    { apply to_rethrow. apply to_bind; [apply syncBooks_throws |].
      intros _. apply syncTransactions_throws. }
    specialize (Ht w e w' Hrun). unfold not_setup_error in Ht.
    now apply negb_true_iff in Ht.
Qed.

End SetupErrors.

Section SetupExamples.

Import LocalStore Remote Eff Obs Examples.

(** C8 on the sample world: without a user id the call is refused and the
    world untouched; with a user id and a client no setup error comes
    out. *)
Lemma C8_syncAll_setup_witness :
  (exists e,
     SyncService.syncAll None (Some pg) fresh_world = (inr e, fresh_world)
     /\ is_setup_error e = true)
  /\ (forall e,
        fst (SyncService.syncAll (Some user) (Some pg) fresh_world) = inr e ->
        is_setup_error e = false).
Proof.
  split.
  - apply (proj1 (C8_syncAll_setup_errors None (Some pg) fresh_world)).
    left. reflexivity.
  - apply (proj2 (C8_syncAll_setup_errors (Some user) (Some pg) fresh_world)
             eq_refl (fun H => eq_ind (Some pg) (fun o => match o with
                                                          | Some _ => True
                                                          | None => False
                                                          end) I None H)
             _ _ (run_eq_any _)).
Defined.

End SetupExamples.
(* ================================================================== *)
(** ** Ordering of the push *)
(* ================================================================== *)

Section OrderingFacts.

Import LocalStore Remote Eff Obs SyncService.

Context {G : Type}.

Lemma logext_refl (ok : Event -> bool) (w : World G) : LogExt ok w w.
Proof. exists []. split; [now rewrite app_nil_r | reflexivity]. Qed.

Lemma logext_trans (ok : Event -> bool) (w1 w2 w3 : World G) :
  LogExt ok w1 w2 -> LogExt ok w2 w3 -> LogExt ok w1 w3.
Proof.
  intros (n1 & H1 & F1) (n2 & H2 & F2). exists (n1 ++ n2)%list. split.
  - rewrite H2, H1. now rewrite app_assoc.
  - rewrite forallb_app. now rewrite F1, F2.
Qed.

Lemma logext_same (ok : Event -> bool) (w w' : World G) :
  log w' = log w -> LogExt ok w w'.
Proof. intros H. exists []. split; [now rewrite app_nil_r | reflexivity]. Qed.

Ltac logext :=
  first
    [ apply logext_same; reflexivity
    | eexists; split;
      [ simpl; rewrite <- ?app_assoc; reflexivity | reflexivity ] ].

Lemma book_sync_id_of_books (d d' : DB) (t : TxRow) :
  books d' = books d -> book_sync_id_of d' t = book_sync_id_of d t.
Proof. intros H. unfold book_sync_id_of. now rewrite H. Qed.

Lemma in_update_other {R : Type} `{RowLike R} (i : Z) (f : R -> R)
  (t : Table R) (x : R) :
  In x (rows t) -> row_id x <> i -> In x (rows (update_where (has_id i) f t)).
Proof.
  intros Hin Hne. apply in_update_where. exists x. split; [exact Hin |].
  unfold has_id. destruct (Z.eqb_spec (row_id x) i); [contradiction |].
  reflexivity.
Qed.

(** A step of the books loop sends no transaction. *)
Lemma push_book_log (i : Z) userId supabase (b : BookRow) (w : World G)
  res w' :
  push_book userId supabase b w = (res, w') ->
  LogExt (no_tx_request_for i) w w'.
Proof.
  unfold push_book, generateSyncId. stmts.
  repeat break_match; intros Hr; inv Hr; logext.
Qed.

(** A step of the transactions loop on another row: it may send that row,
    and leaves this one where it is. *)
Lemma push_transaction_stranger (x : TxRow) userId supabase (tx : TxRow) bs
  (w : World G) res w' :
  t_id tx <> t_id x ->
  In x (rows (transactions (db w))) ->
  push_transaction userId supabase (tx, bs) w = (res, w') ->
  In x (rows (transactions (db w')))
  /\ LogExt (no_tx_request_for (t_id x)) w w'.
Proof.
  intros Hne Hin. unfold push_transaction, generateSyncId. stmts.
  assert (no_tx_request_for (t_id x) (LocalWrite "transactions") = true)
    as Hw by reflexivity.
  assert (forall p, no_tx_request_for (t_id x)
                      (ReqUpsertTransaction (t_id tx) p) = true) as Hu.
  { intros p. unfold no_tx_request_for. simpl.
    destruct (Z.eqb_spec (t_id tx) (t_id x)); [contradiction | reflexivity]. }
  assert (forall p, no_tx_request_for (t_id x)
                      (ReqInsertTransaction (t_id tx) p) = true) as Hi.
  { intros p. unfold no_tx_request_for. simpl.
    destruct (Z.eqb_spec (t_id tx) (t_id x)); [contradiction | reflexivity]. }
  repeat break_match; intros Hr; inv Hr; simpl;
    (split;
     [ first [ exact Hin
             | apply in_update_other;
               [exact Hin | intros Heq; apply Hne; symmetry; exact Heq] ]
     | first
         [ apply logext_same; reflexivity
         | eexists; split;
           [ simpl; rewrite <- ?app_assoc; reflexivity
           | simpl; rewrite ?Hu, ?Hi; reflexivity ] ] ]).
Qed.

Lemma push_books_log (i : Z) userId supabase (w : World G) res w' :
  push_books userId supabase w = (res, w') ->
  LogExt (no_tx_request_for i) w w'.
Proof.
  unfold push_books. run. intros Hr.
  apply (forM_inv (fun v => LogExt (no_tx_request_for i) w v) _ _)
    with (w := w) (r := res) (w' := w') in Hr.
  - exact Hr.
  - intros b _ v r v1 Hv Hstep.
    exact (logext_trans _ _ _ _ Hv (push_book_log i _ _ _ _ _ _ Hstep)).
  - apply logext_refl.
Qed.

Lemma push_cursors_log (i : Z) userId (w : World G) res w' :
  push_cursors userId w = (res, w') -> LogExt (no_tx_request_for i) w w'.
Proof.
  unfold push_cursors, setUserPreference, DatabaseService.setUserPreference.
  stmts. intros Hr; inv Hr. logext.
Qed.

(** The transactions loop passes over a transaction whose book has no
    remote identifier: the row stays as it is and nothing is sent for it. *)
Lemma push_transactions_skips (x : TxRow) userId supabase (w : World G)
  res w' :
  NoDup (map t_id (rows (transactions (db w)))) ->
  In x (rows (transactions (db w))) ->
  Js.truthy (book_sync_id_of (db w) x) = false ->
  push_transactions userId supabase w = (res, w') ->
  In x (rows (transactions (db w')))
  /\ LogExt (no_tx_request_for (t_id x)) w w'.
Proof.
  intros Hnd Hin Hfalsy. unfold push_transactions. run. intros Hr.
  pose (P := fun v : World G =>
    In x (rows (transactions (db v)))
    /\ LogExt (no_tx_request_for (t_id x)) w v).
  apply (forM_inv P _ _) with (w := w) (r := res) (w' := w') in Hr.
  - exact Hr.
  - intros [tx bs] Hb v r v1 (H1 & H2) Hstep.
    unfold joined_transactions in Hb. apply in_map_iff in Hb.
    destruct Hb as (tx' & Heq & Hb). inv Heq.
    apply filter_In in Hb. destruct Hb as [Hb _].
    destruct (Z.eq_dec (t_id tx) (t_id x)) as [Hid | Hid].
    + assert (tx = x) as -> by now apply (NoDup_map_inj t_id _ _ _ Hnd).
      rewrite push_transaction_skip in Hstep by exact Hfalsy.
      inv Hstep. split; assumption.
    + destruct (push_transaction_stranger x _ _ tx _ v r v1 Hid H1 Hstep)
        as [H3 H4].
      split; [exact H3 | exact (logext_trans _ _ _ _ H2 H4)].
  - split; [exact Hin | apply logext_refl].
Qed.

(** C2, first half. *)
Lemma push_never_sends_orphan (x : TxRow) userId supabase (w : World G)
  res w' :
  pushToServer userId supabase w = (res, w') ->
  NoDup (map t_id (rows (transactions (db w)))) ->
  In x (rows (transactions (db w))) ->
  Js.truthy (book_sync_id_of (db w') x) = false ->
  In x (rows (transactions (db w')))
  /\ LogExt (no_tx_request_for (t_id x)) w w'.
Proof.
  intros Hr Hnd Hin Hfalsy. unfold pushToServer in Hr.
  unfold openUserDB at 1 in Hr. unfold DatabaseService.openUserDB in Hr.
  unfold bind at 1 in Hr. unfold ret at 1 in Hr.
  apply bind_inv in Hr.
  destruct Hr as [(a & w1 & H1 & Hr) | (e & H1 & ->)].
  2:{ destruct (push_books_frame _ _ _ _ _ H1) as (F1 & _).
      unfold same_transactions in F1. rewrite F1.
      split; [exact Hin | exact (push_books_log _ _ _ _ _ _ H1)]. }
  destruct (push_books_frame _ _ _ _ _ H1) as (F1 & _).
  unfold same_transactions in F1.
  pose proof (push_books_log (t_id x) _ _ _ _ _ H1) as L1.
  assert (books (db w') = books (db w1)) as Hbooks.
  { apply bind_inv in Hr.
    destruct Hr as [(b & w2 & H2 & Hr) | (e & H2 & _)].
    - destruct (push_transactions_frame _ _ _ _ _ H2) as (F2 & _).
      destruct (push_cursors_frame _ _ _ _ Hr) as (_ & F3 & _).
      unfold same_books in *. congruence.
    - destruct (push_transactions_frame _ _ _ _ _ H2) as (F2 & _).
      exact F2. }
  rewrite (book_sync_id_of_books _ _ x Hbooks) in Hfalsy.
  rewrite <- F1 in Hnd, Hin.
  apply bind_inv in Hr.
  destruct Hr as [(b & w2 & H2 & Hr) | (e & H2 & ->)];
    destruct (push_transactions_skips x _ _ w1 _ _ Hnd Hin Hfalsy H2)
      as [H3 L2].
  - destruct (push_cursors_frame _ _ _ _ Hr) as (_ & _ & F3).
    unfold same_transactions in F3. rewrite F3. split; [exact H3 |].
    exact (logext_trans _ _ _ _ (logext_trans _ _ _ _ L1 L2)
             (push_cursors_log _ _ _ _ _ Hr)).
  - split; [exact H3 | exact (logext_trans _ _ _ _ L1 L2)].
Qed.

Lemma logext_in (ok : Event -> bool) (w w' : World G) (e : Event) :
  LogExt ok w w' -> In e (log w) -> In e (log w').
Proof.
  intros (new & Hl & _) Hin. rewrite Hl. apply in_or_app. now left.
Qed.

(** The push of the only book of the store, not pushed before, when the
    remote acknowledges it. *)
Lemma push_fresh_book userId supabase (b : BookRow) (w : World G) res w' :
  push_book userId supabase b w = (res, w') ->
  rows (books (db w)) = [b] -> b_sync_id b = None ->
  book_push_acked supabase userId b w ->
  exists rid,
    rows (books (db w')) = [set_b_sync_id (Some rid) (set_b_synced 1 b)]
    /\ Js.truthy (Some rid) = true.
Proof.
  intros Hr Hb Hbs Hack. unfold push_book in Hr. rewrite Hbs in Hr.
  simpl Js.truthy in Hr. cbv iota in Hr.
  unfold book_push_acked, book_insert_payload in Hack. cbv zeta in Hack.
  unfold generateSyncId in Hr. stmts.
  pose proof (generateSyncId_truthy (random w) (b_id b) (draws w)) as Hid.
  cbn [random draws set_ticks remote set_draws] in Hr.
  destruct (Uuid.generateSyncId (random w) (b_id b) (draws w))
    as [syncId k] eqn:Hgen.
  cbn [fst] in Hack, Hid.
  cbn [remote set_draws set_ticks] in Hr.
  destruct (books_find supabase userId (b_name b) (remote w)) as [ex g1].
  cbn [fst snd] in Hack.
  assert (forall s, sync_conflict s (b_id b) (books (db w)) = false) as Hnc.
  { intros s. unfold sync_conflict. rewrite Hb. simpl.
    unfold has_id at 2. simpl. rewrite Z.eqb_refl. simpl.
    apply andb_false_r. }
  destruct (data ex) as [rid |].
  - cbn [db set_remote record set_draws set_ticks] in Hr.
    rewrite Hnc in Hr. inv Hr. exists rid. split.
    + cbn. rewrite Hb. simpl. unfold has_id. simpl. now rewrite Z.eqb_refl.
    + unfold Js.truthy. apply negb_true_iff. now apply String.eqb_neq.
  - cbn [remote set_remote record set_draws set_ticks] in Hr.
    destruct (books_insert supabase _ g1) as [ri g2].
    cbn [fst] in Hack. rewrite Hack in Hr.
    cbn [db set_remote record set_draws set_ticks] in Hr.
    rewrite Hnc in Hr. inv Hr. exists syncId. split.
    + cbn. rewrite Hb. simpl. unfold has_id. simpl. now rewrite Z.eqb_refl.
    + exact Hid.
Qed.

(** The push of a transaction not pushed before, whose book has the remote
    identifier [rid]: an insert carrying [rid] is sent. *)
Lemma push_fresh_transaction userId supabase (t : TxRow) (rid : string)
  (w : World G) res w' :
  push_transaction userId supabase (t, Some rid) w = (res, w') ->
  Js.truthy (Some rid) = true -> t_sync_id t = None ->
  exists payload,
    In (ReqInsertTransaction (t_id t) payload) (log w')
    /\ tp_book_id payload = rid.
Proof.
  intros Hr Hrid Hts. unfold push_transaction in Hr. rewrite Hrid, Hts in Hr.
  unfold generateSyncId in Hr. stmts.
  change (negb true) with false in Hr.
  change (Js.truthy None) with false in Hr. cbv iota beta in Hr.
  destruct (Uuid.generateSyncId _ _ _) as [syncId k].
  destruct (transactions_insert supabase _ _) as [ri g1] eqn:Hins.
  exists (mkTxPayload syncId userId rid (t_type t) (t_amount t) (t_note t)
            (t_category t) (t_created_at t) (clock w (ticks w))
            (Some (is_deleted (t_deleted t)))).
  split; [| reflexivity].
  destruct (error ri).
  - inv Hr. simpl. apply in_or_app. right. now left.
  - destruct (sync_conflict _ _ _); inv Hr; simpl;
      apply in_or_app; left; apply in_or_app; right; now left.
Qed.

(** C2, second half. *)
Lemma push_fresh_pair userId supabase (w : World G) res w' (b : BookRow)
  (t : TxRow) :
  pushToServer userId supabase w = (res, w') ->
  rows (books (db w)) = [b] -> rows (transactions (db w)) = [t] ->
  b_sync_id b = None -> t_sync_id t = None ->
  t_book_id t = LocalRef (b_id b) ->
  book_push_acked supabase userId b w ->
  exists rid payload b',
    first_by_id (b_id b) (books (db w')) = Some b'
    /\ b_sync_id b' = Some rid
    /\ In (ReqInsertTransaction (t_id t) payload) (log w')
    /\ tp_book_id payload = rid.
Proof.
  intros Hr Hb Ht Hbs Hts Href Hack. unfold pushToServer in Hr.
  unfold openUserDB at 1 in Hr. unfold DatabaseService.openUserDB in Hr.
  unfold bind at 1 in Hr. unfold ret at 1 in Hr.
  assert (book_unsynced b = true) as Hdirty
    by (unfold book_unsynced; rewrite Hbs; apply orb_true_r).
  assert (tx_unsynced t = true) as Htdirty
    by (unfold tx_unsynced; rewrite Hts; apply orb_true_r).
  apply bind_inv in Hr.
  destruct Hr as [(a & w1 & H1 & Hr) | (e & H1 & _)].
  2:{ unfold push_books in H1. run. rewrite Hb in H1. cbn [filter] in H1.
      rewrite Hdirty in H1. cbn [forM_] in H1. apply bind_inv in H1.
      destruct H1 as [(a & v & H1 & H2) | (e1 & H1 & _)].
      - unfold ret in H2. discriminate.
      - destruct (push_book_ok _ _ _ _ _ _ H1) as [Hx _]. discriminate. }
  assert (push_book userId supabase b w = (inl tt, w1)) as Hbook.
  { unfold push_books in H1. run. rewrite Hb in H1. cbn [filter] in H1.
    rewrite Hdirty in H1. cbn [forM_] in H1. apply bind_inv in H1.
    destruct H1 as [([] & v & H1 & H2) | (e1 & H1 & Hx)];
      [| discriminate].
    unfold ret in H2. now inv H2. }
  destruct (push_fresh_book _ _ _ _ _ _ Hbook Hb Hbs Hack) as (rid & Hb1 & Hrid).
  destruct (push_book_ok _ _ _ _ _ _ Hbook) as (_ & F1 & _).
  unfold same_transactions in F1.
  set (b' := set_b_sync_id (Some rid) (set_b_synced 1 b)) in *.
  assert (first_by_id (b_id b) (books (db w1)) = Some b') as Hfind.
  { unfold first_by_id. rewrite Hb1. simpl. unfold has_id. simpl.
    now rewrite Z.eqb_refl. }
  assert (joined_transactions tx_unsynced (db w1) = [(t, Some rid)]) as Hj.
  { unfold joined_transactions. rewrite F1, Ht. simpl. rewrite Htdirty.
    simpl. unfold book_sync_id_of. rewrite Href, Hfind. reflexivity. }
  apply bind_inv in Hr.
  destruct Hr as [(a' & w2 & H2 & Hr) | (e & H2 & _)].
  - unfold push_transactions in H2. run. rewrite Hj in H2.
    cbn [forM_] in H2.
    apply bind_inv in H2.
    destruct H2 as [(a2 & v & H2 & H3) | (e1 & H2 & Hx)]; [| discriminate].
    unfold ret in H3. inv H3.
    destruct (push_fresh_transaction _ _ _ _ _ _ _ H2 Hrid Hts)
      as (payload & Hin & Hp).
    destruct (push_transaction_frame _ _ _ _ _ _ H2) as (F2 & _).
    destruct (push_cursors_frame _ _ _ _ Hr) as (_ & F3 & _).
    unfold same_books in *.
    exists rid, payload, b'. rewrite F3, F2.
    split; [exact Hfind | split; [reflexivity | split; [| exact Hp]]].
    exact (logext_in _ _ _ _ (push_cursors_log 0 _ _ _ _ Hr) Hin).
  - unfold push_transactions in H2. run. rewrite Hj in H2.
    cbn [forM_] in H2.
    apply bind_inv in H2.
    destruct H2 as [(a2 & v & H2 & H3) | (e1 & H2 & Hx)];
      [unfold ret in H3; discriminate |].
    destruct (push_fresh_transaction _ _ _ _ _ _ _ H2 Hrid Hts)
      as (payload & Hin & Hp).
    destruct (push_transaction_frame _ _ _ _ _ _ H2) as (F2 & _).
    unfold same_books in *.
    exists rid, payload, b'. rewrite F2.
    split; [exact Hfind | split; [reflexivity | split; [exact Hin | exact Hp]]].
Qed.

End OrderingFacts.

Section OrderingClaim.

Import LocalStore Remote Eff Obs SyncService Examples.

(** C2.  In every [pushToServer] invocation, a Transaction whose owning
    Book has no remote identifier when the invocation ends (so it had none
    when the transactions were read) is not sent to the remote and its row
    is left as it was, dirty if it was dirty.  And for a store holding one
    Book and one Transaction of it, neither pushed before, one
    [pushToServer] whose push of the Book the remote acknowledges gives the
    Book a remote identifier and sends the Transaction with that identifier
    as its book reference. *)
Theorem C2_push_orders_books_before_transactions :
  forall (G : Type) (client : Gateway G) (userId : string) (w w' : World G)
         (res : unit + Exn),
    pushToServer userId client w = (res, w') ->
    (forall x : TxRow,
        NoDup (map t_id (rows (transactions (db w)))) ->
        In x (rows (transactions (db w))) ->
        Js.truthy (book_sync_id_of (db w') x) = false ->
        In x (rows (transactions (db w')))
        /\ LogExt (no_tx_request_for (t_id x)) w w')
    /\ (forall (b : BookRow) (t : TxRow),
        rows (books (db w)) = [b] -> rows (transactions (db w)) = [t] ->
        b_sync_id b = None -> t_sync_id t = None ->
        t_book_id t = LocalRef (b_id b) ->
        book_push_acked client userId b w ->
        exists rid payload b',
          first_by_id (b_id b) (books (db w')) = Some b'
          /\ b_sync_id b' = Some rid
          /\ In (ReqInsertTransaction (t_id t) payload) (log w')
          /\ tp_book_id payload = rid).
Proof.
  intros G client userId w w' res Hrun. split.
  - intros x Hnd Hin Hfalsy.
    exact (push_never_sends_orphan x userId client w res w' Hrun Hnd Hin
             Hfalsy).
  - intros b t Hb Ht Hbs Hts Href Hack.
    exact (push_fresh_pair userId client w res w' b t Hrun Hb Ht Hbs Hts Href
             Hack).
Qed.

(** C2 at work: the orphan transaction is passed over, and in the fresh
    store the book gets an identifier that the transaction's insert
    refers to. *)
Lemma C2_push_orders_witness :
  (In fresh_tx
     (rows (transactions (db (snd (pushToServer user pg orphan_world)))))
   /\ LogExt (no_tx_request_for 1) orphan_world
        (snd (pushToServer user pg orphan_world)))
  /\ (exists rid payload b',
        first_by_id 1 (books (db (snd (pushToServer user pg fresh_world))))
        = Some b'
        /\ b_sync_id b' = Some rid
        /\ In (ReqInsertTransaction 1 payload)
             (log (snd (pushToServer user pg fresh_world)))
        /\ tp_book_id payload = rid).
Proof.
  split.
  - apply (proj1 (C2_push_orders_books_before_transactions PgState pg user
                    orphan_world _ _ (run_eq_any _)) fresh_tx).
    + simpl. constructor; [intros [] | constructor].
    + left. exact eq_refl.
    + vm_compute. exact eq_refl.
  - apply (proj2 (C2_push_orders_books_before_transactions PgState pg user
                    fresh_world _ _ (run_eq_any _)) fresh_book fresh_tx);
      vm_compute; exact eq_refl.
Defined.

End OrderingClaim.

(* ================================================================== *)
(** ** The cursors *)
(* ================================================================== *)

Ltac same_clock := split; [reflexivity | exact (Nat.le_refl _)].

Section ClockFacts.

Import LocalStore Remote Eff Obs SyncService.

Context {G : Type}.

Lemma later_refl (w : World G) : later w w.
Proof. split; [reflexivity | apply Nat.le_refl]. Qed.

Lemma later_trans (w1 w2 w3 : World G) :
  later w1 w2 -> later w2 w3 -> later w1 w3.
Proof.
  intros [C1 T1] [C2 T2]. split; [congruence |].
  eapply Nat.le_trans; eassumption.
Qed.

Lemma kc_ret {A : Type} (a : A) : keeps_clock (G := G) (ret a).
Proof. intros w r w' H. inv H. apply later_refl. Qed.

Lemma kc_throw {A : Type} (e : Exn) : keeps_clock (G := G) (A := A) (throw e).
Proof. intros w r w' H. inv H. apply later_refl. Qed.

Lemma kc_bind {A B : Type} (m : M (G := G) A) (k : A -> M B) :
  keeps_clock m -> (forall a, keeps_clock (k a)) -> keeps_clock (bind m k).
Proof.
  intros Hm Hk w r w' H. apply bind_inv in H.
  destruct H as [(a & w1 & H1 & H) | (e1 & H1 & _)].
  - exact (later_trans _ _ _ (Hm _ _ _ H1) (Hk a _ _ _ H)).
  - exact (Hm _ _ _ H1).
Qed.

Lemma kc_try_catch {A : Type} (m : M (G := G) A) (h : Exn -> M A) :
  keeps_clock m -> (forall e, keeps_clock (h e)) ->
  keeps_clock (try_catch m h).
Proof.
  intros Hm Hh w r w' H. apply try_catch_inv in H.
  destruct H as [(a & H & _) | (e1 & w1 & H1 & H)].
  - exact (Hm _ _ _ H).
  - exact (later_trans _ _ _ (Hm _ _ _ H1) (Hh e1 _ _ _ H)).
Qed.

Lemma kc_forM {A : Type} (xs : list A) (body : A -> M (G := G) unit) :
  (forall x, keeps_clock (body x)) -> keeps_clock (forM_ xs body).
Proof.
  intros Hb. induction xs as [|x xs IH]; simpl.
  - apply kc_ret.
  - apply kc_bind; [apply Hb | intros _; exact IH].
Qed.

Lemma kc_foldM {A B : Type} (xs : list A) (body : B -> A -> M (G := G) B) :
  (forall acc x, keeps_clock (body acc x)) ->
  forall acc, keeps_clock (foldM body xs acc).
Proof.
  intros Hb. induction xs as [|x xs IH]; intros acc; simpl.
  - apply kc_ret.
  - apply kc_bind; [apply Hb | intros acc'; apply IH].
Qed.

Lemma kc_query {A : Type} (q : DB -> A) : keeps_clock (G := G) (query q).
Proof. intros w r w' H. inv H. apply later_refl. Qed.

Lemma kc_now : keeps_clock (G := G) now.
Proof.
  intros w r w' H. unfold now in H. inv H. split; [reflexivity |].
  simpl. apply Nat.le_succ_diag_r.
Qed.

Lemma kc_emit (ev : Event) : keeps_clock (G := G) (emit ev).
Proof. intros w r w' H. inv H. same_clock. Qed.

Lemma kc_request {A : Type} (ev : Event) (op : G -> Response A * G) :
  keeps_clock (request ev op).
Proof.
  intros w r w' H. unfold request in H. destruct (op (remote w)).
  inv H. same_clock.
Qed.

Lemma kc_generateSyncId (i : Z) : keeps_clock (G := G) (generateSyncId i).
Proof.
  intros w r w' H. unfold generateSyncId in H.
  destruct (Uuid.generateSyncId _ _ _). inv H. same_clock.
Qed.

Lemma kc_runAsync (table : string) (stmt : DB -> DB * Z + Exn) :
  keeps_clock (G := G) (runAsync table stmt).
Proof.
  intros w r w' H. unfold runAsync in H.
  destruct (stmt (db w)) as [[d z] | e1]; inv H; same_clock.
Qed.

End ClockFacts.

Ltac kc :=
  repeat first
    [ apply kc_ret | apply kc_throw | apply kc_query | apply kc_now
    | apply kc_emit | apply kc_request | apply kc_generateSyncId
    | apply kc_runAsync
    | apply kc_forM; intros ?
    | apply kc_foldM; intros ? ?
    | apply kc_bind; [| intros ?]
    | apply kc_try_catch; [| intros ?]
    | progress cbv zeta
    | match goal with
      | |- Obs.keeps_clock (match ?e with _ => _ end) => destruct e
      end ].

Section ClockOfPhases.

Import LocalStore Remote Eff Obs SyncService.

Context {G : Type}.

Lemma kc_setUserPreference userId key v :
  keeps_clock (G := G) (setUserPreference userId key v).
Proof.
  unfold setUserPreference, DatabaseService.setUserPreference,
    DatabaseService.openUserDB. kc.
Qed.

Lemma kc_getUserPreference userId key :
  keeps_clock (G := G) (getUserPreference userId key).
Proof.
  unfold getUserPreference, DatabaseService.getUserPreference,
    DatabaseService.openUserDB. kc.
Qed.

Lemma kc_pullFromServer userId (supabase : Gateway G) :
  keeps_clock (pullFromServer userId supabase).
Proof.
  unfold pullFromServer, openUserDB, DatabaseService.openUserDB.
  apply kc_bind; [apply kc_ret | intros _].
  apply kc_try_catch; [| intros e; apply kc_throw].
  apply kc_bind; [apply kc_getUserPreference | intros lb].
  apply kc_bind; [apply kc_getUserPreference | intros lt].
  unfold pull_book, pull_transaction. kc.
Qed.

Lemma kc_resolveConflicts userId cs :
  keeps_clock (G := G) (resolveConflicts userId cs).
Proof.
  unfold resolveConflicts, resolve_conflict, openUserDB,
    DatabaseService.openUserDB. kc.
Qed.

Lemma kc_push_books userId (supabase : Gateway G) :
  keeps_clock (push_books userId supabase).
Proof. unfold push_books, push_book. kc. Qed.

Lemma kc_push_transactions userId (supabase : Gateway G) :
  keeps_clock (push_transactions userId supabase).
Proof. unfold push_transactions, push_transaction. kc. Qed.

End ClockOfPhases.

Section PreferenceFacts.

Import LocalStore.

Lemma pref_get_update_other (k k' : string) (v : Z) (ps : list (string * Z)) :
  k' <> k -> pref_get k (pref_update k' v ps) = pref_get k ps.
Proof.
  intros Hne. induction ps as [|[k0 x] rest IH]; simpl; [reflexivity |].
  destruct (String.eqb_spec k0 k) as [-> | _]; [| exact IH].
  destruct (String.eqb_spec k k') as [<- | _]; [| reflexivity].
  now contradiction Hne.
Qed.

Lemma pref_get_update_same (k : string) (v : Z) (ps : list (string * Z)) :
  pref_get k ps <> None -> pref_get k (pref_update k v ps) = Some v.
Proof.
  induction ps as [|[k0 x] rest IH]; simpl; intros Hx.
  - now contradiction Hx.
  - destruct (String.eqb k0 k); [reflexivity | exact (IH Hx)].
Qed.

Lemma pref_get_app (k k' : string) (v : Z) (ps : list (string * Z)) :
  pref_get k (ps ++ [(k', v)])%list
  = match pref_get k ps with
    | Some x => Some x
    | None => if String.eqb k' k then Some v else None
    end.
Proof.
  induction ps as [|[k0 x] rest IH]; simpl; [reflexivity |].
  destruct (String.eqb k0 k); [reflexivity | exact IH].
Qed.

Lemma pref_get_set_same (k : string) (v : Z) (ps : list (string * Z)) :
  pref_get k (pref_set k v ps) = Some v.
Proof.
  unfold pref_set. destruct (pref_get k ps) as [x |] eqn:Hx.
  - apply pref_get_update_same. congruence.
  - rewrite pref_get_app, Hx, String.eqb_refl. reflexivity.
Qed.

Lemma pref_get_set_other (k k' : string) (v : Z) (ps : list (string * Z)) :
  k' <> k -> pref_get k (pref_set k' v ps) = pref_get k ps.
Proof.
  intros Hne. unfold pref_set. destruct (pref_get k' ps) as [x |].
  - now apply pref_get_update_other.
  - rewrite pref_get_app. destruct (pref_get k ps); [reflexivity |].
    destruct (String.eqb_spec k' k); [now contradiction Hne | reflexivity].
Qed.

End PreferenceFacts.

Section CursorFacts.

Import LocalStore Remote Eff Obs SyncService.

Context {G : Type}.

Lemma push_cursors_run userId (w : World G) res w' :
  push_cursors userId w = (res, w') ->
  res = inl tt
  /\ user_preferences (db w')
     = pref_set "last_sync_transactions" (clock w (S (S (ticks w))))
         (pref_set "last_sync_books" (clock w (ticks w))
            (user_preferences (db w))).
Proof.
  unfold push_cursors, setUserPreference, DatabaseService.setUserPreference.
  stmts. intros Hr; inv Hr; simpl; auto.
Qed.

Lemma pushToServer_cursors userId supabase (w : World G) res w' :
  pushToServer userId supabase w = (res, w') -> cursors_after w res w'.
Proof.
  unfold pushToServer. unfold openUserDB at 1.
  unfold DatabaseService.openUserDB. intros Hr. unfold bind at 1 in Hr.
  unfold ret at 1 in Hr.
  bind_cases Hr a w1 H1;
    destruct (push_books_frame _ _ _ _ _ H1) as (_ & F1);
    [| exact F1].
  pose proof (kc_push_books _ _ _ _ _ H1) as L1.
  bind_cases Hr b w2 H2;
    destruct (push_transactions_frame _ _ _ _ _ H2) as (_ & F2);
    unfold same_prefs in *; [| simpl; congruence].
  pose proof (kc_push_transactions _ _ _ _ _ H2) as L2.
  destruct (later_trans _ _ _ L1 L2) as [Hc Ht].
  destruct (push_cursors_run _ _ _ _ Hr) as (-> & Hp).
  exists (ticks w2). split; [exact Ht |]. rewrite Hp, Hc. split.
  - rewrite pref_get_set_other by discriminate. apply pref_get_set_same.
  - apply pref_get_set_same.
Qed.

End CursorFacts.

Section CursorsOfTheCycle.

Import LocalStore Remote Eff Obs SyncService.

Context {G : Type}.

Lemma cursors_after_later (w v : World G) res w' :
  later w v -> same_prefs w v -> cursors_after v res w' ->
  cursors_after w res w'.
Proof.
  intros [Hc Ht] Hp. unfold cursors_after, same_prefs in *.
  destruct res as [u | e].
  - intros (k & Hk & Hb & Htx). exists k. rewrite <- Hc.
    split; [eapply Nat.le_trans; eassumption | split; assumption].
  - intros Hs. congruence.
Qed.

Lemma resolveConflicts_prefs userId cs (w : World G) res w' :
  resolveConflicts userId cs w = (res, w') -> res = inl tt /\ same_prefs w w'.
Proof.
  intros Hr. destruct (resolveConflicts_run _ _ _ _ _ Hr) as (-> & w1 & Hl & Hd).
  destruct (resolve_all_prefs _ _ _ _ Hl) as (_ & Hp).
  unfold same_prefs in *. split; [reflexivity | congruence].
Qed.

Lemma provider_cycle_cursors (p : SyncProvider.Provider G) client userId
  (w w' : World G) res :
  SyncProvider.isSyncing p = false ->
  SyncProvider.supabase p = Some client ->
  SyncProvider.user_id p = Some userId ->
  SyncProvider.syncAll p w = (res, w') -> cursors_after w res w'.
Proof.
  intros Hs Hc Hu. unfold SyncProvider.syncAll. rewrite Hs, Hc, Hu.
  destruct (SyncProvider.isReady p);
    [| intros Hr; inv Hr; reflexivity].
  destruct (Js.truthy (Some userId)); [| intros Hr; inv Hr; reflexivity].
  rewrite try_rethrow. simpl sync_str.
  destruct (SyncProvider.refreshToken p);
    [intros Hr; inv Hr; reflexivity |].
  intros Hr. unfold bind at 1 in Hr. unfold ret at 1 in Hr.
  bind_cases Hr pr w1 Hpull;
    pose proof (pull_keeps_prefs _ _ _ _ _ Hpull) as P1; [| exact P1].
  pose proof (kc_pullFromServer _ _ _ _ _ Hpull) as L1.
  assert (forall r v, (if 0 <? Z.of_nat (List.length (conflicts pr))
                       then resolveConflicts userId (conflicts pr)
                       else ret tt) w1 = (r, v) ->
                      r = inl tt /\ same_prefs w1 v /\ later w1 v) as Hres.
  { intros r v. destruct (0 <? _); intros Hv.
    - destruct (resolveConflicts_prefs _ _ _ _ _ Hv) as (-> & Hp).
      split; [reflexivity | split; [exact Hp |]].
      exact (kc_resolveConflicts _ _ _ _ _ Hv).
    - inv Hv. split; [reflexivity | split; [reflexivity |]].
      apply later_refl. }
  bind_cases Hr u w2 Hrs;
    destruct (Hres _ _ Hrs) as (Hok & P2 & L2); [| discriminate].
  assert (same_prefs w w2) as P12
    by (unfold same_prefs in *; congruence).
  pose proof (later_trans _ _ _ L1 L2) as L12.
  bind_cases Hr u' w3 Hpush;
    pose proof (pushToServer_cursors _ _ _ _ _ Hpush) as C3.
  - unfold emit in Hr. inv Hr.
    exact (cursors_after_later _ _ _ _ L12 P12 C3).
  - exact (cursors_after_later _ _ _ _ L12 P12 C3).
Qed.

End CursorsOfTheCycle.

(* ================================================================== *)
(** ** Listings *)
(* ================================================================== *)

Section OrderFacts.

Import Sql.

Context {R : Type}.

Variable le : R -> R -> bool.
Hypothesis le_total : forall x y, le x y = false -> le y x = true.
Hypothesis le_trans :
  forall x y z, le x y = true -> le y z = true -> le x z = true.

Lemma insert_sorted_perm (x : R) (l : list R) :
  Permutation (x :: l) (insert_sorted le x l).
Proof.
  induction l as [|y l IH]; simpl; [apply Permutation_refl |].
  destruct (le x y); [apply Permutation_refl |].
  eapply Permutation_trans; [apply perm_swap |].
  now apply perm_skip.
Qed.

Lemma order_by_perm (l : list R) : Permutation l (order_by le l).
Proof.
  induction l as [|x l IH]; simpl; [apply perm_nil |].
  eapply Permutation_trans; [| apply insert_sorted_perm].
  now apply perm_skip.
Qed.

Lemma insert_sorted_sorted (x : R) (l : list R) :
  StronglySorted (fun a b => le a b = true) l ->
  StronglySorted (fun a b => le a b = true) (insert_sorted le x l).
Proof.
  induction l as [|y l IH]; simpl; intros Hs.
  - constructor; [constructor | constructor].
  - inversion Hs as [| ? ? Hl Hy]; subst.
    destruct (le x y) eqn:Hxy.
    + constructor; [exact Hs |]. constructor; [exact Hxy |].
      rewrite Forall_forall in *. intros z Hz.
      exact (le_trans _ _ _ Hxy (Hy z Hz)).
    + constructor; [exact (IH Hl) |].
      rewrite Forall_forall in *. intros z Hz.
      apply (Permutation_in z (Permutation_sym (insert_sorted_perm x l)))
        in Hz.
      destruct Hz as [<- | Hz]; [exact (le_total _ _ Hxy) | exact (Hy z Hz)].
Qed.

Lemma order_by_sorted (l : list R) :
  StronglySorted (fun a b => le a b = true) (order_by le l).
Proof.
  induction l as [|x l IH]; simpl; [constructor |].
  now apply insert_sorted_sorted.
Qed.

End OrderFacts.

Section KeyOrderFacts.

Import Sql.

Context {R : Type}.

Variable key : R -> Z.

Lemma order_by_asc_sorted (l : list R) :
  StronglySorted (fun a b => key a <= key b) (order_by (ASC key) l).
Proof.
  assert (StronglySorted (fun a b => ASC key a b = true)
            (order_by (ASC key) l)) as Hs.
  { apply order_by_sorted; unfold ASC; intros; lia. }
  induction Hs as [| a l' Hl IH Ha]; constructor; [exact IH |].
  rewrite Forall_forall in *. intros z Hz. specialize (Ha z Hz).
  unfold ASC in Ha. lia.
Qed.

Lemma order_by_desc_sorted (l : list R) :
  StronglySorted (fun a b => key b <= key a) (order_by (DESC key) l).
Proof.
  assert (StronglySorted (fun a b => DESC key a b = true)
            (order_by (DESC key) l)) as Hs.
  { apply order_by_sorted; unfold DESC; intros; lia. }
  induction Hs as [| a l' Hl IH Ha]; constructor; [exact IH |].
  rewrite Forall_forall in *. intros z Hz. specialize (Ha z Hz).
  unfold DESC in Ha. lia.
Qed.

Lemma order_by_in (le : R -> R -> bool) (l : list R) (x : R) :
  In x (order_by le l) <-> In x l.
Proof.
  split; apply Permutation_in;
    [apply Permutation_sym |]; apply order_by_perm.
Qed.

Lemma insert_sorted_map (le : R -> R -> bool) (g : R -> R) (x : R)
  (l : list R) :
  (forall a b, le (g a) (g b) = le a b) ->
  insert_sorted le (g x) (map g l) = map g (insert_sorted le x l).
Proof.
  intros Hg. induction l as [|y l IH]; simpl; [reflexivity |].
  rewrite Hg. destruct (le x y); simpl; [reflexivity | now rewrite IH].
Qed.

Lemma order_by_map (le : R -> R -> bool) (g : R -> R) (l : list R) :
  (forall a b, le (g a) (g b) = le a b) ->
  order_by le (map g l) = map g (order_by le l).
Proof.
  intros Hg. induction l as [|x l IH]; simpl; [reflexivity |].
  rewrite IH. now apply insert_sorted_map.
Qed.

Lemma filter_map_comm (p : R -> bool) (g : R -> R) (l : list R) :
  (forall x, p (g x) = p x) -> filter p (map g l) = map g (filter p l).
Proof.
  intros Hp. induction l as [|x l IH]; simpl; [reflexivity |].
  rewrite Hp. destruct (p x); simpl; now rewrite IH.
Qed.

Lemma order_by_length (le : R -> R -> bool) (l : list R) :
  List.length (order_by le l) = List.length l.
Proof. symmetry. apply Permutation_length, order_by_perm. Qed.

End KeyOrderFacts.

Section ListingFacts.

Import LocalStore Remote Eff Obs Sql DatabaseReads.

Context {G : Type}.

(** X1.  The two listings change nothing.  [listBooks] returns exactly the
    books that are not soft-deleted, each once, oldest first;
    [loadTransactions] returns exactly the transactions of the book that are
    not soft-deleted, each once, newest first. *)
Theorem listings_return_live_rows_in_order :
  forall (userId : string) (bookId : Z) (w : World G),
    (exists l,
       listBooks userId w = (inl l, w)
       /\ Permutation l
            (filter (fun b => b_deleted b =? 0) (rows (books (db w))))
       /\ StronglySorted (fun a b => b_created_at a <= b_created_at b) l)
    /\ (exists l,
          loadTransactions userId bookId w = (inl l, w)
          /\ Permutation l
               (filter (fun t => DatabaseService.of_book bookId t
                                 && (t_deleted t =? 0))
                  (rows (transactions (db w))))
          /\ StronglySorted
               (fun a b => t_created_at b <= t_created_at a) l).
Proof.
  intros userId bookId w. split.
  - eexists. split; [reflexivity |]. split.
    + apply Permutation_sym, order_by_perm.
    + apply order_by_asc_sorted.
  - eexists. split; [reflexivity |]. split.
    + apply Permutation_sym, order_by_perm.
    + apply order_by_desc_sorted.
Qed.

End ListingFacts.

(* ================================================================== *)
(** ** The write path of [DatabaseService] *)
(* ================================================================== *)

Section WritePathFacts.

Import LocalStore Remote Eff Obs Sql DatabaseReads.

Context {G : Type} {arith : RealArith}.

Lemma filter_app_one {A : Type} (p : A -> bool) (l : list A) (x : A) :
  filter p (l ++ [x])%list
  = (filter p l ++ (if p x then [x] else []))%list.
Proof. rewrite filter_app. reflexivity. Qed.

(** X2.  [createBook] hands out a rowid no book of the table has, appends
    one row and touches nothing else; the new book is in the next
    [listBooks]. *)
Theorem createBook_fresh_id_and_listed :
  forall (userId name : string) (w : World G),
    exists bk w1 l,
      DatabaseService.createBook userId name w = (inl bk, w1)
      /\ ~ In (DatabaseService.id bk) (map b_id (rows (books (db w))))
      /\ rows (books (db w1))
         = (rows (books (db w))
            ++ [mkBook (DatabaseService.id bk) name (clock w (ticks w)) None
                  0 None 1 0])%list
      /\ transactions (db w1) = transactions (db w)
      /\ user_preferences (db w1) = user_preferences (db w)
      /\ listBooks userId w1 = (inl l, w1)
      /\ In (mkBook (DatabaseService.id bk) name (clock w (ticks w)) None
               0 None 1 0) l.
Proof.
  intros userId name w.
  unfold DatabaseService.createBook, DatabaseService.retry_once. run.
  cbn [fst snd db set_db books set_books seq insert rows].
  eexists. eexists. eexists. split; [reflexivity |].
  cbn [DatabaseService.id db set_ticks record set_db books transactions
       user_preferences set_books rows].
  split; [| split; [reflexivity | split; [reflexivity | split;
    [reflexivity | split; [reflexivity |]]]]].
  - intros Hin. apply in_map_iff in Hin. destruct Hin as (y & Hy & Hin).
    pose proof (next_rowid_fresh (books (db w)) y Hin) as Hlt.
    change (row_id y) with (b_id y) in Hlt. lia.
  - apply order_by_in.
    cbn [db set_db books set_books insert rows]. rewrite filter_app_one. apply in_or_app. right.
    left. reflexivity.
Qed.

Lemma update_where_ids {R : Type} `{RowLike R} (p : R -> bool) (f : R -> R)
  (t : Table R) :
  (forall y, row_id (f y) = row_id y) ->
  map row_id (rows (update_where p f t)) = map row_id (rows t).
Proof.
  intros Hf. unfold update_where. simpl. rewrite map_map.
  apply map_ext. intros y. destruct (p y); [apply Hf | reflexivity].
Qed.

Lemma update_where_none {R : Type} `{RowLike R} (p : R -> bool) (f : R -> R)
  (t : Table R) :
  (forall y, In y (rows t) -> p y = false) -> update_where p f t = t.
Proof.
  intros Hp. destruct t as [l s]. unfold update_where. simpl in *. f_equal.
  induction l as [|y l IH]; simpl; [reflexivity |].
  rewrite (Hp y (or_introl eq_refl)). f_equal. apply IH.
  intros z Hz. apply Hp. now right.
Qed.

Lemma first_by_id_none {R : Type} `{RowLike R} (i : Z) (t : Table R) :
  first_by_id i t = None -> forall y, In y (rows t) -> has_id i y = false.
Proof. intros Hf y Hy. exact (find_none _ _ Hf y Hy). Qed.

Lemma set_books_same (d : DB) : set_books (books d) d = d.
Proof. now destruct d. Qed.

Lemma set_transactions_same (d : DB) : set_transactions (transactions d) d = d.
Proof. now destruct d. Qed.

(** X3.  [updateBook] renames the book with the given rowid, stamps it with
    the time of the call and marks it dirty; the other books and the other
    tables are left alone.  When no book has that rowid the database is
    unchanged, and the call still resolves to a book object.  The
    [created_at] of the object returned is the time of the call. *)
Theorem updateBook_renames_or_nothing :
  forall (userId : string) (bookId : Z) (name : string) (w : World G),
    exists w1,
      DatabaseService.updateBook userId bookId name w
      = (inl (DatabaseService.mkBookView bookId name (clock w (ticks w))
                true), w1)
      /\ first_by_id bookId (books (db w1))
         = option_map
             (fun b => set_b_synced 0
                         (set_b_updated_at (Some (clock w (ticks w)))
                            (set_b_name name b)))
             (first_by_id bookId (books (db w)))
      /\ (forall b, In b (rows (books (db w))) -> b_id b <> bookId ->
            In b (rows (books (db w1))))
      /\ transactions (db w1) = transactions (db w)
      /\ user_preferences (db w1) = user_preferences (db w)
      /\ (first_by_id bookId (books (db w)) = None -> db w1 = db w).
Proof.
  intros userId bookId name w.
  unfold DatabaseService.updateBook, DatabaseService.retry_once. run.
  cbn [fst snd db set_db books set_books].
  eexists. split; [reflexivity |].
  cbn [db set_ticks record set_db books transactions user_preferences
       set_books].
  split; [| split; [| split; [reflexivity | split; [reflexivity |]]]].
  - apply find_update_where. intros y. reflexivity.
  - intros b Hb Hne. now apply in_update_other.
  - intros Hnone. rewrite update_where_none.
    + apply set_books_same.
    + now apply first_by_id_none.
Qed.

Lemma of_book_local (bookId : Z) (x : TxRow) :
  DatabaseService.of_book bookId x = true <-> t_book_id x = LocalRef bookId.
Proof.
  unfold DatabaseService.of_book. destruct (t_book_id x) as [i | s].
  - rewrite Z.eqb_eq. split; [now intros -> | congruence].
  - split; discriminate.
Qed.

(** X4.  Soft delete of a book: no row leaves either table; the book and
    every transaction of it end deleted, dirty and stamped with the time of
    the call; every other row is as before. *)
Theorem deleteBook_marks_book_and_its_transactions :
  forall (userId : string) (bookId : Z) (w : World G),
    exists w1,
      DatabaseService.deleteBook userId bookId w = (inl tt, w1)
      /\ map b_id (rows (books (db w1))) = map b_id (rows (books (db w)))
      /\ map t_id (rows (transactions (db w1)))
         = map t_id (rows (transactions (db w)))
      /\ (forall b, In b (rows (books (db w1))) -> b_id b = bookId ->
            b_deleted b = 1 /\ book_unsynced b = true
            /\ b_updated_at b = Some (clock w (ticks w)))
      /\ (forall x, In x (rows (transactions (db w1))) ->
            t_book_id x = LocalRef bookId ->
            t_deleted x = 1 /\ tx_unsynced x = true
            /\ t_updated_at x = Some (clock w (ticks w)))
      /\ (forall b, In b (rows (books (db w))) -> b_id b <> bookId ->
            In b (rows (books (db w1))))
      /\ (forall x, In x (rows (transactions (db w))) ->
            t_book_id x <> LocalRef bookId ->
            In x (rows (transactions (db w1)))).
Proof.
  intros userId bookId w.
  unfold DatabaseService.deleteBook, DatabaseService.retry_twice. run.
  cbn [fst snd db set_db books set_books transactions set_transactions].
  eexists. split; [reflexivity |].
  cbn [db set_ticks record set_db books transactions user_preferences
       set_books set_transactions].
  split; [| split; [| split; [| split; [| split]]]].
  - exact (update_where_ids (R := BookRow) (has_id bookId)
             (fun b => set_b_updated_at (Some (clock w (ticks w)))
                         (set_b_synced 0 (set_b_deleted 1 b)))
             (books (db w)) (fun y => eq_refl)).
  - exact (update_where_ids (R := TxRow) (DatabaseService.of_book bookId)
             (fun x => set_t_updated_at (Some (clock w (ticks w)))
                         (set_t_synced 0 (set_t_deleted 1 x)))
             (transactions (db w)) (fun y => eq_refl)).
  - intros b Hb Hid. apply in_update_where in Hb.
    destruct Hb as (z & Hz & ->). unfold has_id in *.
    destruct (row_id z =? bookId) eqn:Hzi.
    + split; [reflexivity | split; reflexivity].
    + apply Z.eqb_neq in Hzi. now contradiction Hzi.
  - intros x Hx Href. apply in_update_where in Hx.
    destruct Hx as (z & Hz & ->).
    destruct (DatabaseService.of_book bookId z) eqn:Hzb.
    + split; [reflexivity | split; reflexivity].
    + apply of_book_local in Href. congruence.
  - intros b Hb Hne. now apply in_update_other.
  - intros x Hx Hne. apply in_update_where. exists x. split; [exact Hx |].
    destruct (DatabaseService.of_book bookId x) eqn:Hxb; [| reflexivity].
    apply of_book_local in Hxb. now contradiction Hne.
Qed.

Lemma filter_map_nil {A : Type} (p : A -> bool) (g : A -> A) (l : list A) :
  (forall x, p (g x) = false) -> filter p (map g l) = [].
Proof.
  intros Hp. induction l as [|x l IH]; simpl; [reflexivity |].
  now rewrite Hp.
Qed.

Lemma filter_map_length {A : Type} (p : A -> bool) (g : A -> A)
  (l : list A) :
  (forall x, p (g x) = p x) ->
  List.length (filter p (map g l)) = List.length (filter p l).
Proof.
  intros Hp. induction l as [|x l IH]; simpl; [reflexivity |].
  rewrite Hp. destruct (p x); simpl; now rewrite IH.
Qed.

(** X5.  After the soft delete of a book the listings no longer show it: it
    is in no [listBooks], [loadTransactions] of it is empty and its summary
    is zero.  [getTransactionCount], which does not look at [deleted], still
    counts its transactions. *)
Theorem deleteBook_hides_book_but_count_stays :
  forall (userId : string) (bookId : Z) (w : World G),
    exists w1 l,
      DatabaseService.deleteBook userId bookId w = (inl tt, w1)
      /\ listBooks userId w1 = (inl l, w1)
      /\ (forall b, In b l -> b_id b <> bookId)
      /\ loadTransactions userId bookId w1 = (inl [], w1)
      /\ getTransactionSummary userId bookId w1 = (inl (mkSummary 0 0 0), w1)
      /\ fst (getTransactionCount userId bookId w1)
         = fst (getTransactionCount userId bookId w).
Proof.
  intros userId bookId w.
  unfold DatabaseService.deleteBook, DatabaseService.retry_twice. run.
  cbn [fst snd db set_db books set_books transactions set_transactions].
  eexists. eexists. split; [reflexivity |].
  unfold listBooks, loadTransactions, getTransactionSummary,
    getTransactionCount, openUserDB. run.
  cbn [fst snd db set_ticks record set_db books transactions set_books
       set_transactions update_where rows].
  assert (forall x : TxRow,
            (fun t => DatabaseService.of_book bookId t && (t_deleted t =? 0))
              (if DatabaseService.of_book bookId x
               then set_t_updated_at (Some (clock w (ticks w)))
                      (set_t_synced 0 (set_t_deleted 1 x))
               else x) = false) as Hdead.
  { intros x. cbv beta.
    destruct (DatabaseService.of_book bookId x) eqn:Hx.
    - unfold DatabaseService.of_book in *. simpl. rewrite Hx. reflexivity.
    - now rewrite Hx. }
  split; [reflexivity |]. split; [| split; [| split]].
  - intros b Hb. apply order_by_in in Hb. apply filter_In in Hb.
    destruct Hb as [Hb Hlive]. apply in_map_iff in Hb.
    destruct Hb as (z & <- & Hz). unfold has_id in *.
    destruct (row_id z =? bookId) eqn:Hzi.
    + discriminate Hlive.
    + now apply Z.eqb_neq in Hzi.
  - rewrite (filter_map_nil _ _ _ Hdead). reflexivity.
  - rewrite (filter_map_nil _ _ _ Hdead). cbn [sum_of_type fst snd].
    rewrite real_minus_0_0. reflexivity.
  - do 2 f_equal. apply filter_map_length. intros x.
    destruct (DatabaseService.of_book bookId x) eqn:Hx; [| exact Hx].
    unfold DatabaseService.of_book in *. simpl. exact Hx.
Qed.

Lemma retryable_fk :
  DatabaseService.retryable (SqliteError "FOREIGN KEY constraint failed")
  = false.
Proof. vm_compute. reflexivity. Qed.

Lemma fk_ok_missing (d : DB) (bookId : Z) :
  foreign_keys d = true ->
  (forall b, In b (rows (books d)) -> b_id b <> bookId) ->
  fk_ok d (LocalRef bookId) = false.
Proof.
  intros Hfk Hno. unfold fk_ok. rewrite Hfk. simpl.
  destruct (existsb (has_id bookId) (rows (books d))) eqn:He;
    [| reflexivity].
  apply existsb_exists in He. destruct He as (b & Hb & Hid).
  apply has_id_true in Hid. now contradiction (Hno b Hb).
Qed.

Lemma fk_ok_present (d : DB) (bookId : Z) (b : BookRow) :
  In b (rows (books d)) -> b_id b = bookId ->
  fk_ok d (LocalRef bookId) = true.
Proof.
  intros Hb Hid. unfold fk_ok. apply orb_true_iff. right.
  apply existsb_exists. exists b. split; [exact Hb |].
  now apply has_id_true.
Qed.

(** X6.  [addTransaction] with foreign keys enforced: for a book that is not
    in the table the insert is rejected, the error is thrown and the
    database is as before; for a book that is there, one row is appended
    under a rowid no transaction has, dirty, with the note and the category
    stored as empty strings when they were left out. *)
Theorem addTransaction_needs_its_book :
  forall (userId : string) (bookId : Z) (type : string) (amount : Z)
         (note category : option string) (w : World G),
    (foreign_keys (db w) = true ->
     (forall b, In b (rows (books (db w))) -> b_id b <> bookId) ->
     exists w1,
       DatabaseService.addTransaction userId bookId type amount note
         category w
       = (inr (SqliteError "FOREIGN KEY constraint failed"), w1)
       /\ db w1 = db w)
    /\ (forall b, In b (rows (books (db w))) -> b_id b = bookId ->
        exists tx w1,
          DatabaseService.addTransaction userId bookId type amount note
            category w
          = (inl tx, w1)
          /\ ~ In (DatabaseService.tx_id tx)
                (map t_id (rows (transactions (db w))))
          /\ rows (transactions (db w1))
             = (rows (transactions (db w))
                ++ [mkTx (DatabaseService.tx_id tx) (LocalRef bookId) type
                      amount
                      (Some (match note with Some n => n | None => "" end))
                      (Some (match category with
                             | Some c => c
                             | None => ""
                             end))
                      (clock w (ticks w)) None 0 None 1 0])%list
          /\ books (db w1) = books (db w)).
Proof.
  intros userId bookId type amount note category w. split.
  - intros Hfk Hno. pose proof (fk_ok_missing _ _ Hfk Hno) as Hbad.
    unfold DatabaseService.addTransaction, DatabaseService.retry_twice.
    unfold transactions_insert_ref. run.
    cbn [db set_ticks]. rewrite Hbad. cbn [negb].
    rewrite retryable_fk. eexists. split; reflexivity.
  - intros b Hb Hid. pose proof (fk_ok_present _ _ _ Hb Hid) as Hok.
    unfold DatabaseService.addTransaction, DatabaseService.retry_twice.
    unfold transactions_insert_ref. run.
    cbn [db set_ticks]. rewrite Hok. cbn [negb].
    eexists. eexists. split; [reflexivity |].
    cbn [DatabaseService.tx_id db set_db record set_ticks transactions
         set_transactions books insert rows seq].
    split; [| split; reflexivity].
    intros Hin. apply in_map_iff in Hin. destruct Hin as (y & Hy & Hin).
    pose proof (next_rowid_fresh (transactions (db w)) y Hin) as Hlt.
    change (row_id y) with (t_id y) in Hlt. lia.
Qed.

(** [addTransaction] in one book leaves the summary of every other book
    as it was: the income, the expense and the balance that
    [getTransactionSummary] returns for another book are the same before
    and after the call, whatever the arithmetic of the sums is. *)
Lemma addTransaction_keeps_other_summaries :
  forall (userId : string) (bookId other : Z) (type : string) (amount : Z)
         (note category : option string) (w w1 : World G)
         (tx : DatabaseService.Transaction),
    other <> bookId ->
    DatabaseService.addTransaction userId bookId type amount note category w
    = (inl tx, w1) ->
    fst (getTransactionSummary userId other w1)
    = fst (getTransactionSummary userId other w).
Proof.
  intros userId bookId other type amount note category w w1 tx Hne.
  unfold DatabaseService.addTransaction, DatabaseService.retry_twice.
  unfold transactions_insert_ref. run. cbn [db set_ticks].
  destruct (fk_ok (db w) (LocalRef bookId)); cbn [negb].
  - intros Hr. injection Hr as <- <-.
    unfold getTransactionSummary, openUserDB. run.
    cbn [fst snd db set_db record set_ticks transactions set_transactions
         insert rows].
    rewrite filter_app_one.
    cbn [DatabaseService.of_book t_book_id t_deleted].
    assert ((bookId =? other) = false) as Hb
      by (apply Z.eqb_neq; congruence).
    rewrite Hb. cbn [andb]. rewrite app_nil_r. reflexivity.
  - rewrite retryable_fk. discriminate.
Qed.

(** X8.  [updateTransaction] writes the four fields, the time of the call
    and the dirty mark into the row with the given rowid and resolves to the
    row as read back; when no row has that rowid the database is unchanged
    and the call resolves to null. *)
Theorem updateTransaction_returns_row_read_back :
  forall (userId : string) (transactionId : Z) (type : string) (amount : Z)
         (note category : option string) (w : World G),
    let written :=
      option_map
        (fun x =>
           set_t_synced 0
             (set_t_updated_at (Some (clock w (ticks w)))
                (set_t_category
                   (Some (match category with Some c => c | None => "" end))
                   (set_t_note
                      (Some (match note with Some n => n | None => "" end))
                      (set_t_amount amount (set_t_type type x))))))
        (first_by_id transactionId (transactions (db w))) in
    exists w1,
      DatabaseService.updateTransaction userId transactionId type amount
        note category w
      = (inl written, w1)
      /\ first_by_id transactionId (transactions (db w1)) = written
      /\ (forall x, In x (rows (transactions (db w))) ->
            t_id x <> transactionId -> In x (rows (transactions (db w1))))
      /\ books (db w1) = books (db w)
      /\ (first_by_id transactionId (transactions (db w)) = None ->
          db w1 = db w).
Proof.
  intros userId transactionId type amount note category w. cbv zeta.
  unfold DatabaseService.updateTransaction, DatabaseService.retry_twice. run.
  cbn [fst snd db set_db record set_ticks transactions set_transactions
       books].
  rewrite find_update_where by (intros y; reflexivity).
  eexists. split; [reflexivity |].
  cbn [fst snd db set_db record set_ticks transactions set_transactions
       books].
  split; [apply find_update_where; intros y; reflexivity |].
  split; [| split; [reflexivity |]].
  - intros x Hx Hne. now apply in_update_other.
  - intros Hnone. rewrite update_where_none.
    + apply set_transactions_same.
    + now apply first_by_id_none.
Qed.

(** X9.  Soft delete of a transaction: its row stays in the table, flagged
    deleted and dirty, so [getTransactionCount] is what it was for every
    book, while no [loadTransactions] returns a row with that rowid. *)
Theorem deleteTransaction_hides_row_but_count_stays :
  forall (userId : string) (transactionId : Z) (w : World G),
    exists w1,
      DatabaseService.deleteTransaction userId transactionId w = (inl tt, w1)
      /\ first_by_id transactionId (transactions (db w1))
         = option_map
             (fun x => set_t_updated_at (Some (clock w (ticks w)))
                         (set_t_synced 0 (set_t_deleted 1 x)))
             (first_by_id transactionId (transactions (db w)))
      /\ (forall x, In x (rows (transactions (db w))) ->
            t_id x <> transactionId -> In x (rows (transactions (db w1))))
      /\ (forall bookId,
            fst (getTransactionCount userId bookId w1)
            = fst (getTransactionCount userId bookId w))
      /\ (forall bookId x,
            In x (match fst (loadTransactions userId bookId w1) with
                  | inl l => l
                  | inr _ => []
                  end) ->
            t_id x <> transactionId).
Proof.
  intros userId transactionId w.
  unfold DatabaseService.deleteTransaction. run.
  cbn [fst snd db set_db record set_ticks transactions set_transactions].
  eexists. split; [reflexivity |].
  unfold getTransactionCount, loadTransactions, openUserDB. run.
  cbn [fst snd db set_db record set_ticks transactions set_transactions].
  split; [| split; [| split]].
  - apply find_update_where. intros y. reflexivity.
  - intros x Hx Hne. now apply in_update_other.
  - intros bookId. do 2 f_equal. cbn [update_where rows].
    apply filter_map_length. intros x.
    destruct (has_id transactionId x); reflexivity.
  - intros bookId x Hx. apply order_by_in in Hx. apply filter_In in Hx.
    destruct Hx as [Hx Hlive]. cbn [update_where rows] in Hx.
    apply in_map_iff in Hx. destruct Hx as (z & <- & Hz).
    unfold has_id in *. destruct (row_id z =? transactionId) eqn:Hzi.
    + apply andb_true_iff in Hlive. destruct Hlive as [_ Hl].
      discriminate Hl.
    + now apply Z.eqb_neq in Hzi.
Qed.

End WritePathFacts.

Section WritePathExamples.

Import LocalStore Remote Eff Obs Sql DatabaseReads Examples Samples.

(** [addTransaction] on the sample store, where foreign keys are enforced
    and the only book has rowid 1: refused for book 7, stored for book 1. *)
Lemma addTransaction_needs_its_book_witness :
  (exists w1,
     DatabaseService.addTransaction user 7 "expense" 5 None None fresh_world
     = (inr (SqliteError "FOREIGN KEY constraint failed"), w1)
     /\ db w1 = db fresh_world)
  /\ (exists tx w1,
        DatabaseService.addTransaction user 1 "expense" 5 None None
          fresh_world
        = (inl tx, w1)
        /\ ~ In (DatabaseService.tx_id tx)
              (map t_id (rows (transactions (db fresh_world))))
        /\ rows (transactions (db w1))
           = (rows (transactions (db fresh_world))
              ++ [mkTx (DatabaseService.tx_id tx) (LocalRef 1) "expense" 5
                    (Some "") (Some "") (clock fresh_world (ticks fresh_world))
                    None 0 None 1 0])%list
        /\ books (db w1) = books (db fresh_world)).
Proof.
  split.
  - apply (proj1 (addTransaction_needs_its_book user 7 "expense" 5 None None
                    fresh_world)).
    + reflexivity.
    + intros b [<- | []]. discriminate.
  - apply (proj2 (addTransaction_needs_its_book user 1 "expense" 5 None None
                    fresh_world) fresh_book).
    + left. reflexivity.
    + reflexivity.
Defined.

(** An income of 5 added to the first of two books: the summary of the
    second, computed with exact sums, is still income 700, expense 200,
    balance 500. *)
Lemma addTransaction_keeps_other_summaries_example :
  fst (getTransactionSummary (arith := exact_arith) user 2
         (snd (DatabaseService.addTransaction user 1 "income" 5 None None
                 two_books_world)))
  = fst (getTransactionSummary (arith := exact_arith) user 2 two_books_world)
  /\ fst (getTransactionSummary (arith := exact_arith) user 2 two_books_world)
     = inl (mkSummary 500 700 200).
Proof.
  split; [| vm_compute; reflexivity].
  apply (addTransaction_keeps_other_summaries (arith := exact_arith) user 1 2
           "income" 5 None None two_books_world _
           (DatabaseService.mkTxView 4 1 "income" 5 "" "" 1000 true)).
  - discriminate.
  - apply run_eq. vm_compute. reflexivity.
Defined.

End WritePathExamples.

(* ================================================================== *)
(** ** Preferences and the dirty marks *)
(* ================================================================== *)

Section PreferenceRoundTrip.

Import LocalStore Remote Eff Obs Sql DatabaseReads.

Context {G : Type}.

Lemma pref_update_keys (key : string) (v : Z) (ps : list (string * Z)) :
  map fst (pref_update key v ps) = map fst ps.
Proof.
  induction ps as [|[k x] rest IH]; simpl; [reflexivity |]. now rewrite IH.
Qed.

Lemma pref_get_none_keys (key : string) (ps : list (string * Z)) :
  pref_get key ps = None -> ~ In key (map fst ps).
Proof.
  induction ps as [|[k x] rest IH]; simpl; intros Hg; [tauto |].
  destruct (String.eqb_spec k key) as [-> | Hne]; [discriminate |].
  intros [Hk | Hin]; [contradiction | exact (IH Hg Hin)].
Qed.

Lemma pref_set_keys_nodup (key : string) (v : Z) (ps : list (string * Z)) :
  NoDup (map fst ps) -> NoDup (map fst (pref_set key v ps)).
Proof.
  intros Hnd. unfold pref_set. destruct (pref_get key ps) eqn:Hg.
  - now rewrite pref_update_keys.
  - rewrite map_app. simpl. apply NoDup_app.
    + exact Hnd.
    + constructor; [intros [] | constructor].
    + intros k Hk [<- | []]. exact (pref_get_none_keys _ _ Hg Hk).
Qed.

(** X10.  [setUserPreference] then [getUserPreference]: the value written is
    the value read, every other key reads as before, the keys stay unique
    and the two record tables are not touched. *)
Theorem setUserPreference_then_get :
  forall (userId key : string) (v : Z) (w : World G),
    exists w1,
      DatabaseService.setUserPreference userId key v w = (inl tt, w1)
      /\ DatabaseService.getUserPreference userId key w1 = (inl (Some v), w1)
      /\ (forall k, k <> key ->
            fst (DatabaseService.getUserPreference userId k w1)
            = fst (DatabaseService.getUserPreference userId k w))
      /\ (NoDup (map fst (user_preferences (db w))) ->
          NoDup (map fst (user_preferences (db w1))))
      /\ books (db w1) = books (db w)
      /\ transactions (db w1) = transactions (db w).
Proof.
  intros userId key v w.
  unfold DatabaseService.setUserPreference, DatabaseService.getUserPreference.
  run. cbn [fst snd db set_db].
  eexists. split; [reflexivity |].
  cbn [fst snd db set_db record set_ticks user_preferences
       set_user_preferences books transactions].
  split; [| split; [| split; [| split; reflexivity]]].
  - now rewrite pref_get_set_same.
  - intros k Hne. f_equal. apply pref_get_set_other. congruence.
  - apply pref_set_keys_nodup.
Qed.

End PreferenceRoundTrip.

(* ================================================================== *)
(** ** The dirty marks and the badge *)
(* ================================================================== *)

Section DirtyMarkFacts.

Import LocalStore Remote Eff Obs Sql DatabaseReads Traffic.

Context {G : Type}.

(** X11.  [markBookAsDirty] raises [is_dirty] on the book, and that is all:
    the dirty set read by [getDirtyBooks] and selected by the push is
    decided by [synced] and [sync_id], so it holds the same books as before,
    and the badge shows the same count. *)
Theorem markBookAsDirty_leaves_dirty_set :
  forall (userId : string) (bookId : Z) (w : World G),
    exists w1,
      markBookAsDirty userId bookId w = (inl tt, w1)
      /\ (forall b, In b (rows (books (db w1))) -> b_id b = bookId ->
            b_is_dirty b = 1)
      /\ map b_id (value_or [] (fst (getDirtyBooks userId w1)))
         = map b_id (value_or [] (fst (getDirtyBooks userId w)))
      /\ map b_id (dirty_books (db w1)) = map b_id (dirty_books (db w))
      /\ (forall prev,
            fst (DirtyCount.refreshDirtyCount (Some userId) false prev w1)
            = fst (DirtyCount.refreshDirtyCount (Some userId) false prev w)).
Proof.
  intros userId bookId w. unfold markBookAsDirty, openUserDB. run.
  cbn [fst snd db set_db books set_books].
  eexists. split; [reflexivity |].
  set (g := fun r : BookRow =>
              if has_id bookId r then set_b_is_dirty 1 r else r).
  assert (forall x, book_unsynced (g x) = book_unsynced x) as Hu.
  { intros x. unfold g. destruct (has_id bookId x); reflexivity. }
  assert (forall a b, ASC b_created_at (g a) (g b) = ASC b_created_at a b)
    as Hle.
  { intros a b. unfold g, ASC.
    destruct (has_id bookId a), (has_id bookId b); reflexivity. }
  assert (forall l, map b_id (map g l) = map b_id l) as Hid.
  { intros l. rewrite map_map. apply map_ext. intros x. unfold g.
    destruct (has_id bookId x); reflexivity. }
  assert (order_by (ASC b_created_at)
            (filter book_unsynced (map g (rows (books (db w)))))
          = map g (order_by (ASC b_created_at)
                     (filter book_unsynced (rows (books (db w))))))
    as Hsort.
  { rewrite (filter_map_comm _ _ _ Hu). apply order_by_map. exact Hle. }
  split; [| split; [| split]].
  - intros b Hb Hbid.
    cbn [db set_db record books set_books update_where rows] in Hb.
    apply in_map_iff in Hb. destruct Hb as (z & <- & Hz).
    unfold has_id in *. destruct (row_id z =? bookId) eqn:Hzi.
    + reflexivity.
    + apply Z.eqb_neq in Hzi. now contradiction Hzi.
  - unfold getDirtyBooks, openUserDB. run.
    cbn [fst value_or db set_db record books set_books update_where rows].
    fold g. rewrite Hsort. apply Hid.
  - unfold dirty_books.
    cbn [db set_db record books set_books update_where rows]. fold g.
    rewrite (filter_map_comm _ _ _ Hu). apply Hid.
  - intros prev. unfold DirtyCount.refreshDirtyCount, getDirtyBooks,
      getDirtyTransactions, openUserDB. run.
    cbn [fst snd db set_db record books set_books transactions update_where
         rows].
    fold g. rewrite Hsort. rewrite length_map. reflexivity.
Qed.

(** X12.  [markTransactionAsDirty] puts the transaction with the given rowid
    in the dirty set: the row, stamped with the time of the call, is in the
    next [getDirtyTransactions]. *)
Theorem markTransactionAsDirty_enters_dirty_set :
  forall (userId : string) (transactionId : Z) (w : World G) (x : TxRow),
    In x (rows (transactions (db w))) -> t_id x = transactionId ->
    exists w1 l,
      markTransactionAsDirty userId transactionId w = (inl tt, w1)
      /\ getDirtyTransactions userId w1 = (inl l, w1)
      /\ In (set_t_synced 0
               (set_t_updated_at (Some (clock w (ticks w))) x)) l.
Proof.
  intros userId transactionId w x Hx Hid.
  unfold markTransactionAsDirty, getDirtyTransactions, openUserDB. run.
  cbn [fst snd db set_db transactions set_transactions].
  eexists. eexists. split; [reflexivity |]. split; [reflexivity |].
  apply order_by_in. apply filter_In. split; [| reflexivity].
  cbn [db set_db record set_ticks transactions set_transactions].
  apply in_update_where. exists x. split; [exact Hx |].
  unfold has_id. change (row_id x) with (t_id x). rewrite Hid, Z.eqb_refl.
  reflexivity.
Qed.

End DirtyMarkFacts.

Section DirtyMarkExamples.

Import LocalStore Remote Eff Obs Sql DatabaseReads Examples.

(** The sample transaction, marked dirty at the time of the call. *)
Lemma markTransactionAsDirty_witness :
  exists w1 l,
    markTransactionAsDirty user 1 (synced_world true 50 80 false [])
    = (inl tt, w1)
    /\ getDirtyTransactions user w1 = (inl l, w1)
    /\ In (set_t_synced 0
             (set_t_updated_at
                (Some (clock (synced_world true 50 80 false [])
                         (ticks (synced_world true 50 80 false []))))
                (local_tx 50))) l.
Proof.
  apply (markTransactionAsDirty_enters_dirty_set user 1
           (synced_world true 50 80 false []) (local_tx 50)).
  - left. reflexivity.
  - reflexivity.
Defined.

End DirtyMarkExamples.

(* ================================================================== *)
(** ** The CRUD helpers of [SyncService] *)
(* ================================================================== *)

Section SyncCrudFacts.

Import LocalStore Remote Eff Obs Sql DatabaseReads Traffic SyncServiceCrud.

Context {G : Type}.

(** X13.  [SyncService.addBook] appends one book under a rowid no book has,
    with [created_at] and [updated_at] both at the time of the call, and
    dirty: it is in the dirty set right away. *)
Theorem addBook_stamps_both_times :
  forall (userId name : string) (w : World G),
    exists w1 row,
      SyncService.addBook userId name w = (inl tt, w1)
      /\ rows (books (db w1)) = (rows (books (db w)) ++ [row])%list
      /\ ~ In (b_id row) (map b_id (rows (books (db w))))
      /\ b_name row = name
      /\ b_created_at row = clock w (ticks w)
      /\ b_updated_at row = Some (clock w (ticks w))
      /\ In row (dirty_books (db w1))
      /\ transactions (db w1) = transactions (db w).
Proof.
  intros userId name w. unfold SyncService.addBook, SyncService.openUserDB.
  run. cbn [fst snd db set_db books set_books].
  eexists. eexists. split; [reflexivity |].
  cbn [db set_db record set_ticks books set_books transactions insert rows].
  split; [reflexivity |].
  cbn [b_id b_name b_created_at b_updated_at].
  split; [| split; [reflexivity | split; [reflexivity | split;
    [reflexivity | split; [| reflexivity]]]]].
  - intros Hin. apply in_map_iff in Hin. destruct Hin as (y & Hy & Hin).
    pose proof (next_rowid_fresh (books (db w)) y Hin) as Hlt.
    change (row_id y) with (b_id y) in Hlt. lia.
  - unfold dirty_books.
    cbn [db set_db record set_ticks books set_books insert rows].
    rewrite filter_app_one. apply in_or_app. right. left. reflexivity.
Qed.

Lemma fold_max_bound (l : list Z) (a : Z) :
  (forall z, In z l -> z <= a) -> fold_right Z.max a l = a.
Proof.
  induction l as [|b l IH]; simpl; intros Hb; [reflexivity |].
  rewrite IH by (intros z Hz; apply Hb; now right).
  specialize (Hb b (or_introl eq_refl)). lia.
Qed.

Lemma next_rowid_delete {R : Type} `{RowLike R} (p : R -> bool)
  (t : Table R) :
  next_rowid (delete_where p t) = next_rowid t.
Proof.
  unfold delete_where. unfold next_rowid at 1. cbn [rows seq].
  rewrite fold_max_bound; [lia |].
  intros z Hz. apply in_map_iff in Hz. destruct Hz as (y & <- & Hy).
  apply filter_In in Hy. destruct Hy as [Hy _].
  pose proof (next_rowid_fresh t y Hy). lia.
Qed.

Lemma in_delete_where {R : Type} `{RowLike R} (p : R -> bool) (t : Table R)
  (y : R) :
  In y (rows (delete_where p t)) <-> In y (rows t) /\ p y = false.
Proof.
  unfold delete_where. cbn [rows]. rewrite filter_In.
  now rewrite negb_true_iff.
Qed.

Lemma deleteBook_books (userId : string) (id : Z) (w : World G) res w1 :
  deleteBook userId id w = (res, w1) ->
  forall b, In b (rows (books (db w1)))
            <-> In b (rows (books (db w))) /\ b_id b <> id.
Proof.
  unfold deleteBook, openUserDB, delete_book_cascade. run.
  assert (forall b : BookRow,
            has_id id b = false <-> b_id b <> id) as Hne.
  { intros b. unfold has_id. now rewrite Z.eqb_neq. }
  destruct (foreign_keys (db w) && existsb (has_id id) (rows (books (db w))));
    intros Hr; inv Hr; intros b;
    cbn [db set_db record books set_books transactions set_transactions];
    rewrite in_delete_where; now rewrite Hne.
Qed.

(** X14.  [SyncService.deleteBook] removes the row for good.  No book with
    that rowid is left and the other books stay; with foreign keys enforced
    the transactions of a book that was there go with it, otherwise the
    transactions table is untouched.  The rowid is not handed out again. *)
Theorem deleteBook_removes_row_and_cascades :
  forall (userId : string) (id : Z) (w : World G),
    exists w1,
      deleteBook userId id w = (inl tt, w1)
      /\ (forall b, In b (rows (books (db w1)))
                    <-> In b (rows (books (db w))) /\ b_id b <> id)
      /\ (foreign_keys (db w) = true ->
          (exists b, In b (rows (books (db w))) /\ b_id b = id) ->
          forall x, In x (rows (transactions (db w1)))
                    <-> In x (rows (transactions (db w)))
                        /\ t_book_id x <> LocalRef id)
      /\ (foreign_keys (db w) = false ->
          transactions (db w1) = transactions (db w))
      /\ next_rowid (books (db w1)) = next_rowid (books (db w)).
Proof.
  intros userId id w. unfold deleteBook, openUserDB, delete_book_cascade.
  run.
  assert (forall b : BookRow,
            has_id id b = false <-> b_id b <> id) as Hne.
  { intros b. unfold has_id. now rewrite Z.eqb_neq. }
  destruct (foreign_keys (db w)) eqn:Hfk; cbn [andb].
  - destruct (existsb (has_id id) (rows (books (db w)))) eqn:Hex.
    + eexists. split; [reflexivity |].
      cbn [db set_db record books set_books transactions set_transactions].
      split; [| split; [| split; [discriminate |]]].
      * intros b. rewrite in_delete_where. now rewrite Hne.
      * intros _ _ x. rewrite in_delete_where.
        cbn [transactions set_books].
        assert (DatabaseService.of_book id x = false
                <-> t_book_id x <> LocalRef id) as ->; [| reflexivity].
        rewrite <- of_book_local.
        destruct (DatabaseService.of_book id x); split; congruence.
      * apply next_rowid_delete.
    + eexists. split; [reflexivity |].
      cbn [db set_db record books set_books transactions set_transactions].
      split; [| split; [| split; [discriminate |]]].
      * intros b. rewrite in_delete_where. now rewrite Hne.
      * intros _ (b & Hb & Hid). exfalso.
        assert (existsb (has_id id) (rows (books (db w))) = true) as Ht.
        { apply existsb_exists. exists b. split; [exact Hb |].
          now apply has_id_true. }
        congruence.
      * apply next_rowid_delete.
  - eexists. split; [reflexivity |].
    cbn [db set_db record books set_books transactions set_transactions].
    split; [| split; [discriminate | split; [reflexivity |]]].
    + intros b. rewrite in_delete_where. now rewrite Hne.
    + apply next_rowid_delete.
Qed.

(** X15.  The resets: every book ends dirty and without a remote identifier,
    so [getDirtyBooks] and [getUnsyncedBooks] return the whole table;
    nothing else of a row changes, and the transactions are not touched.
    The same holds for [resetTransactionSyncStatus] on the transactions. *)
Theorem resetSyncStatus_makes_every_row_dirty :
  forall (userId : string) (w : World G),
    (exists w1,
       resetBookSyncStatus userId w = (inl tt, w1)
       /\ rows (books (db w1))
          = map (fun b => set_b_sync_id None (set_b_synced 0 b))
              (rows (books (db w)))
       /\ Permutation (value_or [] (fst (getDirtyBooks userId w1)))
            (rows (books (db w1)))
       /\ Permutation (value_or [] (fst (getUnsyncedBooks userId w1)))
            (rows (books (db w1)))
       /\ transactions (db w1) = transactions (db w))
    /\ (exists w1,
          resetTransactionSyncStatus userId w = (inl tt, w1)
          /\ rows (transactions (db w1))
             = map (fun x => set_t_sync_id None (set_t_synced 0 x))
                 (rows (transactions (db w)))
          /\ Permutation (value_or [] (fst (getDirtyTransactions userId w1)))
               (rows (transactions (db w1)))
          /\ Permutation
               (value_or [] (fst (getUnsyncedTransactions userId w1)))
               (rows (transactions (db w1)))
          /\ books (db w1) = books (db w)).
Proof.
  intros userId w.
  assert (forall (A : Type) (p : A -> bool) (g : A -> A) (l : list A),
            (forall x, p (g x) = true) -> filter p (map g l) = map g l)
    as Hall.
  { intros A p g l Hp. induction l as [|x l IH]; simpl; [reflexivity |].
    now rewrite Hp, IH. }
  split.
  - unfold resetBookSyncStatus, openUserDB. run.
    eexists. split; [reflexivity |].
    unfold getDirtyBooks, getUnsyncedBooks, DatabaseReads.openUserDB. run.
    cbn [fst value_or db set_db record books set_books transactions
         update_where rows].
    split; [reflexivity |]. split; [| split; [| reflexivity]].
    + rewrite Hall by (intros x; reflexivity).
      apply Permutation_sym, order_by_perm.
    + rewrite Hall by (intros x; reflexivity).
      apply Permutation_sym, order_by_perm.
  - unfold resetTransactionSyncStatus, openUserDB. run.
    eexists. split; [reflexivity |].
    unfold getDirtyTransactions, getUnsyncedTransactions,
      DatabaseReads.openUserDB. run.
    cbn [fst value_or db set_db record books set_transactions transactions
         update_where rows].
    split; [reflexivity |]. split; [| split; [| reflexivity]].
    + rewrite Hall by (intros x; reflexivity).
      apply Permutation_sym, order_by_perm.
    + rewrite Hall by (intros x; reflexivity).
      apply Permutation_sym, order_by_perm.
Qed.

End SyncCrudFacts.

Section SyncCrudExamples.

Import LocalStore Remote Eff Obs Sql DatabaseReads Traffic SyncServiceCrud
  Examples.

(** The sample book is removed from the sample store, where foreign keys
    are enforced: its transaction goes with it. *)
Lemma deleteBook_removes_row_witness :
  rows (transactions
          (db (snd (deleteBook user 1 (synced_world true 50 80 false [])))))
  = [].
Proof.
  destruct (deleteBook_removes_row_and_cascades user 1
              (synced_world true 50 80 false []))
    as (w1 & Hrun & _ & Hcascade & _).
  assert (snd (deleteBook user 1 (synced_world true 50 80 false [])) = w1)
    as -> by (rewrite Hrun; reflexivity).
  specialize (Hcascade eq_refl
                (ex_intro _ (local_book 50)
                   (conj (or_introl eq_refl) eq_refl))).
  destruct (rows (transactions (db w1))) as [| x l]; [reflexivity |].
  destruct (proj1 (Hcascade x) (or_introl eq_refl)) as [[<- | []] Hne].
  now contradiction Hne.
Defined.

End SyncCrudExamples.

(* ================================================================== *)
(** ** What a push sends *)
(* ================================================================== *)

Section PushScopeFacts.

Import LocalStore Remote Eff Obs Sql DatabaseReads Traffic SyncService.

Context {G : Type}.

Lemma logext_weaken (ok ok' : Event -> bool) (w w' : World G) :
  (forall e, ok e = true -> ok' e = true) ->
  LogExt ok w w' -> LogExt ok' w w'.
Proof.
  intros Himp (new & Hl & Hall). exists new. split; [exact Hl |].
  rewrite forallb_forall in *. intros e He. exact (Himp e (Hall e He)).
Qed.

Lemma logext_events (ok : Event -> bool) (w w' : World G) (new : list Event) :
  log w' = (log w ++ new)%list -> forallb ok new = true -> LogExt ok w w'.
Proof. intros Hl Hall. now exists new. Qed.

Lemma push_book_scope (d0 : DB) userId supabase (b : BookRow) (w : World G)
  res w' :
  In b (dirty_books d0) ->
  push_book userId supabase b w = (res, w') ->
  LogExt (within_dirty d0) w w'.
Proof.
  intros Hb.
  assert (existsb (has_id (b_id b)) (dirty_books d0) = true) as Hid.
  { apply existsb_exists. exists b. split; [exact Hb |].
    unfold has_id. apply Z.eqb_refl. }
  assert (existsb (fun y => String.eqb (b_name y) (b_name b)) (dirty_books d0)
          = true) as Hname.
  { apply existsb_exists. exists b. split; [exact Hb |].
    apply String.eqb_refl. }
  unfold push_book, generateSyncId. stmts.
  repeat break_match; intros Hr; inv Hr;
    first
      [ apply logext_same; reflexivity
      | eapply logext_events;
        [ simpl; rewrite <- ?app_assoc; reflexivity
        | cbn [app forallb within_dirty]; rewrite ?Hid, ?Hname;
          reflexivity ] ].
Qed.

Lemma push_transaction_scope (d0 : DB) userId supabase
  (row : TxRow * option string) (w : World G) res w' :
  In (fst row) (dirty_transactions d0) ->
  push_transaction userId supabase row w = (res, w') ->
  LogExt (within_dirty d0) w w'.
Proof.
  destruct row as [tx bs]. cbn [fst]. intros Hx.
  assert (existsb (has_id (t_id tx)) (dirty_transactions d0) = true) as Hid.
  { apply existsb_exists. exists tx. split; [exact Hx |].
    unfold has_id. apply Z.eqb_refl. }
  unfold push_transaction, generateSyncId. stmts.
  repeat break_match; intros Hr; inv Hr;
    first
      [ apply logext_same; reflexivity
      | eapply logext_events;
        [ simpl; rewrite <- ?app_assoc; reflexivity
        | cbn [app forallb within_dirty]; rewrite ?Hid; reflexivity ] ].
Qed.

Lemma push_books_scope userId supabase (w : World G) res w' :
  push_books userId supabase w = (res, w') ->
  LogExt (within_dirty (db w)) w w'.
Proof.
  unfold push_books. run. intros Hr.
  apply (forM_inv (fun v => LogExt (within_dirty (db w)) w v) _ _)
    with (w := w) (r := res) (w' := w') in Hr.
  - exact Hr.
  - intros b Hb v r v1 Hv Hstep.
    exact (logext_trans _ _ _ _ Hv
             (push_book_scope (db w) _ _ b _ _ _ Hb Hstep)).
  - apply logext_refl.
Qed.

Lemma push_transactions_scope (d0 : DB) userId supabase (w : World G)
  res w' :
  transactions (db w) = transactions d0 ->
  push_transactions userId supabase w = (res, w') ->
  LogExt (within_dirty d0) w w'.
Proof.
  intros Hsame. unfold push_transactions. run. intros Hr.
  apply (forM_inv (fun v => LogExt (within_dirty d0) w v) _ _)
    with (w := w) (r := res) (w' := w') in Hr.
  - exact Hr.
  - intros row Hrow v r v1 Hv Hstep.
    apply (logext_trans _ _ _ _ Hv).
    apply (push_transaction_scope d0 userId supabase row v r v1);
      [| exact Hstep].
    unfold joined_transactions in Hrow. apply in_map_iff in Hrow.
    destruct Hrow as (t & <- & Ht). cbn [fst]. unfold dirty_transactions.
    now rewrite <- Hsame.
  - apply logext_refl.
Qed.

Lemma push_cursors_scope (d0 : DB) userId (w : World G) res w' :
  push_cursors userId w = (res, w') -> LogExt (within_dirty d0) w w'.
Proof.
  unfold push_cursors, setUserPreference, DatabaseService.setUserPreference.
  stmts. intros Hr; inv Hr.
  eapply logext_events; [simpl; rewrite <- ?app_assoc; reflexivity |].
  reflexivity.
Qed.

Lemma pushToServer_scope userId supabase (w : World G) res w' :
  pushToServer userId supabase w = (res, w') ->
  LogExt (within_dirty (db w)) w w'.
Proof.
  unfold pushToServer. unfold openUserDB at 1.
  unfold DatabaseService.openUserDB. intros Hr. unfold bind at 1 in Hr.
  unfold ret at 1 in Hr.
  bind_cases Hr a w1 H1;
    pose proof (push_books_scope _ _ _ _ _ H1) as L1; [| exact L1].
  destruct (push_books_frame _ _ _ _ _ H1) as (F1 & _).
  unfold same_transactions in F1.
  bind_cases Hr b w2 H2;
    pose proof (push_transactions_scope (db w) _ _ _ _ _ F1 H2) as L2;
    [| exact (logext_trans _ _ _ _ L1 L2)].
  pose proof (push_cursors_scope (db w) _ _ _ _ Hr) as L3.
  exact (logext_trans _ _ _ _ (logext_trans _ _ _ _ L1 L2) L3).
Qed.

Lemma dirty_book_of_request (d : DB) (j : Z) :
  existsb (has_id j) (dirty_books d) = true ->
  exists y, In y (rows (books d)) /\ b_id y = j /\ book_unsynced y = true.
Proof.
  intros He. apply existsb_exists in He. destruct He as (y & Hy & Hid).
  apply filter_In in Hy. destruct Hy as [Hy Hd].
  exists y. split; [exact Hy |]. split; [| exact Hd].
  unfold has_id in Hid. now apply Z.eqb_eq in Hid.
Qed.

Lemma dirty_tx_of_request (d : DB) (j : Z) :
  existsb (has_id j) (dirty_transactions d) = true ->
  exists y, In y (rows (transactions d)) /\ t_id y = j
            /\ tx_unsynced y = true.
Proof.
  intros He. apply existsb_exists in He. destruct He as (y & Hy & Hid).
  apply filter_In in Hy. destruct Hy as [Hy Hd].
  exists y. split; [exact Hy |]. split; [| exact Hd].
  unfold has_id in Hid. now apply Z.eqb_eq in Hid.
Qed.

(** X16.  A push reads nothing from the remote, and every request it sends
    was built from a row that was dirty when the push started.  So a book or
    a transaction that is clean at that time (pushed before and not edited
    since) is not sent. *)
Theorem pushToServer_sends_only_dirty_rows :
  forall (userId : string) (supabase : Gateway G) (w w' : World G)
         (res : unit + Exn),
    pushToServer userId supabase w = (res, w') ->
    LogExt (within_dirty (db w)) w w'
    /\ (forall b, NoDup (map b_id (rows (books (db w)))) ->
          In b (rows (books (db w))) -> book_unsynced b = false ->
          LogExt (no_book_request_for (b_id b)) w w')
    /\ (forall x, NoDup (map t_id (rows (transactions (db w)))) ->
          In x (rows (transactions (db w))) -> tx_unsynced x = false ->
          LogExt (no_tx_request_for (t_id x)) w w').
Proof.
  intros userId supabase w w' res Hrun.
  pose proof (pushToServer_scope _ _ _ _ _ Hrun) as Hscope.
  split; [exact Hscope |]. split.
  - intros b Hnd Hb Hclean. apply (logext_weaken _ _ _ _) with (2 := Hscope).
    intros e He. destruct e; try reflexivity; cbn [within_dirty] in He;
      cbn [no_book_request_for]; apply negb_true_iff, Z.eqb_neq; intros ->;
      destruct (dirty_book_of_request _ _ He) as (y & Hy & Hid & Hd);
      assert (y = b) as -> by
        (now apply (NoDup_map_inj b_id (rows (books (db w)))));
      congruence.
  - intros x Hnd Hx Hclean. apply (logext_weaken _ _ _ _) with (2 := Hscope).
    intros e He. destruct e; try reflexivity; cbn [within_dirty] in He;
      unfold no_tx_request_for; cbn [tx_request_for];
      apply negb_true_iff, Z.eqb_neq; intros ->;
      destruct (dirty_tx_of_request _ _ He) as (y & Hy & Hid & Hd);
      assert (y = x) as -> by
        (now apply (NoDup_map_inj t_id (rows (transactions (db w)))));
      congruence.
Qed.

Lemma length_zero_nil {A : Type} (l : list A) :
  Z.of_nat (List.length l) = 0 -> l = [].
Proof. destruct l; [reflexivity |]. simpl. lia. Qed.

(** X17.  When the badge of pending changes shows zero, a push has nothing
    to send: it returns normally, sends no request, leaves the two record
    tables and the remote as they are, and only writes the cursors. *)
Theorem zero_badge_push_is_silent :
  forall (userId : string) (supabase : Gateway G)
         (prev c : DirtyCount.DirtyCount) (w w' : World G)
         (res : unit + Exn),
    DirtyCount.refreshDirtyCount (Some userId) false prev w = (inl c, w) ->
    DirtyCount.total c = 0 ->
    pushToServer userId supabase w = (res, w') ->
    res = inl tt
    /\ LogExt local_only w w'
    /\ books (db w') = books (db w)
    /\ transactions (db w') = transactions (db w)
    /\ remote w' = remote w.
Proof.
  intros userId supabase prev c w w' res Hcount Hzero.
  unfold DirtyCount.refreshDirtyCount, getDirtyBooks, getDirtyTransactions,
    DatabaseReads.openUserDB in Hcount. run.
  injection Hcount as <-. cbn [DirtyCount.total] in Hzero.
  rewrite !order_by_length in Hzero.
  assert (filter book_unsynced (rows (books (db w))) = []) as Hb
    by (apply length_zero_nil; lia).
  assert (filter tx_unsynced (rows (transactions (db w))) = []) as Ht
    by (apply length_zero_nil; lia).
  unfold pushToServer, push_books, push_transactions, joined_transactions,
    push_cursors, setUserPreference, DatabaseService.setUserPreference,
    openUserDB.
  run. rewrite Hb. cbn [forM_]. run. rewrite Ht. cbn [map forM_]. run.
  intros Hr. injection Hr as <- <-.
  split; [reflexivity |]. split; [| split; [| split]]; try reflexivity.
  eapply logext_events; [simpl; rewrite <- ?app_assoc; reflexivity |].
  reflexivity.
Qed.

(** X18.  A book removed with [SyncService.deleteBook] is not reported to
    the remote: the push that follows builds no insert and no upsert from
    its rowid. *)
Theorem hard_deleted_book_is_never_pushed :
  forall (userId : string) (id : Z) (supabase : Gateway G)
         (w w1 w2 : World G) (res : unit + Exn),
    SyncServiceCrud.deleteBook userId id w = (inl tt, w1) ->
    pushToServer userId supabase w1 = (res, w2) ->
    LogExt (no_book_request_for id) w1 w2.
Proof.
  intros userId id supabase w w1 w2 res Hdel Hrun.
  pose proof (deleteBook_books userId id w _ _ Hdel) as Hrows.
  pose proof (pushToServer_scope _ _ _ _ _ Hrun) as Hscope.
  apply (logext_weaken _ _ _ _) with (2 := Hscope).
  intros e He. destruct e; try reflexivity; cbn [within_dirty] in He;
    cbn [no_book_request_for]; apply negb_true_iff, Z.eqb_neq; intros ->;
    destruct (dirty_book_of_request _ _ He) as (y & Hy & Hid & _);
    apply Hrows in Hy; destruct Hy as [_ Hne]; contradiction.
Qed.

End PushScopeFacts.

Section PushScopeExamples.

Import LocalStore Remote Eff Obs Sql DatabaseReads Traffic SyncService
  Examples.

(** The push of the store never synced sends only what is dirty there. *)
Lemma pushToServer_sends_only_dirty_rows_witness :
  LogExt (within_dirty (db fresh_world)) fresh_world
    (snd (pushToServer user pg fresh_world)).
Proof.
  exact (proj1 (pushToServer_sends_only_dirty_rows user pg fresh_world _ _
                  (run_eq_any _))).
Defined.

(** The store in step with the remote shows a badge of zero. *)
Lemma zero_badge_push_is_silent_witness :
  fst (pushToServer user pg (idle_world 100)) = inl tt
  /\ LogExt local_only (idle_world 100)
       (snd (pushToServer user pg (idle_world 100)))
  /\ books (db (snd (pushToServer user pg (idle_world 100))))
     = books (db (idle_world 100))
  /\ transactions (db (snd (pushToServer user pg (idle_world 100))))
     = transactions (db (idle_world 100))
  /\ remote (snd (pushToServer user pg (idle_world 100)))
     = remote (idle_world 100).
Proof.
  apply (zero_badge_push_is_silent user pg (DirtyCount.mkDirtyCount 0 0 0)
           (DirtyCount.mkDirtyCount 0 0 0) (idle_world 100)).
  - vm_compute. reflexivity.
  - reflexivity.
  - apply run_eq_any.
Defined.

(** The sample book, pushed before, is removed and a push follows. *)
Lemma hard_deleted_book_is_never_pushed_witness :
  LogExt (no_book_request_for 1)
    (snd (SyncServiceCrud.deleteBook user 1
            (synced_world true 50 80 false [])))
    (snd (pushToServer user pg
            (snd (SyncServiceCrud.deleteBook user 1
                    (synced_world true 50 80 false []))))).
Proof.
  apply (hard_deleted_book_is_never_pushed user 1 pg
           (synced_world true 50 80 false []) _ _
           (fst (pushToServer user pg
                   (snd (SyncServiceCrud.deleteBook user 1
                           (synced_world true 50 80 false [])))))).
  - apply run_eq. vm_compute. reflexivity.
  - apply run_eq_any.
Defined.

End PushScopeExamples.

(* ================================================================== *)
(** ** More on the pull *)
(* ================================================================== *)

Section PullEdgeFacts.

Import LocalStore Remote Eff Obs Sql Traffic SyncService.

Context {G : Type}.

(** X19.  A pull whose read of the books is answered with an error throws
    that error, having written nothing and sent no second request.  When the
    read of the books succeeds and the read of the transactions is answered
    with an error, the pull throws that error and the transactions table and
    the cursors are as before. *)
Theorem pullFromServer_failed_read :
  forall (userId : string) (supabase : Gateway G) (w : World G),
    (forall e,
        error (fst (books_answer supabase userId w)) = Some e ->
        exists w',
          pullFromServer userId supabase w = (inr (PgThrown e), w')
          /\ db w' = db w
          /\ log w'
             = (log w ++ [ReqSelectBooks userId (books_cursor (db w))])%list)
    /\ (forall e,
          error (fst (books_answer supabase userId w)) = None ->
          error (fst (transactions_answer supabase userId w)) = Some e ->
          exists w',
            pullFromServer userId supabase w = (inr (PgThrown e), w')
            /\ transactions (db w') = transactions (db w)
            /\ user_preferences (db w') = user_preferences (db w)).
Proof.
  intros userId supabase w. split.
  - intros e He. rewrite pullFromServer_run. cbv zeta. rewrite He.
    eexists. split; [reflexivity |]. split; reflexivity.
  - intros e Hb Ht. rewrite pullFromServer_run. cbv zeta. rewrite Hb.
    destruct (foldM pull_book _ _ _) as [res w1] eqn:Hl1.
    destruct (pull_books_frame _ _ _ _ _ Hl1)
      as (acc1 & -> & _ & _ & Ft & Fp & Frem).
    unfold transactions_answer in Ht. cbn [remote set_remote] in Frem.
    rewrite Frem, Ht. eexists. split; [reflexivity |].
    unfold same_transactions, same_prefs in *. cbn in Ft, Fp. cbn.
    split; assumption.
Qed.

End PullEdgeFacts.

Section PullEdgeExamples.

Import LocalStore Remote Eff Obs Sql Traffic SyncService Examples Samples.

(** The two failed reads on the sample store: the network down, and the
    transactions refused. *)
Lemma pullFromServer_failed_read_witness :
  (exists w',
     pullFromServer user offline fresh_world
     = (inr (PgThrown (mkPgError "Failed to fetch")), w')
     /\ db w' = db fresh_world
     /\ log w'
        = (log fresh_world
           ++ [ReqSelectBooks user (books_cursor (db fresh_world))])%list)
  /\ (exists w',
        pullFromServer user no_transactions fresh_world
        = (inr (PgThrown
                  (mkPgError "permission denied for table transactions")),
           w')
        /\ transactions (db w') = transactions (db fresh_world)
        /\ user_preferences (db w') = user_preferences (db fresh_world)).
Proof.
  split.
  - apply (proj1 (pullFromServer_failed_read user offline fresh_world)).
    reflexivity.
  - apply (proj2 (pullFromServer_failed_read user no_transactions
                    fresh_world)); reflexivity.
Defined.

End PullEdgeExamples.

Section AbsentFacts.

Import LocalStore Obs Lookup.

Context {R : Type} `{RowLike R}.

Lemma absent_iff (s : string) (t : Table R) :
  first_by_sync s t = None <-> Absent s t.
Proof.
  unfold first_by_sync, Absent. split.
  - intros Hf y Hy Hs. pose proof (find_none _ _ Hf y Hy) as Hn.
    apply has_sync_true in Hs. congruence.
  - intros Ha. destruct (find (has_sync s) (rows t)) as [y |] eqn:Hf;
      [| reflexivity].
    apply find_some in Hf. destruct Hf as [Hy Hs].
    apply has_sync_true in Hs. now contradiction (Ha y Hy).
Qed.

Lemma absent_update (s : string) (p : R -> bool) (f : R -> R) (t : Table R) :
  (forall y, row_sync (f y) = row_sync y) ->
  Absent s t -> Absent s (update_where p f t).
Proof.
  intros Hf Ha y Hy. apply in_update_where in Hy.
  destruct Hy as (z & Hz & ->).
  destruct (p z); [rewrite Hf |]; now apply Ha.
Qed.

Lemma absent_insert_or_replace (s s' : string) (mk : Z -> R) (t : Table R) :
  s' <> s -> (forall i, row_sync (mk i) = Some s') ->
  Absent s t -> Absent s (insert_or_replace s' mk t).
Proof.
  intros Hne Hmk Ha y Hy. unfold insert_or_replace in Hy. cbn [rows] in Hy.
  apply in_app_or in Hy. destruct Hy as [Hy | [<- | []]].
  - apply filter_In in Hy. destruct Hy as [Hy _]. now apply Ha.
  - rewrite Hmk. congruence.
Qed.

(** The row that INSERT OR REPLACE stores is the only one with its rowid
    and with its remote identifier. *)
Lemma pinned_new_row (s : string) (mk : Z -> R) (t : Table R) :
  (forall i, row_id (mk i) = i /\ row_sync (mk i) = Some s) ->
  Pinned s (mk (next_rowid t)) (insert_or_replace s mk t).
Proof.
  intros Hmk. destruct (Hmk (next_rowid t)) as [Hid Hs].
  unfold insert_or_replace. split; [| split; [exact Hs | split]].
  - cbn [rows]. apply in_or_app. right. now left.
  - cbn [rows]. intros y Hy Hyid. apply in_app_or in Hy.
    destruct Hy as [Hy | [<- | []]]; [| reflexivity].
    apply filter_In in Hy. destruct Hy as [Hy _].
    pose proof (next_rowid_fresh t y Hy). lia.
  - cbn [rows]. intros y Hy Hys. apply in_app_or in Hy.
    destruct Hy as [Hy | [<- | []]]; [| reflexivity].
    apply filter_In in Hy. destruct Hy as [_ Hn].
    apply negb_true_iff in Hn. apply has_sync_true in Hys. congruence.
Qed.

End AbsentFacts.

Section PullNewRows.

Import LocalStore Remote Eff Obs Sql Traffic SyncService Lookup.

Context {G : Type}.

Lemma pull_book_keeps_absent (s : string) acc (r : RBook) (w : World G)
  res w' :
  rb_id r <> s -> Absent s (books (db w)) ->
  pull_book acc r w = (res, w') -> Absent s (books (db w')).
Proof.
  intros Hne Ha. unfold pull_book. stmts.
  repeat break_match; intros Hr; inv Hr; cbn [db set_db record books
    set_books]; try exact Ha.
  - apply absent_update; [intros y; reflexivity | exact Ha].
  - apply absent_insert_or_replace;
      [exact Hne | intros i; reflexivity | exact Ha].
Qed.

Lemma pull_books_keep_absent (s : string) (batch : list RBook) acc
  (w : World G) res w' :
  (forall r, In r batch -> rb_id r <> s) ->
  Absent s (books (db w)) ->
  foldM pull_book batch acc w = (res, w') -> Absent s (books (db w')).
Proof.
  intros Hb Ha Hr.
  assert (match res with
          | inl _ => Absent s (books (db w'))
          | inr _ => Absent s (books (db w'))
          end) as HR.
  { apply (foldM_inv (fun _ v => Absent s (books (db v)))
             (fun v => Absent s (books (db v))) batch pull_book)
      with (acc := acc) (w := w); [| exact Ha | exact Hr].
    intros r Hin a v res1 v1 Hv Hstep.
    pose proof (pull_book_keeps_absent s a r v res1 v1 (Hb r Hin) Hv Hstep).
    now destruct res1. }
  now destruct res.
Qed.

Lemma pull_books_keep_pinned (s : string) (x : BookRow)
  (batch : list RBook) acc (w : World G) res w' :
  (forall r, In r batch -> rb_id r <> s) ->
  Pinned s x (books (db w)) ->
  foldM pull_book batch acc w = (res, w') -> Pinned s x (books (db w')).
Proof.
  intros Hb Ha Hr.
  assert (match res with
          | inl _ => Pinned s x (books (db w'))
          | inr _ => Pinned s x (books (db w'))
          end) as HR.
  { apply (foldM_inv (fun _ v => Pinned s x (books (db v)))
             (fun v => Pinned s x (books (db v))) batch pull_book)
      with (acc := acc) (w := w); [| exact Ha | exact Hr].
    intros r Hin a v res1 v1 Hv Hstep.
    pose proof (pull_book_other s x a r v res1 v1 (Hb r Hin) Hv Hstep).
    now destruct res1. }
  now destruct res.
Qed.

Lemma pull_book_new acc (r : RBook) (w : World G) res w' :
  Absent (rb_id r) (books (db w)) ->
  pull_book acc r w = (res, w') ->
  Pinned (rb_id r) (pulled_book r (next_rowid (books (db w))))
    (books (db w')).
Proof.
  intros Ha. apply absent_iff in Ha. unfold pull_book. stmts.
  rewrite Ha. intros Hr; inv Hr.
  cbn [db set_db record books set_books].
  apply (pinned_new_row (rb_id r) (pulled_book r)).
  intros i. split; reflexivity.
Qed.

Lemma pull_books_store_new (batch : list RBook) (r : RBook) (w : World G)
  res w' :
  NoDup (map rb_id batch) -> In r batch ->
  Absent (rb_id r) (books (db w)) ->
  foldM pull_book batch [] w = (res, w') ->
  exists i, Pinned (rb_id r) (pulled_book r i) (books (db w')).
Proof.
  intros Hnd Hin Ha Hr.
  destruct (in_split r batch Hin) as (l1 & l2 & ->).
  rewrite map_app in Hnd. simpl in Hnd.
  assert (forall r', In r' l1 -> rb_id r' <> rb_id r) as H1.
  { intros r' Hr' Heq. apply NoDup_remove_2 in Hnd. apply Hnd.
    apply in_or_app. left. rewrite <- Heq. now apply in_map. }
  assert (forall r', In r' l2 -> rb_id r' <> rb_id r) as H2.
  { intros r' Hr' Heq. apply NoDup_remove_2 in Hnd. apply Hnd.
    apply in_or_app. right. rewrite <- Heq. now apply in_map. }
  rewrite foldM_app in Hr. unfold bind at 1 in Hr.
  destruct (foldM pull_book l1 [] w) as [r1 w1] eqn:Hl1.
  pose proof (pull_books_keep_absent _ _ _ _ _ _ H1 Ha Hl1) as Ha1.
  destruct (pull_books_frame _ _ _ _ _ Hl1) as (a1 & -> & _).
  cbn [foldM] in Hr. unfold bind at 1 in Hr.
  destruct (pull_book a1 r w1) as [r2 w2] eqn:Hstep.
  pose proof (pull_book_new _ _ _ _ _ Ha1 Hstep) as HP2.
  exists (next_rowid (books (db w1))).
  destruct r2 as [a2 | e].
  - exact (pull_books_keep_pinned _ _ _ _ _ _ _ H2 HP2 Hr).
  - now inv Hr.
Qed.

(** X20.  A fetched remote book that no local row refers to is stored by the
    pull: when the pull returns, exactly one row carries its identifier,
    with the remote name and times, marked clean.  The remote [deleted] flag
    is not copied: the row is stored as not deleted. *)
Theorem pullFromServer_stores_unknown_book :
  forall (userId : string) (supabase : Gateway G) (w w' : World G)
         (pr : PullResult) (r : RBook),
    pullFromServer userId supabase w = (inl pr, w') ->
    NoDup (map rb_id (fetched_books supabase userId w)) ->
    In r (fetched_books supabase userId w) ->
    first_by_sync (rb_id r) (books (db w)) = None ->
    exists x,
      Pinned (rb_id r) x (books (db w'))
      /\ first_by_sync (rb_id r) (books (db w')) = Some x
      /\ b_name x = rb_name r
      /\ b_created_at x = rb_created_at r
      /\ b_updated_at x = Some (rb_updated_at r)
      /\ b_synced x = 1
      /\ b_deleted x = 0.
Proof.
  intros userId supabase w w' pr r Hrun Hnd Hin Hnone.
  apply absent_iff in Hnone.
  rewrite pullFromServer_run in Hrun. cbv zeta in Hrun.
  destruct (error (fst (books_answer supabase userId w))); [discriminate |].
  set (w0 := set_remote _ _) in Hrun.
  assert (Absent (rb_id r) (books (db w0))) as Ha0 by exact Hnone.
  destruct (foldM pull_book _ _ _) as [[acc1 | e] w1] eqn:Hl1;
    [| discriminate].
  destruct (pull_books_store_new _ r w0 _ _ Hnd Hin Ha0 Hl1) as (i & HP1).
  destruct (error _); [discriminate |].
  destruct (foldM pull_transaction _ _ _) as [[acc2 | e] w3] eqn:Hl2;
    [| discriminate].
  destruct (pull_transactions_frame _ _ _ _ _ Hl2) as (Fb & _).
  unfold same_books in Fb. cbn [db set_remote record] in Fb.
  injection Hrun as _ <-.
  assert (forall v : World G,
            books (db (if (0 <? Z.of_nat (List.length
                                          (fetched_books supabase userId w)))
                          || (0 <? Z.of_nat (List.length
                                (rows_or_empty (data (fst
                                   (transactions_select supabase userId
                                      (transactions_cursor (db w))
                                      (remote w1)))))))
                       then record (Emit "transactionsUpdated")
                              (record (Emit "booksUpdated") w3)
                       else w3)) = books (db w3)) as Hb.
  { intros _. now destruct (_ || _). }
  exists (pulled_book r i). rewrite (Hb w3), Fb.
  split; [exact HP1 |]. split; [now apply pinned_first_by_sync |].
  repeat split.
Qed.

End PullNewRows.

Section PullNewTransactions.

Import LocalStore Remote Eff Obs Sql Traffic SyncService Lookup.

Context {G : Type}.

Lemma pull_transaction_keeps_absent (s : string) acc (r : RTx) (w : World G)
  res w' :
  rt_id r <> s -> Absent s (transactions (db w)) ->
  pull_transaction acc r w = (res, w') -> Absent s (transactions (db w')).
Proof.
  intros Hne Ha. unfold pull_transaction. stmts.
  repeat break_match; intros Hr; inv Hr;
    cbn [db set_db record transactions set_transactions]; try exact Ha.
  - apply absent_update; [intros y; reflexivity | exact Ha].
  - apply absent_insert_or_replace;
      [exact Hne | intros i; reflexivity | exact Ha].
Qed.

Lemma pull_transactions_keep_absent (s : string) (batch : list RTx) acc
  (w : World G) res w' :
  (forall r, In r batch -> rt_id r <> s) ->
  Absent s (transactions (db w)) ->
  foldM pull_transaction batch acc w = (res, w') ->
  Absent s (transactions (db w')).
Proof.
  intros Hb Ha Hr.
  assert (match res with
          | inl _ => Absent s (transactions (db w'))
          | inr _ => Absent s (transactions (db w'))
          end) as HR.
  { apply (foldM_inv (fun _ v => Absent s (transactions (db v)))
             (fun v => Absent s (transactions (db v))) batch pull_transaction)
      with (acc := acc) (w := w); [| exact Ha | exact Hr].
    intros r Hin a v res1 v1 Hv Hstep.
    pose proof (pull_transaction_keeps_absent s a r v res1 v1 (Hb r Hin) Hv
                  Hstep).
    now destruct res1. }
  now destruct res.
Qed.

Lemma pull_transactions_keep_pinned (s : string) (x : TxRow)
  (batch : list RTx) acc (w : World G) res w' :
  (forall r, In r batch -> rt_id r <> s) ->
  Pinned s x (transactions (db w)) ->
  foldM pull_transaction batch acc w = (res, w') ->
  Pinned s x (transactions (db w')).
Proof.
  intros Hb Ha Hr.
  assert (match res with
          | inl _ => Pinned s x (transactions (db w'))
          | inr _ => Pinned s x (transactions (db w'))
          end) as HR.
  { apply (foldM_inv (fun _ v => Pinned s x (transactions (db v)))
             (fun v => Pinned s x (transactions (db v))) batch
             pull_transaction)
      with (acc := acc) (w := w); [| exact Ha | exact Hr].
    intros r Hin a v res1 v1 Hv Hstep.
    pose proof (pull_transaction_other s x a r v res1 v1 (Hb r Hin) Hv Hstep).
    now destruct res1. }
  now destruct res.
Qed.

(** One fetched transaction that no local row refers to: it is stored
    under the local book that carries its remote book identifier, or
    passed over when there is no such book. *)
Lemma pull_transaction_new acc (r : RTx) (w : World G) res w' :
  Absent (rt_id r) (transactions (db w)) ->
  pull_transaction acc r w = (res, w') ->
  books (db w') = books (db w)
  /\ match first_by_sync (rt_book_id r) (books (db w)) with
     | Some b =>
         Pinned (rt_id r)
           (pulled_tx r (b_id b) (next_rowid (transactions (db w))))
           (transactions (db w'))
     | None => Absent (rt_id r) (transactions (db w'))
     end.
Proof.
  intros Ha. pose proof Ha as Hn. apply absent_iff in Hn.
  unfold pull_transaction. stmts. rewrite Hn.
  destruct (first_by_sync (rt_book_id r) (books (db w))) as [b |] eqn:Hb.
  - apply first_by_sync_some in Hb. destruct Hb as [Hin _].
    rewrite (fk_ok_present _ _ b Hin eq_refl). cbn [negb].
    intros Hr; inv Hr. cbn [db set_db record transactions set_transactions
      books]. split; [reflexivity |].
    apply (pinned_new_row (rt_id r) (pulled_tx r (b_id b))).
    intros i. split; reflexivity.
  - intros Hr; inv Hr. split; [reflexivity | exact Ha].
Qed.

Lemma pull_transactions_store_new (batch : list RTx) (r : RTx) acc
  (w : World G) acc' w' :
  NoDup (map rt_id batch) -> In r batch ->
  Absent (rt_id r) (transactions (db w)) ->
  foldM pull_transaction batch acc w = (inl acc', w') ->
  match first_by_sync (rt_book_id r) (books (db w)) with
  | Some b =>
      exists i, Pinned (rt_id r) (pulled_tx r (b_id b) i)
                  (transactions (db w'))
  | None => Absent (rt_id r) (transactions (db w'))
  end.
Proof.
  intros Hnd Hin Ha Hr.
  destruct (in_split r batch Hin) as (l1 & l2 & ->).
  rewrite map_app in Hnd. simpl in Hnd.
  assert (forall r', In r' l1 -> rt_id r' <> rt_id r) as H1.
  { intros r' Hr' Heq. apply NoDup_remove_2 in Hnd. apply Hnd.
    apply in_or_app. left. rewrite <- Heq. now apply in_map. }
  assert (forall r', In r' l2 -> rt_id r' <> rt_id r) as H2.
  { intros r' Hr' Heq. apply NoDup_remove_2 in Hnd. apply Hnd.
    apply in_or_app. right. rewrite <- Heq. now apply in_map. }
  rewrite foldM_app in Hr. apply bind_ok_inv in Hr.
  destruct Hr as (a1 & w1 & Hl1 & Hr).
  pose proof (pull_transactions_keep_absent _ _ _ _ _ _ H1 Ha Hl1) as Ha1.
  destruct (pull_transactions_frame _ _ _ _ _ Hl1) as (Fb1 & _).
  unfold same_books in Fb1. rewrite <- Fb1.
  cbn [foldM] in Hr. apply bind_ok_inv in Hr.
  destruct Hr as (a2 & w2 & Hstep & Hr).
  destruct (pull_transaction_new _ _ _ _ _ Ha1 Hstep) as (Fb2 & Hnew).
  destruct (first_by_sync (rt_book_id r) (books (db w1))) as [b |].
  - exists (next_rowid (transactions (db w1))).
    exact (pull_transactions_keep_pinned _ _ _ _ _ _ _ H2 Hnew Hr).
  - exact (pull_transactions_keep_absent _ _ _ _ _ _ H2 Hnew Hr).
Qed.

(** X21.  A fetched remote transaction that no local row refers to follows
    its book.  When the pull returns: if a local book carries the remote
    book identifier, exactly one row carries the transaction's identifier,
    it belongs to that book and holds the remote values, marked clean; if no
    local book does, the transaction is not stored, though the pull reports
    new data. *)
Theorem pullFromServer_new_transaction_follows_its_book :
  forall (userId : string) (supabase : Gateway G) (w w' : World G)
         (pr : PullResult) (r : RTx),
    pullFromServer userId supabase w = (inl pr, w') ->
    NoDup (map rt_id (fetched_transactions supabase userId w)) ->
    In r (fetched_transactions supabase userId w) ->
    first_by_sync (rt_id r) (transactions (db w)) = None ->
    hasNewData pr = true
    /\ match first_by_sync (rt_book_id r) (books (db w')) with
       | Some b =>
           exists x,
             Pinned (rt_id r) x (transactions (db w'))
             /\ t_book_id x = LocalRef (b_id b)
             /\ t_type x = rt_type r /\ t_amount x = rt_amount r
             /\ t_note x = rt_note r /\ t_category x = rt_category r
             /\ t_created_at x = rt_created_at r
             /\ t_updated_at x = Some (rt_updated_at r)
             /\ t_synced x = 1
       | None => first_by_sync (rt_id r) (transactions (db w')) = None
       end.
Proof.
  intros userId supabase w w' pr r Hrun Hnd Hin Hnone.
  apply absent_iff in Hnone.
  rewrite pullFromServer_run in Hrun. cbv zeta in Hrun.
  unfold fetched_transactions, transactions_answer in Hnd, Hin.
  destruct (error (fst (books_answer supabase userId w))); [discriminate |].
  destruct (foldM pull_book _ _ _) as [[acc1 | e] w1] eqn:Hl1;
    [| discriminate].
  destruct (pull_books_frame _ _ _ _ _ Hl1) as (a & Ha & _ & _ & Ft & _ & Frem).
  injection Ha as <-. cbn [remote set_remote] in Frem. rewrite Frem in Hrun.
  destruct (error _); [discriminate |].
  set (w2 := set_remote _ _) in Hrun.
  assert (Absent (rt_id r) (transactions (db w2))) as Ha2.
  { unfold same_transactions in Ft. cbn in Ft. cbn. now rewrite Ft. }
  destruct (foldM pull_transaction _ _ _) as [[acc2 | e] w3] eqn:Hl2;
    [| discriminate].
  pose proof (pull_transactions_store_new _ r _ w2 _ _ Hnd Hin Ha2 Hl2)
    as Hnew.
  destruct (pull_transactions_frame _ _ _ _ _ Hl2) as (Fb & _).
  unfold same_books in Fb. rewrite <- Fb in Hnew.
  assert ((0 <? Z.of_nat
                  (List.length
                     (rows_or_empty
                        (data (fst (transactions_select supabase userId
                                      (transactions_cursor (db w))
                                      (snd (books_answer supabase userId
                                              w))))))))
          = true) as Hpos.
  { destruct (rows_or_empty _) as [| y l]; [contradiction |].
    apply Z.ltb_lt. cbn [List.length]. lia. }
  rewrite Hpos, orb_true_r in Hrun. injection Hrun as <- <-.
  cbn [hasNewData db record]. split; [reflexivity |].
  destruct (first_by_sync (rt_book_id r) (books (db w3))) as [b |].
  - destruct Hnew as (i & HP). exists (pulled_tx r (b_id b) i).
    split; [exact HP |]. repeat split.
  - now apply absent_iff.
Qed.

End PullNewTransactions.

Section PullNewExamples.

Import LocalStore Remote Eff Obs Sql Traffic SyncService Lookup Examples
  Samples.

(** A device with an empty store pulls the remote book "r1", which is
    deleted on the remote: it is stored, as not deleted. *)
Lemma pullFromServer_stores_unknown_book_witness :
  exists x,
    Pinned "r1" x
      (books (db (snd (pullFromServer user pg (new_device 80 true "r1")))))
    /\ first_by_sync "r1"
         (books (db (snd (pullFromServer user pg (new_device 80 true "r1")))))
       = Some x
    /\ b_name x = "Remote"
    /\ b_created_at x = 10
    /\ b_updated_at x = Some 80
    /\ b_synced x = 1
    /\ b_deleted x = 0.
Proof.
  assert (fst (pullFromServer user pg (new_device 80 true "r1"))
          = inl (mkPullResult true 1 1 [])) as Hfst
    by (vm_compute; reflexivity).
  apply (pullFromServer_stores_unknown_book user pg
           (new_device 80 true "r1") _ _
           (mkRBook "r1" user "Remote" 10 80 true) (run_eq _ _ Hfst)).
  - vm_compute. constructor; [intros [] | constructor].
  - vm_compute. left. reflexivity.
  - vm_compute. reflexivity.
Defined.

(** The same device pulls the transaction "t1": filed under the local copy
    of its book "r1"; and not stored when its book, "r9", is not in the
    store. *)
Lemma pullFromServer_new_transaction_witness :
  (exists x,
     Pinned "t1" x
       (transactions
          (db (snd (pullFromServer user pg (new_device 80 false "r1")))))
     /\ t_book_id x = LocalRef 1 /\ t_amount x = 7)
  /\ first_by_sync "t1"
       (transactions
          (db (snd (pullFromServer user pg (new_device 80 false "r9")))))
     = None.
Proof.
  assert (fst (pullFromServer user pg (new_device 80 false "r1"))
          = inl (mkPullResult true 1 1 [])) as Hfst1
    by (vm_compute; reflexivity).
  assert (fst (pullFromServer user pg (new_device 80 false "r9"))
          = inl (mkPullResult true 1 1 [])) as Hfst9
    by (vm_compute; reflexivity).
  split.
  - destruct (pullFromServer_new_transaction_follows_its_book user pg
                (new_device 80 false "r1") _ _
                (mkRTx "t1" user "r1" "income" 7 None (Some "salary") 10 80
                   false)
                (run_eq _ _ Hfst1)) as [_ H].
    + vm_compute. constructor; [intros [] | constructor].
    + vm_compute. left. reflexivity.
    + vm_compute. reflexivity.
    + assert (first_by_sync
                (rt_book_id
                   (mkRTx "t1" user "r1" "income" 7 None (Some "salary") 10
                      80 false))
                (books
                   (db (snd (pullFromServer user pg
                               (new_device 80 false "r1")))))
              = Some (pulled_book (mkRBook "r1" user "Remote" 10 80 false) 1))
        as E by (vm_compute; reflexivity).
      rewrite E in H. destruct H as (x & HP & Hb & _ & Ha & _).
      exists x. split; [exact HP |]. split; [exact Hb | exact Ha].
  - destruct (pullFromServer_new_transaction_follows_its_book user pg
                (new_device 80 false "r9") _ _
                (mkRTx "t1" user "r9" "income" 7 None (Some "salary") 10 80
                   false)
                (run_eq _ _ Hfst9)) as [_ H].
    + vm_compute. constructor; [intros [] | constructor].
    + vm_compute. left. reflexivity.
    + vm_compute. reflexivity.
    + assert (first_by_sync
                (rt_book_id
                   (mkRTx "t1" user "r9" "income" 7 None (Some "salary") 10
                      80 false))
                (books
                   (db (snd (pullFromServer user pg
                               (new_device 80 false "r9")))))
              = None) as E by (vm_compute; reflexivity).
      rewrite E in H. exact H.
Defined.

End PullNewExamples.

(* ================================================================== *)
(** ** A push and the errors of the remote *)
(* ================================================================== *)

Section PushErrorFacts.

Import LocalStore Remote Eff Obs Sql Traffic SyncService.

Context {G : Type}.

Lemma push_book_never_throws userId supabase (b : BookRow) :
  throws_only (G := G) is_sqlite_error (push_book userId supabase b).
Proof.
  unfold push_book. apply to_try_catch. intros e. apply to_ret.
Qed.

Lemma push_transaction_throws userId supabase (row : TxRow * option string) :
  throws_only (G := G) is_sqlite_error (push_transaction userId supabase row).
Proof.
  destruct row as [tx bs]. unfold push_transaction.
  destruct (negb (Js.truthy bs)); [apply to_ret |].
  apply to_bind; [apply to_now | intros t].
  destruct (Js.truthy (t_sync_id tx)).
  - apply to_bind; [apply to_request | intros r].
    destruct (error r); [apply to_ret |].
    apply to_bind; [| intros _; apply to_ret].
    apply to_runAsync. intros d e He. discriminate.
  - apply to_bind; [apply to_generateSyncId | intros syncId].
    apply to_bind; [apply to_request | intros r].
    destruct (error r); [apply to_ret |].
    apply to_bind; [| intros _; apply to_ret].
    apply to_runAsync. intros d e. unfold transactions_write_sync.
    destruct (sync_conflict _ _ _); intros He; inv He. reflexivity.
Qed.

(** X22.  A push is never aborted by the remote: whatever the gateway
    answers, the only exceptions a push can throw come from a statement of
    the local database. *)
Theorem pushToServer_throws_only_local_errors :
  forall (userId : string) (supabase : Gateway G) (w w' : World G)
         (e : Exn),
    pushToServer userId supabase w = (inr e, w') ->
    exists msg, e = SqliteError msg.
Proof.
  intros userId supabase w w' e Hrun.
  assert (throws_only (G := G) is_sqlite_error
            (pushToServer userId supabase)) as Ht.
  { unfold pushToServer, push_books, push_transactions, push_cursors.
    apply to_bind; [apply to_ret | intros _].
    apply to_bind;
      [apply to_bind; [apply to_query | intros l]; apply to_forM; intros b;
       apply push_book_never_throws | intros _].
    apply to_bind;
      [apply to_bind; [apply to_query | intros l]; apply to_forM;
       intros row; apply push_transaction_throws | intros _].
    apply to_bind; [apply to_now | intros t1].
    apply to_bind; [apply to_setUserPreference | intros _].
    apply to_bind; [apply to_now | intros t2].
    apply to_setUserPreference. }
  specialize (Ht w e w' Hrun). destruct e; try discriminate.
  now eexists.
Qed.

Lemma push_book_rejected userId supabase (b : BookRow) (w : World G) res w' :
  rejects_writes supabase ->
  push_book userId supabase b w = (res, w') ->
  res = inl tt /\ db w' = db w /\ later w w'.
Proof.
  intros (Hfind & Hins & Hups & _ & _). unfold push_book, generateSyncId.
  stmts.
  destruct (Js.truthy (b_sync_id b)).
  - match goal with
    | |- context [books_upsert supabase ?p ?g] =>
        pose proof (Hups p g) as Hu;
        destruct (books_upsert supabase p g) as [r g1]
    end.
    cbn [fst] in Hu. destruct (error r); [| now contradiction Hu].
    intros Hr; inv Hr. split; [reflexivity | split; [reflexivity |]].
    split; [reflexivity | cbn; lia].
  - destruct (Uuid.generateSyncId _ _ _) as [syncId k].
    match goal with
    | |- context [books_find supabase ?u ?n ?g] =>
        pose proof (Hfind u n g) as Hf;
        destruct (books_find supabase u n g) as [ex g1]
    end.
    cbn [fst] in Hf. rewrite Hf.
    match goal with
    | |- context [books_insert supabase ?p ?g] =>
        pose proof (Hins p g) as Hi;
        destruct (books_insert supabase p g) as [r g2]
    end.
    cbn [fst] in Hi. destruct (error r); [| now contradiction Hi].
    intros Hr; inv Hr. split; [reflexivity | split; [reflexivity |]].
    split; [reflexivity | cbn; lia].
Qed.

Lemma push_transaction_rejected userId supabase
  (row : TxRow * option string) (w : World G) res w' :
  rejects_writes supabase ->
  push_transaction userId supabase row w = (res, w') ->
  res = inl tt /\ db w' = db w /\ later w w'.
Proof.
  intros (_ & _ & _ & Hins & Hups). destruct row as [tx bs].
  unfold push_transaction, generateSyncId. stmts.
  destruct (negb (Js.truthy bs)).
  { intros Hr; inv Hr. split; [reflexivity | split; [reflexivity |]].
    apply later_refl. }
  destruct (Js.truthy (t_sync_id tx)).
  - match goal with
    | |- context [transactions_upsert supabase ?p ?g] =>
        pose proof (Hups p g) as Hu;
        destruct (transactions_upsert supabase p g) as [r g1]
    end.
    cbn [fst] in Hu. destruct (error r); [| now contradiction Hu].
    intros Hr; inv Hr. split; [reflexivity | split; [reflexivity |]].
    split; [reflexivity | cbn; lia].
  - destruct (Uuid.generateSyncId _ _ _) as [syncId k].
    match goal with
    | |- context [transactions_insert supabase ?p ?g] =>
        pose proof (Hins p g) as Hi;
        destruct (transactions_insert supabase p g) as [r g2]
    end.
    cbn [fst] in Hi. destruct (error r); [| now contradiction Hi].
    intros Hr; inv Hr. split; [reflexivity | split; [reflexivity |]].
    split; [reflexivity | cbn; lia].
Qed.

Lemma forM_rejected {A : Type} (xs : list A) (body : A -> M (G := G) unit) :
  (forall x w r w', body x w = (r, w') ->
     r = inl tt /\ db w' = db w /\ later w w') ->
  forall w r w', forM_ xs body w = (r, w') ->
    r = inl tt /\ db w' = db w /\ later w w'.
Proof.
  intros Hb. induction xs as [|x xs IH]; intros w r w' Hr; simpl in Hr.
  - inv Hr. split; [reflexivity | split; [reflexivity | apply later_refl]].
  - apply bind_inv in Hr.
    destruct Hr as [(a & w1 & H1 & H2) | (e & H1 & _)].
    + destruct (Hb _ _ _ _ H1) as (_ & D1 & L1).
      destruct (IH _ _ _ H2) as (-> & D2 & L2).
      split; [reflexivity | split; [congruence |]].
      exact (later_trans _ _ _ L1 L2).
    + destruct (Hb _ _ _ _ H1) as (Hx & _). discriminate.
Qed.

(** X23.  A push against a remote that rejects every write (and finds no
    book by name) still returns normally: every row of the two tables is
    left exactly as it was, so what was dirty stays dirty, and both cursors
    are set to the time of the push all the same. *)
Theorem pushToServer_rejected_keeps_rows_dirty :
  forall (userId : string) (supabase : Gateway G) (w w' : World G)
         (res : unit + Exn),
    rejects_writes supabase ->
    pushToServer userId supabase w = (res, w') ->
    res = inl tt
    /\ books (db w') = books (db w)
    /\ transactions (db w') = transactions (db w)
    /\ dirty_books (db w') = dirty_books (db w)
    /\ dirty_transactions (db w') = dirty_transactions (db w)
    /\ cursors_after w res w'.
Proof.
  intros userId supabase w w' res Hrej Hrun.
  pose proof (pushToServer_cursors _ _ _ _ _ Hrun) as Hcur.
  unfold pushToServer in Hrun. unfold openUserDB at 1 in Hrun.
  unfold DatabaseService.openUserDB in Hrun. unfold bind at 1 in Hrun.
  unfold ret at 1 in Hrun.
  bind_cases Hrun a w1 H1.
  2:{ unfold push_books in H1. run.
      destruct (forM_rejected _ _
                  (fun x v r v' => push_book_rejected userId supabase x v r v'
                                     Hrej) _ _ _ H1) as (Hx & _).
      discriminate. }
  unfold push_books in H1. run.
  destruct (forM_rejected _ _
              (fun x v r v' => push_book_rejected userId supabase x v r v'
                                 Hrej) _ _ _ H1) as (_ & D1 & _).
  bind_cases Hrun b w2 H2.
  2:{ unfold push_transactions in H2. run.
      destruct (forM_rejected _ _
                  (fun x v r v' => push_transaction_rejected userId supabase
                                     x v r v' Hrej) _ _ _ H2) as (Hx & _).
      discriminate. }
  unfold push_transactions in H2. run.
  destruct (forM_rejected _ _
              (fun x v r v' => push_transaction_rejected userId supabase
                                 x v r v' Hrej) _ _ _ H2) as (_ & D2 & _).
  destruct (push_cursors_frame _ _ _ _ Hrun) as (-> & F3 & F4).
  unfold same_books, same_transactions in *.
  assert (books (db w') = books (db w)) as Hb by congruence.
  assert (transactions (db w') = transactions (db w)) as Ht by congruence.
  split; [reflexivity |]. split; [exact Hb |]. split; [exact Ht |].
  unfold dirty_books, dirty_transactions. rewrite Hb, Ht.
  split; [reflexivity | split; [reflexivity | exact Hcur]].
Qed.

End PushErrorFacts.

Section PushErrorExamples.

Import LocalStore Remote Eff Obs Sql Traffic SyncService Examples Samples.

Lemma run_eq_err {A : Type} (r : (A + Exn) * World PgState) (e : Exn) :
  fst r = inr e -> r = (inr e, snd r).
Proof. destruct r as [v w]. simpl. now intros ->. Qed.

(** The identifier drawn for the new transaction is already taken in the
    local table: the remote stores the transaction, the local UPDATE is
    rejected, and the push throws that error. *)
Lemma pushToServer_throws_witness :
  fst (pushToServer user pg collision_world)
  = inr (SqliteError "UNIQUE constraint failed: transactions.sync_id")
  /\ exists msg,
       SqliteError "UNIQUE constraint failed: transactions.sync_id"
       = SqliteError msg.
Proof.
  assert (fst (pushToServer user pg collision_world)
          = inr (SqliteError "UNIQUE constraint failed: transactions.sync_id"))
    as Hfst by (vm_compute; reflexivity).
  split; [exact Hfst |].
  exact (pushToServer_throws_only_local_errors user pg collision_world
           (snd (pushToServer user pg collision_world)) _
           (run_eq_err _ _ Hfst)).
Defined.

Lemma offline_rejects_writes : rejects_writes offline.
Proof. repeat split; intros; cbn; discriminate. Qed.

(** The store never synced is pushed while the network is down. *)
Lemma pushToServer_rejected_witness :
  fst (pushToServer user offline fresh_world) = inl tt
  /\ books (db (snd (pushToServer user offline fresh_world)))
     = books (db fresh_world)
  /\ transactions (db (snd (pushToServer user offline fresh_world)))
     = transactions (db fresh_world)
  /\ dirty_books (db (snd (pushToServer user offline fresh_world)))
     = dirty_books (db fresh_world)
  /\ dirty_transactions (db (snd (pushToServer user offline fresh_world)))
     = dirty_transactions (db fresh_world)
  /\ cursors_after fresh_world (fst (pushToServer user offline fresh_world))
       (snd (pushToServer user offline fresh_world)).
Proof.
  apply (pushToServer_rejected_keeps_rows_dirty user offline fresh_world).
  - exact offline_rejects_writes.
  - apply run_eq_any.
Defined.

End PushErrorExamples.

(* ================================================================== *)
(** ** What stays on the device *)
(* ================================================================== *)

Section StaysLocalFacts.

Import LocalStore Remote Eff Obs Sql Traffic.

Context {G : Type}.

Lemma sl_ret {A : Type} (a : A) : stays_local (G := G) (ret a).
Proof.
  intros w r w' H. inv H. split; [reflexivity |].
  exists []. split; [now rewrite app_nil_r | reflexivity].
Qed.

Lemma sl_throw {A : Type} (e : Exn) : stays_local (G := G) (A := A) (throw e).
Proof.
  intros w r w' H. inv H. split; [reflexivity |].
  exists []. split; [now rewrite app_nil_r | reflexivity].
Qed.

Lemma sl_trans (w1 w2 w3 : World G) :
  (remote w2 = remote w1
   /\ exists new, log w2 = (log w1 ++ new)%list
                  /\ forallb local_only new = true) ->
  (remote w3 = remote w2
   /\ exists new, log w3 = (log w2 ++ new)%list
                  /\ forallb local_only new = true) ->
  remote w3 = remote w1
  /\ exists new, log w3 = (log w1 ++ new)%list
                 /\ forallb local_only new = true.
Proof.
  intros (R1 & n1 & L1 & F1) (R2 & n2 & L2 & F2). split; [congruence |].
  exists (n1 ++ n2)%list. split.
  - rewrite L2, L1. now rewrite app_assoc.
  - rewrite forallb_app. now rewrite F1, F2.
Qed.

Lemma sl_bind {A B : Type} (m : M (G := G) A) (k : A -> M B) :
  stays_local m -> (forall a, stays_local (k a)) -> stays_local (bind m k).
Proof.
  intros Hm Hk w r w' H. apply bind_inv in H.
  destruct H as [(a & w1 & H1 & H) | (e1 & H1 & _)].
  - exact (sl_trans _ _ _ (Hm _ _ _ H1) (Hk a _ _ _ H)).
  - exact (Hm _ _ _ H1).
Qed.

Lemma sl_try_catch {A : Type} (m : M (G := G) A) (h : Exn -> M A) :
  stays_local m -> (forall e, stays_local (h e)) ->
  stays_local (try_catch m h).
Proof.
  intros Hm Hh w r w' H. apply try_catch_inv in H.
  destruct H as [(a & H & _) | (e1 & w1 & H1 & H)].
  - exact (Hm _ _ _ H).
  - exact (sl_trans _ _ _ (Hm _ _ _ H1) (Hh e1 _ _ _ H)).
Qed.

Lemma sl_forM {A : Type} (xs : list A) (body : A -> M (G := G) unit) :
  (forall x, stays_local (body x)) -> stays_local (forM_ xs body).
Proof.
  intros Hb. induction xs as [|x xs IH]; simpl.
  - apply sl_ret.
  - apply sl_bind; [apply Hb | intros _; exact IH].
Qed.

Lemma sl_query {A : Type} (q : DB -> A) : stays_local (G := G) (query q).
Proof.
  intros w r w' H. inv H. split; [reflexivity |].
  exists []. split; [now rewrite app_nil_r | reflexivity].
Qed.

Lemma sl_now : stays_local (G := G) now.
Proof.
  intros w r w' H. unfold now in H. inv H. split; [reflexivity |].
  exists []. split; [cbn; now rewrite app_nil_r | reflexivity].
Qed.

Lemma sl_emit (name : string) : stays_local (G := G) (emit (Emit name)).
Proof.
  intros w r w' H. inv H. split; [reflexivity |].
  exists [Emit name]. split; reflexivity.
Qed.

Lemma sl_runAsync (table : string) (stmt : DB -> DB * Z + Exn) :
  stays_local (G := G) (runAsync table stmt).
Proof.
  intros w r w' H. unfold runAsync in H.
  destruct (stmt (db w)) as [[d z] | e1]; inv H;
    (split; [reflexivity |]); exists [LocalWrite table]; split; reflexivity.
Qed.

End StaysLocalFacts.

Ltac sl :=
  repeat first
    [ apply sl_ret | apply sl_throw | apply sl_query | apply sl_now
    | apply sl_emit | apply sl_runAsync
    | apply sl_forM; intros ?
    | apply sl_bind; [| intros ?]
    | apply sl_try_catch; [| intros ?]
    | progress cbv zeta
    | match goal with
      | |- Traffic.stays_local (match ?e with _ => _ end) => destruct e
      end ].

Section LocalWrites.

Import LocalStore Remote Eff Obs Sql Traffic DatabaseReads SyncServiceCrud.

Context {G : Type}.

(** X24.  The mutations of the local store work without the remote: none of
    them sends a request or changes what is behind the gateway, whether they
    return or throw.  This holds for the write path of [DatabaseService],
    for the CRUD helpers of [SyncService] and for [resolveConflicts]. *)
Theorem local_mutations_stay_on_device :
  forall (userId : string),
    (forall name, stays_local (G := G) (DatabaseService.createBook userId name))
    /\ (forall i name,
          stays_local (G := G) (DatabaseService.updateBook userId i name))
    /\ (forall i, stays_local (G := G) (DatabaseService.deleteBook userId i))
    /\ (forall b ty a n c,
          stays_local (G := G)
            (DatabaseService.addTransaction userId b ty a n c))
    /\ (forall i ty a n c,
          stays_local (G := G)
            (DatabaseService.updateTransaction userId i ty a n c))
    /\ (forall i,
          stays_local (G := G) (DatabaseService.deleteTransaction userId i))
    /\ (forall k v,
          stays_local (G := G) (DatabaseService.setUserPreference userId k v))
    /\ (forall i, stays_local (G := G) (markBookAsDirty userId i))
    /\ (forall i, stays_local (G := G) (markTransactionAsDirty userId i))
    /\ (forall name, stays_local (G := G) (SyncService.addBook userId name))
    /\ (forall i name,
          stays_local (G := G) (SyncService.updateBook userId i name))
    /\ (forall b ty a n c,
          stays_local (G := G) (SyncService.addTransaction userId b ty a n c))
    /\ (forall i f,
          stays_local (G := G) (SyncService.updateTransaction userId i f))
    /\ (forall i, stays_local (G := G) (deleteBook userId i))
    /\ (forall i, stays_local (G := G) (deleteTransaction userId i))
    /\ stays_local (G := G) (resetBookSyncStatus userId)
    /\ stays_local (G := G) (resetTransactionSyncStatus userId)
    /\ (forall cs,
          stays_local (G := G) (SyncService.resolveConflicts userId cs)).
Proof.
  intros userId.
  repeat match goal with |- _ /\ _ => split end; intros;
    unfold DatabaseService.createBook, DatabaseService.updateBook,
      DatabaseService.deleteBook, DatabaseService.addTransaction,
      DatabaseService.updateTransaction, DatabaseService.deleteTransaction,
      DatabaseService.setUserPreference, markBookAsDirty,
      markTransactionAsDirty, SyncService.addBook, SyncService.updateBook,
      SyncService.addTransaction, SyncService.updateTransaction, deleteBook,
      deleteTransaction, resetBookSyncStatus, resetTransactionSyncStatus,
      SyncService.resolveConflicts, SyncService.resolve_conflict,
      DatabaseService.retry_once, DatabaseService.retry_twice,
      DatabaseService.closeDatabase, DatabaseReads.openUserDB,
      SyncServiceCrud.openUserDB, SyncService.openUserDB,
      DatabaseService.openUserDB;
    sl.
Qed.

End LocalWrites.

(* ================================================================== *)
(** ** Guards and edge cases of the cycle *)
(* ================================================================== *)

Section CycleEdgeFacts.

Import LocalStore Remote Eff Obs Sql Traffic SyncService.

Context {G : Type}.

(** X25.  [resolveConflicts] never throws and never touches the cursors.
    Given no conflicts it leaves the world exactly as it is; given some, the
    last things it does are the two notifications that books and
    transactions changed. *)
Theorem resolveConflicts_never_throws :
  forall (userId : string) (cs : list Conflict) (w w' : World G)
         (res : unit + Exn),
    resolveConflicts userId cs w = (res, w') ->
    res = inl tt
    /\ same_prefs w w'
    /\ (cs = [] -> w' = w)
    /\ (cs <> [] ->
        exists old,
          log w'
          = (old ++ [Emit "booksUpdated"; Emit "transactionsUpdated"])%list).
Proof.
  intros userId cs w w' res Hrun.
  destruct (resolveConflicts_prefs _ _ _ _ _ Hrun) as (-> & Hp).
  split; [reflexivity |]. split; [exact Hp |]. split.
  - intros ->. unfold resolveConflicts in Hrun. run. cbn in Hrun.
    now inv Hrun.
  - intros Hne. unfold resolveConflicts in Hrun. run.
    destruct (forM_ cs resolve_conflict w) as [[[] | e] w1]; [| discriminate].
    destruct cs as [| c cs]; [now contradiction Hne |].
    cbn [List.length] in Hrun.
    assert ((0 <? Z.of_nat (S (List.length cs))) = true) as Hpos
      by (apply Z.ltb_lt; lia).
    rewrite Hpos in Hrun. inv Hrun. exists (log w1). cbn. now rewrite <- app_assoc.
Qed.

(** X26.  The guards of the provider's [syncAll].  While a sync is running
    the call returns at once and does nothing.  When the client is not
    ready, or is missing, or there is no user id, it throws the
    prerequisites error, naming the first of these that fails, and does
    nothing.  When the token refresh is rejected, that error is rethrown
    before anything is read or written. *)
Theorem provider_syncAll_guards :
  forall (p : SyncProvider.Provider G) (w : World G),
    (SyncProvider.isSyncing p = true ->
     SyncProvider.syncAll p w = (inl tt, w))
    /\ (SyncProvider.isSyncing p = false ->
        SyncProvider.isReady p = false ->
        SyncProvider.syncAll p w
        = (inr (JsError "Sync prerequisites not met: not ready"), w))
    /\ (SyncProvider.isSyncing p = false ->
        SyncProvider.isReady p = true ->
        SyncProvider.supabase p = None ->
        SyncProvider.syncAll p w
        = (inr (JsError "Sync prerequisites not met: no supabase client"),
           w))
    /\ (forall client,
          SyncProvider.isSyncing p = false ->
          SyncProvider.isReady p = true ->
          SyncProvider.supabase p = Some client ->
          Js.truthy (SyncProvider.user_id p) = false ->
          SyncProvider.syncAll p w
          = (inr (JsError "Sync prerequisites not met: no user ID"), w))
    /\ (forall client e,
          SyncProvider.isSyncing p = false ->
          SyncProvider.isReady p = true ->
          SyncProvider.supabase p = Some client ->
          Js.truthy (SyncProvider.user_id p) = true ->
          SyncProvider.refreshToken p = Some e ->
          SyncProvider.syncAll p w = (inr e, w)).
Proof.
  intros p w. unfold SyncProvider.syncAll, SyncProvider.prerequisites_error.
  split; [| split; [| split; [| split]]].
  - intros ->. reflexivity.
  - intros -> ->. reflexivity.
  - intros -> -> ->. reflexivity.
  - intros client -> -> -> ->. reflexivity.
  - intros client e -> -> -> -> ->. reflexivity.
Qed.

Lemma merge_book_ok (r : RBook) (w : World G) res w' :
  merge_book r w = (res, w') ->
  res = inl tt /\ same_prefs w w' /\ later w w'.
Proof.
  unfold merge_book, same_prefs, later. stmts.
  repeat break_match; intros Hr; inv Hr; cbn;
    (split; [reflexivity | split; [reflexivity | split; [reflexivity | lia]]]).
Qed.

Lemma sync_local_book_ok userId supabase (b : BookRow) (w : World G) res w' :
  sync_local_book userId supabase b w = (res, w') ->
  res = inl tt /\ same_prefs w w' /\ later w w'.
Proof.
  unfold sync_local_book, generateSyncId, same_prefs, later. stmts.
  repeat break_match; intros Hr; inv Hr; cbn;
    (split; [reflexivity | split; [reflexivity | split; [reflexivity | lia]]]).
Qed.

Lemma forM_ok_prefs {A : Type} (xs : list A) (body : A -> M (G := G) unit) :
  (forall x w r w', body x w = (r, w') ->
     r = inl tt /\ same_prefs w w' /\ later w w') ->
  forall w r w', forM_ xs body w = (r, w') ->
    r = inl tt /\ same_prefs w w' /\ later w w'.
Proof.
  intros Hb. induction xs as [|x xs IH]; intros w r w' Hr; simpl in Hr.
  - inv Hr. split; [reflexivity | split; [reflexivity | apply later_refl]].
  - apply bind_inv in Hr.
    destruct Hr as [(a & w1 & H1 & H2) | (e & H1 & _)].
    + destruct (Hb _ _ _ _ H1) as (_ & D1 & L1).
      destruct (IH _ _ _ H2) as (-> & D2 & L2).
      split; [reflexivity |]. split.
      * unfold same_prefs in *. congruence.
      * exact (later_trans _ _ _ L1 L2).
    + destruct (Hb _ _ _ _ H1) as (Hx & _). discriminate.
Qed.

(** X27.  The one-pass [syncBooks] fails only when its read of the remote
    books is answered with an error: it then throws "Failed to fetch books:
    ..." and the database is as before.  Otherwise it returns normally,
    whatever happened while single books were merged or sent, and the books
    cursor holds a reading of the clock taken during the run. *)
Theorem syncBooks_fails_only_on_read :
  forall (userId : string) (supabase : Gateway G) (w w' : World G)
         (res : unit + Exn),
    syncBooks userId supabase w = (res, w') ->
    match error (fst (books_answer supabase userId w)) with
    | Some e =>
        res = inr (JsError ("Failed to fetch books: " ++ message e))
        /\ db w' = db w
    | None =>
        res = inl tt
        /\ exists k, (ticks w <= k)%nat
             /\ pref_get "last_sync_books" (user_preferences (db w'))
                = Some (clock w k)
    end.
Proof.
  intros userId supabase w w' res. unfold syncBooks.
  rewrite try_rethrow. unfold books_answer, books_cursor.
  unfold openUserDB, getUserPreference, DatabaseService.getUserPreference,
    DatabaseService.openUserDB.
  unfold bind at 1. unfold ret at 1. unfold bind at 1. unfold bind at 1.
  unfold ret at 1. unfold query at 1. unfold bind at 1. unfold request at 1.
  destruct (books_select supabase userId _ (remote w)) as [rb g1].
  cbn [fst]. destruct (error rb) as [e |].
  - intros Hr; inv Hr. split; reflexivity.
  - set (w0 := set_remote g1 _). intros Hr.
    bind_cases Hr a w1 H1;
      destruct (forM_ok_prefs _ _ merge_book_ok _ _ _ H1) as (Hx & P1 & L1);
      [| discriminate].
    unfold bind at 1 in Hr. unfold query at 1 in Hr.
    bind_cases Hr b w2 H2;
      destruct (forM_ok_prefs _ _
                  (fun x v r v' => sync_local_book_ok userId supabase x v r v')
                  _ _ _ H2) as (Hy & P2 & L2);
      [| discriminate].
    unfold bind at 1, now at 1 in Hr.
    destruct (setUserPreference_frame _ _ _ _ _ _ Hr) as (-> & _ & _ & Hp).
    split; [reflexivity |].
    destruct (later_trans _ _ _ L1 L2) as [Hc Ht].
    exists (ticks w2). split; [exact Ht |].
    rewrite Hp. cbn [db set_ticks user_preferences].
    rewrite pref_get_set_same. now rewrite Hc.
Qed.

End CycleEdgeFacts.

Section CycleEdgeExamples.

Import LocalStore Remote Eff Obs Sql Traffic SyncService Examples Samples.

(** No conflicts to resolve on the sample store. *)
Lemma resolveConflicts_never_throws_witness :
  fst (resolveConflicts user [] fresh_world) = inl tt
  /\ snd (resolveConflicts user [] fresh_world) = fresh_world.
Proof.
  destruct (resolveConflicts_never_throws user [] fresh_world _ _
              (run_eq_any _)) as (H1 & _ & H3 & _).
  split; [exact H1 | exact (H3 eq_refl)].
Defined.

(** A provider whose sync is running, one that is not ready, and one
    whose token refresh is rejected. *)
Lemma provider_syncAll_guards_witness :
  SyncProvider.syncAll
    (SyncProvider.mkProvider PgState true true (Some pg) (Some user) None)
    fresh_world
  = (inl tt, fresh_world)
  /\ SyncProvider.syncAll
       (SyncProvider.mkProvider PgState false false (Some pg) (Some user)
          None)
       fresh_world
     = (inr (JsError "Sync prerequisites not met: not ready"), fresh_world)
  /\ SyncProvider.syncAll
       (SyncProvider.mkProvider PgState false true (Some pg) (Some user)
          (Some (JsError "token expired")))
       fresh_world
     = (inr (JsError "token expired"), fresh_world).
Proof.
  split; [| split].
  - apply (proj1 (provider_syncAll_guards
                    (SyncProvider.mkProvider PgState true true (Some pg)
                       (Some user) None) fresh_world)).
    reflexivity.
  - apply (proj1 (proj2 (provider_syncAll_guards
                           (SyncProvider.mkProvider PgState false false
                              (Some pg) (Some user) None) fresh_world)));
      reflexivity.
  - apply (proj2 (proj2 (proj2 (proj2 (provider_syncAll_guards
             (SyncProvider.mkProvider PgState false true (Some pg)
                (Some user) (Some (JsError "token expired")))
             fresh_world)))) pg); reflexivity.
Defined.

(** The one-pass sync of the books with the network down. *)
Lemma syncBooks_fails_only_on_read_witness :
  fst (syncBooks user offline fresh_world)
  = inr (JsError ("Failed to fetch books: " ++ "Failed to fetch"))
  /\ db (snd (syncBooks user offline fresh_world)) = db fresh_world.
Proof.
  exact (syncBooks_fails_only_on_read user offline fresh_world _ _
           (run_eq_any _)).
Defined.

End CycleEdgeExamples.

(* ================================================================== *)
(** ** Boundary cases of pull and push *)
(* ================================================================== *)

Section BoundaryFacts.

Import LocalStore Remote Eff Obs Sql Traffic SyncService.

Context {G : Type}.

(** A step of the books loop for another remote row reports no conflict
    for the pinned book. *)
Lemma pull_book_quiet (s : string) (x : BookRow) acc (r : RBook)
  (w : World G) res w' :
  rb_id r <> s -> Pinned s x (books (db w)) ->
  (forall c, In c acc -> targets_book (b_id x) c = false) ->
  pull_book acc r w = (res, w') ->
  exists acc', res = inl acc'
    /\ forall c, In c acc' -> targets_book (b_id x) c = false.
Proof.
  intros Hne HP Hq Hstep.
  destruct (pull_book_result acc r w res w' Hstep) as [-> | (l & Hl & ->)].
  - now exists acc.
  - eexists. split; [reflexivity |]. intros c Hc. apply in_app_or in Hc.
    destruct Hc as [Hc | [<- | []]]; [now apply Hq |].
    apply first_by_sync_some in Hl. destruct Hl as [Hl Hls].
    pose proof (pinned_other_sync s (rb_id r) x l _ HP Hl Hls Hne) as Hid.
    unfold targets_book, book_conflict_of. cbn [cdata localId].
    now apply Z.eqb_neq.
Qed.

Lemma pull_books_others_quiet (s : string) (x : BookRow)
  (batch : list RBook) acc (w : World G) res w' :
  (forall r', In r' batch -> rb_id r' <> s) ->
  Pinned s x (books (db w)) ->
  (forall c, In c acc -> targets_book (b_id x) c = false) ->
  foldM pull_book batch acc w = (res, w') ->
  exists acc', res = inl acc'
    /\ Pinned s x (books (db w'))
    /\ forall c, In c acc' -> targets_book (b_id x) c = false.
Proof.
  intros Hb HP Hq Hr.
  pose (P := fun (a : list Conflict) (v : World G) =>
    Pinned s x (books (db v))
    /\ forall c, In c a -> targets_book (b_id x) c = false).
  assert (match res with inl a => P a w' | inr _ => False end) as HR.
  { apply (foldM_inv P (fun _ => False) batch pull_book) with (acc := acc)
      (w := w); [| split; assumption | exact Hr].
    intros r' Hr' a v res1 v1 (H1 & H2) Hstep.
    pose proof (pull_book_other s x a r' v res1 v1 (Hb r' Hr') H1 Hstep)
      as HP1.
    destruct (pull_book_quiet s x a r' v res1 v1 (Hb r' Hr') H1 H2 Hstep)
      as (a1 & -> & Hq1).
    split; assumption. }
  destruct res as [a | e]; [| contradiction].
  exists a. destruct HR as [H1 H2]. auto.
Qed.

(** The books loop when the batch holds one row for the pinned book and
    the local row is not strictly newer: no conflict is reported for it. *)
Lemma pull_books_quiet (s : string) (x : BookRow) (r : RBook)
  (batch : list RBook) (w : World G) res w' :
  NoDup (map rb_id batch) -> In r batch -> rb_id r = s ->
  Pinned s x (books (db w)) ->
  (rb_updated_at r <? book_updated x) = false ->
  foldM pull_book batch [] w = (res, w') ->
  exists acc', res = inl acc'
    /\ forall c, In c acc' -> targets_book (b_id x) c = false.
Proof.
  intros Hnd Hin <- HP Hlt Hr.
  destruct (in_split r batch Hin) as (l1 & l2 & ->).
  rewrite map_app in Hnd. simpl in Hnd.
  assert (forall r', In r' l1 -> rb_id r' <> rb_id r) as H1.
  { intros r' Hr' Heq. apply NoDup_remove_2 in Hnd. apply Hnd.
    apply in_or_app. left. rewrite <- Heq. now apply in_map. }
  assert (forall r', In r' l2 -> rb_id r' <> rb_id r) as H2.
  { intros r' Hr' Heq. apply NoDup_remove_2 in Hnd. apply Hnd.
    apply in_or_app. right. rewrite <- Heq. now apply in_map. }
  rewrite foldM_app in Hr. unfold bind at 1 in Hr.
  destruct (foldM pull_book l1 [] w) as [r1 w1] eqn:Hl1.
  destruct (pull_books_others_quiet _ x l1 [] w r1 w1 H1 HP
              (fun c (Hc : In c []) => match Hc with end) Hl1)
    as (a1 & -> & HP1 & Hq1).
  cbn [foldM] in Hr. unfold bind at 1 in Hr.
  destruct (pull_book a1 r w1) as [r2 w2] eqn:Hstep.
  destruct (pull_book_newer_remote (rb_id r) x a1 r w1 _ _ eq_refl HP1 Hlt
              Hstep) as [-> HP2].
  destruct (pull_books_others_quiet _ (overwrite_book r x) l2 a1 w2 res w'
              H2 HP2 Hq1 Hr) as (a3 & -> & _ & Hq3).
  now exists a3.
Qed.

(** The transactions loop adds no book conflict. *)
Lemma pull_transactions_quiet (i : Z) (batch : list RTx) acc (w : World G)
  acc' w' :
  (forall c, In c acc -> targets_book i c = false) ->
  foldM pull_transaction batch acc w = (inl acc', w') ->
  forall c, In c acc' -> targets_book i c = false.
Proof.
  intros Hq Hr.
  refine (foldM_inv
            (fun a (_ : World G) =>
               forall c, In c a -> targets_book i c = false)
            (fun _ => True) batch pull_transaction _ acc w (inl acc') w'
            Hq Hr).
  intros r Hin a v res1 v1 Ha Hstep. destruct res1 as [a1 | e]; [| exact I].
  destruct (pull_transaction_result a r v a1 v1 Hstep)
    as [-> | (l & _ & ->)]; [exact Ha |].
  intros c Hc. apply in_app_or in Hc.
  destruct Hc as [Hc | [<- | []]]; [now apply Ha | reflexivity].
Qed.

(** X28.  A tie goes to the remote.  When a fetched remote book and the
    local row it matches carry the same time (the local time being
    [updated_at], or [created_at] when that is null), a pull that returns
    has overwritten the local row with the remote values and marked it
    clean, dirty or not, and no conflict of its result is about that row:
    only a strictly newer local row is reported. *)
Theorem pullFromServer_tie_goes_to_remote :
  forall (userId : string) (supabase : Gateway G) (w w' : World G)
         (pr : PullResult),
    pullFromServer userId supabase w = (inl pr, w') ->
    forall (s : string) (x : BookRow) (r : RBook),
      Pinned s x (books (db w)) ->
      NoDup (map rb_id (fetched_books supabase userId w)) ->
      In r (fetched_books supabase userId w) -> rb_id r = s ->
      rb_updated_at r = book_updated x ->
      Pinned s (overwrite_book r x) (books (db w'))
      /\ forall c, In c (conflicts pr) -> targets_book (b_id x) c = false.
Proof.
  intros userId supabase w w' pr Hrun s x r HP Hnd Hin Hs Htie.
  assert ((rb_updated_at r <? book_updated x) = false) as Hlt
    by (rewrite Htie; apply Z.ltb_irrefl).
  split.
  - destruct (pull_spec_book _ _ _ _ _ s x r Hrun HP Hnd Hin Hs) as [_ H].
    now rewrite Hlt in H.
  - rewrite pullFromServer_run in Hrun. cbv zeta in Hrun.
    destruct (error (fst (books_answer supabase userId w)));
      [discriminate |].
    set (w0 := set_remote _ _) in Hrun.
    assert (Pinned s x (books (db w0))) as HP0 by exact HP.
    destruct (foldM pull_book _ _ _) as [r1 w1] eqn:Hl1.
    destruct (pull_books_quiet s x r _ w0 _ _ Hnd Hin Hs HP0 Hlt Hl1)
      as (a1 & -> & Hq1).
    destruct (error _); [discriminate |].
    destruct (foldM pull_transaction _ _ _) as [[acc2 | e] w3] eqn:Hl2;
      [| discriminate].
    injection Hrun as <- _. cbn [conflicts].
    exact (pull_transactions_quiet _ _ _ _ _ _ Hq1 Hl2).
Qed.

(** X29.  A pull that is answered with two empty batches changes nothing: it
    returns a result without new data and without conflicts, the database is
    as before, and the two reads are all it has done (no notification is
    emitted). *)
Theorem pullFromServer_nothing_fetched :
  forall (userId : string) (supabase : Gateway G) (w : World G),
    error (fst (books_answer supabase userId w)) = None ->
    error (fst (transactions_answer supabase userId w)) = None ->
    fetched_books supabase userId w = [] ->
    fetched_transactions supabase userId w = [] ->
    exists w',
      pullFromServer userId supabase w
      = (inl (mkPullResult false 0 0 []), w')
      /\ db w' = db w
      /\ log w'
         = (log w
            ++ [ReqSelectBooks userId (books_cursor (db w));
                ReqSelectTransactions userId (transactions_cursor (db w))])%list.
Proof.
  intros userId supabase w Hb Ht Hfb Hft.
  rewrite pullFromServer_run. cbv zeta. rewrite Hb, Hfb.
  unfold fetched_transactions, transactions_answer in Ht, Hft.
  cbn [foldM ret remote set_remote record].
  rewrite Ht, Hft. cbn [foldM ret List.length Z.of_nat Z.ltb Z.compare orb].
  eexists. split; [reflexivity |]. split; [reflexivity |].
  cbn. now rewrite <- app_assoc.
Qed.

End BoundaryFacts.

Section ForeignKeyOfThePull.

Import LocalStore Remote Eff Obs Sql Traffic SyncService.

Context {G : Type}.

(** The statements of the pull leave the pragma alone. *)
Lemma pull_book_keeps_pragma acc (r : RBook) (w : World G) res w' :
  pull_book acc r w = (res, w') ->
  foreign_keys (db w') = foreign_keys (db w).
Proof.
  unfold pull_book. stmts.
  repeat break_match; intros Hr; inv Hr; reflexivity.
Qed.

Lemma pull_transaction_keeps_pragma acc (r : RTx) (w : World G) res w' :
  pull_transaction acc r w = (res, w') ->
  foreign_keys (db w') = foreign_keys (db w).
Proof.
  unfold pull_transaction. stmts.
  repeat break_match; intros Hr; inv Hr; reflexivity.
Qed.

Lemma pull_books_keep_pragma (batch : list RBook) acc (w : World G) res w' :
  foldM pull_book batch acc w = (res, w') ->
  foreign_keys (db w') = foreign_keys (db w).
Proof.
  intros Hr.
  pose (P := fun (v : World G) => foreign_keys (db v) = foreign_keys (db w)).
  assert (match res with inl _ => P w' | inr _ => P w' end) as HR.
  { refine (foldM_inv (fun _ v => P v) P batch pull_book _ acc w res w'
              eq_refl Hr).
    intros r _ a v res1 v1 Hv Hstep.
    pose proof (pull_book_keeps_pragma a r v res1 v1 Hstep) as Hk.
    unfold P in *. destruct res1; congruence. }
  now destruct res.
Qed.

Lemma pull_transactions_keep_pragma (batch : list RTx) acc (w : World G)
  res w' :
  foldM pull_transaction batch acc w = (res, w') ->
  foreign_keys (db w') = foreign_keys (db w).
Proof.
  intros Hr.
  pose (P := fun (v : World G) => foreign_keys (db v) = foreign_keys (db w)).
  assert (match res with inl _ => P w' | inr _ => P w' end) as HR.
  { refine (foldM_inv (fun _ v => P v) P batch pull_transaction _ acc w res w'
              eq_refl Hr).
    intros r _ a v res1 v1 Hv Hstep.
    pose proof (pull_transaction_keeps_pragma a r v res1 v1 Hstep) as Hk.
    unfold P in *. destruct res1; congruence. }
  now destruct res.
Qed.

(** The only exception a step of the transactions loop throws. *)
Lemma pull_transaction_throws acc (r : RTx) (w : World G) e w' :
  pull_transaction acc r w = (inr e, w') ->
  e = SqliteError "FOREIGN KEY constraint failed".
Proof.
  unfold pull_transaction. stmts.
  repeat break_match; intros Hr; inv Hr; reflexivity.
Qed.

Lemma pull_transactions_throw (batch : list RTx) acc (w : World G) e w' :
  foldM pull_transaction batch acc w = (inr e, w') ->
  e = SqliteError "FOREIGN KEY constraint failed".
Proof.
  revert acc w. induction batch as [| r batch IH]; intros acc w; cbn [foldM].
  - discriminate.
  - intros Hr. apply bind_inv in Hr.
    destruct Hr as [(a & w1 & _ & Hr) | (e1 & Hstep & He)].
    + exact (IH _ _ Hr).
    + inv He. exact (pull_transaction_throws _ _ _ _ _ Hstep).
Qed.

(** The UPDATE of a matched transaction that is not strictly newer locally
    binds the remote book identifier to [book_id]: with the foreign key
    enforced SQLite rejects it and the step throws, the row being as
    before. *)
Lemma pull_transaction_rejected (s : string) (x : TxRow) acc (r : RTx)
  (w : World G) :
  foreign_keys (db w) = true ->
  rt_id r = s ->
  Pinned s x (transactions (db w)) ->
  (rt_updated_at r <? tx_updated x) = false ->
  pull_transaction acc r w
  = (inr (SqliteError "FOREIGN KEY constraint failed"),
     record (LocalWrite "transactions") w).
Proof.
  intros Hfk <- HP Hlt. unfold pull_transaction. stmts.
  rewrite (pinned_first_by_sync _ _ _ HP). rewrite Hlt. cbv beta.
  assert (existsb (has_id (t_id x)) (rows (transactions (db w))) = true)
    as Hex.
  { apply existsb_exists. exists x. split; [now destruct HP |].
    apply has_id_true. reflexivity. }
  rewrite Hex. unfold fk_ok. rewrite Hfk. reflexivity.
Qed.


(** X31.  The overwrite of a known transaction is rejected.  With the
    foreign key enforced and both reads answered, a pull that fetches (once)
    a remote row for a transaction of the store that is not strictly newer
    locally does not return: its UPDATE binds the remote book identifier to
    [book_id], SQLite rejects it, and the pull throws that error.  The
    local transaction is as it was and the cursors are not written; a cycle
    of the provider started on that store does not complete and leaves the
    cursors as they were. *)
Theorem pullFromServer_rejects_known_transaction :
  forall (userId : string) (supabase : Gateway G) (w w' : World G)
         (res : PullResult + Exn),
    pullFromServer userId supabase w = (res, w') ->
    foreign_keys (db w) = true ->
    error (fst (books_answer supabase userId w)) = None ->
    error (fst (transactions_answer supabase userId w)) = None ->
    forall (s : string) (x : TxRow) (r : RTx),
      Pinned s x (transactions (db w)) ->
      NoDup (map rt_id (fetched_transactions supabase userId w)) ->
      In r (fetched_transactions supabase userId w) -> rt_id r = s ->
      tx_updated x <= rt_updated_at r ->
      res = inr (SqliteError "FOREIGN KEY constraint failed")
      /\ Pinned s x (transactions (db w'))
      /\ same_prefs w w'
      /\ forall (p : SyncProvider.Provider G) (res2 : unit + Exn)
                (w2 : World G),
           SyncProvider.isSyncing p = false ->
           SyncProvider.supabase p = Some supabase ->
           SyncProvider.user_id p = Some userId ->
           SyncProvider.syncAll p w = (res2, w2) ->
           (exists e, res2 = inr e) /\ same_prefs w w2.
Proof.
  intros userId supabase w w' res Hrun Hfk Hbe Hte s x r HP Hnd Hin Hs Hle.
  cut (res = inr (SqliteError "FOREIGN KEY constraint failed")
       /\ Pinned s x (transactions (db w')) /\ same_prefs w w').
  { intros (H1 & H2 & H3). repeat (split; [assumption |]).
    intros p res2 w2 Hs2 Hc2 Hu2 Hcycle.
    pose proof (provider_cycle_cursors p supabase userId w w2 res2 Hs2 Hc2
                  Hu2 Hcycle) as Hcur.
    destruct res2 as [[] | e]; [| split; [now exists e | exact Hcur]].
    destruct (syncAll_completed p supabase userId w w2 Hs2 Hc2 Hu2 Hcycle)
      as (pr & w1 & _ & _ & Hpull & _).
    rewrite Hrun in Hpull. injection Hpull as Hpull _.
    rewrite H1 in Hpull. discriminate. }
  pose proof (pull_keeps_prefs _ _ _ _ _ Hrun) as Hprefs.
  assert ((rt_updated_at r <? tx_updated x) = false) as Hlt
    by (apply Z.ltb_ge; exact Hle).
  rewrite pullFromServer_run in Hrun. cbv zeta in Hrun.
  unfold fetched_transactions, transactions_answer in Hnd, Hin, Hte.
  rewrite Hbe in Hrun.
  destruct (foldM pull_book _ _ _) as [r1 w1] eqn:Hl1.
  destruct (pull_books_frame _ _ _ _ _ Hl1) as (a & -> & _ & _ & Ft & _ & Frem).
  pose proof (pull_books_keep_pragma _ _ _ _ _ Hl1) as Hk1.
  cbn [remote set_remote record] in Frem. rewrite Frem in Hrun.
  rewrite Hte in Hrun.
  set (w2 := set_remote _ _) in Hrun.
  assert (Pinned s x (transactions (db w2))) as HP2.
  { unfold same_transactions in Ft. cbn in Ft. cbn. now rewrite Ft. }
  assert (foreign_keys (db w2) = true) as Hfk2.
  { cbn in Hk1. cbn. congruence. }
  destruct (in_split r _ Hin) as (l1 & l2 & Hsplit).
  rewrite Hsplit in Hrun, Hnd. rewrite map_app in Hnd. cbn [map] in Hnd.
  assert (forall r', In r' l1 -> rt_id r' <> s) as H1.
  { intros r' Hr' Heq. apply NoDup_remove_2 in Hnd. apply Hnd.
    apply in_or_app. left. rewrite Hs, <- Heq. now apply in_map. }
  rewrite foldM_app in Hrun. unfold bind at 1 in Hrun.
  destruct (foldM pull_transaction l1 a w2) as [r3 w3] eqn:Hl3.
  pose proof (pull_transactions_keep_pinned _ _ _ _ _ _ _ H1 HP2 Hl3) as HP3.
  pose proof (pull_transactions_keep_pragma _ _ _ _ _ Hl3) as Hk3.
  destruct r3 as [a3 | e].
  - cbn [foldM] in Hrun. unfold bind at 1 in Hrun.
    rewrite (pull_transaction_rejected s x a3 r w3) in Hrun;
      [| congruence | exact Hs | exact HP3 | exact Hlt].
    injection Hrun as <- <-. split; [reflexivity |].
    split; [exact HP3 | exact Hprefs].
  - pose proof (pull_transactions_throw _ _ _ _ _ Hl3) as ->.
    injection Hrun as <- <-. split; [reflexivity |].
    split; [exact HP3 | exact Hprefs].
Qed.

End ForeignKeyOfThePull.


Section BoundaryExamples.

Import LocalStore Remote Eff Obs Sql Traffic SyncService Examples Samples.

(** The sample book, edited locally at time 80, and its remote copy,
    written at time 80 as well, foreign keys enforced: the local edit is
    overwritten and the pull reports no conflict.  (The transaction's
    remote record is not past the transactions cursor, 100.) *)
Lemma pullFromServer_tie_witness :
  foreign_keys
    (db (synced_world true 80 80 false [("last_sync_transactions", 100)]))
  = true
  /\ fst (pullFromServer user pg
            (synced_world true 80 80 false [("last_sync_transactions", 100)]))
     = inl (mkPullResult true 1 0 [])
  /\ Pinned "r1" (overwrite_book (remote_book 80 false) (local_book 80))
       (books
          (db (snd (pullFromServer user pg
                      (synced_world true 80 80 false
                         [("last_sync_transactions", 100)])))))
  /\ forall c,
       In c (conflicts (mkPullResult true 1 0 [])) ->
       targets_book (b_id (local_book 80)) c = false.
Proof.
  assert (fst (pullFromServer user pg
                 (synced_world true 80 80 false
                    [("last_sync_transactions", 100)]))
          = inl (mkPullResult true 1 0 [])) as Hfst
    by (vm_compute; reflexivity).
  split; [reflexivity |]. split; [exact Hfst |].
  apply (pullFromServer_tie_goes_to_remote user pg
           (synced_world true 80 80 false [("last_sync_transactions", 100)])
           _ _ (run_eq _ _ Hfst)
           "r1" (local_book 80) (remote_book 80 false)).
  - apply wf_pinned; [exact (sample_books_wf (local_book 80) 1) | |].
    + left. reflexivity.
    + reflexivity.
  - vm_compute. constructor; [intros [] | constructor].
  - vm_compute. left. reflexivity.
  - reflexivity.
  - reflexivity.
Defined.

(** The sample store, foreign keys enforced, nothing pulled before: the
    transaction was edited locally at time 50 and its remote record written
    at time 80.  The pull throws and the local transaction is as it was;
    the cycle of the provider fails, and so does the cycle run after it. *)
Lemma pullFromServer_rejects_known_transaction_witness :
  fst (pullFromServer user pg (synced_world true 50 80 false []))
  = inr (SqliteError "FOREIGN KEY constraint failed")
  /\ Pinned "t1" (local_tx 50)
       (transactions
          (db (snd (pullFromServer user pg
                      (synced_world true 50 80 false [])))))
  /\ same_prefs (synced_world true 50 80 false [])
       (snd (pullFromServer user pg (synced_world true 50 80 false [])))
  /\ (exists e,
        fst (SyncProvider.syncAll provider (synced_world true 50 80 false []))
        = inr e)
  /\ same_prefs (synced_world true 50 80 false [])
       (snd (SyncProvider.syncAll provider
               (synced_world true 50 80 false [])))
  /\ fst (SyncProvider.syncAll provider
            (snd (SyncProvider.syncAll provider
                    (synced_world true 50 80 false []))))
     = inr (SqliteError "FOREIGN KEY constraint failed").
Proof.
  destruct (pullFromServer_rejects_known_transaction user pg
              (synced_world true 50 80 false []) _ _ (run_eq_any _)
              eq_refl eq_refl eq_refl
              "t1" (local_tx 50) (remote_tx 80)) as (H1 & H2 & H3 & H4).
  - apply wf_pinned; [exact (sample_transactions_wf (local_tx 50) 1) | |].
    + left. reflexivity.
    + reflexivity.
  - vm_compute. constructor; [intros [] | constructor].
  - vm_compute. left. reflexivity.
  - reflexivity.
  - vm_compute. discriminate.
  - split; [exact H1 | split; [exact H2 | split; [exact H3 |]]].
    destruct (H4 provider _ _ eq_refl eq_refl eq_refl (run_eq_any _))
      as [H5 H6].
    split; [exact H5 | split; [exact H6 |]].
    vm_compute. reflexivity.
Defined.

(** The store in step with the remote pulls with its cursors at 100. *)
Lemma pullFromServer_nothing_fetched_witness :
  exists w',
    pullFromServer user pg (idle_world 100)
    = (inl (mkPullResult false 0 0 []), w')
    /\ db w' = db (idle_world 100)
    /\ log w'
       = (log (idle_world 100)
          ++ [ReqSelectBooks user (books_cursor (db (idle_world 100)));
              ReqSelectTransactions user
                (transactions_cursor (db (idle_world 100)))])%list.
Proof.
  apply (pullFromServer_nothing_fetched user pg (idle_world 100));
    vm_compute; reflexivity.
Defined.

End BoundaryExamples.

(* ================================================================== *)
(** ** Tombstones on the way out *)
(* ================================================================== *)

Section TombstoneFacts.

Import LocalStore Remote Eff Obs Sql Traffic SyncService.

Context {G : Type}.

Lemma grows_refl (w : World G) : grows w w.
Proof. exists []. now rewrite app_nil_r. Qed.

Lemma grows_trans (w1 w2 w3 : World G) :
  grows w1 w2 -> grows w2 w3 -> grows w1 w3.
Proof.
  intros (n1 & H1) (n2 & H2). exists (n1 ++ n2)%list.
  rewrite H2, H1. now rewrite app_assoc.
Qed.

Lemma grows_in (w w' : World G) (e : Event) :
  grows w w' -> In e (log w) -> In e (log w').
Proof. intros (new & Hl) Hin. rewrite Hl. apply in_or_app. now left. Qed.

Lemma logext_grows (ok : Event -> bool) (w w' : World G) :
  LogExt ok w w' -> grows w w'.
Proof. intros (new & Hl & _). now exists new. Qed.

(** The push of one book that has a remote identifier: an upsert built
    from the row is sent, whatever comes of it. *)
Lemma push_book_sends_upsert userId supabase (b : BookRow) (w : World G)
  res w' :
  Js.truthy (b_sync_id b) = true ->
  push_book userId supabase b w = (res, w') ->
  exists p,
    In (ReqUpsertBook (b_id b) p) (log w')
    /\ bp_id p = sync_str (b_sync_id b)
    /\ bp_user_id p = userId
    /\ bp_name p = b_name b
    /\ bp_created_at p = b_created_at b
    /\ bp_deleted p = Some (is_deleted (b_deleted b)).
Proof.
  intros Ht. unfold push_book. stmts. rewrite Ht.
  repeat break_match; intros Hr; inv Hr;
    (eexists; split;
     [ cbn [log set_db set_remote record set_ticks];
       rewrite ?in_app_iff; cbn [In]; tauto
     | repeat split ]).
Qed.

Lemma push_books_send_upsert userId supabase (b : BookRow) (w : World G)
  res w' :
  In b (rows (books (db w))) -> book_unsynced b = true ->
  Js.truthy (b_sync_id b) = true ->
  push_books userId supabase w = (res, w') ->
  exists p,
    In (ReqUpsertBook (b_id b) p) (log w')
    /\ bp_id p = sync_str (b_sync_id b)
    /\ bp_user_id p = userId
    /\ bp_name p = b_name b
    /\ bp_created_at p = b_created_at b
    /\ bp_deleted p = Some (is_deleted (b_deleted b)).
Proof.
  intros Hin Hd Ht. unfold push_books. run. intros Hr.
  assert (In b (filter book_unsynced (rows (books (db w))))) as Hl
    by (apply filter_In; now split).
  destruct (in_split b _ Hl) as (l1 & l2 & Hsplit).
  rewrite Hsplit in Hr. rewrite forM_app in Hr. unfold bind at 1 in Hr.
  destruct (forM_ l1 (push_book userId supabase) w) as [r1 w1] eqn:H1.
  assert (r1 = inl tt) as ->.
  { assert (forall v r v', forM_ l1 (push_book userId supabase) v = (r, v') ->
              r = inl tt) as Hok.
    { clear. induction l1 as [|x l IH]; intros v r v' Hr; simpl in Hr.
      - now inv Hr.
      - apply bind_inv in Hr.
        destruct Hr as [(a & w1 & H1 & H2) | (e & H1 & _)].
        + exact (IH _ _ _ H2).
        + destruct (push_book_ok _ _ _ _ _ _ H1) as (Hx & _). discriminate. }
    exact (Hok _ _ _ H1). }
  cbn [forM_] in Hr. unfold bind at 1 in Hr.
  destruct (push_book userId supabase b w1) as [r2 w2] eqn:H2.
  destruct (push_book_ok _ _ _ _ _ _ H2) as (-> & _).
  destruct (push_book_sends_upsert _ _ _ _ _ _ Ht H2) as (p & Hp & Hfacts).
  exists p. split; [| exact Hfacts].
  apply (grows_in w2 w'); [| exact Hp].
  apply (forM_inv (fun v => grows w2 v) _ _) with (w := w2) (r := res)
    (w' := w') in Hr.
  - exact Hr.
  - intros x _ v r v1 Hv Hstep.
    exact (grows_trans _ _ _ Hv
             (logext_grows _ _ _ (push_book_log 0 _ _ _ _ _ _ Hstep))).
  - apply grows_refl.
Qed.

(** A push sends every dirty book that has a remote identifier as an
    upsert carrying the row's identifier, name and deleted flag. *)
Lemma pushToServer_sends_pushed_book userId supabase (b : BookRow)
  (w : World G) res w' :
  pushToServer userId supabase w = (res, w') ->
  In b (rows (books (db w))) -> book_unsynced b = true ->
  Js.truthy (b_sync_id b) = true ->
  exists p,
    In (ReqUpsertBook (b_id b) p) (log w')
    /\ bp_id p = sync_str (b_sync_id b)
    /\ bp_user_id p = userId
    /\ bp_name p = b_name b
    /\ bp_created_at p = b_created_at b
    /\ bp_deleted p = Some (is_deleted (b_deleted b)).
Proof.
  intros Hrun Hin Hd Ht. unfold pushToServer in Hrun.
  unfold openUserDB at 1 in Hrun. unfold DatabaseService.openUserDB in Hrun.
  unfold bind at 1 in Hrun. unfold ret at 1 in Hrun.
  unfold bind at 1 in Hrun.
  destruct (push_books userId supabase w) as [r1 w1] eqn:H1.
  destruct (push_books_send_upsert _ _ _ _ _ _ Hin Hd Ht H1)
    as (p & Hp & Hfacts).
  exists p. split; [| exact Hfacts].
  destruct r1 as [[] | e]; [| now inv Hrun].
  unfold bind at 1 in Hrun.
  destruct (push_transactions userId supabase w1) as [r2 w2] eqn:H2.
  pose proof (logext_grows _ _ _
                (push_transactions_scope (db w1) _ _ _ _ _ eq_refl H2)) as G2.
  destruct r2 as [[] | e]; [| inv Hrun; exact (grows_in _ _ _ G2 Hp)].
  pose proof (logext_grows _ _ _ (push_cursors_scope (db w1) _ _ _ _ Hrun))
    as G3.
  exact (grows_in _ _ _ (grows_trans _ _ _ G2 G3) Hp).
Qed.

Lemma find_update_other {R : Type} `{RowLike R} (i j : Z) (f : R -> R)
  (t : Table R) :
  i <> j -> (forall y, row_id (f y) = row_id y) ->
  first_by_id i (update_where (has_id j) f t) = first_by_id i t.
Proof.
  intros Hne Hf. unfold first_by_id, update_where. cbn [rows].
  induction (rows t) as [|y l IH]; simpl; [reflexivity |].
  destruct (has_id j y) eqn:Hj.
  - apply has_id_true in Hj.
    assert (has_id i (f y) = false) as ->.
    { unfold has_id. rewrite Hf. apply Z.eqb_neq. lia. }
    assert (has_id i y = false) as ->.
    { unfold has_id. apply Z.eqb_neq. lia. }
    exact IH.
  - destruct (has_id i y); [reflexivity | exact IH].
Qed.

(** The books loop of a push leaves the remote identifier of a book that
    has one. *)
Lemma push_book_keeps_sync (i : Z) (s : option string) userId supabase
  (b0 : BookRow) (w : World G) res w' :
  (b_id b0 = i -> Js.truthy (b_sync_id b0) = true) ->
  (exists y, first_by_id i (books (db w)) = Some y /\ b_sync_id y = s) ->
  push_book userId supabase b0 w = (res, w') ->
  exists y, first_by_id i (books (db w')) = Some y /\ b_sync_id y = s.
Proof.
  intros Hsame (y & Hy & Hs). unfold push_book, generateSyncId. stmts.
  destruct (Z.eq_dec (b_id b0) i) as [He | Hne].
  - rewrite (Hsame He). subst i.
    repeat break_match; intros Hr; inv Hr;
      cbn [db set_db set_remote record set_ticks books set_books];
      try (exists y; split; [exact Hy | reflexivity]).
    rewrite find_update_where by (intros z; reflexivity).
    rewrite Hy. cbn [option_map]. eexists. split; reflexivity.
  - repeat break_match; intros Hr; inv Hr;
      cbn [db set_db set_remote record set_ticks set_draws books set_books];
      try (exists y; split; [exact Hy | reflexivity]);
      (rewrite find_update_other;
       [ exists y; split; [exact Hy | reflexivity]
       | intros E; apply Hne; symmetry; exact E
       | intros z; reflexivity ]).
Qed.

Lemma push_books_keep_sync (i : Z) (s : option string) userId supabase
  (w : World G) res w' :
  (forall b0, In b0 (rows (books (db w))) -> b_id b0 = i ->
     Js.truthy (b_sync_id b0) = true) ->
  (exists y, first_by_id i (books (db w)) = Some y /\ b_sync_id y = s) ->
  push_books userId supabase w = (res, w') ->
  exists y, first_by_id i (books (db w')) = Some y /\ b_sync_id y = s.
Proof.
  intros Hsame Hy. unfold push_books. run. intros Hr.
  apply (forM_inv
           (fun v => exists y, first_by_id i (books (db v)) = Some y
                               /\ b_sync_id y = s) _ _)
    with (w := w) (r := res) (w' := w') in Hr.
  - exact Hr.
  - intros b0 Hb0 v r v1 Hv Hstep. apply filter_In in Hb0.
    destruct Hb0 as [Hb0 _].
    exact (push_book_keeps_sync i s _ _ b0 v r v1 (Hsame b0 Hb0) Hv Hstep).
  - exact Hy.
Qed.

(** The push of one transaction whose book has a remote identifier: a
    write request built from the row is sent, whatever comes of it. *)
Lemma push_transaction_sends userId supabase (tx : TxRow)
  (bs : option string) (w : World G) res w' :
  Js.truthy bs = true ->
  push_transaction userId supabase (tx, bs) w = (res, w') ->
  exists p,
    tx_request (t_id tx) p (log w')
    /\ tp_book_id p = sync_str bs
    /\ tp_deleted p = Some (is_deleted (t_deleted tx)).
Proof.
  intros Ht. unfold push_transaction, generateSyncId, tx_request. stmts.
  rewrite Ht. cbn [negb].
  repeat break_match; intros Hr; inv Hr;
    (eexists; split;
     [ cbn [log set_db set_remote record set_ticks set_draws];
       rewrite ?in_app_iff; cbn [In]; tauto
     | split; reflexivity ]).
Qed.

Lemma push_transactions_send userId supabase (x : TxRow) (w w' : World G) :
  In x (rows (transactions (db w))) -> tx_unsynced x = true ->
  Js.truthy (book_sync_id_of (db w) x) = true ->
  push_transactions userId supabase w = (inl tt, w') ->
  exists p,
    tx_request (t_id x) p (log w')
    /\ tp_book_id p = sync_str (book_sync_id_of (db w) x)
    /\ tp_deleted p = Some (is_deleted (t_deleted x)).
Proof.
  intros Hin Hd Ht. unfold push_transactions. run. intros Hr.
  assert (In (x, book_sync_id_of (db w) x)
            (joined_transactions tx_unsynced (db w))) as Hl.
  { unfold joined_transactions. apply in_map_iff. exists x.
    split; [reflexivity |]. apply filter_In. now split. }
  destruct (in_split _ _ Hl) as (l1 & l2 & Hsplit).
  rewrite Hsplit in Hr. rewrite forM_app in Hr.
  apply bind_ok_inv in Hr. destruct Hr as ([] & w1 & H1 & Hr).
  cbn [forM_] in Hr. apply bind_ok_inv in Hr.
  destruct Hr as ([] & w2 & H2 & Hr).
  destruct (push_transaction_sends _ _ _ _ _ _ _ Ht H2)
    as (p & Hp & Hfacts).
  exists p. split; [| exact Hfacts].
  assert (grows w2 w') as Hg.
  { apply (forM_inv (fun v => grows w2 v) _ _) with (w := w2)
      (r := inl tt) (w' := w') in Hr.
    - exact Hr.
    - intros row _ v r v1 Hv Hstep. apply (grows_trans _ _ _ Hv).
      destruct row as [tx bs].
      unfold push_transaction, generateSyncId in Hstep. revert Hstep. stmts.
      repeat break_match; intros Hstep; inv Hstep;
        first
          [ apply grows_refl
          | eexists; cbn [log set_db set_remote record set_ticks set_draws];
            rewrite <- ?app_assoc; reflexivity ].
    - apply grows_refl. }
  destruct Hp as [Hp | Hp]; [left | right]; exact (grows_in _ _ _ Hg Hp).
Qed.

(** X30.  A book that has been pushed before and is then soft-deleted goes
    out as a tombstone: the push that follows sends an upsert for its remote
    identifier with [deleted] true.  When that push returns, it has also
    sent every transaction of the book with [deleted] true, filed under the
    book's remote identifier. *)
Theorem soft_deleted_book_is_pushed_as_tombstone :
  forall (userId : string) (bookId : Z) (supabase : Gateway G)
         (w w1 w2 : World G) (res : unit + Exn) (b : BookRow),
    In b (rows (books (db w))) -> b_id b = bookId ->
    Js.truthy (b_sync_id b) = true ->
    DatabaseService.deleteBook userId bookId w = (inl tt, w1) ->
    pushToServer userId supabase w1 = (res, w2) ->
    (exists p,
       In (ReqUpsertBook bookId p) (log w2)
       /\ bp_id p = sync_str (b_sync_id b)
       /\ bp_user_id p = userId
       /\ bp_name p = b_name b
       /\ bp_deleted p = Some true)
    /\ (res = inl tt ->
        NoDup (map b_id (rows (books (db w)))) ->
        forall x, In x (rows (transactions (db w))) ->
                  t_book_id x = LocalRef bookId ->
          exists p,
            tx_request (t_id x) p (log w2)
            /\ tp_book_id p = sync_str (b_sync_id b)
            /\ tp_deleted p = Some true).
Proof.
  intros userId bookId supabase w w1 w2 res b Hin Hid Ht Hdel Hrun.
  set (b' := set_b_updated_at (Some (clock w (ticks w)))
               (set_b_synced 0 (set_b_deleted 1 b))).
  unfold DatabaseService.deleteBook, DatabaseService.retry_twice in Hdel.
  run. injection Hdel as <-.
  set (w1 := set_db _ _) in *.
  assert (rows (books (db w1))
          = map (fun r => if has_id bookId r
                          then set_b_updated_at (Some (clock w (ticks w)))
                                 (set_b_synced 0 (set_b_deleted 1 r))
                          else r) (rows (books (db w)))) as Hrows
    by reflexivity.
  assert (In b' (rows (books (db w1)))) as Hin'.
  { rewrite Hrows. apply in_map_iff. exists b. split; [| exact Hin].
    unfold has_id. change (row_id b) with (b_id b).
    rewrite Hid, Z.eqb_refl. reflexivity. }
  split.
  - destruct (pushToServer_sends_pushed_book _ _ b' _ _ _ Hrun Hin' eq_refl
                Ht) as (p & Hp & H1 & H2 & H3 & _ & H5).
    exists p. change (b_id b') with (b_id b) in Hp. rewrite Hid in Hp.
    split; [exact Hp |]. split; [exact H1 |]. split; [exact H2 |].
    split; [exact H3 | exact H5].
  - intros -> Hnd x Hx Href.
    set (x' := set_t_updated_at (Some (clock w (ticks w)))
                 (set_t_synced 0 (set_t_deleted 1 x))).
    assert (In x' (rows (transactions (db w1)))) as Hx'.
    { cbn [w1 db set_db record set_ticks transactions set_transactions].
      apply in_update_where. exists x. split; [exact Hx |].
      apply of_book_local in Href. now rewrite Href. }
    assert (NoDup (map b_id (rows (books (db w1))))) as Hnd1.
    { rewrite Hrows, map_map.
      rewrite (map_ext _ b_id); [exact Hnd |].
      intros y. destruct (has_id bookId y); reflexivity. }
    assert (first_by_id bookId (books (db w1)) = Some b') as Hfind.
    { apply find_unique.
      - exact Hin'.
      - unfold has_id. change (row_id b') with (b_id b).
        rewrite Hid. apply Z.eqb_refl.
      - intros y Hy Hyid. apply has_id_true in Hyid.
        apply (NoDup_map_inj b_id (rows (books (db w1)))); try assumption.
        change (b_id b') with (b_id b). rewrite Hid. exact Hyid. }
    unfold pushToServer in Hrun. unfold openUserDB at 1 in Hrun.
    unfold DatabaseService.openUserDB in Hrun. unfold bind at 1 in Hrun.
    unfold ret at 1 in Hrun.
    apply bind_ok_inv in Hrun. destruct Hrun as ([] & v1 & H1 & Hrun).
    apply bind_ok_inv in Hrun. destruct Hrun as ([] & v2 & H2 & Hrun).
    assert (forall b0, In b0 (rows (books (db w1))) -> b_id b0 = bookId ->
              Js.truthy (b_sync_id b0) = true) as Hsame.
    { intros b0 Hb0 Hb0id. assert (b0 = b') as ->; [| exact Ht].
      apply (NoDup_map_inj b_id (rows (books (db w1)))); try assumption.
      change (b_id b') with (b_id b). congruence. }
    destruct (push_books_keep_sync bookId (b_sync_id b) userId supabase w1
                (inl tt) v1 Hsame (ex_intro _ b' (conj Hfind eq_refl)) H1)
      as (y & Hy & Hys).
    destruct (push_books_frame _ _ _ _ _ H1) as (F1 & _).
    unfold same_transactions in F1.
    assert (book_sync_id_of (db v1) x' = b_sync_id b) as Hbs.
    { unfold book_sync_id_of. change (t_book_id x') with (t_book_id x).
      rewrite Href, Hy. exact Hys. }
    destruct (push_transactions_send userId supabase x' v1 v2) as
      (p & Hp & Hpb & Hpd).
    + now rewrite F1.
    + reflexivity.
    + now rewrite Hbs.
    + exact H2.
    + exists p. rewrite Hbs in Hpb. split; [| split; [exact Hpb | exact Hpd]].
      pose proof (logext_grows _ _ _
                    (push_cursors_scope (db v1) _ _ _ _ Hrun)) as G3.
      destruct Hp as [Hp | Hp]; [left | right];
        exact (grows_in _ _ _ G3 Hp).
Qed.

End TombstoneFacts.

Section TombstoneExamples.

Import LocalStore Remote Eff Obs Sql Traffic SyncService Examples Samples.

(** The sample book, pushed before under "r1", is soft-deleted and a push
    follows: the book and its transaction go out as tombstones. *)
Lemma soft_deleted_book_tombstone_witness :
  (exists p,
     In (ReqUpsertBook 1 p)
       (log (snd (pushToServer user pg
                    (snd (DatabaseService.deleteBook user 1
                            (synced_world true 50 80 false []))))))
     /\ bp_id p = sync_str (b_sync_id (local_book 50))
     /\ bp_user_id p = user
     /\ bp_name p = b_name (local_book 50)
     /\ bp_deleted p = Some true)
  /\ (exists p,
        tx_request 1 p
          (log (snd (pushToServer user pg
                       (snd (DatabaseService.deleteBook user 1
                               (synced_world true 50 80 false []))))))
        /\ tp_book_id p = sync_str (b_sync_id (local_book 50))
        /\ tp_deleted p = Some true).
Proof.
  assert (fst (pushToServer user pg
                 (snd (DatabaseService.deleteBook user 1
                         (synced_world true 50 80 false []))))
          = inl tt) as Hfst by (vm_compute; reflexivity).
  assert (fst (DatabaseService.deleteBook user 1
                 (synced_world true 50 80 false [])) = inl tt) as Hdel
    by (vm_compute; reflexivity).
  destruct (soft_deleted_book_is_pushed_as_tombstone user 1 pg
              (synced_world true 50 80 false [])
              (snd (DatabaseService.deleteBook user 1
                      (synced_world true 50 80 false [])))
              (snd (pushToServer user pg
                      (snd (DatabaseService.deleteBook user 1
                              (synced_world true 50 80 false [])))))
              (inl tt) (local_book 50) (or_introl eq_refl) eq_refl eq_refl
              (run_eq _ _ Hdel) (run_eq _ _ Hfst)) as [H1 H2].
  split; [exact H1 |].
  apply (H2 eq_refl) with (x := local_tx 50).
  - constructor; [intros [] | constructor].
  - left. reflexivity.
  - reflexivity.
Defined.

End TombstoneExamples.

(* ================================================================== *)
(** ** The cursors and what was pulled before they move *)
(* ================================================================== *)

Section WhatThePullApplied.

Import LocalStore Remote Eff Obs Sql Traffic SyncService Lookup.

Context {G : Type}.

(** A pull that returns has applied every fetched book. *)
Lemma pull_applies_books userId supabase (w w' : World G) pr (r : RBook) :
  pullFromServer userId supabase w = (inl pr, w') ->
  WfTable (books (db w)) ->
  NoDup (map rb_id (fetched_books supabase userId w)) ->
  In r (fetched_books supabase userId w) ->
  book_applied r pr (db w').
Proof.
  intros Hrun Hwf Hnd Hin.
  destruct (first_by_sync (rb_id r) (books (db w))) as [x |] eqn:Hx.
  - apply first_by_sync_some in Hx. destruct Hx as [Hx Hxs].
    pose proof (wf_pinned _ x (rb_id r) Hwf Hx Hxs) as HP.
    destruct (pull_spec_book _ _ _ _ _ _ x r Hrun HP Hnd Hin eq_refl)
      as [_ Hcase].
    destruct (rb_updated_at r <? book_updated x) eqn:Hlt.
    + destruct Hcase as [HP' Hc]. exists x. split; [exact HP' |].
      right. split; [now apply Z.ltb_lt | exact Hc].
    + exists (overwrite_book r x). split; [exact Hcase |].
      left. repeat split.
  - apply absent_iff in Hx.
    rewrite pullFromServer_run in Hrun. cbv zeta in Hrun.
    destruct (error (fst (books_answer supabase userId w)));
      [discriminate |].
    set (w0 := set_remote _ _) in Hrun.
    assert (Absent (rb_id r) (books (db w0))) as Ha0 by exact Hx.
    destruct (foldM pull_book _ _ _) as [[acc1 | e] w1] eqn:Hl1;
      [| discriminate].
    destruct (pull_books_store_new _ r w0 _ _ Hnd Hin Ha0 Hl1) as (i & HP1).
    destruct (error _); [discriminate |].
    destruct (foldM pull_transaction _ _ _) as [[acc2 | e] w3] eqn:Hl2;
      [| discriminate].
    destruct (pull_transactions_frame _ _ _ _ _ Hl2) as (Fb & _).
    unfold same_books in Fb. cbn [db set_remote record] in Fb.
    injection Hrun as _ <-.
    exists (pulled_book r i). split; [| left; repeat split].
    destruct (_ || _); cbn [db record]; now rewrite Fb.
Qed.

(** A pull that returns has applied every fetched transaction, or skipped
    it: a transaction new to the store whose book is not in the store is
    passed over. *)
Lemma pull_applies_transactions userId supabase (w w' : World G) pr
  (r : RTx) :
  pullFromServer userId supabase w = (inl pr, w') ->
  WfTable (transactions (db w)) ->
  NoDup (map rt_id (fetched_transactions supabase userId w)) ->
  In r (fetched_transactions supabase userId w) ->
  tx_applied r pr (db w') \/ tx_skipped r (db w').
Proof.
  intros Hrun Hwf Hnd Hin.
  destruct (first_by_sync (rt_id r) (transactions (db w))) as [x |] eqn:Hx.
  - left. apply first_by_sync_some in Hx. destruct Hx as [Hx Hxs].
    pose proof (wf_pinned _ x (rt_id r) Hwf Hx Hxs) as HP.
    destruct (pull_spec_transaction _ _ _ _ _ _ x r Hrun HP Hnd Hin eq_refl)
      as [_ Hcase].
    destruct (rt_updated_at r <? tx_updated x) eqn:Hlt.
    + destruct Hcase as [HP' Hc]. exists x. split; [exact HP' |].
      right. split; [now apply Z.ltb_lt | exact Hc].
    + exists (overwrite_tx r x). split; [exact Hcase |].
      left. repeat split.
  - apply absent_iff in Hx.
    rewrite pullFromServer_run in Hrun. cbv zeta in Hrun.
    unfold fetched_transactions, transactions_answer in Hnd, Hin.
    destruct (error (fst (books_answer supabase userId w)));
      [discriminate |].
    destruct (foldM pull_book _ _ _) as [[acc1 | e] w1] eqn:Hl1;
      [| discriminate].
    destruct (pull_books_frame _ _ _ _ _ Hl1)
      as (a & Ha & _ & _ & Ft & _ & Frem).
    injection Ha as <-. cbn [remote set_remote] in Frem.
    rewrite Frem in Hrun.
    destruct (error _); [discriminate |].
    set (w2 := set_remote _ _) in Hrun.
    assert (Absent (rt_id r) (transactions (db w2))) as Ha2.
    { unfold same_transactions in Ft. cbn in Ft. cbn. now rewrite Ft. }
    destruct (foldM pull_transaction _ _ _) as [[acc2 | e] w3] eqn:Hl2;
      [| discriminate].
    pose proof (pull_transactions_store_new _ r _ w2 _ _ Hnd Hin Ha2 Hl2)
      as Hnew.
    destruct (pull_transactions_frame _ _ _ _ _ Hl2) as (Fb & _).
    unfold same_books in Fb. rewrite <- Fb in Hnew.
    injection Hrun as _ <-.
    assert (forall b : bool,
              db (if b
                  then record (Emit "transactionsUpdated")
                         (record (Emit "booksUpdated") w3)
                  else w3) = db w3) as Hdb
      by (intros []; reflexivity).
    unfold tx_applied, tx_skipped. rewrite Hdb.
    destruct (first_by_sync (rt_book_id r) (books (db w3))) as [b |].
    + left. destruct Hnew as (i & HP). exists (pulled_tx r (b_id b) i).
      split; [exact HP | left; repeat split].
    + right. split; [reflexivity | now apply absent_iff].
Qed.

End WhatThePullApplied.

Section CursorsOfACompletedPush.

Import LocalStore Remote Eff Obs SyncService Lookup.

Context {G : Type}.

(** A push that returns has run its two loops to their ends and read the
    clock for the cursors after that. *)
Lemma pushToServer_completed userId supabase (w w' : World G) :
  pushToServer userId supabase w = (inl tt, w') ->
  exists v1 v,
    push_books userId supabase w = (inl tt, v1)
    /\ push_transactions userId supabase v1 = (inl tt, v)
    /\ later w v /\ same_prefs w v
    /\ pref_get "last_sync_books" (user_preferences (db w'))
       = Some (clock w (ticks v))
    /\ pref_get "last_sync_transactions" (user_preferences (db w'))
       = Some (clock w (S (S (ticks v)))).
Proof.
  unfold pushToServer. unfold openUserDB at 1.
  unfold DatabaseService.openUserDB. intros Hr. unfold bind at 1 in Hr.
  unfold ret at 1 in Hr.
  apply bind_ok_inv in Hr. destruct Hr as ([] & v1 & H1 & Hr).
  apply bind_ok_inv in Hr. destruct Hr as ([] & v & H2 & Hr).
  destruct (push_books_frame _ _ _ _ _ H1) as (_ & F1).
  destruct (push_transactions_frame _ _ _ _ _ H2) as (_ & F2).
  pose proof (kc_push_books _ _ _ _ _ H1) as L1.
  pose proof (kc_push_transactions _ _ _ _ _ H2) as L2.
  pose proof (later_trans _ _ _ L1 L2) as L.
  destruct (push_cursors_run _ _ _ _ Hr) as (_ & Hp).
  exists v1, v. split; [exact H1 |]. split; [exact H2 |].
  split; [exact L |]. split; [unfold same_prefs in *; congruence |].
  destruct L as [Hc _]. rewrite Hp, Hc. split.
  - rewrite pref_get_set_other by discriminate. apply pref_get_set_same.
  - apply pref_get_set_same.
Qed.

End CursorsOfACompletedPush.

Section CursorClaim.

Import LocalStore Remote Eff Obs SyncService Lookup Examples Samples.

(** C6, as the code has it.  For each collection and every cycle of the
    provider ([SyncProvider.syncAll]: pull, resolve, push) that starts:
    [pullFromServer] never writes the cursor, whatever it fetched; a cycle
    that fails leaves both cursors as they were; a cycle that completes
    leaves in the books cursor the reading of the clock taken when the two
    loops of [pushToServer] had returned, that is after the push handled
    its last dirty record, and in the transactions cursor the second
    reading after that one, whether or not the pull fetched anything.  By
    then [pullFromServer] has returned and has applied every fetched
    book, and every fetched transaction unless neither the transaction nor
    its book is in the local store after the pull.  Applied means that one
    local row carries the remote identifier, and it holds the remote fields
    and [updated_at] with [synced = 1], or it is strictly newer locally and
    the pair is reported as a conflict, which is resolved next.  The cursor
    does not decrease as long as the clock is not read behind the stored
    cursor. *)
Theorem C6_cursors_set_by_completed_push :
  forall (G : Type) (p : SyncProvider.Provider G) (client : Gateway G)
         (userId : string) (w w' : World G) (res : unit + Exn),
    SyncProvider.isSyncing p = false ->
    SyncProvider.supabase p = Some client ->
    SyncProvider.user_id p = Some userId ->
    SyncProvider.syncAll p w = (res, w') ->
    (forall r1 w1, pullFromServer userId client w = (r1, w1) ->
       same_prefs w w1)
    /\ (forall e, res = inr e -> same_prefs w w')
    /\ (res = inl tt ->
        exists (pr : PullResult) (w1 w2 v1 v : World G),
          pullFromServer userId client w = (inl pr, w1)
          /\ (WfTable (books (db w)) ->
              NoDup (map rb_id (fetched_books client userId w)) ->
              forall r, In r (fetched_books client userId w) ->
                book_applied r pr (db w1))
          /\ (WfTable (transactions (db w)) ->
              NoDup (map rt_id (fetched_transactions client userId w)) ->
              forall r, In r (fetched_transactions client userId w) ->
                tx_applied r pr (db w1) \/ tx_skipped r (db w1))
          /\ (if 0 <? Z.of_nat (List.length (conflicts pr))
              then resolveConflicts userId (conflicts pr) w1 = (inl tt, w2)
              else w2 = w1)
          /\ push_books userId client w2 = (inl tt, v1)
          /\ push_transactions userId client v1 = (inl tt, v)
          /\ later w v
          /\ pref_get "last_sync_books" (user_preferences (db w'))
             = Some (clock w (ticks v))
          /\ pref_get "last_sync_transactions" (user_preferences (db w'))
             = Some (clock w (S (S (ticks v)))))
    /\ ((forall k, (ticks w <= k)%nat -> books_cursor (db w) <= clock w k) ->
        books_cursor (db w) <= books_cursor (db w'))
    /\ ((forall k, (ticks w <= k)%nat ->
           transactions_cursor (db w) <= clock w k) ->
        transactions_cursor (db w) <= transactions_cursor (db w')).
Proof.
  intros G p client userId w w' res Hs Hc Hu Hrun.
  pose proof (provider_cycle_cursors p client userId w w' res Hs Hc Hu Hrun)
    as Hcur.
  split; [| split; [| split; [| split]]].
  - intros r1 w1 Hpull. exact (pull_keeps_prefs _ _ _ _ _ Hpull).
  - intros e ->. exact Hcur.
  - intros ->.
    destruct (syncAll_completed p client userId w w' Hs Hc Hu Hrun)
      as (pr & w1 & w2 & w3 & Hpull & Hres & Hpush & Hdb).
    destruct (pushToServer_completed _ _ _ _ Hpush)
      as (v1 & v & Hb & Ht & L3 & _ & Cb & Ct).
    pose proof (kc_pullFromServer _ _ _ _ _ Hpull) as L1.
    assert (later w1 w2) as L2.
    { destruct (0 <? _).
      - exact (kc_resolveConflicts _ _ _ _ _ Hres).
      - subst w2. apply later_refl. }
    pose proof (later_trans _ _ _ L1 L2) as L12.
    exists pr, w1, w2, v1, v.
    split; [exact Hpull |].
    split; [intros Hwf Hnd r Hr;
            exact (pull_applies_books _ _ _ _ _ r Hpull Hwf Hnd Hr) |].
    split; [intros Hwf Hnd r Hr;
            exact (pull_applies_transactions _ _ _ _ _ r Hpull Hwf Hnd Hr) |].
    split; [exact Hres |]. split; [exact Hb |]. split; [exact Ht |].
    split; [exact (later_trans _ _ _ L12 L3) |].
    destruct L12 as [Hclock _]. rewrite Hdb, Cb, Ct, Hclock.
    split; reflexivity.
  - intros Hclock. unfold books_cursor. destruct res as [u | e].
    + destruct Hcur as (k & Hk & Hb & _). rewrite Hb. exact (Hclock k Hk).
    + unfold cursors_after, same_prefs in Hcur. rewrite Hcur.
      apply Z.le_refl.
  - intros Hclock. unfold transactions_cursor. destruct res as [u | e].
    + destruct Hcur as (k & Hk & _ & Ht). rewrite Ht.
      apply Hclock. apply Nat.le_le_succ_r, Nat.le_le_succ_r, Hk.
    + unfold cursors_after, same_prefs in Hcur. rewrite Hcur.
      apply Z.le_refl.
Qed.


(** C6 on the sample store, foreign keys enforced, the clock past 1000: the
    remote book (stamped 80) is fetched and overwrites the local one, the
    push sends the dirty transaction, stamping it with the reading 1000,
    and the cycle leaves the next reading, 1001, in the books cursor and
    1003 in the transactions cursor. *)
Lemma C6_cursors_witness :
  (exists (pr : PullResult) (w1 w2 v1 v : World PgState),
      pullFromServer user pg
        (synced_world true 50 80 false [("last_sync_transactions", 100)])
      = (inl pr, w1)
      /\ (forall r,
            In r (fetched_books pg user
                    (synced_world true 50 80 false
                       [("last_sync_transactions", 100)])) ->
            book_applied r pr (db w1))
      /\ (forall r,
            In r (fetched_transactions pg user
                    (synced_world true 50 80 false
                       [("last_sync_transactions", 100)])) ->
            tx_applied r pr (db w1) \/ tx_skipped r (db w1))
      /\ (if 0 <? Z.of_nat (List.length (conflicts pr))
          then resolveConflicts user (conflicts pr) w1 = (inl tt, w2)
          else w2 = w1)
      /\ push_books user pg w2 = (inl tt, v1)
      /\ push_transactions user pg v1 = (inl tt, v)
      /\ later
           (synced_world true 50 80 false [("last_sync_transactions", 100)])
           v
      /\ pref_get "last_sync_books"
           (user_preferences
              (db (snd (SyncProvider.syncAll provider
                          (synced_world true 50 80 false
                             [("last_sync_transactions", 100)])))))
         = Some (sample_clock (ticks v))
      /\ pref_get "last_sync_transactions"
           (user_preferences
              (db (snd (SyncProvider.syncAll provider
                          (synced_world true 50 80 false
                             [("last_sync_transactions", 100)])))))
         = Some (sample_clock (S (S (ticks v)))))
  /\ first_by_id 1
       (transactions
          (db (snd (SyncProvider.syncAll provider
                      (synced_world true 50 80 false
                         [("last_sync_transactions", 100)])))))
     = Some (set_t_synced 1 (set_t_updated_at (Some 1000) (local_tx 50)))
  /\ books_cursor
       (db (snd (SyncProvider.syncAll provider
                   (synced_world true 50 80 false
                      [("last_sync_transactions", 100)])))) = 1001
  /\ transactions_cursor
       (db (snd (SyncProvider.syncAll provider
                   (synced_world true 50 80 false
                      [("last_sync_transactions", 100)])))) = 1003
  /\ books_cursor
       (db (synced_world true 50 80 false [("last_sync_transactions", 100)]))
     <= books_cursor
          (db (snd (SyncProvider.syncAll provider
                      (synced_world true 50 80 false
                         [("last_sync_transactions", 100)])))).
Proof.
  destruct (C6_cursors_set_by_completed_push PgState provider pg user
              (synced_world true 50 80 false
                 [("last_sync_transactions", 100)])
              _ _ eq_refl eq_refl eq_refl (run_eq_any _))
    as (_ & _ & H3 & H4 & _).
  split; [| split; [| split; [| split]]].
  - destruct H3 as (pr & w1 & w2 & v1 & v & Hp & Hb & Ht & Hrest);
      [vm_compute; exact eq_refl |].
    exists pr, w1, w2, v1, v. split; [exact Hp |].
    split; [| split; [| exact Hrest]].
    + apply Hb; [apply sample_books_wf |].
      vm_compute. constructor; [intros [] | constructor].
    + apply Ht; [apply sample_transactions_wf |].
      vm_compute. constructor.
  - vm_compute. exact eq_refl.
  - vm_compute. exact eq_refl.
  - vm_compute. exact eq_refl.
  - apply H4. intros k _.
    change (SyncService.epoch <= 1000 + Z.of_nat k).
    unfold SyncService.epoch. lia.
Defined.

(** C6 as stated fails, in each of its three parts.  Nothing fetched: the
    pull of the cycle on the idle store fetches nothing, yet the cycle
    moves both cursors, from 100 to the time of the push.  Never
    decreasing: with a cursor of 5000, ahead of the clock, the cycle moves
    it back.  Only after the batch was applied: on the store that lacks the
    book of the fetched transaction "t1" (stamped 120) the cycle returns
    normally, the transaction is not stored, the transactions cursor moves
    to 1002, and the next read no longer returns the transaction. *)
Lemma C6_counterexample :
  fetched_books pg user (idle_world 100) = []
  /\ fetched_transactions pg user (idle_world 100) = []
  /\ fst (pullFromServer user pg (idle_world 100))
     = inl (mkPullResult false 0 0 [])
  /\ fst (SyncProvider.syncAll provider (idle_world 100)) = inl tt
  /\ books_cursor (db (idle_world 100)) = 100
  /\ books_cursor (db (snd (SyncProvider.syncAll provider (idle_world 100))))
     <> books_cursor (db (idle_world 100))
  /\ transactions_cursor
       (db (snd (SyncProvider.syncAll provider (idle_world 100))))
     <> transactions_cursor (db (idle_world 100))
  /\ books_cursor (db (snd (SyncProvider.syncAll provider (idle_world 5000))))
     < books_cursor (db (idle_world 5000))
  /\ fetched_transactions pg user late_book_world
     = [mkRTx "t1" user "r1" "income" 7 None (Some "salary") 110 120 false]
  /\ fst (SyncProvider.syncAll provider late_book_world) = inl tt
  /\ first_by_sync "t1"
       (transactions (db (snd (SyncProvider.syncAll provider late_book_world))))
     = None
  /\ transactions_cursor (db late_book_world) = 100
  /\ transactions_cursor
       (db (snd (SyncProvider.syncAll provider late_book_world))) = 1002
  /\ fetched_transactions pg user
       (snd (SyncProvider.syncAll provider late_book_world)) = [].
Proof.
  split; [vm_compute; exact eq_refl |].
  split; [vm_compute; exact eq_refl |].
  split; [vm_compute; exact eq_refl |].
  split; [vm_compute; exact eq_refl |].
  split; [vm_compute; exact eq_refl |].
  split; [vm_compute; discriminate |].
  split; [vm_compute; discriminate |].
  split; [vm_compute; exact eq_refl |].
  split; [vm_compute; exact eq_refl |].
  split; [vm_compute; exact eq_refl |].
  split; [vm_compute; exact eq_refl |].
  split; [vm_compute; exact eq_refl |].
  split; [vm_compute; exact eq_refl |].
  vm_compute. exact eq_refl.
Qed.

End CursorClaim.
